(* ===== verification/_CoqProject ===== *)
-Q . S2P
Prelude.v
WrappingIntegers.v
ByteStream.v
StdMap.v
StreamReassembler.v
Buffers.v
Parser.v
Checksum.v
TCPSegment.v
IPv4.v
TCPReceiver.v
TCPSender.v
EndToEnd.v
Transfer.v
TCPState.v
TCPConnection.v
Duplex.v
Benchmark.v
Flow.v
Exchange.v
Completion.v
Text.v
Address.v
FileDescriptor.v
EventLoop.v
Sockets.v
StreamCopy.v
Webget.v
Ethernet.v
Summaries.v
NetworkInterface.v
Router.v
NetworkSimulator.v
Adapters.v
SpongeSocket.v
Bouncer.v
Lab7.v
Options.v
Programs.v
Lifetime.v
TcpDump.v
