(* ===== verification/Prelude.v ===== *)
(** * Verification of the sponge user-space TCP/IP stack

    The program under [src/libsponge] is a TCP implementation that runs in user
    space.  From the bottom up its parts are: byte buffers and a parser for
    network byte order; the wire formats (TCP, IPv4, Ethernet, ARP) with the
    Internet checksum; a bounded byte stream; the reassembler, which turns
    indexed substrings into a byte stream; 32-bit wrapping sequence numbers; the
    TCP receiver and the TCP sender; the connection, which joins one of each;
    the network interface, which resolves next hops with ARP; the router, which
    forwards datagrams between interfaces; file descriptors over the system
    calls of the kernel; adapters, which carry segments in datagrams of UDP, IP
    or Ethernet; an event loop around [poll]; and the socket
    [TCPSpongeSocket], whose thread runs a connection between an adapter and the
    bytes of its owner.  [src/apps] has the programs built from these parts.
    The code translates into pure functions on records: a method that changes
    its object returns the new object.

    ** Conventions

    An unsigned integer of the source is a [Z] and every expression that
    computes at a width is wrapped in [u8], [u16], [u32] or [u64]; the [int]
    variables of [byte_stream.cc] go through [s32].  Bytes are [Byte.byte] and
    strings lists of them; [zlen] is the length as a [Z].  [std::map] is the
    key-sorted list of its entries (StdMap).  A call that can fail returns
    [res]: [Ok], [Throw] with the exception's kind, or [Undefined] where the
    C++ standard leaves the behaviour undefined; the [runtime_error]s of a write
    that took nothing, of a descriptor in error and of a busy wait have kinds of
    their own.  [wp E m Q] says that [m] returns a result in [Q] or fails in a way
    [E] allows: [system_fails] for a system call, [loop_fails] for a system call or
    an error that [poll] reports, [sock_fails], [thread_fails], [bounce_fails] for
    what the programs add to them.  [returned] is what the manual says of the
    result of every system call.  What is not in the repository
    is a type class: the system calls ([Kernel], [SocketKernel], [TunKernel]),
    [poll] ([Poller]), the clock ([Clock]), name resolution ([Resolver],
    [NameInfo], [InetNtop]), the capture library ([Pcap]), the random generator
    ([Generator]), the conversions of command-line arguments ([CommandLine]); a
    class with the suffix [Spec], [Bounded], [Closed], [Environment] or [Feeds]
    holds what is documented of them.  A second thread is modelled by what the world may do
    during [poll].  [sponge] is the rewrite and hint database of the
    development, [word_lia] linear arithmetic modulo the word sizes.

    ** Files

    - Prelude: machine integers, outcomes, shared lemmas and automation.
    - WrappingIntegers ([wrapping_integers.hh], [.cc]): [wrap], [unwrap].
    - ByteStream ([byte_stream.hh], [.cc]): the stream, with the abstract
      specification "all bytes accepted, number of them consumed".
    - StdMap: the lemmas of the ordered map.
    - StreamReassembler ([stream_reassembler.hh], [.cc]): [push_substring] as
      its phases [preprocess], [store_loop], [assemble_loop].
    - Buffers ([util/buffer.hh], [.cc]), Parser ([util/parser.hh], [.cc]),
      Checksum (class [InternetChecksum] of [util/util.hh], [.cc]).
    - TCPSegment ([tcp_helpers/tcp_header.*], [tcp_segment.*]), IPv4
      ([ipv4_header.*], [ipv4_datagram.*]), Ethernet ([ethernet_header.*],
      [ethernet_frame.*], [arp_message.*]): records of the headers, [parse] in
      the parser's monad and [serialize].
    - TCPReceiver ([tcp_receiver.hh], [.cc]), TCPSender ([tcp_sender.hh], [.cc]
      and the constants of [tcp_config.hh]), TCPState ([tcp_state.hh], [.cc]).
    - EndToEnd: one sender and one receiver over a network that loses,
      duplicates and reorders.  Transfer: the same two over a network that loses
      nothing, with an application that writes and reads, as a function.
    - TCPConnection ([tcp_connection.hh], [.cc]): the handlers, each as the
      composition of the phases of the source.  Duplex: two connections over
      such a network.  Benchmark ([apps/tcp_benchmark.cc]): two connections
      joined by the benchmark's loop, as a run of Duplex.  Flow: one direction of
      two connections joined in order; Exchange: both directions, handler by
      handler; Completion: the turns of the benchmark's loops, to their end.
    - Text ([hexdump] of [util/util.cc] and what the sources use of
      [std::ostream]): text as a function of the items written, the layout of a
      dump, and when text can be read back.
    - Address ([util/address.hh], [.cc]): the numeric conversions.
    - FileDescriptor ([util/file_descriptor.*], [socket.*], [SystemCall] of
      [util/util.cc]): reading, writing, closing, shutting down, datagrams.
    - EventLoop ([util/eventloop.hh], [.cc]): the rules and the two loops around
      [poll], generic in the world the callbacks change.
    - Sockets ([util/socket.*], [file_descriptor.cc], [tun.*]): constructors,
      naming, connecting and configuring sockets, and opening devices.
    - StreamCopy ([apps/bidirectional_stream_copy.cc]), Webget
      ([apps/webget.cc]).
    - Summaries ([to_string] and [summary] of the headers, of addresses and of
      frames; [apps/tun.cc]): what the programs print.
    - NetworkInterface ([network_interface.hh], [.cc]), Router ([router.hh],
      [.cc]), NetworkSimulator ([apps/network_simulator.cc]).
    - Adapters ([tcp_helpers/fd_adapter.*], [tcp_over_ip.*],
      [tuntap_adapter.*], [lossy_fd_adapter.hh]): instances of one class
      [AdaptT], with the class [AdapterSpec] of what they promise.
    - SpongeSocket ([tcp_helpers/tcp_sponge_socket.hh], [.cc]): the four rules,
      the loop, the thread and the owner's calls, for any [AdaptT].
    - Bouncer ([apps/bouncer.cc]): the sockets, the set-up and the callbacks.
    - Lab7 ([apps/lab7.cc]): a socket, a router and the thread between them.
    - Options ([apps/tcp_ipv4.cc], [tcp_udp.cc], [tcp_ip_ethernet.cc],
      [tcp_native.cc], [lab7.cc]): the command lines.  Programs: the [main]
      functions of these programs and of webget and the benchmark, with the constructors of [TCPSpongeSocket]
      and [timestamp_ms].  Lifetime: a socket from its constructor to the end of
      its thread.
    - TcpDump ([apps/udp_tcpdump.cc]): finding and printing the payload.

    ** What the theorems show

    - Delivery.  In every run of two connections, whatever the network does,
      what an application reads is a prefix of what the other one wrote
      ([duplex_safe]; for one direction and arbitrary acknowledgments,
      [end_to_end_safe]).  The reassembler delivers only bytes of the stream,
      makes the progress its input allows, and completes when everything arrived
      inside the window ([reassembly_safe], [reassembly_progress],
      [reassembly_complete]).  The receiver acknowledges exactly what was
      assembled ([receiver_ackno]).  Over a network that loses and reorders
      nothing every transfer completes: the reader gets the whole stream and its
      end, and the sender's FIN is acknowledged ([transfer_completes]); so does
      the benchmark with its two connections, which then shut down
      ([benchmark_completes]).
    - The sender.  [fill_window] terminates and sends all that the window
      allows ([fill_window_correct]); the segments in flight tile the sequence
      space between the oldest unacknowledged byte and the next one in every
      reachable state, forged acknowledgments included ([sender_invariant]); an
      acknowledgment removes exactly the segments it covers
      ([ack_received_exact]); timeouts double ([retransmission_backoff]).
    - The connection.  No handler reaches undefined behaviour
      ([connection_total]), every segment that occupies sequence numbers is
      answered ([segment_answered]), and the connection ends by the rules for
      resets, retries and lingering, cleanly exactly when everything written has
      been acknowledged and everything received assembled ([tick_shutdown],
      [rst_resets]).
    - The socket.  The event loop keeps what its rules keep, and fails only as they
      do, on an error that [poll] reports, or on a busy wait of one of them
      ([event_loop_safe]); by its lemmas, what
      the socket does, loop by loop and over its whole life, is a run of the
      connection on the owner's bytes ([socket_refines],
      [socket_lifetime_refines]) and delivers them in order ([socket_delivers]); a
      descriptor writes what it was given ([fd_write_correct]).
    - Programs.  The copy between the terminal and a socket is faithful
      ([copy_faithful]); the benchmark receives a prefix of what it sends
      ([benchmark_safe]); the thread of lab7 never reads an empty queue and is
      never found busy ([lab7_thread_safe]); the check of the network simulation is
      exact ([check_exact]), and with one generator it succeeds
      ([network_simulator_succeeds]); option parsing stays
      within the arguments ([command_lines_in_bounds]); the bouncer sends what
      the relay function gives for the datagrams that arrived
      ([bouncer_relays]); the packet dump finds the payload and reads past a
      packet exactly when it is cut off in certain ways ([tcpdump_payload],
      [tcpdump_bounds]); the monitor of tun.cc survives every packet
      ([monitor_safe]).
    - Text.  [hexdump] prints the reference layout ([hexdump_layout]); the text
      of a TCP or IPv4 header determines it ([header_text_determines]).
    - Data structures and formats.  The byte stream refines its specification
      ([exec_refines]); sequence numbers unwrap to the closest candidate
      ([unwrap_closest], [wrap_unwrap_roundtrip]); every format parses what it
      serialized ([segment_roundtrip], [datagram_roundtrip], [frame_roundtrip],
      [arp_roundtrip]) and a parsed segment is well typed
      ([parsed_segment_typed]); the checksum verifies and detects changes of one
      byte ([checksum_verifies], [checksum_detects]); segments survive the way
      through two adapters, and the filter lets only those of the peer pass
      ([tcp_over_ip_delivers], [ip_filter_sound]).
    - Network layer.  Longest-prefix match and the TTL ([forwarding]), the
      forwarding loop ([route_drains]), ARP resolution, its cache and its
      replies ([arp_resolution], [cache_expiry], [arp_request_answered]).
    - Limits of the code, each with a run that shows it: [eof_ignores_index],
      [overfull_stuck], [lost_segment_truncates], [reordering_truncates],
      [fin_before_syn_unacked],
      [zero_window_sticky], [datagram_parse_ignores_verdict],
      [bad_version_stops_router], [poll_failure_swallowed],
      [get_URL_always_warns].

    ** Bounds and fuel

    [fill_loop]: [fill_fuel] is the number of buffered bytes plus three, and
    [fill_window_correct] proves that it suffices, since a round takes a byte,
    sends the SYN or sends the FIN.  [write_rounds], the loop of
    [FileDescriptor::write], has a round for each byte and one more
    ([fd_write_correct]); [write_input] likewise, and [benchmark_safe] shows
    that it never runs out; [options_loop] has a round for each argument
    ([command_lines_in_bounds]), as has [parse_arguments] of the dump
    ([parse_arguments_ends]); [ipv6_loop] has a round for each byte of the
    packet ([ipv6_loop_cases]), and [bind_loop] of the bouncer one for each pair
    of ports and one more ([bouncer_relays]).  [transfer_completes] gives the
    number of rounds a transfer needs, [benchmark_completes] the numbers of turns of
    the benchmark's two loops: the length of the string and three more, and the
    lingering time in seconds and seven more.  The loops that run as long as the outside
    world lets them ([tcp_rounds], [copy_loop], [network_loop], [bench_while],
    [bounce_loop], [monitor], [dump_loop])
    take the number of rounds as an argument and the theorems hold for every
    number; [read_all] of [get_URL] returns [None] when the peer has not ended
    the stream by then, and [get_URL_always_warns] gives the number of reads that is
    enough.  The loop of the checksum that folds carries runs three
    times, which is enough for a 32-bit sum.  Streams are bounded by [2^31 - 4]
    bytes, within which [unwrap] finds the right sequence number; capacities
    are below [2^31] because [byte_stream.cc] computes with [int], and so is the
    length of what [hexdump] is given.

    ** Not modelled

    Usage texts, debug output and messages on standard error; the texts of
    exceptions ([tagged_error], [unix_error]); the creation and joining of threads,
    whose effects on each other are those of the kernel during [poll]; the resolver
    and the capture library; the seeding of the random generator, whose draws are
    arguments; the [main] functions of [bouncer.cc] and [network_simulator.cc],
    which only report the exceptions of what is modelled; move constructors and declarations without a body. *)

From Stdlib Require Export ZArith Lia Bool.
From Stdlib Require Export Strings.Byte.
From stdpp Require Export prelude.

#[export] Set Default Goal Selector "!".

Open Scope Z_scope.

(** * Notations and automation *)

Declare Scope sponge_scope.
Delimit Scope sponge_scope with sponge.
Open Scope sponge_scope.

(** ** Machine integers

    An unsigned integer of width w is a [Z] in [0, 2^w); every C++ expression
    that computes at that width is wrapped in the function of its type. *)

Definition u8 (x : Z) : Z := x mod 2 ^ 8.
Definition u16 (x : Z) : Z := x mod 2 ^ 16.
Definition u32 (x : Z) : Z := x mod 2 ^ 32.
Definition u64 (x : Z) : Z := x mod 2 ^ 64.

(** The conversion of an out-of-range value to [int] (two's complement). *)
Definition s32 (x : Z) : Z := (x + 2 ^ 31) mod 2 ^ 32 - 2 ^ 31.
Definition s64 (x : Z) : Z := (x + 2 ^ 63) mod 2 ^ 64 - 2 ^ 63.

Definition is_u8 (x : Z) : Prop := 0 <= x < 2 ^ 8.
Definition is_u16 (x : Z) : Prop := 0 <= x < 2 ^ 16.
Definition is_u32 (x : Z) : Prop := 0 <= x < 2 ^ 32.
Definition is_u64 (x : Z) : Prop := 0 <= x < 2 ^ 64.

(** Linear arithmetic with the width functions unfolded and [mod] replaced by
    its defining equations. *)
Ltac word_unfold :=
  unfold is_u8, is_u16, is_u32, is_u64, u8, u16, u32, u64, s32, s64 in *;
  change (2 ^ 8) with 256 in *;
  change (2 ^ 16) with 65536 in *;
  change (2 ^ 31) with 2147483648 in *;
  change (2 ^ 32) with 4294967296 in *;
  change (2 ^ 63) with 9223372036854775808 in *;
  change (2 ^ 64) with 18446744073709551616 in *.

Ltac word_lia := word_unfold; Z.div_mod_to_equations; lia.

(** Boolean comparisons in hypotheses and goal to propositions. *)
Ltac bool_prop :=
  repeat match goal with
  | H : _ && _ = true |- _ => apply andb_true_iff in H; destruct H
  | H : _ || _ = false |- _ => apply orb_false_iff in H; destruct H
  | H : negb _ = true |- _ => apply negb_true_iff in H
  | H : negb _ = false |- _ => apply negb_false_iff in H
  | H : (_ <? _) = true |- _ => apply Z.ltb_lt in H
  | H : (_ <? _) = false |- _ => apply Z.ltb_ge in H
  | H : (_ <=? _) = true |- _ => apply Z.leb_le in H
  | H : (_ <=? _) = false |- _ => apply Z.leb_gt in H
  | H : (_ =? _) = true |- _ => apply Z.eqb_eq in H
  | H : (_ =? _) = false |- _ => apply Z.eqb_neq in H
  end.

(** Case analysis on the condition of a conditional in the goal. *)
Ltac case_if :=
  match goal with
  | |- context [if ?b then _ else _] => destruct b eqn:?; bool_prop
  end.

Create HintDb sponge.

Lemma u64_small x : is_u64 x -> u64 x = x.
Proof. intros. apply Z.mod_small. done. Qed.
Lemma u32_small x : is_u32 x -> u32 x = x.
Proof. intros. apply Z.mod_small. done. Qed.
Lemma u16_small x : is_u16 x -> u16 x = x.
Proof. intros. apply Z.mod_small. done. Qed.
Lemma u8_small x : is_u8 x -> u8 x = x.
Proof. intros. apply Z.mod_small. done. Qed.

Lemma u64_range x : is_u64 (u64 x).
Proof. apply Z.mod_pos_bound. lia. Qed.
Lemma u32_range x : is_u32 (u32 x).
Proof. apply Z.mod_pos_bound. lia. Qed.
Lemma u16_range x : is_u16 (u16 x).
Proof. apply Z.mod_pos_bound. lia. Qed.
Lemma u8_range x : is_u8 (u8 x).
Proof. apply Z.mod_pos_bound. lia. Qed.

#[export] Hint Resolve u64_range u32_range u16_range u8_range : sponge.

Lemma u64_add_l x y : u64 (u64 x + y) = u64 (x + y).
Proof. apply Z.add_mod_idemp_l. lia. Qed.
Lemma u64_add_r x y : u64 (x + u64 y) = u64 (x + y).
Proof. apply Z.add_mod_idemp_r. lia. Qed.
Lemma u32_add_l x y : u32 (u32 x + y) = u32 (x + y).
Proof. apply Z.add_mod_idemp_l. lia. Qed.
Lemma s32_small x : - 2 ^ 31 <= x < 2 ^ 31 -> s32 x = x.
Proof. intros. unfold s32. rewrite Z.mod_small; lia. Qed.
Lemma s64_small x : - 2 ^ 63 <= x < 2 ^ 63 -> s64 x = x.
Proof. intros. unfold s64. rewrite Z.mod_small; lia. Qed.

(** Bit fields as arithmetic. *)
Lemma lor_shiftl_add a b n : 0 <= n -> 0 <= b < 2 ^ n -> Z.lor (Z.shiftl a n) b = a * 2 ^ n + b.
Proof.
  intros Hn Hb.
  assert (E : Z.land (Z.shiftl a n) b = 0).
  { apply Z.bits_inj'. intros i Hi. rewrite Z.land_spec, Z.bits_0, Z.shiftl_spec by done.
    destruct (Z.lt_ge_cases i n); [by rewrite (Z.testbit_neg_r a) by lia|].
    rewrite <- (Z.mod_small b (2 ^ n)) by done.
    by rewrite Z.mod_pow2_bits_high, andb_false_r by lia. }
  rewrite <- Z.lxor_lor, <- Z.add_nocarry_lxor by done. by rewrite Z.shiftl_mul_pow2.
Qed.

Lemma land_pow2 v n : 0 <= n -> (Z.land v (2 ^ n) =? 0) = negb (Z.testbit v n).
Proof.
  intros Hn. destruct (Z.testbit v n) eqn:E; cbn [negb].
  - apply Z.eqb_neq. intros H. apply (f_equal (fun x => Z.testbit x n)) in H.
    by rewrite Z.land_spec, E, Z.pow2_bits_true, Z.bits_0 in H.
  - apply Z.eqb_eq, Z.bits_inj'. intros i Hi. rewrite Z.land_spec, Z.pow2_bits_eqb, Z.bits_0 by done.
    destruct (Z.eqb_spec n i); [subst; by rewrite E|]. by rewrite andb_false_r.
Qed.

(** ** Bytes *)

Definition byte_val (b : byte) : Z := Z.of_N (Byte.to_N b).
(** Conversion of an integer to [uint8_t]/[char]: the low eight bits. *)
Definition byte_of (x : Z) : byte :=
  match Byte.of_N (Z.to_N (u8 x)) with Some b => b | None => x00 end.

Lemma byte_val_range b : is_u8 (byte_val b).
Proof.
  unfold byte_val. pose proof (Byte.to_N_bounded b). word_unfold. lia.
Qed.
#[export] Hint Resolve byte_val_range : sponge.

Lemma byte_val_of x : byte_val (byte_of x) = u8 x.
Proof.
  unfold byte_val, byte_of. pose proof (u8_range x) as Hr.
  destruct (Byte.of_N (Z.to_N (u8 x))) eqn:E.
  - apply Byte.to_of_N in E. rewrite E. word_lia.
  - apply Byte.of_N_None_iff in E. word_unfold. lia.
Qed.

Lemma byte_of_val b : byte_of (byte_val b) = b.
Proof.
  unfold byte_of. rewrite u8_small by auto with sponge.
  unfold byte_val. rewrite N2Z.id, Byte.of_to_N. done.
Qed.

Lemma byte_val_inj a b : byte_val a = byte_val b -> a = b.
Proof. intros E. rewrite <- (byte_of_val a), E. apply byte_of_val. Qed.

#[export] Instance byte_eq_dec : EqDecision byte.
Proof. intros a b. apply Byte.byte_eq_dec. Defined.

(** ** Sizes: [size()] of a container as an integer *)

Abbreviation zlen l := (Z.of_nat (length l)).

(** ** Outcomes of a C++ call

    A call returns, throws one of the exceptions the sources throw, or has no
    defined behaviour (for instance [front()] of an empty queue). *)

(** [unix_error] carries the [errno] of the failed system call.  The
    [runtime_error]s that the theorems tell apart by their message have
    constructors of their own: [write_returned_0] ("write returned 0 given
    non-empty input buffer", file_descriptor.cc), [polled_error] ("EventLoop: error
    on polled file descriptor") and [busy_wait] ("EventLoop: busy wait detected",
    eventloop.cc). *)
Inductive exn :=
| out_of_range | runtime_error | bad_optional_access | unix_error (code : Z)
| write_returned_0 | polled_error | busy_wait.

Inductive res (A : Type) :=
| Ok (a : A)
| Throw (e : exn)
| Undefined.
Arguments Ok {A} a.
Arguments Throw {A} e.
Arguments Undefined {A}.

#[export] Instance exn_eq_dec : EqDecision exn.
Proof. solve_decision. Defined.

#[export] Instance res_ret : MRet res := @Ok.
#[export] Instance res_bind : MBind res := fun A B f m =>
  match m with Ok a => f a | Throw e => Throw e | Undefined => Undefined end.

Definition is_ok {A} (m : res A) : bool :=
  match m with Ok _ => true | _ => false end.

Lemma res_bind_ok {A B} (f : A -> res B) (m : res A) (b : B) :
  m ≫= f = Ok b <-> exists a, m = Ok a /\ f a = Ok b.
Proof.
  destruct m as [a|e|]; cbn; (split; [intros E|intros (x & E & Ex)]); try done.
  - by exists a.
  - congruence.
Qed.

(** Hoare triples: the call returns a value in [Q] or fails in a way [E] allows
    ([None] stands for undefined behaviour). *)
Definition wp {A} (E : option exn -> Prop) (m : res A) (Q : A -> Prop) : Prop :=
  match m with Ok a => Q a | Throw e => E (Some e) | Undefined => E None end.

Lemma wp_bind {A B} E (m : res A) (f : A -> res B) Q :
  wp E m (fun a => wp E (f a) Q) -> wp E (m ≫= f) Q.
Proof. by destruct m. Qed.

Lemma wp_mono {A} E (m : res A) (Q Q' : A -> Prop) :
  wp E m Q -> (forall a, Q a -> Q' a) -> wp E m Q'.
Proof. destruct m; cbn; auto. Qed.

Lemma wp_seq {A B} E (m : res A) (f : A -> res B) :
  wp E m (fun _ => True) -> (forall a, m = Ok a -> wp E (f a) (fun _ => True)) -> wp E (m ≫= f) (fun _ => True).
Proof. destruct m; cbn; auto. Qed.

(** Calls that return or throw a [runtime_error]. *)
Definition runtime_fails (f : option exn) : Prop := f = Some runtime_error.
Abbreviation runtime_only m := (wp runtime_fails m (fun _ => True)).

Ltac runtime_cases :=
  repeat first
    [ progress intros | exact I | exact (eq_refl (Some runtime_error)) | solve [auto with sponge]
    | apply wp_seq | case_match ].

(** Calls whose behaviour is defined: they return or throw. *)
Definition defined {A} (m : res A) : Prop := m <> Undefined.

Lemma defined_ok {A} (a : A) : defined (Ok a).
Proof. done. Qed.
Lemma defined_throw {A} e : defined (@Throw A e).
Proof. done. Qed.
Lemma defined_bind {A B} (m : res A) (f : A -> res B) :
  defined m -> (forall a, m = Ok a -> defined (f a)) -> defined (m ≫= f).
Proof. destruct m as [a|e|]; cbn; [auto|done|done]. Qed.
Lemma defined_if {A} (b : bool) (m k : res A) : defined m -> defined k -> defined (if b then m else k).
Proof. by destruct b. Qed.

#[export] Hint Resolve defined_ok defined_throw defined_bind defined_if : sponge.

(** Case analysis on what a call depends on. *)
Ltac defined_cases :=
  repeat first
    [ progress intros | apply defined_ok | apply defined_throw | solve [auto with sponge]
    | apply defined_bind | apply defined_if | case_match ].

(** ** Strings: [string::resize] *)
Definition resize (n : Z) (s : list byte) : list byte :=
  take (Z.to_nat n) s ++ replicate (Z.to_nat n - length s) x00.

Lemma resize_exact s : resize (zlen s) s = s.
Proof. unfold resize. rewrite Nat2Z.id, firstn_all, Nat.sub_diag. apply app_nil_r. Qed.

Lemma resize_resize m n s :
  0 <= m <= n -> zlen s <= n -> resize m (resize n s) = resize m s.
Proof.
  unfold resize. intros Hm Hs. rewrite (take_ge s (Z.to_nat n)) by lia.
  rewrite take_app, length_app, length_replicate, <- app_assoc. f_equal.
  rewrite take_replicate, <- replicate_add. f_equal. lia.
Qed.

(** ** Lists *)

Section Lists.
Context {A : Type}.
Implicit Types l k : list A.

Lemma prefix_drop_shift n l k :
  l `prefix_of` drop n k -> forall m, drop m l `prefix_of` drop (n + m) k.
Proof.
  intros [r Hr] m. rewrite <- drop_drop, Hr, drop_app. eexists. done.
Qed.

Lemma drop_nth_cons d l : forall i,
  (i < length l)%nat -> drop i l = nth i l d :: drop (S i) l.
Proof.
  induction l as [|x l IH]; intros [|i] Hi; cbn in *; try lia; [done|].
  rewrite IH by lia. done.
Qed.

(** [data] is what the list [k] holds from position [n] on. *)
Definition excerpt_at (k : list A) (n : nat) (data : list A) : Prop :=
  forall j c, data !! j = Some c -> k !! (n + j)%nat = Some c.

Lemma excerpt_nil k n : excerpt_at k n [].
Proof. intros j c Hc. by rewrite lookup_nil in Hc. Qed.

Lemma excerpt_prefix k data : excerpt_at k 0 data -> data `prefix_of` k.
Proof.
  revert k. induction data as [|c data IH]; intros k H; [apply prefix_nil|].
  destruct k as [|x k]; [by specialize (H 0%nat c eq_refl)|].
  pose proof (H 0%nat c eq_refl) as [= ->]. apply prefix_cons, IH.
  intros j d Hd. exact (H (S j) d Hd).
Qed.

Lemma prefix_extend w k data :
  w `prefix_of` k -> excerpt_at k (length w) data -> (w ++ data) `prefix_of` k.
Proof.
  intros [r ->] H. apply prefix_app, excerpt_prefix. intros j c Hc.
  specialize (H j c Hc). rewrite lookup_app_r in H by lia.
  by replace (length w + j - length w)%nat with (0 + j)%nat in H by lia.
Qed.

Lemma excerpt_length k n data : excerpt_at k n data -> data <> [] -> (n + length data <= length k)%nat.
Proof.
  intros H Hne. destruct data as [|c data]; [done|].
  destruct (lookup_lt_is_Some_2 (c :: data) (length data)) as [d Hd]; [cbn; lia|].
  apply H, lookup_lt_Some in Hd. cbn. lia.
Qed.

Lemma excerpt_app k k' n data : excerpt_at k n data -> excerpt_at (k ++ k') n data.
Proof. intros H j c Hc. apply lookup_app_l_Some. by apply H. Qed.

Lemma excerpt_drop k n data m : excerpt_at k n data -> excerpt_at k (n + m) (drop m data).
Proof.
  intros H j c Hc. rewrite lookup_drop in Hc. apply H in Hc.
  by replace (n + m + j)%nat with (n + (m + j))%nat by lia.
Qed.

Lemma excerpt_take k n data m : excerpt_at k n data -> excerpt_at k n (take m data).
Proof. intros H j c Hc. apply lookup_take_Some in Hc as [Hc _]. by apply H. Qed.

End Lists.
