(* ===== verification/WrappingIntegers.v ===== *)
(** * Wrapping 32-bit sequence numbers

    Models [src/libsponge/wrapping_integers.hh] and [.cc]: the type
    [WrappingInt32], its arithmetic operators, [wrap] and [unwrap].  The
    theorems say that the two conversions are inverse within half the sequence
    space, and that [unwrap] picks the candidate closest to the checkpoint. *)

From S2P Require Import Prelude.

(** A sequence number; [raw_value] is the accessor of the private field. *)
Record WrappingInt32 := mkWrappingInt32 { raw_value : Z }.

#[export] Instance WrappingInt32_eq_dec : EqDecision WrappingInt32.
Proof. solve_decision. Defined.

Definition winv (a : WrappingInt32) : Prop := is_u32 (raw_value a).

(** [operator-(WrappingInt32 a, WrappingInt32 b)]: the 32-bit difference read
    back as [int32_t]. *)
Definition wdiff (a b : WrappingInt32) : Z := s32 (u32 (raw_value a - raw_value b)).

(** [operator==]. *)
Definition weqb (a b : WrappingInt32) : bool := raw_value a =? raw_value b.

(** [operator+(WrappingInt32 a, uint32_t b)]; the argument is converted to
    [uint32_t] by the call. *)
Definition wadd (a : WrappingInt32) (b : Z) : WrappingInt32 :=
  mkWrappingInt32 (u32 (raw_value a + u32 b)).

(** [operator-(WrappingInt32 a, uint32_t b)], defined in the source as
    [a + -b]. *)
Definition wsub (a : WrappingInt32) (b : Z) : WrappingInt32 := wadd a (u32 (- u32 b)).

Definition wrap (n : Z) (isn : WrappingInt32) : WrappingInt32 :=
  let _2_32_with_64bit := u64 (Z.shiftl 1 32) in
  wadd isn (n mod _2_32_with_64bit).

Definition unwrap (n isn : WrappingInt32) (checkpoint : Z) : Z :=
  let n_64 := raw_value n in
  let isn_64 := raw_value isn in
  let _2_32_with_64bit := u64 (Z.shiftl 1 32) in
  let abs_seqno :=
    if n_64 <? isn_64 then u64 (u64 (n_64 + _2_32_with_64bit) - isn_64)
    else u64 (n_64 - isn_64) in
  if checkpoint <=? abs_seqno then abs_seqno
  else
    let left_dist := u64 (checkpoint - abs_seqno) mod _2_32_with_64bit in
    let right_dist := u64 (abs_seqno - checkpoint) mod _2_32_with_64bit in
    if right_dist <? left_dist then u64 (checkpoint + right_dist)
    else u64 (checkpoint - left_dist).

(** ** Lemmas *)

Lemma two32 : u64 (Z.shiftl 1 32) = 2 ^ 32.
Proof. reflexivity. Qed.

Lemma winv_wadd a b : winv (wadd a b).
Proof. apply u32_range. Qed.
Lemma winv_wrap n isn : winv (wrap n isn).
Proof. apply u32_range. Qed.
#[export] Hint Resolve winv_wadd winv_wrap : sponge.

Lemma WrappingInt32_ext a b : raw_value a = raw_value b -> a = b.
Proof. destruct a, b; cbn. congruence. Qed.

Lemma wadd_raw a b : raw_value (wadd a b) = u32 (raw_value a + b).
Proof. unfold wadd. cbn [raw_value]. word_lia. Qed.

Lemma wrap_raw n isn : raw_value (wrap n isn) = u32 (raw_value isn + n).
Proof.
  unfold wrap. rewrite two32, wadd_raw. word_lia.
Qed.

(** Two absolute numbers have the same relative number exactly when they are
    congruent modulo 2^32. *)
Lemma wrap_eq_iff x y isn : wrap x isn = wrap y isn <-> (x - y) mod 2 ^ 32 = 0.
Proof.
  split.
  - intros E%(f_equal raw_value). rewrite !wrap_raw in E. word_lia.
  - intros E. apply WrappingInt32_ext. rewrite !wrap_raw. word_lia.
Qed.

Lemma wrap_add n k isn : wadd (wrap n isn) k = wrap (n + k) isn.
Proof.
  apply WrappingInt32_ext. rewrite wadd_raw, !wrap_raw. word_lia.
Qed.

(** The smallest absolute number that wraps to [n]. *)
Definition rel (n isn : WrappingInt32) : Z := (raw_value n - raw_value isn) mod 2 ^ 32.

(** Closed form of [unwrap]: the representative of the residue class nearest
    to the checkpoint, by cases on the distance to the left. *)
Lemma unwrap_cases n isn cp :
  winv n -> winv isn -> is_u64 cp ->
  let r := rel n isn in
  let l := (cp - r) mod 2 ^ 32 in
  unwrap n isn cp =
    if cp <=? r then r
    else if 2 ^ 31 <? l then u64 (cp + (2 ^ 32 - l)) else cp - l.
Proof.
  unfold winv. intros Hn Hi Hc. cbv zeta. unfold unwrap. rewrite two32.
  assert (Ea : (if raw_value n <? raw_value isn
                then u64 (u64 (raw_value n + 2 ^ 32) - raw_value isn)
                else u64 (raw_value n - raw_value isn)) = rel n isn).
  { unfold rel. case_if; word_lia. }
  rewrite Ea. assert (0 <= rel n isn < 2 ^ 32) by (apply Z.mod_pos_bound; lia).
  generalize dependent (rel n isn). intros r _ Hr. cbv zeta.
  case_if; [done|].
  assert (El : u64 (cp - r) mod 2 ^ 32 = (cp - r) mod 2 ^ 32) by word_lia.
  rewrite El. set (l := (cp - r) mod 2 ^ 32).
  assert (Er : u64 (r - cp) mod 2 ^ 32 = if l =? 0 then 0 else 2 ^ 32 - l).
  { subst l. case_if; word_lia. }
  rewrite Er. assert (0 <= l < 2 ^ 32) by (apply Z.mod_pos_bound; lia).
  assert (l <= cp) by (subst l; word_lia). clearbody l.
  destruct (l =? 0) eqn:E0; bool_prop.
  - subst l. change (0 <? 0) with false. change (2 ^ 31 <? 0) with false.
    cbv iota. word_lia.
  - destruct (2 ^ 32 - l <? l) eqn:E1, (2 ^ 31 <? l) eqn:E2; bool_prop; word_lia.
Qed.

Lemma unwrap_range n isn cp : winv n -> winv isn -> is_u64 cp -> is_u64 (unwrap n isn cp).
Proof.
  intros Hn Hi Hc.
  assert (rel n isn = (raw_value n - raw_value isn) mod 2 ^ 32) by done.
  rewrite unwrap_cases by done. unfold winv in *. repeat case_if; word_lia.
Qed.

(** [unwrap] returns an absolute sequence number that wraps to the given
    relative one, for every checkpoint, including those where the 64-bit
    addition overflows. *)
Theorem unwrap_wraps n isn cp :
  winv n -> winv isn -> is_u64 cp ->
  is_u64 (unwrap n isn cp) /\ wrap (unwrap n isn cp) isn = n.
Proof.
  intros Hn Hi Hc. split; [by apply unwrap_range|].
  assert (rel n isn = (raw_value n - raw_value isn) mod 2 ^ 32) by done.
  rewrite unwrap_cases by done. unfold winv in *. apply WrappingInt32_ext. rewrite wrap_raw. repeat case_if; word_lia.
Qed.

Lemma unwrap_wraps_witness :
  let n := mkWrappingInt32 17 in let isn := mkWrappingInt32 4294967290 in
  winv n /\ winv isn /\ wrap (unwrap n isn 4294967296) isn = n.
Proof.
  cbv zeta. split; [unfold winv; cbn; word_lia|].
  split; [unfold winv; cbn; word_lia|].
  apply (unwrap_wraps (mkWrappingInt32 17) (mkWrappingInt32 4294967290) 4294967296);
    unfold winv; cbn; word_lia.
Defined.

(** The numbers with the same relative number. *)
Lemma wrap_congruent n isn x : winv n -> winv isn -> wrap x isn = n -> exists q, x = rel n isn + 2 ^ 32 * q.
Proof.
  intros Hn Hi Hw. apply (f_equal raw_value) in Hw. rewrite wrap_raw in Hw.
  exists ((x - rel n isn) / 2 ^ 32). unfold rel. rewrite <- Hw. unfold winv in *. word_lia.
Qed.

(** C23.  [unwrap] is right: its result is a 64-bit absolute number that wraps to the
    given relative number, and, as long as the checkpoint is at least 2^31 below
    the top of the 64-bit range, no other such number is nearer to the checkpoint;
    of two that are equally near it is the lower one. *)
Theorem unwrap_closest n isn cp :
  winv n -> winv isn -> 0 <= cp <= 2 ^ 64 - 2 ^ 31 ->
  is_u64 (unwrap n isn cp) /\ wrap (unwrap n isn cp) isn = n /\
  forall x, is_u64 x -> wrap x isn = n ->
    Z.abs (unwrap n isn cp - cp) <= Z.abs (x - cp) /\
    (Z.abs (x - cp) = Z.abs (unwrap n isn cp - cp) -> unwrap n isn cp <= x).
Proof.
  intros Hn Hi Hc. destruct (unwrap_wraps n isn cp) as [H64 Hw]; [done|done|word_lia|].
  split_and!; [apply H64..|done|]. intros x Hx Hwx.
  destruct (wrap_congruent n isn x Hn Hi Hwx) as [q ->].
  rewrite unwrap_cases by (done || word_lia).
  assert (Hr : 0 <= rel n isn < 2 ^ 32) by (apply Z.mod_pos_bound; lia).
  clear Hwx H64 Hw Hn Hi. revert Hr Hx. generalize (rel n isn). intros r Hr Hx.
  assert (0 <= q) by word_lia. repeat case_if; word_lia.
Qed.

Lemma unwrap_closest_witness :
  let u := unwrap (mkWrappingInt32 5) (mkWrappingInt32 0) 4294967290 in
  wrap u (mkWrappingInt32 0) = mkWrappingInt32 5 /\ u = 4294967301.
Proof.
  split; [|reflexivity]. apply (unwrap_closest (mkWrappingInt32 5) (mkWrappingInt32 0) 4294967290);
    [unfold winv; cbn; word_lia | unfold winv; cbn; word_lia | lia].
Defined.

(** Round trip: an absolute number within half the sequence space of the
    checkpoint survives [wrap] and [unwrap]. *)
Lemma unwrap_wrap_near x isn cp :
  winv isn -> is_u64 cp -> is_u64 x -> cp - 2 ^ 31 <= x < cp + 2 ^ 31 ->
  unwrap (wrap x isn) isn cp = x.
Proof.
  intros Hi Hc Hx Hd. rewrite unwrap_cases by auto with sponge.
  assert (Er : rel (wrap x isn) isn = x mod 2 ^ 32).
  { unfold rel. rewrite wrap_raw. word_lia. }
  rewrite Er. repeat case_if; word_lia.
Qed.

(** [unwrap] inverts [wrap] within half the sequence space of the
    checkpoint, and the difference operator measures the distance between two
    such numbers. *)
Theorem wrap_unwrap_roundtrip x isn cp :
  winv isn -> is_u64 cp -> is_u64 x -> cp - 2 ^ 31 <= x < cp + 2 ^ 31 ->
  unwrap (wrap x isn) isn cp = x /\ wdiff (wrap x isn) (wrap cp isn) = x - cp.
Proof.
  intros. split; [by apply unwrap_wrap_near|].
  unfold wdiff. rewrite !wrap_raw. unfold winv in *. word_lia.
Qed.

Lemma wrap_unwrap_roundtrip_witness :
  unwrap (wrap 9000000000 (mkWrappingInt32 77)) (mkWrappingInt32 77) 9000000500 = 9000000000 /\
  wdiff (wrap 9000000000 (mkWrappingInt32 77)) (wrap 9000000500 (mkWrappingInt32 77)) = -500.
Proof.
  apply (wrap_unwrap_roundtrip 9000000000 (mkWrappingInt32 77) 9000000500);
    [unfold winv; cbn; word_lia | word_lia | word_lia | lia].
Defined.
