(* ===== verification/ByteStream.v ===== *)
(** * The in-memory byte stream

    Models [src/libsponge/byte_stream.hh] and [.cc]: a bounded FIFO of bytes
    with an end marker, an error flag and the two running counters.  The
    abstract specification is the list of all bytes ever accepted together with
    the number of bytes already consumed; [Represents] is the abstraction
    relation and [exec_refines] the refinement for whole operation sequences. *)

From S2P Require Import Prelude.

Record ByteStream := mkByteStream {
  bs_buffer : list byte;      (* buffer *)
  bs_capacity : Z;            (* _capacity *)
  bs_input_ended : bool;      (* _input_ended *)
  bs_error : bool;            (* _error *)
  bs_num_written : Z;         (* _num_written *)
  bs_num_read : Z             (* _num_read *)
}.

#[export] Instance ByteStream_eq_dec : EqDecision ByteStream.
Proof. solve_decision. Defined.

(** The constructor. *)
Definition ByteStream_new (capacity : Z) : ByteStream :=
  mkByteStream [] capacity false false 0 0.

Definition buffer_size (s : ByteStream) : Z := zlen (bs_buffer s).
Definition buffer_empty (s : ByteStream) : bool := buffer_size s =? 0.
Definition input_ended (s : ByteStream) : bool := bs_input_ended s.
Definition error (s : ByteStream) : bool := bs_error s.
Definition eof (s : ByteStream) : bool := bs_input_ended s && buffer_empty s.
Definition bytes_written (s : ByteStream) : Z := bs_num_written s.
Definition bytes_read (s : ByteStream) : Z := bs_num_read s.
Definition remaining_capacity (s : ByteStream) : Z := u64 (bs_capacity s - buffer_size s).

Definition end_input (s : ByteStream) : ByteStream :=
  mkByteStream (bs_buffer s) (bs_capacity s) true (bs_error s)
    (bs_num_written s) (bs_num_read s).

Definition set_error (s : ByteStream) : ByteStream :=
  mkByteStream (bs_buffer s) (bs_capacity s) (bs_input_ended s) true
    (bs_num_written s) (bs_num_read s).

(** Body of the loop of [write]: [buffer.push_back(data[i]); _num_written++]. *)
Definition push_back (c : byte) (s : ByteStream) : ByteStream :=
  mkByteStream (bs_buffer s ++ [c]) (bs_capacity s) (bs_input_ended s) (bs_error s)
    (u64 (bs_num_written s + 1)) (bs_num_read s).

Fixpoint write_loop (n i : nat) (data : list byte) (s : ByteStream) : ByteStream :=
  match n with
  | O => s
  | S n' => write_loop n' (S i) data (push_back (nth i data x00) s)
  end.

(** [write]; [num_writable] is an [int], and is converted back to [size_t] by
    the return. *)
Definition write (data : list byte) (s : ByteStream) : Z * ByteStream :=
  if bs_input_ended s then (0, s)
  else
    let num_writable := s32 (Z.min (zlen data) (remaining_capacity s)) in
    (u64 num_writable, write_loop (Z.to_nat num_writable) 0 data s).

Fixpoint peek_loop (n i : nat) (buf : list byte) (peeked : list byte) : list byte :=
  match n with
  | O => peeked
  | S n' => peek_loop n' (S i) buf (peeked ++ [nth i buf x00])
  end.

Definition peek_output (len : Z) (s : ByteStream) : list byte :=
  let peek_len := s32 (Z.min len (buffer_size s)) in
  peek_loop (Z.to_nat peek_len) 0 (bs_buffer s) [].

(** Body of the loop of [pop_output]: [buffer.pop_front(); _num_read++]. *)
Definition pop_front (s : ByteStream) : ByteStream :=
  mkByteStream (tail (bs_buffer s)) (bs_capacity s) (bs_input_ended s) (bs_error s)
    (bs_num_written s) (u64 (bs_num_read s + 1)).

Fixpoint pop_loop (n : nat) (s : ByteStream) : ByteStream :=
  match n with
  | O => s
  | S n' => pop_loop n' (pop_front s)
  end.

Definition pop_output (len : Z) (s : ByteStream) : ByteStream :=
  let peek_len := s32 (Z.min len (buffer_size s)) in
  pop_loop (Z.to_nat peek_len) s.

Definition read (len : Z) (s : ByteStream) : list byte * ByteStream :=
  let peeked := peek_output len s in
  (peeked, pop_output len s).

(** ** Closed forms of the loops *)

Lemma write_loop_eq n : forall i data s,
  (i + n <= length data)%nat -> is_u64 (bs_num_written s) ->
  write_loop n i data s =
    mkByteStream (bs_buffer s ++ take n (drop i data)) (bs_capacity s)
      (bs_input_ended s) (bs_error s) (u64 (bs_num_written s + Z.of_nat n)) (bs_num_read s).
Proof.
  induction n as [|n IH]; intros i data s Hle Hw; cbn [write_loop].
  - rewrite app_nil_r, Z.add_0_r, u64_small by done. by destruct s.
  - rewrite IH by (cbn; lia || apply u64_range).
    cbn [push_back bs_buffer bs_capacity bs_input_ended bs_error bs_num_written bs_num_read].
    rewrite u64_add_l, <- (app_assoc (bs_buffer s)).
    rewrite (drop_nth_cons x00 data i) by lia.
    f_equal. word_lia.
Qed.

Lemma peek_loop_eq n : forall i buf acc,
  (i + n <= length buf)%nat -> peek_loop n i buf acc = acc ++ take n (drop i buf).
Proof.
  induction n as [|n IH]; intros i buf acc Hle; cbn [peek_loop].
  - by rewrite app_nil_r.
  - rewrite IH by lia. rewrite (drop_nth_cons x00 buf i) by lia.
    rewrite <- app_assoc. done.
Qed.

Lemma pop_loop_eq n : forall s,
  is_u64 (bs_num_read s) ->
  pop_loop n s =
    mkByteStream (drop n (bs_buffer s)) (bs_capacity s) (bs_input_ended s) (bs_error s)
      (bs_num_written s) (u64 (bs_num_read s + Z.of_nat n)).
Proof.
  induction n as [|n IH]; intros s Hr; cbn [pop_loop].
  - rewrite Z.add_0_r, u64_small by done. by destruct s.
  - rewrite IH by apply u64_range. cbn. rewrite u64_add_l.
    f_equal; [|word_lia]. by destruct (bs_buffer s); cbn; rewrite ?drop_nil.
Qed.

Lemma write_ended data s : bs_input_ended (snd (write data s)) = bs_input_ended s.
Proof.
  unfold write. destruct (bs_input_ended s) eqn:E; [done|]. cbn [snd].
  generalize (Z.to_nat (s32 (Z.min (zlen data) (remaining_capacity s)))) 0%nat. intros n.
  revert s E. induction n as [|n IH]; intros s E i; [done|]. cbn [write_loop]. by apply IH.
Qed.

Lemma write_nil s : snd (write [] s) = s.
Proof.
  unfold write. destruct (bs_input_ended s); [done|]. cbn [snd].
  replace (s32 (zlen [] `min` remaining_capacity s)) with 0; [done|].
  cbn [length]. rewrite Z.min_l; [done|]. apply u64_range.
Qed.

(** ** The abstraction relation

    [w] is everything the stream ever accepted, [r] how many of those bytes
    have been consumed.  Capacities below 2^31 keep the [int] variables of
    [write], [peek_output] and [pop_output] exact. *)

Record Represents (s : ByteStream) (w : list byte) (r : nat) : Prop := {
  rep_read : (r <= length w)%nat;
  rep_buffer : bs_buffer s = drop r w;
  rep_written : bs_num_written s = u64 (zlen w);
  rep_num_read : bs_num_read s = u64 (Z.of_nat r);
  rep_room : zlen w - Z.of_nat r <= bs_capacity s;
  rep_cap : bs_capacity s < 2 ^ 31
}.

Section Operations.
Context (s : ByteStream) (w : list byte) (r : nat) (R : Represents s w r).

Lemma rep_buffer_size : buffer_size s = zlen w - Z.of_nat r.
Proof.
  unfold buffer_size. rewrite (rep_buffer _ _ _ R), length_drop.
  pose proof (rep_read _ _ _ R). lia.
Qed.

Lemma rep_remaining : remaining_capacity s = bs_capacity s - (zlen w - Z.of_nat r).
Proof.
  unfold remaining_capacity. rewrite rep_buffer_size.
  pose proof (rep_read _ _ _ R). pose proof (rep_room _ _ _ R). pose proof (rep_cap _ _ _ R).
  apply u64_small. word_lia.
Qed.

(** The bytes [write] accepts from [data]. *)
Definition accepted (data : list byte) : list byte :=
  if bs_input_ended s then [] else take (Z.to_nat (remaining_capacity s)) data.

Lemma write_represents data :
  fst (write data s) = zlen (accepted data) /\
  Represents (snd (write data s)) (w ++ accepted data) r /\
  bs_capacity (snd (write data s)) = bs_capacity s /\
  bs_input_ended (snd (write data s)) = bs_input_ended s /\
  bs_error (snd (write data s)) = bs_error s.
Proof.
  destruct R as [Hr Hb Hw Hn Hroom Hcap].
  unfold write, accepted. destruct (bs_input_ended s) eqn:E; cbn [fst snd].
  { rewrite app_nil_r. done. }
  rewrite rep_remaining. set (rm := bs_capacity s - (zlen w - Z.of_nat r)).
  assert (0 <= rm) by lia.
  rewrite s32_small by lia.
  rewrite write_loop_eq by (lia || (rewrite Hw; apply u64_range)).
  cbn [bs_capacity bs_input_ended bs_error]. rewrite drop_0, Hb, E.
  assert (Et : take (Z.to_nat (zlen data `min` rm)) data = take (Z.to_nat rm) data).
  { destruct (Z.le_ge_cases (zlen data) rm); [|by rewrite Z.min_r by lia].
    rewrite Z.min_l by lia. rewrite Nat2Z.id, firstn_all, take_ge by lia. done. }
  rewrite Et. assert (El : length (take (Z.to_nat rm) data) = Z.to_nat (zlen data `min` rm)).
  { rewrite length_take. lia. }
  repeat split; cbn [bs_buffer bs_num_written bs_num_read bs_capacity];
    rewrite ?length_app, ?El; try lia; try done.
  - rewrite Z2Nat.id, u64_small by word_lia. done.
  - rewrite drop_app_le by lia. done.
  - rewrite Hw, u64_add_l. f_equal. lia.
Qed.

Lemma peek_represents len :
  0 <= len -> peek_output len s = take (Z.to_nat len) (drop r w).
Proof.
  intros Hlen. destruct R as [Hr Hb Hw Hn Hroom Hcap].
  unfold peek_output. rewrite rep_buffer_size, Hb.
  rewrite s32_small by lia. rewrite peek_loop_eq by (rewrite length_drop; lia).
  rewrite drop_0. cbn [app].
  destruct (Z.le_ge_cases len (zlen w - Z.of_nat r)); [by rewrite Z.min_l by lia|].
  rewrite Z.min_r, !take_ge by (rewrite ?length_drop; lia). done.
Qed.

(** How many bytes [pop_output] removes. *)
Definition popped (len : Z) : nat := Z.to_nat (Z.min len (buffer_size s)).

Lemma pop_represents len :
  0 <= len ->
  Represents (pop_output len s) w (r + popped len) /\
  bs_capacity (pop_output len s) = bs_capacity s /\
  bs_input_ended (pop_output len s) = bs_input_ended s /\
  bs_error (pop_output len s) = bs_error s.
Proof.
  intros Hlen. destruct R as [Hr Hb Hw Hn Hroom Hcap].
  unfold pop_output, popped. rewrite rep_buffer_size.
  rewrite s32_small by lia. rewrite pop_loop_eq by (rewrite Hn; apply u64_range).
  repeat split; cbn; try lia.
  - rewrite Hb, drop_drop. done.
  - rewrite Hn, u64_add_l. f_equal. lia.
Qed.

Lemma end_input_represents : Represents (end_input s) w r.
Proof. by destruct R. Qed.

Lemma set_error_represents : Represents (set_error s) w r.
Proof. by destruct R. Qed.
End Operations.

(** Reading hands the reader the next bytes of what was written. *)
Lemma read_represents s w out len :
  Represents s w (length out) -> out = take (length out) w -> 0 <= len ->
  let out' := out ++ fst (read len s) in
  Represents (snd (read len s)) w (length out') /\ out' = take (length out') w /\
  bs_capacity (snd (read len s)) = bs_capacity s /\ bs_input_ended (snd (read len s)) = bs_input_ended s /\
  bs_error (snd (read len s)) = bs_error s.
Proof.
  intros R Hout Hl. destruct (pop_represents _ _ _ R len Hl) as (R' & Hc & He & Hx). pose proof (rep_read _ _ _ R).
  unfold read. cbn [fst snd]. rewrite (peek_represents _ _ _ R) by done.
  assert (Hp : length (out ++ take (Z.to_nat len) (drop (length out) w)) = (length out + popped s len)%nat).
  { rewrite length_app, length_take, length_drop. unfold popped. rewrite (rep_buffer_size _ _ _ R). lia. }
  rewrite Hp. split_and!; [done| |done..].
  rewrite Hout at 1. rewrite <- (take_drop (length out) w) at 3.
  rewrite take_app, take_take, length_take, Nat.min_r, Nat.min_l by lia. f_equal.
  unfold popped. rewrite (rep_buffer_size _ _ _ R).
  destruct (Nat.le_gt_cases (Z.to_nat len) (length w - length out)).
  - f_equal. lia.
  - rewrite !take_ge by (rewrite length_drop; lia). done.
Qed.

Lemma new_represents cap : 0 <= cap < 2 ^ 31 -> Represents (ByteStream_new cap) [] 0.
Proof. intros. repeat split; cbn; lia. Qed.

(** ** Refinement of whole operation sequences *)

(** The operations a writer and a reader can issue. *)
Inductive op :=
| OpWrite (data : list byte)
| OpPeek (len : nat)
| OpPop (len : nat)
| OpRead (len : nat)
| OpEndInput
| OpSetError.

(** What the caller sees of one operation: the value it returns and the
    accessors afterwards. *)
Record obs := mkObs {
  ob_count : Z; ob_bytes : list byte;
  ob_size : Z; ob_remaining : Z; ob_ended : bool; ob_error : bool; ob_eof : bool;
  ob_written : Z; ob_read : Z
}.

Definition observe (n : Z) (bytes : list byte) (s : ByteStream) : obs :=
  mkObs n bytes (buffer_size s) (remaining_capacity s) (input_ended s) (error s) (eof s)
    (bytes_written s) (bytes_read s).

Definition exec (o : op) (s : ByteStream) : obs * ByteStream :=
  match o with
  | OpWrite data => let '(n, s') := write data s in (observe n [] s', s')
  | OpPeek len => (observe 0 (peek_output (Z.of_nat len) s) s, s)
  | OpPop len => let s' := pop_output (Z.of_nat len) s in (observe 0 [] s', s')
  | OpRead len => let '(d, s') := read (Z.of_nat len) s in (observe 0 d s', s')
  | OpEndInput => let s' := end_input s in (observe 0 [] s', s')
  | OpSetError => let s' := set_error s in (observe 0 [] s', s')
  end.

(** The abstract stream: unbounded history, consumed prefix, two flags. *)
Record spec := mkSpec {
  sp_cap : nat; sp_hist : list byte; sp_read : nat; sp_ended : bool; sp_err : bool
}.

Definition sp_room (a : spec) : nat := sp_cap a - (length (sp_hist a) - sp_read a).

Definition sp_observe (n : Z) (bytes : list byte) (a : spec) : obs :=
  mkObs n bytes (zlen (sp_hist a) - Z.of_nat (sp_read a)) (Z.of_nat (sp_room a)) (sp_ended a)
    (sp_err a) (sp_ended a && (sp_read a =? length (sp_hist a))%nat)
    (u64 (zlen (sp_hist a))) (u64 (Z.of_nat (sp_read a))).

Definition sp_exec (o : op) (a : spec) : obs * spec :=
  match o with
  | OpWrite data =>
      let d := if sp_ended a then [] else take (sp_room a) data in
      let a' := mkSpec (sp_cap a) (sp_hist a ++ d) (sp_read a) (sp_ended a) (sp_err a) in
      (sp_observe (zlen d) [] a', a')
  | OpPeek len => (sp_observe 0 (take len (drop (sp_read a) (sp_hist a))) a, a)
  | OpPop len =>
      let r := Nat.min (length (sp_hist a)) (sp_read a + len) in
      let a' := mkSpec (sp_cap a) (sp_hist a) r (sp_ended a) (sp_err a) in
      (sp_observe 0 [] a', a')
  | OpRead len =>
      let r := Nat.min (length (sp_hist a)) (sp_read a + len) in
      let a' := mkSpec (sp_cap a) (sp_hist a) r (sp_ended a) (sp_err a) in
      (sp_observe 0 (take len (drop (sp_read a) (sp_hist a))) a', a')
  | OpEndInput =>
      let a' := mkSpec (sp_cap a) (sp_hist a) (sp_read a) true (sp_err a) in
      (sp_observe 0 [] a', a')
  | OpSetError =>
      let a' := mkSpec (sp_cap a) (sp_hist a) (sp_read a) (sp_ended a) true in
      (sp_observe 0 [] a', a')
  end.

Fixpoint run {S : Type} (step : op -> S -> obs * S) (ops : list op) (s : S) : list obs :=
  match ops with
  | [] => []
  | o :: ops' => let '(b, s') := step o s in b :: run step ops' s'
  end.

(** The simulation relation. *)
Definition sim (s : ByteStream) (a : spec) : Prop :=
  Represents s (sp_hist a) (sp_read a) /\ bs_capacity s = Z.of_nat (sp_cap a) /\
  bs_input_ended s = sp_ended a /\ bs_error s = sp_err a.

Lemma sim_observe s a n bytes : sim s a -> observe n bytes s = sp_observe n bytes a.
Proof.
  intros (R & Hc & He & Hx). unfold observe, sp_observe, input_ended, error, eof, buffer_empty,
    bytes_written, bytes_read.
  rewrite (rep_remaining _ _ _ R), (rep_buffer_size _ _ _ R), (rep_written _ _ _ R),
    (rep_num_read _ _ _ R), He, Hx, Hc.
  pose proof (rep_read _ _ _ R). pose proof (rep_room _ _ _ R). unfold sp_room.
  f_equal; [lia|]. f_equal. apply eq_bool_prop_intro. rewrite !Is_true_true.
  rewrite Z.eqb_eq, Nat.eqb_eq. lia.
Qed.

Lemma popped_min s w r len :
  Represents s w r ->
  (r + popped s (Z.of_nat len))%nat = Nat.min (length w) (r + len).
Proof.
  intros R. unfold popped. rewrite (rep_buffer_size _ _ _ R).
  pose proof (rep_read _ _ _ R). lia.
Qed.

Lemma exec_sim s a o :
  sim s a ->
  fst (exec o s) = fst (sp_exec o a) /\ sim (snd (exec o s)) (snd (sp_exec o a)).
Proof.
  intros Hs. pose proof Hs as (R & Hc & He & Hx).
  assert (Hroom : Z.to_nat (remaining_capacity s) = sp_room a).
  { rewrite (rep_remaining _ _ _ R). pose proof (rep_read _ _ _ R). unfold sp_room. lia. }
  destruct o as [data|len|len|len| |]; cbn [exec sp_exec].
  - destruct (write_represents _ _ _ R data) as (Hn & R' & Hc' & He' & Hx').
    destruct (write data s) as [n s']. cbn [fst snd] in *.
    unfold accepted in *. rewrite He, Hroom in *. subst n.
    split; [apply sim_observe|]; repeat split; cbn; try congruence; apply R'.
  - cbn [fst snd]. rewrite (peek_represents _ _ _ R), Nat2Z.id by lia.
    split; [by apply sim_observe|done].
  - destruct (pop_represents _ _ _ R (Z.of_nat len)) as (R' & Hc' & He' & Hx'); [lia|].
    rewrite (popped_min _ _ _ _ R) in R'.
    assert (Hs' : sim (pop_output (Z.of_nat len) s)
      (mkSpec (sp_cap a) (sp_hist a) (length (sp_hist a) `min` (sp_read a + len))
         (sp_ended a) (sp_err a))) by (repeat split; cbn; try congruence; apply R').
    split; [by apply sim_observe|done].
  - unfold read. cbn [fst snd]. rewrite (peek_represents _ _ _ R), Nat2Z.id by lia.
    destruct (pop_represents _ _ _ R (Z.of_nat len)) as (R' & Hc' & He' & Hx'); [lia|].
    rewrite (popped_min _ _ _ _ R) in R'.
    assert (Hs' : sim (pop_output (Z.of_nat len) s)
      (mkSpec (sp_cap a) (sp_hist a) (length (sp_hist a) `min` (sp_read a + len))
         (sp_ended a) (sp_err a))) by (repeat split; cbn; try congruence; apply R').
    split; [by apply sim_observe|done].
  - split; [apply sim_observe|]; repeat split; cbn; try done; apply R.
  - split; [apply sim_observe|]; repeat split; cbn; try done; apply R.
Qed.

(** C22.  Refinement: for every capacity below 2^31 and every sequence of
    writes, peeks, pops, reads, [end_input] and [set_error], the stream returns
    the same values and shows the same accessors as the abstract stream that
    keeps the whole history. *)
Theorem exec_refines (cap : nat) (ops : list op) :
  Z.of_nat cap < 2 ^ 31 ->
  run exec ops (ByteStream_new (Z.of_nat cap)) = run sp_exec ops (mkSpec cap [] 0 false false).
Proof.
  intros Hcap.
  assert (Hsim : sim (ByteStream_new (Z.of_nat cap)) (mkSpec cap [] 0 false false)).
  { split; [apply new_represents; lia|done]. }
  revert Hsim. generalize (ByteStream_new (Z.of_nat cap)) (mkSpec cap [] 0 false false).
  induction ops as [|o ops IH]; intros s a Hs; [done|]. cbn [run].
  destruct (exec_sim s a o Hs) as [Eo Hs'].
  destruct (exec o s), (sp_exec o a). cbn [fst snd] in *. subst. f_equal. by apply IH.
Qed.

Lemma exec_refines_witness :
  let ops := [OpWrite [x61; x62; x63]; OpRead 1; OpWrite [x64; x65]; OpEndInput;
              OpWrite [x66]; OpRead 9] in
  run exec ops (ByteStream_new (Z.of_nat 3)) = run sp_exec ops (mkSpec 3 [] 0 false false) /\
  map ob_bytes (run exec ops (ByteStream_new 3)) = [[]; [x61]; []; []; []; [x62; x63; x64]].
Proof.
  cbv zeta. split; [apply (exec_refines 3); lia | reflexivity].
Defined.

(** The [int] conversion in [write]: when at least 2^31 and fewer than
    2^32 bytes could be accepted, nothing is stored, no error is raised, and
    the returned count is a number above 2^63. *)
Theorem write_int_overflow data s :
  bs_input_ended s = false ->
  2 ^ 31 <= Z.min (zlen data) (remaining_capacity s) < 2 ^ 32 ->
  write data s = (2 ^ 64 - 2 ^ 32 + Z.min (zlen data) (remaining_capacity s), s).
Proof.
  intros He Hm. unfold write. rewrite He.
  set (m := Z.min _ _) in *. clearbody m.
  assert (Es : s32 m = m - 2 ^ 32) by word_lia. rewrite Es.
  replace (Z.to_nat (m - 2 ^ 32)) with 0%nat by lia. cbn [write_loop].
  f_equal. word_lia.
Qed.

Lemma write_int_overflow_witness :
  let data := replicate (Z.to_nat (2 ^ 31)) x00 in
  write data (ByteStream_new (2 ^ 31)) = (2 ^ 64 - 2 ^ 31, ByteStream_new (2 ^ 31)).
Proof.
  cbv zeta.
  assert (Hl : zlen (replicate (Z.to_nat (2 ^ 31)) x00) = 2 ^ 31)
    by (rewrite length_replicate; lia).
  assert (Hr : remaining_capacity (ByteStream_new (2 ^ 31)) = 2 ^ 31) by reflexivity.
  rewrite write_int_overflow; rewrite ?Hl, ?Hr; (reflexivity || lia).
Defined.
