(* ===== verification/StdMap.v ===== *)
(** * [std::map] with integer keys

    The standard library's ordered map, as the key-sorted list of its entries,
    the order in which the sources iterate over it.  [zmap_find] is [find],
    [zmap_set] is assignment through [operator[]], [length] is [size()].  The
    lemmas say that the operations keep the order and act on lookups as a map
    does. *)

From S2P Require Import Prelude.

Abbreviation zmap V := (list (Z * V)).

Section Operations.
Context {V : Type}.
Implicit Types (m : zmap V) (k : Z) (v : V).

Fixpoint zmap_find k m : option V :=
  match m with
  | [] => None
  | (k', v) :: m' => if k =? k' then Some v else zmap_find k m'
  end.

Fixpoint zmap_set k v m : zmap V :=
  match m with
  | [] => [(k, v)]
  | (k', v') :: m' =>
      if k =? k' then (k, v) :: m'
      else if k <? k' then (k, v) :: m
      else (k', v') :: zmap_set k v m'
  end.

Fixpoint zmap_erase k m : zmap V :=
  match m with
  | [] => []
  | (k', v) :: m' => if k =? k' then m' else (k', v) :: zmap_erase k m'
  end.
End Operations.

(** Keys strictly increase, and all are at least [lo]. *)
Inductive sorted_from {V} : Z -> zmap V -> Prop :=
| sorted_nil lo : sorted_from lo []
| sorted_cons lo k v m : lo <= k -> sorted_from (k + 1) m -> sorted_from lo ((k, v) :: m).
#[export] Hint Constructors sorted_from : sponge.

Section Lemmas.
Context {V : Type}.
Implicit Types (m : zmap V) (k lo hi : Z) (v : V).

Lemma sorted_from_weaken lo lo' m : lo' <= lo -> sorted_from lo m -> sorted_from lo' m.
Proof. intros ? H. inversion H; subst; constructor; (lia || done). Qed.

Lemma sorted_from_inv lo k v m :
  sorted_from lo ((k, v) :: m) -> lo <= k /\ sorted_from (k + 1) m.
Proof. intros H. by inversion H; subst. Qed.

Lemma find_below lo k m : sorted_from lo m -> k < lo -> zmap_find k m = None.
Proof.
  induction 1 as [|lo k' v m ? _ IH]; intros; cbn; [done|].
  destruct (k =? k') eqn:E; bool_prop; [lia|]. apply IH. lia.
Qed.

Lemma find_ge lo k m v : sorted_from lo m -> zmap_find k m = Some v -> lo <= k.
Proof.
  intros H E. destruct (Z.lt_ge_cases k lo); [|done].
  by rewrite (find_below lo) in E.
Qed.

Lemma find_In lo k m v : sorted_from lo m -> zmap_find k m = Some v <-> (k, v) ∈ m.
Proof.
  induction 1 as [|lo k' v' m Hle Hs IH]; cbn; [set_solver|].
  rewrite elem_of_cons. destruct (k =? k') eqn:E; bool_prop.
  - subst k'. split; [intros [= ->]; by left|].
    intros [[= ->]|Hin]; [done|]. apply IH in Hin.
    rewrite (find_below (k + 1)) in Hin by (done || lia). done.
  - rewrite IH. split; [by right|]. by intros [[= -> ->]|?].
Qed.

Lemma find_app k m1 m2 :
  zmap_find k (m1 ++ m2) =
    match zmap_find k m1 with Some v => Some v | None => zmap_find k m2 end.
Proof. induction m1 as [|[k' v'] m1 IH]; cbn; [done|]. by destruct (k =? k'). Qed.

Lemma find_set k v m k' :
  zmap_find k' (zmap_set k v m) = if k' =? k then Some v else zmap_find k' m.
Proof.
  induction m as [|[k1 v1] m IH]; cbn; [done|].
  destruct (k =? k1) eqn:E1; bool_prop; cbn.
  - subst k1. by destruct (k' =? k).
  - destruct (k <? k1) eqn:E2; bool_prop; cbn.
    + by destruct (k' =? k) eqn:E3.
    + rewrite IH. destruct (k' =? k1) eqn:E3, (k' =? k) eqn:E4; bool_prop; try done. lia.
Qed.

Lemma sorted_set lo k v m :
  sorted_from lo m -> lo <= k -> sorted_from lo (zmap_set k v m).
Proof.
  induction 1 as [|lo k' v' m Hle Hs IH]; intros Hk; cbn; [auto with sponge|].
  destruct (k =? k') eqn:E1; bool_prop; [subst; auto with sponge|].
  destruct (k <? k') eqn:E2; bool_prop.
  - constructor; [done|]. constructor; [lia|done].
  - constructor; [done|]. apply IH. lia.
Qed.

Lemma length_set lo k v m :
  sorted_from lo m ->
  zlen (zmap_set k v m) = zlen m + (if zmap_find k m is Some _ then 0 else 1).
Proof.
  induction 1 as [|lo k' v' m Hle Hs IH]; cbn [zmap_set zmap_find]; [done|].
  destruct (k =? k') eqn:E1; bool_prop; [cbn; lia|].
  destruct (k <? k') eqn:E2; bool_prop.
  - rewrite (find_below (k' + 1)) by (done || lia). cbn. lia.
  - rewrite !length_cons. lia.
Qed.

(** A sorted map whose keys all lie in a window is no longer than the window. *)
Lemma sorted_length lo hi m :
  sorted_from lo m -> Forall (fun kv => kv.1 < hi) m -> lo <= hi -> zlen m <= hi - lo.
Proof.
  induction 1 as [|lo k v m Hle Hs IH]; intros HF Hh; cbn [length]; [lia|].
  inversion HF as [|? ? Hk HF']; subst. cbn in Hk. specialize (IH HF'). lia.
Qed.

Lemma Forall_set (P : Z * V -> Prop) k v m : P (k, v) -> Forall P m -> Forall P (zmap_set k v m).
Proof.
  intros Hp. induction 1 as [|[k' v'] m Hk HF IH]; cbn; [by constructor|].
  repeat case_if; by repeat constructor.
Qed.
End Lemmas.
#[export] Hint Resolve sorted_set : sponge.
