(* ===== verification/StreamReassembler.v ===== *)
(** * The stream reassembler

    Models [src/libsponge/stream_reassembler.hh] and [.cc]: substrings of a
    logical stream arrive with an index, possibly out of order and overlapping;
    the contiguous prefix is written to the output [ByteStream] and the rest is
    kept, byte by byte, in an ordered map.  Safety holds for every sequence of
    substrings of one stream; progress and the end of the stream hold when the
    peer stays inside the window. *)

From S2P Require Import Prelude StdMap ByteStream.

Record StreamReassembler := mkReassembler {
  sr_output : ByteStream;          (* _output *)
  sr_capacity : Z;                 (* _capacity *)
  sr_unassembled : zmap byte;      (* _unassembled *)
  sr_unassembled_bytes : Z;        (* _unassembled_bytes *)
  sr_if_eof : bool;                (* _if_eof *)
  sr_next_index : Z                (* _next_index *)
}.

Definition StreamReassembler_new (capacity : Z) : StreamReassembler :=
  mkReassembler (ByteStream_new capacity) capacity [] 0 false 0.

Definition unassembled_bytes (r : StreamReassembler) : Z := sr_unassembled_bytes r.
Definition empty (r : StreamReassembler) : bool := zlen (sr_unassembled r) =? 0.
Definition get_next_index (r : StreamReassembler) : Z := sr_next_index r.
Definition stream_out (r : StreamReassembler) : ByteStream := sr_output r.
(** Mutation of the output stream through the reference [stream_out] returns. *)
Definition with_output (o : ByteStream) (r : StreamReassembler) : StreamReassembler :=
  mkReassembler o (sr_capacity r) (sr_unassembled r) (sr_unassembled_bytes r)
    (sr_if_eof r) (sr_next_index r).

(** Lines "slice the front part" and "slice the back part" of
    [push_substring]: the start index and the bytes that will be stored. *)
Definition preprocess (data : list byte) (index : Z) (r : StreamReassembler) : Z * list byte :=
  let remaining := u64 (sr_capacity r - buffer_size (sr_output r)) in
  let right_end_window := u64 (sr_next_index r + remaining) in
  let '(start_index, subdata) :=
    if index <? sr_next_index r then
      let skip := u64 (sr_next_index r - index) in
      (sr_next_index r, if skip <? zlen data then drop (Z.to_nat skip) data else [])
    else (index, if right_end_window <=? index then [] else data) in
  (start_index,
   if remaining <? zlen subdata then take (Z.to_nat remaining) subdata else subdata).

(** The loop that fills the map: [i] runs over the positions of [subdata]. *)
Fixpoint store_loop (cap start_index i : Z) (subdata : list byte) (m : zmap byte) (ub : Z)
  : zmap byte * Z :=
  match subdata with
  | [] => (m, ub)
  | c :: rest =>
      if zlen m <=? cap then
        let k := u64 (start_index + i) in
        let ub' := if zmap_find k m is Some _ then ub else u64 (ub + 1) in
        store_loop cap start_index (i + 1) rest (zmap_set k c m) ub'
      else store_loop cap start_index (i + 1) rest m ub
  end.

(** The loop over the map, in key order, that moves the contiguous bytes to
    [assembled] and erases them. *)
Fixpoint assemble_loop (cap : Z) (m : zmap byte) (assembled : list byte)
    (next_index ub assembled_bytes : Z) : zmap byte * list byte * Z * Z :=
  match m with
  | [] => ([], assembled, next_index, ub)
  | (k, c) :: m' =>
      if (k =? next_index) && (assembled_bytes <? cap) then
        assemble_loop cap m' (assembled ++ [c]) (u64 (next_index + 1)) (u64 (ub - 1))
          (u64 (assembled_bytes + 1))
      else
        let '(m'', a, n, u) := assemble_loop cap m' assembled next_index ub assembled_bytes in
        ((k, c) :: m'', a, n, u)
  end.

Definition push_substring (data : list byte) (index : Z) (eof : bool) (r : StreamReassembler)
  : StreamReassembler :=
  let if_eof := if eof then true else sr_if_eof r in
  let '(start_index, subdata) := preprocess data index r in
  let '(m, ub) :=
    store_loop (sr_capacity r) start_index 0 subdata (sr_unassembled r) (sr_unassembled_bytes r) in
  let '(m', assembled, next_index, ub') :=
    assemble_loop (sr_capacity r) m [] (sr_next_index r) ub (buffer_size (sr_output r)) in
  let output := snd (write assembled (sr_output r)) in
  let output := if if_eof && (ub' =? 0) then end_input output else output in
  mkReassembler output (sr_capacity r) m' ub' if_eof next_index.

(** ** The two loops *)

(** The entries of consecutive bytes starting at index [n]. *)
Fixpoint run_at (n : Z) (bs : list byte) : zmap byte :=
  match bs with [] => [] | c :: bs' => (n, c) :: run_at (n + 1) bs' end.

Lemma length_run_at bs : forall n, length (run_at n bs) = length bs.
Proof. induction bs as [|c bs IH]; intros n; cbn; auto. Qed.

Lemma assemble_skip cap m : forall asm next ub ab,
  sorted_from next m -> zmap_find next m = None \/ cap <= ab ->
  assemble_loop cap m asm next ub ab = (m, asm, next, ub).
Proof.
  intros asm next ub ab Hs Hn.
  assert (Hm : Forall (fun kv => (kv.1 =? next) && (ab <? cap) = false) m).
  { apply Forall_forall. intros [k c] Hin. cbn. destruct (k =? next) eqn:E; [|done]. bool_prop.
    subst k. apply (find_In next) in Hin; [|done].
    destruct Hn as [Hn|Hn]; [congruence|]. apply Z.ltb_ge. done. }
  clear Hs Hn. induction Hm as [|[k c] m Hk _ IH]; [done|]. cbn in Hk |- *. by rewrite Hk, IH.
Qed.

(** The assembling loop takes the longest run of consecutive entries that fits
    and leaves the rest of the map alone. *)
Lemma assemble_loop_spec cap m : forall asm next ub ab,
  sorted_from next m -> 0 <= ab < 2 ^ 63 -> 0 <= cap < 2 ^ 63 ->
  0 <= next -> next + zlen m < 2 ^ 64 -> zlen m <= ub < 2 ^ 64 ->
  exists bs rest,
    m = run_at next bs ++ rest /\
    assemble_loop cap m asm next ub ab =
      (rest, asm ++ bs, next + zlen bs, ub - zlen bs) /\
    sorted_from (next + zlen bs) rest /\
    (bs = [] \/ ab + zlen bs <= cap) /\
    (zmap_find (next + zlen bs) rest = None \/ cap <= ab + zlen bs).
Proof.
  induction m as [|[k c] m IH]; intros asm next ub ab Hs Ha Hc Hn Hl Hu.
  { exists [], []. cbn. rewrite app_nil_r, Z.add_0_r, Z.sub_0_r.
    split_and!; auto with sponge. }
  destruct (decide (k = next /\ ab < cap)) as [[-> Hab]|Hno].
  - apply sorted_from_inv in Hs as [_ Hs]. rewrite length_cons in *.
    destruct (IH (asm ++ [c]) (next + 1) (ub - 1) (ab + 1)) as (bs & rest & Em & E & Hs' & Hcap & Hf);
      try lia; [done|].
    exists (c :: bs), rest. cbn [assemble_loop run_at app]. rewrite Z.eqb_refl.
    rewrite (proj2 (Z.ltb_lt _ _)) by done. cbn [andb].
    rewrite !u64_small by word_lia. rewrite E, <- app_assoc. cbn [app].
    replace (next + zlen (c :: bs)) with (next + 1 + zlen bs) by (cbn [length]; lia).
    split_and!; [by rewrite Em| |done|right; destruct Hcap as [->|]; cbn [length]; lia|].
    + f_equal. cbn [length]. lia.
    + destruct Hf; [by left|right; cbn [length]; lia].
  - exists [], ((k, c) :: m). cbn [app run_at length].
    assert (Hf : zmap_find next ((k, c) :: m) = None \/ cap <= ab).
    { destruct (Z.le_gt_cases cap ab); [by right|left].
      pose proof (sorted_from_inv _ _ _ _ Hs) as [Hle Hs']. cbn.
      destruct (next =? k) eqn:E; bool_prop; [by destruct Hno|].
      apply (find_below (k + 1)); [done|lia]. }
    rewrite (assemble_skip cap _ _ _ _ _ Hs Hf), app_nil_r, Z.add_0_r, Z.sub_0_r.
    rewrite ?Z.add_0_r. split_and!; auto.
Qed.

Lemma find_run_at bs : forall n k,
  zmap_find k (run_at n bs) = if (n <=? k) && (k <? n + zlen bs) then bs !! Z.to_nat (k - n) else None.
Proof.
  induction bs as [|c bs IH]; intros n k; cbn [run_at zmap_find length].
  - by destruct ((n <=? k) && _).
  - rewrite IH. destruct (k =? n) eqn:E; bool_prop.
    + subst. rewrite (proj2 (Z.leb_le _ _)), (proj2 (Z.ltb_lt _ _)), Z.sub_diag by lia. done.
    + destruct (n <=? k) eqn:E1, (n + 1 <=? k) eqn:E2; bool_prop; try lia; cbn [andb]; [|done].
      replace (n + 1 + zlen bs) with (n + Z.of_nat (S (length bs))) by lia.
      destruct (k <? _); [|done].
      replace (Z.to_nat (k - n)) with (S (Z.to_nat (k - (n + 1)))) by lia. done.
Qed.

(** The storing loop: what it stores comes from the substring, the byte count
    follows the map size, and the map never holds more than capacity + 1. *)
Section Store.
Context (cap start : Z) (P : Z * byte -> Prop).

Lemma store_loop_inv sub : forall i m ub m' ub' lo,
  store_loop cap start i sub m ub = (m', ub') ->
  sorted_from lo m -> 0 <= lo <= start + i -> 0 <= cap < 2 ^ 63 ->
  start + i + zlen sub < 2 ^ 64 -> zlen m <= cap + 1 -> ub = zlen m ->
  Forall P m -> (forall j c, sub !! j = Some c -> P (start + i + Z.of_nat j, c)) ->
  sorted_from lo m' /\ zlen m' <= cap + 1 /\ ub' = zlen m' /\ Forall P m'.
Proof.
  induction sub as [|c sub IH]; cbn [store_loop length];
    intros i m ub m' ub' lo E Hs Hlo Hcap Hst Hsz Hub HF HP.
  { injection E as <- <-. done. }
  assert (HPs : forall j d, sub !! j = Some d -> P (start + (i + 1) + Z.of_nat j, d)).
  { intros j d Hd. replace (start + (i + 1) + Z.of_nat j)
      with (start + i + Z.of_nat (S j)) by lia. by apply HP. }
  destruct (zlen m <=? cap) eqn:Eg; bool_prop; cbv zeta in E.
  - rewrite u64_small in E by word_lia.
    pose proof (length_set lo (start + i) c m Hs) as Hlen.
    eapply IH; [exact E| | | | | | | |exact HPs]; try lia.
    + apply sorted_set; [done|lia].
    + case_match; lia.
    + case_match; [lia|]. rewrite u64_small; word_lia.
    + apply Forall_set; [|done]. specialize (HP 0%nat c eq_refl).
      by rewrite Z.add_0_r in HP.
  - eapply IH; [exact E| | | | | | | |exact HPs]; try lia; done.
Qed.

(** With room for every byte, exactly the substring is stored. *)
Lemma store_loop_all sub hi : forall i m ub m' ub' lo,
  store_loop cap start i sub m ub = (m', ub') ->
  sorted_from lo m -> 0 <= lo <= start + i -> 0 <= cap < 2 ^ 63 ->
  start + i + zlen sub < 2 ^ 64 -> start + i + zlen sub <= hi ->
  lo <= hi -> hi - lo <= cap -> Forall (fun kv => kv.1 < hi) m ->
  Forall (fun kv => kv.1 < hi) m' /\
  forall k, zmap_find k m' =
    if (start + i <=? k) && (k <? start + i + zlen sub)
    then sub !! Z.to_nat (k - (start + i)) else zmap_find k m.
Proof.
  induction sub as [|c sub IH]; cbn [store_loop length];
    intros i m ub m' ub' lo E Hs Hlo Hcap Hst Hhi Hlh Hc HF.
  { injection E as <- <-. split; [done|]. intros k.
    destruct (_ && _) eqn:Er; [|done]. bool_prop. lia. }
  assert (Hsz : zlen m <= cap) by (pose proof (sorted_length lo hi m Hs HF); lia).
  rewrite (proj2 (Z.leb_le _ _)) in E by done.
  rewrite u64_small in E by word_lia.
  destruct (IH (i + 1) (zmap_set (start + i) c m) _ m' ub' lo E) as [HF' Hf];
    try lia; [by apply sorted_set; [|lia]|apply Forall_set; [cbn; lia|done]|].
  split; [done|]. intros k. rewrite Hf, find_set.
  destruct (k =? start + i) eqn:Ek; bool_prop.
  - subst k. rewrite Z.sub_diag.
    replace ((start + (i + 1) <=? start + i)) with false by (symmetry; apply Z.leb_gt; lia).
    cbn [andb]. rewrite (proj2 (Z.leb_le _ _)), (proj2 (Z.ltb_lt _ _)) by lia. done.
  - replace (start + (i + 1)) with (start + i + 1) by lia.
    destruct (start + i <=? k) eqn:E1, (start + i + 1 <=? k) eqn:E2; bool_prop; try lia; [|done].
    cbn [andb]. replace (start + i + 1 + zlen sub) with (start + i + Z.of_nat (S (length sub))) by lia.
    destruct (k <? _); [|done].
    replace (Z.to_nat (k - (start + i))) with (S (Z.to_nat (k - (start + i + 1)))) by lia. done.
Qed.
End Store.

(** ** The invariant

    [S] is the logical stream, [w] the bytes written to the output so far and
    [rd] how many of them the reader has consumed. *)

Definition from_stream (S : list byte) (kv : Z * byte) : Prop := S !! Z.to_nat kv.1 = Some kv.2.

Record Inv (S : list byte) (r : StreamReassembler) (w : list byte) (rd : nat) : Prop := {
  inv_rep : Represents (sr_output r) w rd;
  inv_cap : bs_capacity (sr_output r) = sr_capacity r;
  inv_nonneg : 0 <= sr_next_index r;
  inv_sorted : sorted_from (sr_next_index r) (sr_unassembled r);
  inv_data : Forall (from_stream S) (sr_unassembled r);
  inv_ub : sr_unassembled_bytes r = zlen (sr_unassembled r);
  inv_size : zlen (sr_unassembled r) <= sr_capacity r + 1;
  inv_prefix : w `prefix_of` S;
  inv_next : sr_next_index r <= zlen S;
  inv_written : if bs_input_ended (sr_output r)
                then zlen w <= sr_next_index r else zlen w = sr_next_index r
}.

Lemma inv_new S cap : 0 <= cap < 2 ^ 31 -> Inv S (StreamReassembler_new cap) [] 0.
Proof.
  intros. split; cbn; auto using prefix_nil with sponge; try lia.
  by apply new_represents.
Qed.

(** Bytes of the stream that are stored or written already. *)
Definition known (r : StreamReassembler) (k : Z) : Prop :=
  0 <= k < sr_next_index r \/ is_Some (zmap_find k (sr_unassembled r)).

(** Free space in front of the reader, the size of the receive window. *)
Definition window (r : StreamReassembler) : Z := sr_capacity r - buffer_size (sr_output r).

Lemma inv_window S r w rd :
  Inv S r w rd ->
  0 <= window r < 2 ^ 31 /\
  (0 <= buffer_size (sr_output r) /\ buffer_size (sr_output r) = zlen w - Z.of_nat rd) /\
  0 <= sr_capacity r < 2 ^ 31 /\ u64 (sr_capacity r - buffer_size (sr_output r)) = window r.
Proof.
  intros [R Hc _ _ _ _ _ _ _ _]. unfold window.
  rewrite (rep_buffer_size _ _ _ R), <- Hc.
  pose proof (rep_read _ _ _ R). pose proof (rep_room _ _ _ R). pose proof (rep_cap _ _ _ R).
  rewrite u64_small by word_lia. lia.
Qed.

Section Push.
Context (S : list byte) (HS : zlen S < 2 ^ 62).
Context (r : StreamReassembler) (w : list byte) (rd : nat) (HI : Inv S r w rd).
Context (data : list byte) (index : Z) (Hidx : is_u64 index).
Context (Hdata : excerpt_at S (Z.to_nat index) data).

Lemma preprocess_spec start sub :
  preprocess data index r = (start, sub) ->
  sr_next_index r <= start /\ start + zlen sub < 2 ^ 64 /\
  excerpt_at S (Z.to_nat start) sub.
Proof.
  destruct (inv_window _ _ _ _ HI) as (Hw & Hb & Hc & Ew). pose proof (inv_nonneg _ _ _ _ HI).
  pose proof (inv_next _ _ _ _ HI). unfold preprocess. rewrite Ew.
  assert (Hfit : forall st l, (start, sub) = (st, if window r <? zlen l then take (Z.to_nat (window r)) l else l) ->
    is_u64 st -> sr_next_index r <= st -> excerpt_at S (Z.to_nat st) l ->
    sr_next_index r <= start /\ start + zlen sub < 2 ^ 64 /\ excerpt_at S (Z.to_nat start) sub).
  { intros st l [= -> ->] Hst Hle He.
    assert (He' : excerpt_at S (Z.to_nat st) (if window r <? zlen l then take (Z.to_nat (window r)) l else l))
      by (case_if; [by apply excerpt_take|done]).
    revert He'. generalize (if window r <? zlen l then take (Z.to_nat (window r)) l else l).
    intros l' He'. split_and!; [done| |done].
    destruct l' as [|c l']; [cbn; word_lia|].
    pose proof (excerpt_length _ _ _ He' ltac:(done)) as Hl. word_lia. }
  destruct (index <? sr_next_index r) eqn:E; bool_prop; cbv zeta.
  - intros Heq. symmetry in Heq. eapply Hfit; [exact Heq|word_lia|lia|].
    rewrite u64_small by word_lia.
    case_if; [|apply excerpt_nil].
    replace (Z.to_nat (sr_next_index r))
      with (Z.to_nat index + Z.to_nat (sr_next_index r - index))%nat by word_lia.
    by apply excerpt_drop.
  - intros Heq. symmetry in Heq. eapply Hfit; [exact Heq|done|lia|].
    case_if; [apply excerpt_nil|done].
Qed.

(** What one call of [push_substring] does: the stored entries [m] split
    into a run [bs] that goes to the output and a remainder. *)
Lemma push_decomp eof :
  exists start sub m bs rest,
    preprocess data index r = (start, sub) /\
    store_loop (sr_capacity r) start 0 sub (sr_unassembled r) (sr_unassembled_bytes r)
      = (m, zlen m) /\
    m = run_at (sr_next_index r) bs ++ rest /\
    Forall (from_stream S) m /\ zlen m <= sr_capacity r + 1 /\
    sorted_from (sr_next_index r) m /\
    sorted_from (sr_next_index r + zlen bs) rest /\
    zlen bs <= window r /\
    (zmap_find (sr_next_index r + zlen bs) rest = None \/ window r <= zlen bs) /\
    push_substring data index eof r =
      let o := snd (write bs (sr_output r)) in
      let e := if eof then true else sr_if_eof r in
      mkReassembler (if e && (zlen rest =? 0) then end_input o else o)
        (sr_capacity r) rest (zlen rest) e (sr_next_index r + zlen bs).
Proof.
  destruct (inv_window _ _ _ _ HI) as (Hw & Hb & Hc & Ew). pose proof (inv_nonneg _ _ _ _ HI) as Hn0.
  pose proof (inv_next _ _ _ _ HI) as Hn1. pose proof (inv_sorted _ _ _ _ HI) as Hs.
  destruct (preprocess data index r) as [start sub] eqn:Ep.
  destruct (preprocess_spec _ _ Ep) as (Hst & Hlt & Hex).
  destruct (store_loop (sr_capacity r) start 0 sub (sr_unassembled r) (sr_unassembled_bytes r))
    as [m ub] eqn:Em.
  destruct (store_loop_inv (sr_capacity r) start (from_stream S) sub 0 _ _ m ub _ Em Hs)
    as (Hs' & Hsz & -> & HF); try lia.
  { apply (inv_size _ _ _ _ HI). }
  { apply (inv_ub _ _ _ _ HI). }
  { apply (inv_data _ _ _ _ HI). }
  { intros j c Hj. apply Hex in Hj. unfold from_stream. cbn.
    by replace (Z.to_nat (start + 0 + Z.of_nat j)) with (Z.to_nat start + j)%nat by lia. }
  destruct (assemble_loop_spec (sr_capacity r) m [] (sr_next_index r) (zlen m)
    (buffer_size (sr_output r)) Hs') as (bs & rest & Erun & Ea & Hsr & Hfit & Hmax);
    try lia; try (unfold window in *; lia).
  exists start, sub, m, bs, rest. split_and!; try done.
  - unfold window in *. destruct Hfit as [->|]; cbn [length]; lia.
  - unfold window. destruct Hmax; [by left|right; lia].
  - unfold push_substring. rewrite Ep, Em, Ea. cbn [app].
    assert (El : zlen m - zlen bs = zlen rest).
    { rewrite Erun, length_app, length_run_at. lia. }
    rewrite El. done.
Qed.
End Push.

(** The bytes a run takes from the stream. *)
Lemma run_excerpt S n bs rest :
  0 <= n -> Forall (from_stream S) (run_at n bs ++ rest) -> excerpt_at S (Z.to_nat n) bs.
Proof.
  intros Hn [HF _]%Forall_app j c Hj.
  revert n Hn HF j Hj. induction bs as [|d bs IH]; intros n Hn HF j Hj; [by rewrite lookup_nil in Hj|].
  cbn in HF. inversion HF as [|? ? Hd HF']; subst. destruct j as [|j].
  - injection Hj as ->. unfold from_stream in Hd. cbn in Hd. by rewrite Nat.add_0_r.
  - specialize (IH (n + 1) ltac:(lia) HF' j Hj).
    by replace (Z.to_nat n + Datatypes.S j)%nat with (Z.to_nat (n + 1) + j)%nat by lia.
Qed.

(** The output ends exactly when the end marker has been seen and no byte is
    left in the map. *)
Lemma push_ended data index eof r :
  let r' := push_substring data index eof r in
  sr_if_eof r' = (if eof then true else sr_if_eof r) /\
  bs_input_ended (sr_output r') =
    bs_input_ended (sr_output r) || (sr_if_eof r' && (sr_unassembled_bytes r' =? 0)).
Proof.
  unfold push_substring. destruct (preprocess data index r) as [st sub].
  destruct (store_loop _ _ _ _ _ _) as [m ub]. destruct (assemble_loop _ _ _ _ _ _) as [[[m' a] n] u].
  cbn [sr_if_eof sr_output sr_unassembled_bytes]. split; [done|].
  destruct (_ && _); cbn; rewrite ?write_ended; by destruct (bs_input_ended (sr_output r)).
Qed.

Section Safety.
Context (S : list byte) (HS : zlen S < 2 ^ 62).

(** Every call on an excerpt of the stream keeps the invariant, whatever its
    index and whether or not it carries the end marker. *)
Lemma push_inv r w rd data index eof :
  Inv S r w rd -> is_u64 index -> excerpt_at S (Z.to_nat index) data ->
  exists bs, Inv S (push_substring data index eof r) (w ++ bs) rd /\
    zlen bs = (if bs_input_ended (sr_output r) then 0
               else sr_next_index (push_substring data index eof r) - sr_next_index r) /\
    sr_next_index r <= sr_next_index (push_substring data index eof r).
Proof.
  intros HI Hidx Hex.
  destruct (push_decomp S HS r w rd HI data index Hidx Hex eof)
    as (start & sub & m & bs & rest & _ & _ & Erun & HF & Hsz & _ & Hsr & Hfit & _ & ->).
  destruct (inv_window S r w rd HI) as (Hw & Hb & Hc & Ew).
  pose proof (inv_rep _ _ _ _ HI) as R. pose proof (inv_nonneg _ _ _ _ HI) as Hn0.
  subst m. pose proof (run_excerpt S _ _ _ Hn0 HF) as Hbs.
  apply Forall_app in HF as [_ HF]. rewrite length_app, length_run_at in Hsz.
  destruct (write_represents _ _ _ R bs) as (_ & R' & Hcap & Hend & _).
  set (o := snd (write bs (sr_output r))) in *.
  assert (Hacc : accepted (sr_output r) bs = if bs_input_ended (sr_output r) then [] else bs).
  { unfold accepted. destruct (bs_input_ended (sr_output r)); [done|]. apply take_ge.
    unfold remaining_capacity. rewrite (inv_cap _ _ _ _ HI), Ew. lia. }
  rewrite Hacc in R'. exists (if bs_input_ended (sr_output r) then [] else bs).
  pose proof (inv_prefix _ _ _ _ HI) as Hpre. pose proof (inv_written _ _ _ _ HI) as Hwr.
  assert (Hpre' : (w ++ if bs_input_ended (sr_output r) then [] else bs) `prefix_of` S).
  { destruct (bs_input_ended (sr_output r)); [by rewrite app_nil_r|]. apply prefix_extend; [done|].
    by replace (length w) with (Z.to_nat (sr_next_index r)) by lia. }
  assert (Hnext : sr_next_index r + zlen bs <= zlen S).
  { destruct (decide (bs = [])) as [->|Hne]; [cbn; pose proof (inv_next _ _ _ _ HI); lia|].
    pose proof (excerpt_length _ _ _ Hbs Hne). lia. }
  assert (Hwr' : if bs_input_ended o then zlen (w ++ if bs_input_ended (sr_output r) then [] else bs)
                   <= sr_next_index r + zlen bs
                 else zlen (w ++ if bs_input_ended (sr_output r) then [] else bs)
                   = sr_next_index r + zlen bs).
  { rewrite Hend, length_app. destruct (bs_input_ended (sr_output r)); cbn [length]; lia. }
  split; [|cbn; destruct (bs_input_ended (sr_output r)); cbn [length]; lia].
  cbv zeta. generalize ((if eof then true else sr_if_eof r) && (zlen rest =? 0)) at 1. intros e.
  assert (Hcap' : bs_capacity (if e then end_input o else o) = sr_capacity r)
    by (rewrite <- (inv_cap _ _ _ _ HI), <- Hcap; by destruct e).
  split; cbn [sr_output sr_capacity sr_unassembled sr_unassembled_bytes sr_next_index];
    try done; try lia.
  - destruct e; [by apply end_input_represents|done].
  - destruct e; [cbn; destruct (bs_input_ended o); lia|done].
Qed.

(** Reading hands the reader the next bytes of what was written. *)
Lemma read_inv r w out len :
  Inv S r w (length out) -> out = take (length out) w -> 0 <= len ->
  let out' := out ++ fst (read len (stream_out r)) in
  Inv S (with_output (snd (read len (stream_out r))) r) w (length out') /\
  out' = take (length out') w.
Proof.
  intros HI Hout Hl. destruct (read_represents _ _ _ _ (inv_rep _ _ _ _ HI) Hout Hl) as (R' & Ho & Hc & He & _).
  split; [|done]. destruct HI. split; cbn [with_output sr_output sr_capacity sr_unassembled sr_unassembled_bytes sr_next_index];
    unfold stream_out in *; try done; [congruence|by rewrite He].
Qed.

(** A run: the reassembler together with everything its reader has taken. *)
Inductive step : StreamReassembler * list byte -> StreamReassembler * list byte -> Prop :=
| step_push r out data index eof :
    is_u64 index -> excerpt_at S (Z.to_nat index) data ->
    step (r, out) (push_substring data index eof r, out)
| step_read r out len :
    0 <= len ->
    step (r, out) (with_output (snd (read len (stream_out r))) r,
                   out ++ fst (read len (stream_out r)))
| step_error r out :
    step (r, out) (with_output (set_error (stream_out r)) r, out).

Lemma reachable_inv cap c :
  0 <= cap < 2 ^ 31 -> rtc step (StreamReassembler_new cap, []) c ->
  exists w, Inv S c.1 w (length c.2) /\ c.2 = take (length c.2) w.
Proof.
  intros Hcap. revert c.
  apply (rtc_ind_r (fun c => exists w, Inv S c.1 w (length c.2) /\ c.2 = take (length c.2) w)).
  { exists []. split; [by apply inv_new|done]. }
  intros c1 c2 _ Hstep (w & HI & Hout). destruct Hstep as [r out data index eof Hi Hd|r out len Hl|r out];
    cbn [fst snd] in *.
  - destruct (push_inv r w _ data index eof HI Hi Hd) as (bs & HI' & _).
    exists (w ++ bs). split; [done|].
    pose proof (rep_read _ _ _ (inv_rep _ _ _ _ HI)). by rewrite take_app_le by lia.
  - exists w. by apply read_inv.
  - exists w. split; [|done]. destruct HI. split; cbn; try done.
    by apply set_error_represents.
Qed.

Lemma push_capacity data index eof r : sr_capacity (push_substring data index eof r) = sr_capacity r.
Proof. unfold push_substring. by repeat case_match. Qed.

Lemma step_capacity c c' : rtc step c c' -> sr_capacity c'.1 = sr_capacity c.1.
Proof.
  induction 1 as [|c1 c2 c3 Hs _ IH]; [done|]. rewrite IH. destruct Hs; cbn; [apply push_capacity|done..].
Qed.

(** C6.  Safety of reassembly: whatever substrings of one stream arrive, in
    whatever order, with whatever overlaps and end markers, and however the
    reader and the resets interleave, the bytes the reader has taken followed
    by the bytes waiting in the output form a prefix of that stream.  The next
    index never passes the end of the stream and is the length of that prefix
    until the input has ended (it only grows afterwards); every stored byte is
    the stream's at its index and not below the next index;
    [unassembled_bytes] is the number of stored bytes and exceeds the
    capacity by at most one; and at most the capacity waits in the output. *)
Theorem reassembly_safe cap r out :
  0 <= cap < 2 ^ 31 -> rtc step (StreamReassembler_new cap, []) (r, out) ->
  (out ++ bs_buffer (stream_out r)) `prefix_of` S /\
  zlen out + buffer_size (stream_out r) <= get_next_index r <= zlen S /\
  (input_ended (stream_out r) = false -> get_next_index r = zlen out + buffer_size (stream_out r)) /\
  (forall k c, zmap_find k (sr_unassembled r) = Some c ->
     get_next_index r <= k /\ S !! Z.to_nat k = Some c) /\
  unassembled_bytes r = zlen (sr_unassembled r) /\ unassembled_bytes r <= cap + 1 /\
  buffer_size (stream_out r) <= cap.
Proof.
  intros Hcap Hr. destruct (reachable_inv cap (r, out) Hcap Hr) as (w & HI & Hout).
  pose proof (step_capacity _ _ Hr) as Ec. cbn in HI, Hout, Ec. unfold stream_out, get_next_index, unassembled_bytes, input_ended.
  destruct (inv_window _ _ _ _ HI) as (Hw & Hb & _). pose proof (rep_read _ _ _ (inv_rep _ _ _ _ HI)).
  pose proof (inv_written _ _ _ _ HI) as Hn. pose proof (inv_next _ _ _ _ HI). unfold window in Hw.
  split; [|split_and!].
  - rewrite (rep_buffer _ _ _ (inv_rep _ _ _ _ HI)). rewrite Hout at 1. rewrite take_drop. apply (inv_prefix _ _ _ _ HI).
  - destruct (bs_input_ended _); lia.
  - done.
  - intros E. rewrite E in Hn. lia.
  - intros k c E. pose proof (find_ge _ _ _ _ (inv_sorted _ _ _ _ HI) E).
    apply (find_In _ _ _ _ (inv_sorted _ _ _ _ HI)) in E. split; [done|].
    pose proof (inv_data _ _ _ _ HI) as HF. rewrite Forall_forall in HF. by apply HF in E.
  - apply (inv_ub _ _ _ _ HI).
  - rewrite (inv_ub _ _ _ _ HI), <- Ec. apply (inv_size _ _ _ _ HI).
  - lia.
Qed.
End Safety.

Lemma reassembly_safe_witness :
  let S := [x61; x62; x63; x64] in
  let r1 := push_substring [x63; x64] 2 true (StreamReassembler_new 8) in
  let r2 := push_substring [x61; x62; x63] 0 false r1 in
  ([] ++ bs_buffer (stream_out r2)) `prefix_of` S /\ bs_buffer (stream_out r2) = S.
Proof.
  cbv zeta. split; [|reflexivity].
  apply (reassembly_safe [x61; x62; x63; x64] ltac:(cbn; lia) 8); [lia|].
  eapply rtc_l; [apply (step_push _ _ _ [x63; x64] 2 true)|].
  { word_lia. }
  { intros [|[|[|j]]] c; vm_compute; congruence. }
  eapply rtc_l; [apply (step_push _ _ _ [x61; x62; x63] 0 false)|apply rtc_refl].
  { word_lia. }
  { intros [|[|[|[|j]]]] c; vm_compute; congruence. }
Defined.

(** ** Progress inside the window *)

(** Every stored byte lies inside the window. *)
Definition stored_in_window (r : StreamReassembler) : Prop :=
  Forall (fun kv => kv.1 < sr_next_index r + window r) (sr_unassembled r).

Definition fits_window (r : StreamReassembler) (data : list byte) (index : Z) : Prop :=
  index + zlen data <= sr_next_index r + window r.

Section Progress.
Context (S : list byte) (HS : zlen S < 2 ^ 62).

(** Inside the window nothing new is cut off. *)
Lemma preprocess_fits r w rd data index start sub :
  Inv S r w rd -> is_u64 index -> fits_window r data index ->
  preprocess data index r = (start, sub) ->
  (forall k, sr_next_index r <= k -> (start <= k < start + zlen sub <-> index <= k < index + zlen data)) /\
  (sub = [] \/ start + zlen sub <= sr_next_index r + window r).
Proof.
  intros HI Hidx Hfit. destruct (inv_window _ _ _ _ HI) as (Hw & Hb & Hc & Ew).
  pose proof (inv_nonneg _ _ _ _ HI). pose proof (inv_next _ _ _ _ HI).
  unfold preprocess, fits_window in *. rewrite Ew, (u64_small (_ + window r)) by word_lia.
  destruct (index <? sr_next_index r) eqn:E1; bool_prop.
  - rewrite u64_small by word_lia. cbv zeta.
    destruct (sr_next_index r - index <? zlen data) eqn:E2; bool_prop.
    + rewrite (proj2 (Z.ltb_ge _ _)) by (rewrite length_drop; lia).
      intros [= <- <-]. rewrite length_drop. split; [|right]; lia.
    + rewrite (proj2 (Z.ltb_ge _ _)) by (cbn; lia).
      intros [= <- <-]. cbn. split; [lia|by left].
  - destruct (sr_next_index r + window r <=? index) eqn:E2; bool_prop;
      (rewrite (proj2 (Z.ltb_ge _ _)) by (cbn; lia)); intros [= <- <-]; cbn; split;
      (lia || (by left) || (right; lia)).
Qed.

(** Inside the window the storing loop keeps every byte it is given. *)
Lemma store_known r w rd data index start sub m ub :
  Inv S r w rd -> stored_in_window r -> fits_window r data index ->
  sr_next_index r <= start -> start + zlen sub < 2 ^ 64 ->
  sub = [] \/ start + zlen sub <= sr_next_index r + window r ->
  store_loop (sr_capacity r) start 0 sub (sr_unassembled r) (sr_unassembled_bytes r) = (m, ub) ->
  Forall (fun kv => kv.1 < sr_next_index r + window r) m /\
  forall k, is_Some (zmap_find k m) <->
    start <= k < start + zlen sub \/ is_Some (zmap_find k (sr_unassembled r)).
Proof.
  intros HI HW Hfit Hst Hst64 Hsub Em. destruct (inv_window _ _ _ _ HI) as (Hw & Hb & Hc & _).
  pose proof (inv_nonneg _ _ _ _ HI) as Hn0. destruct Hsub as [->|Hsub].
  - cbn in Em. injection Em as <- _. split; [done|]. intros k. cbn. split; [by right|].
    intros [?|?]; [lia|done].
  - destruct (store_loop_all (sr_capacity r) start sub (sr_next_index r + window r) 0 _ _ _ _
      (sr_next_index r) Em) as [HFm Hf]; try lia; try (unfold window in *; lia).
    { apply (inv_sorted _ _ _ _ HI). }
    { done. }
    split; [done|]. intros k. rewrite Hf, Z.add_0_r.
    destruct ((start <=? k) && (k <? start + zlen sub)) eqn:Ek; bool_prop.
    + destruct (lookup_lt_is_Some_2 sub (Z.to_nat (k - start))) as [c ->]; [lia|].
      split; [by left|]. by eexists.
    + split; [by right|]. intros [?|?]; [|done]. apply andb_false_iff in Ek.
      destruct Ek; bool_prop; lia.
Qed.

Lemma find_run_app n bs rest k :
  sorted_from (n + zlen bs) rest ->
  is_Some (zmap_find k (run_at n bs ++ rest)) <->
  n <= k < n + zlen bs \/ is_Some (zmap_find k rest).
Proof.
  intros Hs. rewrite find_app, find_run_at.
  destruct ((n <=? k) && (k <? n + zlen bs)) eqn:E; bool_prop.
  - destruct (lookup_lt_is_Some_2 bs (Z.to_nat (k - n))) as [c ->]; [lia|].
    split; [by left|]. by eexists.
  - split; [by right|]. intros [Hk|?]; [|done]. apply andb_false_iff in E.
    destruct E; bool_prop; lia.
Qed.

(** A push inside the window makes exactly its own bytes known, keeps the
    stored bytes in the window, and moves the next index to the first byte
    that is not known. *)
Lemma push_known r w rd data index eof :
  Inv S r w rd -> stored_in_window r -> is_u64 index ->
  excerpt_at S (Z.to_nat index) data -> fits_window r data index ->
  let r' := push_substring data index eof r in
  (forall k, 0 <= k -> (known r' k <-> known r k \/ index <= k < index + zlen data)) /\
  ~ known r' (sr_next_index r') /\ stored_in_window r' /\
  sr_next_index r <= sr_next_index r'.
Proof.
  intros HI HW Hidx Hex Hfit r'.
  destruct (inv_window _ _ _ _ HI) as (Hw & Hb & Hc & Ew).
  pose proof (inv_nonneg _ _ _ _ HI) as Hn0. pose proof (inv_next _ _ _ _ HI) as Hn1.
  destruct (push_inv S HS r w rd data index eof HI Hidx Hex) as (bs' & HI' & Hbs' & Hmono).
  destruct (push_decomp S HS r w rd HI data index Hidx Hex eof)
    as (start & sub & m & bs & rest & Ep & Em & Erun & HF & Hsz & Hsm & Hsr & Hlen & Hmax & Er').
  fold r' in Er', HI', Hbs', Hmono.
  assert (Hnext : sr_next_index r' = sr_next_index r + zlen bs) by (rewrite Er'; done).
  assert (Hrest : sr_unassembled r' = rest) by (rewrite Er'; done).
  destruct (preprocess_fits r w rd data index start sub HI Hidx Hfit Ep) as [Hrange Hsub].
  destruct (preprocess_spec S HS r w rd HI data index Hidx Hex start sub Ep) as (Hst & Hst64 & _).
  set (hi := sr_next_index r + window r) in *.
  destruct (store_known r w rd data index start sub m (zlen m) HI HW Hfit Hst Hst64 Hsub Em)
    as [HFm Hfm]. fold hi in HFm.
  assert (Hnone : zmap_find (sr_next_index r + zlen bs) rest = None).
  { destruct Hmax as [?|Hmax]; [done|].
    destruct (zmap_find _ rest) as [c|] eqn:Ef; [|done]. exfalso.
    apply (find_In _ _ _ _ Hsr) in Ef. rewrite Erun in HFm. apply Forall_app in HFm as [_ HFr].
    rewrite Forall_forall in HFr. apply HFr in Ef. cbn in Ef. unfold hi in Ef. lia. }
  split_and!.
  - intros k Hk. unfold known. rewrite Hnext, Hrest.
    specialize (Hfm k). rewrite Erun, (find_run_app _ _ _ k Hsr) in Hfm.
    destruct (Z.lt_ge_cases k (sr_next_index r)) as [Hlt|Hge].
    + split; intros _; left; lia.
    + specialize (Hrange k Hge). rewrite Hrange in Hfm.
      assert (0 <= k < sr_next_index r + zlen bs <->
        sr_next_index r <= k < sr_next_index r + zlen bs) by lia.
      assert (~ 0 <= k < sr_next_index r) by lia. tauto.
  - unfold known. rewrite Hnext, Hrest, Hnone. intros [?|[? [=]]]. lia.
  - unfold stored_in_window. rewrite Hrest. rewrite Erun in HFm.
    apply Forall_app in HFm as [_ HFr]. eapply Forall_impl; [exact HFr|].
    intros kv Hkv. cbn in Hkv. eapply Z.lt_le_trans; [exact Hkv|]. unfold hi.
    destruct (inv_window _ _ _ _ HI') as (_ & Hb' & _). unfold window.
    replace (sr_capacity r') with (sr_capacity r) by (rewrite Er'; done).
    rewrite length_app in Hb'. destruct (bs_input_ended (sr_output r)); lia.
  - lia.
Qed.

(** ** Complete delivery from a well-behaved peer *)

(** A push the peer is entitled to: an excerpt inside the window, with the
    end marker only on the excerpt that reaches the end of the stream and,
    if it is empty, only once everything before it has been assembled. *)
Definition good_push (r : StreamReassembler) (data : list byte) (index : Z) (eof : bool) : Prop :=
  is_u64 index /\ excerpt_at S (Z.to_nat index) data /\ fits_window r data index /\
  (eof = true -> index + zlen data = zlen S /\ (data <> [] \/ index <= sr_next_index r)).

(** The history of pushes, the reassembler, and what the reader has taken. *)
Inductive good (cap : Z) : list (list byte * Z * bool) -> StreamReassembler -> list byte -> Prop :=
| good_new : good cap [] (StreamReassembler_new cap) []
| good_push_step hist r out data index eof :
    good cap hist r out -> good_push r data index eof ->
    good cap ((data, index, eof) :: hist) (push_substring data index eof r) out
| good_read_step hist r out len :
    good cap hist r out -> 0 <= len ->
    good cap hist (with_output (snd (read len (stream_out r))) r)
      (out ++ fst (read len (stream_out r))).

Definition covered (hist : list (list byte * Z * bool)) (k : Z) : Prop :=
  exists data index eof, (data, index, eof) ∈ hist /\ index <= k < index + zlen data.

Definition eof_sent (hist : list (list byte * Z * bool)) : Prop :=
  exists data index, (data, index, true) ∈ hist.

(** What holds after every good history. *)
Record Good (hist : list (list byte * Z * bool)) (r : StreamReassembler) (w out : list byte) : Prop := {
  good_inv : Inv S r w (length out);
  good_out : out = take (length out) w;
  good_window : stored_in_window r;
  good_known : forall k, 0 <= k -> (known r k <-> covered hist k);
  good_first : ~ known r (sr_next_index r);
  good_if_eof : sr_if_eof r = true <-> eof_sent hist;
  good_last : sr_if_eof r = true -> sr_next_index r = zlen S \/ known r (zlen S - 1);
  good_written : zlen w = sr_next_index r;
  good_ended : bs_input_ended (sr_output r) = true <->
    sr_if_eof r = true /\ sr_next_index r = zlen S
}.

Lemma covered_cons data index eof hist k :
  covered ((data, index, eof) :: hist) k <-> index <= k < index + zlen data \/ covered hist k.
Proof.
  unfold covered. split.
  - intros (d & i & e & [[= -> -> ->]|Hin]%elem_of_cons & Hk); [by left|right; eauto].
  - intros [Hk|(d & i & e & Hin & Hk)]; [by exists data, index, eof; split; [left|]|].
    exists d, i, e. split; [by right|done].
Qed.

(** Everything is assembled exactly when the map is empty, once the last byte
    is known. *)
Lemma assembled_iff r w rd :
  Inv S r w rd -> sr_next_index r = zlen S \/ known r (zlen S - 1) ->
  sr_unassembled_bytes r = 0 <-> sr_next_index r = zlen S.
Proof.
  intros HI Hl. rewrite (inv_ub _ _ _ _ HI). pose proof (inv_next _ _ _ _ HI).
  pose proof (inv_sorted _ _ _ _ HI) as Hs. pose proof (inv_data _ _ _ _ HI) as HF.
  unfold known in Hl. destruct (sr_unassembled r) as [|[k c] m].
  - cbn in *. split; [|done]. intros _. destruct Hl as [?|[?|[? [=]]]]; lia.
  - split; [done|]. intros E. apply sorted_from_inv in Hs as [Hk _].
    inversion HF as [|? ? Hd _]; subst. unfold from_stream in Hd. cbn in Hd.
    apply lookup_lt_Some in Hd. lia.
Qed.

Lemma Good_push hist r w out data index eof :
  Good hist r w out -> good_push r data index eof ->
  exists bs, Good ((data, index, eof) :: hist) (push_substring data index eof r) (w ++ bs) out.
Proof.
  intros [HI Hout HW Hk Hf He Hl Hwr Hend] (Hidx & Hex & Hfit & Heof).
  destruct (push_inv S HS r w _ data index eof HI Hidx Hex) as (bs & HI' & Hbs & Hmono).
  destruct (push_known r w _ data index eof HI HW Hidx Hex Hfit) as (Hk' & Hf' & HW' & _).
  destruct (push_ended data index eof r) as [He' Hend'].
  set (r' := push_substring data index eof r) in *. clearbody r'.
  pose proof (inv_next _ _ _ _ HI') as Hn'. pose proof (inv_nonneg _ _ _ _ HI) as Hn0.
  assert (Hl' : sr_if_eof r' = true -> sr_next_index r' = zlen S \/ known r' (zlen S - 1)).
  { rewrite He'. destruct eof.
    - intros _. destruct (Heof eq_refl) as [Hlen [Hne|Hle]]; [right|].
      + pose proof (excerpt_length _ _ _ Hex Hne). destruct data; [done|]. cbn [length] in *.
        apply Hk'; [word_lia|]. right. cbn [length]. lia.
      + destruct (decide (data = [])) as [->|Hne]; [left; cbn in Hlen; lia|right].
        destruct data; [done|]. cbn [length] in *. apply Hk'; [word_lia|]. right. cbn [length]. lia.
    - intros E. destruct (Hl E) as [?|Hkn]; [left; lia|].
      destruct (Z.lt_ge_cases (zlen S - 1) 0); [left; lia|right]. apply Hk'; [lia|]. by left. }
  assert (Hwr' : zlen (w ++ bs) = sr_next_index r').
  { rewrite length_app. destruct (bs_input_ended (sr_output r)); [|lia].
    destruct Hend as [Hend _]. destruct Hend as [_ Hend]; [done|]. lia. }
  exists bs. split; try done.
  - pose proof (rep_read _ _ _ (inv_rep _ _ _ _ HI)). by rewrite take_app_le by lia.
  - intros k Hk0. rewrite (Hk' k Hk0), (Hk k Hk0), covered_cons. tauto.
  - rewrite He'. unfold eof_sent in *. destruct eof.
    + split; [|done]. intros _. exists data, index. by left.
    + rewrite He. split.
      * intros (d & i & Hin). exists d, i. by right.
      * intros (d & i & [[=]|Hin]%elem_of_cons). by exists d, i.
  - rewrite Hend'. rewrite orb_true_iff, andb_true_iff, Z.eqb_eq. split.
    + intros [E|[E1 E2]].
      * apply Hend in E as [E1 E2]. split; [rewrite He'; by destruct eof|lia].
      * split; [done|]. apply (assembled_iff r' _ _ HI'); auto.
    + intros [E1 E2]. right. split; [done|]. apply (assembled_iff r' _ _ HI'); auto.
Qed.

Lemma Good_read hist r w out len :
  Good hist r w out -> 0 <= len ->
  Good hist (with_output (snd (read len (stream_out r))) r) w
    (out ++ fst (read len (stream_out r))).
Proof.
  intros [HI Hout HW Hk Hf He Hl Hwr Hend] Hlen.
  destruct (read_inv S r w out len HI Hout Hlen) as [HI' Hout'].
  destruct (pop_represents _ _ _ (inv_rep _ _ _ _ HI) len Hlen) as (R' & _ & Hended & _).
  split; try done.
  - unfold stored_in_window, window in *. cbn [with_output sr_unassembled sr_next_index sr_capacity sr_output read snd].
    eapply Forall_impl; [exact HW|]. intros kv Hkv. cbn in Hkv.
    unfold stream_out. rewrite (rep_buffer_size _ _ _ R').
    rewrite (rep_buffer_size _ _ _ (inv_rep _ _ _ _ HI)) in Hkv. lia.
  - cbn. unfold stream_out. by rewrite Hended.
Qed.

Lemma good_Good cap hist r out :
  0 <= cap < 2 ^ 31 -> good cap hist r out -> exists w, Good hist r w out.
Proof.
  intros Hcap. induction 1 as [|hist r out data index eof _ [w IH] Hp|hist r out len _ [w IH] Hl].
  - exists []. split.
    + by apply inv_new.
    + done.
    + by constructor.
    + intros k Hk. split; [intros [?|[? [=]]]; cbn in *; lia|].
      intros (d & i & e & Hin & _). by apply elem_of_nil in Hin.
    + intros [?|[? [=]]]; cbn in *; lia.
    + split; [done|]. intros (d & i & Hin). by apply elem_of_nil in Hin.
    + done.
    + done.
    + split; [done|]. by intros [? _].
  - destruct (Good_push _ _ _ _ _ _ _ IH Hp) as [bs Hg]. by exists (w ++ bs).
  - exists w. by apply Good_read.
Qed.

(** C7.  Progress: after any history of pushes inside the window, interleaved
    with reads, the next expected index is the first byte of the stream that
    no push has covered, exactly the covered bytes beyond it are held for
    later, and [unassembled_bytes] counts them. *)
Theorem reassembly_progress cap hist r out :
  0 <= cap < 2 ^ 31 -> good cap hist r out ->
  ~ covered hist (get_next_index r) /\
  (forall k, 0 <= k < get_next_index r -> covered hist k) /\
  (forall k, get_next_index r <= k ->
     (covered hist k <-> is_Some (zmap_find k (sr_unassembled r)))) /\
  unassembled_bytes r = zlen (sr_unassembled r) /\
  zlen out + buffer_size (stream_out r) = get_next_index r.
Proof.
  intros Hcap [w [HI Hout HW Hk Hf He Hl Hwr Hend]]%good_Good; [|done].
  pose proof (inv_nonneg _ _ _ _ HI). unfold get_next_index. split_and!.
  - by rewrite <- Hk.
  - intros k Hk0. apply Hk; [lia|]. left. lia.
  - intros k Hk0. rewrite <- Hk by lia. unfold known. split; [|by right].
    intros [?|?]; [lia|done].
  - apply (inv_ub _ _ _ _ HI).
  - destruct (inv_window _ _ _ _ HI) as (_ & Hb & _). unfold stream_out. lia.
Qed.

(** C5.  Complete delivery: once the pushes of a well-behaved peer have
    covered the whole stream and carried the end marker, the reader has, or
    can still read, exactly the stream, and its input has ended; and the
    input never ends before that. *)
Theorem reassembly_complete cap hist r out :
  0 <= cap < 2 ^ 31 -> good cap hist r out ->
  (input_ended (stream_out r) = true <->
     eof_sent hist /\ forall k, 0 <= k < zlen S -> covered hist k) /\
  (input_ended (stream_out r) = true -> out ++ bs_buffer (stream_out r) = S).
Proof.
  intros Hcap [w [HI Hout HW Hk Hf He Hl Hwr Hend]]%good_Good; [|done].
  unfold input_ended, stream_out. pose proof (inv_next _ _ _ _ HI) as Hn.
  pose proof (inv_nonneg _ _ _ _ HI) as Hn0. split.
  - rewrite Hend, He. split; intros [Hs Hc]; (split; [done|]).
    + intros k Hk0. apply Hk; [lia|]. left. lia.
    + destruct (Z.lt_ge_cases (sr_next_index r) (zlen S)); [|lia].
      exfalso. apply Hf. apply Hk; [lia|]. apply Hc. lia.
  - intros [_ En]%Hend. rewrite (rep_buffer _ _ _ (inv_rep _ _ _ _ HI)).
    rewrite Hout at 1. rewrite take_drop.
    destruct (inv_prefix _ _ _ _ HI) as [k Ek]. rewrite Ek in *.
    rewrite length_app in En. destruct k; [by rewrite app_nil_r|]. cbn in En. lia.
Qed.
End Progress.

Section Example.
(** A two-segment exchange: the tail with the end marker first, then the head. *)
Let S := [x61; x62; x63; x64].
Let hist : list (list byte * Z * bool) := [([x61; x62; x63], 0, false); ([x63; x64], 2, true)].
Let r := push_substring [x61; x62; x63] 0 false
  (push_substring [x63; x64] 2 true (StreamReassembler_new 8)).

Lemma good_example : good S 8 hist r [].
Proof.
  constructor; [constructor; [constructor|]|].
  - split_and!; [word_lia| |vm_compute; done|intros _; split; [done|by left]].
    intros [|[|[|j]]] c; vm_compute; congruence.
  - split_and!; [word_lia| |vm_compute; done|done].
    intros [|[|[|[|j]]]] c; vm_compute; congruence.
Qed.

Lemma reassembly_progress_witness : ~ covered hist (get_next_index r) /\ get_next_index r = 4.
Proof.
  split; [|reflexivity].
  apply (reassembly_progress S ltac:(cbn; lia) 8 hist r []); [lia|exact good_example].
Defined.

Lemma reassembly_complete_witness :
  input_ended (stream_out r) = true /\ [] ++ bs_buffer (stream_out r) = S.
Proof.
  split; [reflexivity|].
  apply (reassembly_complete S ltac:(cbn; lia) 8 hist r []); [lia|exact good_example|reflexivity].
Defined.
End Example.

(** ** Behaviour outside that discipline *)

Lemma push_empty_eof r index :
  sr_unassembled r = [] -> sr_unassembled_bytes r = 0 ->
  push_substring [] index true r =
    mkReassembler (end_input (sr_output r)) (sr_capacity r) [] 0 true (sr_next_index r).
Proof.
  intros Hm Hub. unfold push_substring.
  assert (Ep : snd (preprocess [] index r) = []).
  { unfold preprocess. rewrite drop_nil.
    destruct (index <? _); [destruct (_ <? zlen [])|destruct (_ <=? index)]; cbn [snd];
      rewrite take_nil; by destruct (_ <? zlen []). }
  destruct (preprocess [] index r) as [st sub]. cbn in Ep. subst sub.
  cbn [store_loop]. rewrite Hm, Hub. cbn [assemble_loop]. by rewrite write_nil.
Qed.

(** Nothing is written to an output that has ended. *)
Lemma push_frozen data index eof r :
  bs_input_ended (sr_output r) = true -> sr_output (push_substring data index eof r) = sr_output r.
Proof.
  intros E. unfold push_substring. destruct (preprocess data index r) as [st sub].
  destruct (store_loop _ _ _ _ _ _) as [m ub]. destruct (assemble_loop _ _ _ _ _ _) as [[[m' a] n] u].
  cbn [sr_output]. unfold write. rewrite E. cbn [snd]. destruct (_ && _); [|done].
  destruct (sr_output r). cbn in *. by subst.
Qed.

(** An empty substring that carries the end marker ends the output as soon
    as nothing is waiting in the map, whatever its index: bytes below that
    index that arrive later advance the next index but are never written. *)
Theorem eof_ignores_index r index data index' eof' :
  sr_unassembled r = [] -> sr_unassembled_bytes r = 0 ->
  let r1 := push_substring [] index true r in
  input_ended (stream_out r1) = true /\
  get_next_index r1 = get_next_index r /\
  bs_buffer (stream_out (push_substring data index' eof' r1)) = bs_buffer (stream_out r).
Proof.
  intros Hm Hub r1. subst r1. rewrite push_empty_eof by done. unfold stream_out.
  split_and!; [done..|]. by rewrite push_frozen.
Qed.

Lemma eof_ignores_index_witness :
  let r1 := push_substring [] 2 true (StreamReassembler_new 8) in
  input_ended (stream_out r1) = true /\ get_next_index r1 = 0 /\
  bs_buffer (stream_out (push_substring [x61; x62] 0 false r1)) = [].
Proof.
  exact (eof_ignores_index (StreamReassembler_new 8) 2 [x61; x62] 0 false eq_refl eq_refl).
Defined.

(** A map that holds more than the capacity, and not the next byte. *)
Record Overfull (r : StreamReassembler) : Prop := {
  of_size : 0 <= sr_capacity r < zlen (sr_unassembled r);
  of_ub : sr_unassembled_bytes r = zlen (sr_unassembled r);
  of_sorted : sorted_from (sr_next_index r) (sr_unassembled r);
  of_missing : zmap_find (sr_next_index r) (sr_unassembled r) = None
}.

Lemma store_loop_full cap start sub : forall i m ub,
  cap < zlen m -> store_loop cap start i sub m ub = (m, ub).
Proof.
  induction sub as [|c sub IH]; intros i m ub Hm; [done|].
  cbn. rewrite (proj2 (Z.leb_gt _ _)) by done. by apply IH.
Qed.

Lemma overfull_push data index eof r :
  Overfull r -> push_substring data index eof r =
    mkReassembler (sr_output r) (sr_capacity r) (sr_unassembled r) (sr_unassembled_bytes r)
      (if eof then true else sr_if_eof r) (sr_next_index r).
Proof.
  intros [Hs Hub Ho Hn]. unfold push_substring. destruct (preprocess data index r) as [start sub].
  rewrite store_loop_full by lia. rewrite assemble_skip by (done || by left). rewrite write_nil.
  rewrite Hub, (proj2 (Z.eqb_neq _ _)) by lia. by rewrite andb_false_r.
Qed.

(** Storing bytes beyond all the stored ones, as long as there is room. *)
Lemma store_loop_fresh cap start sub lo : forall i m ub m' ub',
  store_loop cap start i sub m ub = (m', ub') -> sorted_from lo m -> 0 <= lo <= start + i ->
  Forall (fun kv => kv.1 < start + i) m -> zlen m + zlen sub <= cap + 1 -> start + i + zlen sub < 2 ^ 64 ->
  zlen m' = zlen m + zlen sub.
Proof.
  induction sub as [|c sub IH]; cbn [store_loop length]; intros i m ub m' ub' E Hs Hlo HF Hsz H64.
  { injection E as <- _. lia. }
  rewrite (proj2 (Z.leb_le _ _)) in E by lia. cbv zeta in E. rewrite u64_small in E by word_lia.
  pose proof (length_set lo (start + i) c m Hs) as Hl.
  destruct (zmap_find (start + i) m) as [d|] eqn:Ef.
  { apply (find_In lo _ _ _ Hs) in Ef. rewrite Forall_forall in HF. apply HF in Ef. cbn in Ef. lia. }
  rewrite (IH _ _ _ _ _ E); try lia; [by apply sorted_set; [|lia]|].
  apply Forall_set; [cbn; lia|]. eapply Forall_impl; [exact HF|]. cbn. lia.
Qed.
(** Nothing a peer or a reader does changes it. *)
Definition stuck (r : StreamReassembler) (c : StreamReassembler * list byte) : Prop :=
  Overfull c.1 /\ sr_capacity c.1 = sr_capacity r /\ sr_unassembled c.1 = sr_unassembled r /\
  sr_next_index c.1 = sr_next_index r /\ bs_buffer (sr_output c.1) = [] /\
  bs_input_ended (sr_output c.1) = false /\ c.2 = [].

Lemma read_empty len o : bs_buffer o = [] -> 0 <= len -> read len o = ([], o).
Proof.
  intros E Hl. unfold read, pop_output, peek_output, buffer_size. rewrite E. cbn [length].
  by rewrite Z.min_r by lia.
Qed.

Lemma stuck_steps S r c c' : rtc (step S) c c' -> stuck r c -> stuck r c'.
Proof.
  induction 1 as [|c1 c2 c3 Hs _ IH]; [done|]. intros Hst. apply IH.
  destruct Hs as [r1 out data index eof _ _|r1 out len Hl|r1 out]; destruct Hst as (Ho & Hst).
  - cbn [fst snd] in *. unfold stuck. cbn [fst snd]. rewrite overfull_push by done. split; [by destruct Ho|done].
  - destruct Hst as (Hc & Hm & Hn & Hb & He & Hout). cbn [fst snd] in *.
    unfold stuck. rewrite (read_empty len (stream_out r1)) by done. cbn. rewrite Hout.
    split_and!; try done. by destruct Ho.
  - split; [by destruct Ho|done].
Qed.

(** The two pushes: all but the first byte of a window and one byte of the next,
    then three bytes from the last byte of the window on. *)
Section Overfill.
Context (S : list byte) (cap : Z) (Hcap : 3 <= cap < 2 ^ 31) (HS : cap + 2 <= zlen S).

Definition overfilled : StreamReassembler :=
  push_substring (take 3 (drop (Z.to_nat (cap - 1)) S)) (cap - 1) false
    (push_substring (take (Z.to_nat cap) (drop 1 S)) 1 false (StreamReassembler_new cap)).

Lemma preprocess_new index data r :
  sr_capacity r = cap -> sr_next_index r = 0 -> bs_buffer (sr_output r) = [] ->
  0 <= index < cap -> zlen data <= cap -> preprocess data index r = (index, data).
Proof.
  intros Ec En Eb Hi Hl. unfold preprocess, buffer_size. rewrite Ec, En, Eb. cbn [length].
  rewrite (u64_small (cap - _)), (u64_small (0 + _)) by word_lia.
  rewrite (proj2 (Z.ltb_ge _ _)), (proj2 (Z.leb_gt _ _)) by lia. by rewrite (proj2 (Z.ltb_ge _ _)) by lia.
Qed.

(** What is stored after the first push. *)
Lemma overfill_first : exists m,
  push_substring (take (Z.to_nat cap) (drop 1 S)) 1 false (StreamReassembler_new cap) =
    mkReassembler (ByteStream_new cap) cap m cap false 0 /\
  sorted_from 1 m /\ zlen m = cap /\ Forall (fun kv => kv.1 < cap + 1) m /\
  forall k, 1 <= k <= cap -> is_Some (zmap_find k m).
Proof.
  set (sub := take (Z.to_nat cap) (drop 1 S)).
  assert (Hsub : zlen sub = cap) by (unfold sub; rewrite length_take, length_drop; lia).
  unfold push_substring. rewrite preprocess_new by (done || lia).
  cbn [StreamReassembler_new sr_capacity sr_unassembled sr_unassembled_bytes sr_next_index sr_output sr_if_eof].
  destruct (store_loop cap 1 0 sub [] 0) as [m ub] eqn:Em.
  destruct (store_loop_inv cap 1 (fun _ => True) sub 0 [] 0 m ub 1 Em) as (Hs & _ & Hub & _);
    [constructor|cbn; lia..|done|done|].
  pose proof (store_loop_fresh cap 1 sub 1 0 [] 0 m ub Em ltac:(constructor) ltac:(lia) ltac:(done)
    ltac:(cbn; lia) ltac:(lia)) as Hl. cbn in Hl.
  destruct (store_loop_all cap 1 sub (cap + 1) 0 [] 0 m ub 1 Em) as [HF Hf]; [constructor|lia..|done|].
  rewrite assemble_skip by ((eapply sorted_from_weaken; [|exact Hs]; lia) || (left; apply (find_below 1); [done|lia])).
  rewrite write_nil, Hub, Hl, Hsub. exists m. cbn [andb]. split_and!; try done; [lia|].
  intros k Hk. rewrite Hf, (proj2 (Z.leb_le _ _)), (proj2 (Z.ltb_lt _ _)) by lia. cbn [andb].
  apply lookup_lt_is_Some. lia.
Qed.

Lemma overfilled_stuck : stuck overfilled (overfilled, []) /\ zlen (sr_unassembled overfilled) = cap + 1 /\
  sr_next_index overfilled = 0 /\ sr_capacity overfilled = cap.
Proof.
  destruct overfill_first as (m & E & Hs & Hl & HF & Hk). unfold overfilled. rewrite E. clear E.
  assert (Hd : exists a b c, take 3 (drop (Z.to_nat (cap - 1)) S) = [a; b; c]).
  { assert (H3 : length (take 3 (drop (Z.to_nat (cap - 1)) S)) = 3%nat) by (rewrite length_take, length_drop; lia).
    destruct (take 3 _) as [|a [|b [|c [|]]]]; try done. by exists a, b, c. }
  destruct Hd as (a & b & c & ->).
  unfold push_substring. rewrite preprocess_new by (done || cbn; lia).
  cbn [sr_capacity sr_unassembled sr_unassembled_bytes sr_next_index sr_output sr_if_eof store_loop]. cbv zeta.
  rewrite !(u64_small (cap - 1 + _)) by word_lia.
  set (m1 := zmap_set (cap - 1 + 0) a m). set (m2 := zmap_set (cap - 1 + (0 + 1)) b m1).
  set (m3 := zmap_set (cap - 1 + (0 + 1 + 1)) c m2).
  assert (Hs1 : sorted_from 1 m1) by (apply sorted_set; [done|lia]).
  assert (Hs2 : sorted_from 1 m2) by (apply sorted_set; [done|lia]).
  assert (Hs3 : sorted_from 1 m3) by (apply sorted_set; [done|lia]).
  assert (F1 : is_Some (zmap_find (cap - 1 + 0) m)) by (apply Hk; lia).
  assert (F2 : is_Some (zmap_find (cap - 1 + (0 + 1)) m1)).
  { unfold m1. rewrite find_set. case_if; [done|]. apply Hk. lia. }
  assert (F3 : zmap_find (cap - 1 + (0 + 1 + 1)) m2 = None).
  { unfold m2, m1. rewrite !find_set, !(proj2 (Z.eqb_neq _ _)) by lia.
    destruct (zmap_find (cap - 1 + (0 + 1 + 1)) m) as [d|] eqn:Ed; [|done]. apply (find_In 1) in Ed; [|done].
    rewrite Forall_forall in HF. apply HF in Ed. cbn in Ed. lia. }
  pose proof (length_set 1 (cap - 1 + 0) a m Hs) as L1. pose proof (length_set 1 (cap - 1 + (0 + 1)) b m1 Hs1) as L2.
  pose proof (length_set 1 (cap - 1 + (0 + 1 + 1)) c m2 Hs2) as L3. fold m1 m2 m3 in L1, L2, L3.
  destruct F1 as [x1 F1], F2 as [x2 F2]. rewrite F1 in L1 |- *. rewrite F2 in L2. rewrite F3 in L3.
  rewrite (proj2 (Z.leb_le (zlen m) _)), F2 by lia. rewrite (proj2 (Z.leb_le (zlen m1) _)), F3 by lia.
  rewrite (proj2 (Z.leb_le (zlen m2) _)) by lia. fold m3.
  assert (H0 : zmap_find 0 m3 = None) by (apply (find_below 1); [done|lia]).
  assert (Hs0 : sorted_from 0 m3) by (eapply sorted_from_weaken; [|exact Hs3]; lia).
  rewrite assemble_skip by (done || by left). rewrite write_nil, u64_small by word_lia. cbn [andb].
  clearbody m3. unfold stuck. split_and!; try done; [|cbn; lia].
  split; cbn [sr_capacity sr_unassembled sr_unassembled_bytes sr_next_index fst]; [lia..|done|done].
Qed.
End Overfill.

(** C36.  A reassembler can be filled beyond its capacity and is then stuck: for
    every capacity from 3 on and every stream that is two bytes longer, two pushes
    of parts of the stream that begin inside the window leave capacity + 1 bytes
    in the map with the first byte of the stream missing, and from then on,
    whatever parts of the stream are pushed, the missing byte included, and
    whatever the reader does, the map and the next index stay the same, nothing
    is ever delivered and the input never ends. *)
Theorem overfull_stuck S cap r out :
  3 <= cap < 2 ^ 31 -> cap + 2 <= zlen S < 2 ^ 62 -> rtc (step S) (overfilled S cap, []) (r, out) ->
  rtc (step S) (StreamReassembler_new cap, []) (overfilled S cap, []) /\
  unassembled_bytes r = cap + 1 /\ sr_unassembled r = sr_unassembled (overfilled S cap) /\
  get_next_index r = 0 /\ out = [] /\ bs_buffer (stream_out r) = [] /\ input_ended (stream_out r) = false.
Proof.
  intros Hcap HS Hr. destruct (overfilled_stuck S cap Hcap ltac:(lia)) as (Hst & Hl & Hn & _).
  destruct (stuck_steps _ _ _ _ Hr Hst) as (Ho & _ & Em & En & Eb & Ee & Eo). cbn [fst snd] in *.
  split; [|split_and!; try done; [|unfold get_next_index; congruence]].
  - unfold overfilled. eapply rtc_l;
      [apply (step_push S _ _ (take (Z.to_nat cap) (drop 1 S)) 1 false)|apply rtc_once, step_push];
      try word_lia; apply excerpt_take; intros j c Hj; rewrite lookup_drop in Hj; exact Hj.
  - unfold unassembled_bytes. by rewrite (of_ub _ Ho), Em.
Qed.

(** A window of three bytes; the missing byte is pushed at the end. *)
Lemma overfull_stuck_witness :
  let S := [x61; x62; x63; x64; x65] in
  let r := push_substring [x61] 0 false (overfilled S 3) in
  sr_unassembled r = [(1, x62); (2, x63); (3, x64); (4, x65)] /\ bs_buffer (stream_out r) = [].
Proof.
  split; [reflexivity|].
  apply (overfull_stuck [x61; x62; x63; x64; x65] 3 (push_substring [x61] 0 false
           (overfilled [x61; x62; x63; x64; x65] 3)) []); [lia|cbn; lia|].
  apply rtc_once, step_push; [word_lia|]. intros [|[|j]] c; vm_compute; congruence.
Defined.
