(* ===== verification/Buffers.v ===== *)
(** * Buffers

    Models [src/libsponge/util/buffer.hh] and [.cc]: [Buffer], a shared
    read-only string with a starting offset, [BufferList], a sequence of them,
    and [BufferViewList], a sequence of string views.  The storage of a Buffer
    is never written, so copies can be values.  The theorem says that dropping a
    prefix acts on the contents as dropping a prefix of the flat string. *)

From S2P Require Import Prelude.

Record Buffer := mkBuffer {
  _storage : option (list byte);
  _starting_offset : Z
}.

#[export] Instance Buffer_eq_dec : EqDecision Buffer.
Proof. solve_decision. Defined.

Definition Buffer_default : Buffer := mkBuffer None 0.
(** [Buffer(std::string &&)]. *)
Definition Buffer_of (str : list byte) : Buffer := mkBuffer (Some str) 0.

Definition str (b : Buffer) : list byte :=
  match _storage b with
  | None => []
  | Some s => drop (Z.to_nat (_starting_offset b)) s
  end.

Definition at_ (n : Z) (b : Buffer) : res Z :=
  match str b !! Z.to_nat n with
  | Some c => Ok (byte_val c)
  | None => Throw out_of_range
  end.

Definition buf_size (b : Buffer) : Z := zlen (str b).
Definition copy (b : Buffer) : list byte := str b.

Definition remove_prefix (n : Z) (b : Buffer) : res Buffer :=
  if buf_size b <? n then Throw out_of_range
  else
    let off := u64 (_starting_offset b + n) in
    match _storage b with
    | Some s => Ok (mkBuffer (if off =? zlen s then None else Some s) off)
    | None => Ok (mkBuffer None off)
    end.

(** ** [BufferList] *)

Definition BufferList : Type := list Buffer.

(** [append]: one [push_back] per buffer of the other list. *)
Fixpoint append (l : BufferList) (other : BufferList) : BufferList :=
  match other with
  | [] => l
  | b :: other' => append (l ++ [b]) other'
  end.

(** [BufferList::operator Buffer]. *)
Definition to_Buffer (l : BufferList) : res Buffer :=
  match l with
  | [] => Ok Buffer_default
  | [b] => Ok b
  | _ => Throw runtime_error
  end.

Definition concatenate (l : BufferList) : list byte :=
  fold_left (fun ret b => ret ++ str b) l [].

Definition bl_size (l : BufferList) : Z :=
  fold_left (fun ret b => u64 (ret + buf_size b)) l 0.

Fixpoint bl_remove_prefix (n : Z) (l : BufferList) : res BufferList :=
  if 0 <? n then
    match l with
    | [] => Throw out_of_range
    | b :: l' =>
        if n <? buf_size b then b' ← remove_prefix n b; mret (b' :: l')
        else bl_remove_prefix (u64 (n - buf_size b)) l'
    end
  else Ok l.

(** ** [BufferViewList] *)

Definition BufferViewList : Type := list (list byte).

Definition views_of (l : BufferList) : BufferViewList := map str l.

Definition bv_size (l : BufferViewList) : Z := fold_left (fun ret v => u64 (ret + zlen v)) l 0.

Fixpoint bv_remove_prefix (n : Z) (l : BufferViewList) : res BufferViewList :=
  if 0 <? n then
    match l with
    | [] => Throw out_of_range
    | v :: l' =>
        if n <? zlen v then Ok (drop (Z.to_nat n) v :: l')
        else bv_remove_prefix (u64 (n - zlen v)) l'
    end
  else Ok l.

(** [as_iovecs]: base and length of every view. *)
Definition as_iovecs (l : BufferViewList) : list (list byte * Z) :=
  map (fun x => (x, zlen x)) l.

(** ** Well-formed buffers *)

Definition buf_ok (b : Buffer) : Prop :=
  match _storage b with
  | Some s => 0 <= _starting_offset b <= zlen s /\ zlen s < 2 ^ 63
  | None => True
  end.

Lemma buf_ok_of l : zlen l < 2 ^ 63 -> buf_ok (Buffer_of l).
Proof. intros. cbn. lia. Qed.

Lemma str_of l : str (Buffer_of l) = l.
Proof. apply drop_0. Qed.

Lemma remove_prefix_ok n b :
  buf_ok b -> 0 <= n <= buf_size b ->
  exists b', remove_prefix n b = Ok b' /\ str b' = drop (Z.to_nat n) (str b) /\ buf_ok b'.
Proof.
  unfold remove_prefix, buf_ok, buf_size, str. intros Hb Hn.
  rewrite (proj2 (Z.ltb_ge _ _)) by lia. destruct (_storage b) as [s|] eqn:Es; cbv zeta.
  - rewrite length_drop in Hn. rewrite u64_small by word_lia.
    destruct (_ =? zlen s) eqn:E; bool_prop; (eexists; split; [done|]); cbn.
    + split; [|done]. rewrite drop_drop, drop_ge by lia. done.
    + split; [|lia]. rewrite drop_drop. f_equal. lia.
  - eexists. split; [done|]. cbn. by rewrite drop_nil.
Qed.

Lemma remove_prefix_throws n b : buf_size b < n -> remove_prefix n b = Throw out_of_range.
Proof. intros. unfold remove_prefix. by rewrite (proj2 (Z.ltb_lt _ _)). Qed.

Lemma append_app other : forall l, append l other = l ++ other.
Proof.
  induction other as [|b other IH]; intros l; cbn; [by rewrite app_nil_r|].
  by rewrite IH, <- app_assoc.
Qed.

Lemma concatenate_eq l : concatenate l = concat (map str l).
Proof.
  unfold concatenate. rewrite <- (app_nil_l (concat _)). generalize (@nil byte).
  induction l as [|b l IH]; intros acc; cbn; [by rewrite app_nil_r|].
  by rewrite IH, app_assoc.
Qed.

Lemma concatenate_app l l' : concatenate (l ++ l') = concatenate l ++ concatenate l'.
Proof. rewrite !concatenate_eq, map_app, concat_app. done. Qed.

Lemma bl_size_eq l : zlen (concatenate l) < 2 ^ 64 -> bl_size l = zlen (concatenate l).
Proof.
  rewrite concatenate_eq. unfold bl_size.
  assert (H : forall acc, 0 <= acc -> acc + zlen (concat (map str l)) < 2 ^ 64 ->
    fold_left (fun ret b => u64 (ret + buf_size b)) l acc = acc + zlen (concat (map str l))).
  { induction l as [|b l IH]; intros acc Ha Hl; cbn in *; [lia|].
    rewrite length_app in *. unfold buf_size. rewrite u64_small by word_lia.
    rewrite IH by lia. lia. }
  intros. rewrite H; lia.
Qed.

(** The list of views of a list of buffers drops the same prefix. *)
Lemma bl_remove_views l : forall n,
  Forall buf_ok l -> 0 <= n ->
  match bl_remove_prefix n l with
  | Ok l' => bv_remove_prefix n (views_of l) = Ok (views_of l') /\ Forall buf_ok l'
  | Throw e => bv_remove_prefix n (views_of l) = Throw e
  | Undefined => False
  end.
Proof.
  induction l as [|b l IH]; intros n HF Hn; cbn [bl_remove_prefix bv_remove_prefix views_of map].
  - by destruct (0 <? n).
  - destruct (0 <? n) eqn:E0; [|done]. inversion HF as [|? ? Hb HF']; subst.
    unfold buf_size. destruct (n <? zlen (str b)) eqn:E1; bool_prop.
    + destruct (remove_prefix_ok n b Hb) as (b' & -> & Es & Hb'); [unfold buf_size; lia|].
      cbn. rewrite <- Es. split; [done|]. by constructor.
    + apply IH; [done|]. apply u64_range.
Qed.

Lemma bv_remove_concat l : forall n,
  0 <= n < 2 ^ 64 ->
  match bv_remove_prefix n l with
  | Ok l' => n <= zlen (concat l) /\ concat l' = drop (Z.to_nat n) (concat l)
  | Throw e => e = out_of_range /\ zlen (concat l) < n
  | Undefined => False
  end.
Proof.
  induction l as [|v l IH]; intros n Hn; cbn [bv_remove_prefix concat].
  - destruct (0 <? n) eqn:E; bool_prop; cbn; [split; [done|lia]|]. split; [lia|]. by rewrite drop_nil.
  - destruct (0 <? n) eqn:E0; bool_prop.
    2: { assert (n = 0) as -> by lia. cbn [concat]. split; [apply Nat2Z.is_nonneg|]. by rewrite drop_0. }
    rewrite length_app. destruct (n <? zlen v) eqn:E1; bool_prop; cbn [concat].
    + split; [lia|]. rewrite drop_app_le by lia. done.
    + rewrite u64_small by word_lia. specialize (IH (n - zlen v) ltac:(lia)).
      destruct (bv_remove_prefix (n - zlen v) l) as [l'|e|]; [| |done].
      * destruct IH as [Hle ->]. split; [lia|]. rewrite drop_app_ge by lia. f_equal. lia.
      * destruct IH as [-> ?]. split; [done|lia].
Qed.

(** Dropping [n] bytes from a [BufferList] throws [out_of_range] exactly
    when fewer than [n] bytes are stored, and otherwise leaves buffers whose
    concatenation is the old one without its first [n] bytes. *)
Theorem bl_remove_prefix_drop n (l : BufferList) :
  Forall buf_ok l -> is_u64 n ->
  match bl_remove_prefix n l with
  | Ok l' => n <= zlen (concatenate l) /\ concatenate l' = drop (Z.to_nat n) (concatenate l) /\
             Forall buf_ok l'
  | Throw e => e = out_of_range /\ zlen (concatenate l) < n
  | Undefined => False
  end.
Proof.
  intros HF Hn. pose proof (bl_remove_views l n HF ltac:(word_lia)) as Hv.
  pose proof (bv_remove_concat (views_of l) n Hn) as Hc.
  destruct (bl_remove_prefix n l) as [l'|e|]; [| |done].
  - destruct Hv as [Ev HF']. rewrite Ev in Hc. rewrite !concatenate_eq. unfold views_of in Hc. tauto.
  - rewrite Hv in Hc. by rewrite concatenate_eq.
Qed.

Lemma bl_remove_prefix_drop_witness :
  let l := [Buffer_of [x01; x02]; Buffer_default; Buffer_of [x03; x04; x05]] in
  bl_remove_prefix 3 l = Ok [mkBuffer (Some [x03; x04; x05]) 1] /\
  match bl_remove_prefix 3 l with
  | Ok l' => concatenate l' = drop 3 (concatenate l)
  | _ => False
  end.
Proof.
  cbv zeta. split; [reflexivity|].
  pose proof (bl_remove_prefix_drop 3 [Buffer_of [x01; x02]; Buffer_default; Buffer_of [x03; x04; x05]]) as H.
  destruct H as (_ & H & _); [repeat constructor; cbn; lia|word_lia|exact H].
Defined.
