(* ===== verification/Parser.v ===== *)
(** * Parsing and unparsing of network byte order

    Models [src/libsponge/util/parser.hh] and [.cc]: [NetParser], a buffer with
    a sticky error, and [NetUnparser].  The methods that read the buffer can
    throw; the parser runs in the state monad over [NetParser] with the outcomes
    of [res].  [parses] states what a reader consumes and returns, [total] that
    it never throws. *)

From Stdlib Require Import String.
From S2P Require Import Prelude Buffers.

Inductive ParseResult :=
| NoError | BadChecksum | PacketTooShort | WrongIPVersion | HeaderTooShort | TruncatedPacket
| Unsupported.

#[export] Instance ParseResult_eq_dec : EqDecision ParseResult.
Proof. solve_decision. Defined.

(** The value of the enumerator. *)
Definition ParseResult_index (r : ParseResult) : nat :=
  match r with
  | NoError => 0 | BadChecksum => 1 | PacketTooShort => 2 | WrongIPVersion => 3
  | HeaderTooShort => 4 | TruncatedPacket => 5 | Unsupported => 6
  end.

Definition parse_result_names : list string :=
  ["NoError"; "BadChecksum"; "PacketTooShort"; "WrongIPVersion"; "HeaderTooShort";
   "TruncatedPacket"]%string.

(** [as_string]; indexing an array past its end has no defined behaviour. *)
Definition as_string (r : ParseResult) : res string :=
  match parse_result_names !! ParseResult_index r with
  | Some s => Ok s
  | None => Undefined
  end.

Record NetParser := mkNetParser {
  np_buffer : Buffer;
  np_error : ParseResult
}.

Definition NetParser_new (b : Buffer) : NetParser := mkNetParser b NoError.

Definition parser (A : Type) : Type := NetParser -> res (A * NetParser).

Definition pret {A} (a : A) : parser A := fun p => Ok (a, p).
Definition pbind {A B} (m : parser A) (f : A -> parser B) : parser B := fun p =>
  match m p with
  | Ok (a, p') => f a p'
  | Throw e => Throw e
  | Undefined => Undefined
  end.

Notation "'let!' x := m 'in' k" := (pbind m (fun x => k))
  (at level 10, x name, k at level 200) : sponge_scope.
Notation "m ;; k" := (pbind m (fun _ => k)) (at level 100, right associativity) : sponge_scope.

Definition buffer : parser Buffer := fun p => Ok (np_buffer p, p).
Definition get_error : parser ParseResult := fun p => Ok (np_error p, p).
Definition set_error (r : ParseResult) : parser unit :=
  fun p => Ok (tt, mkNetParser (np_buffer p) r).
Definition error : parser bool := fun p => Ok (bool_decide (np_error p <> NoError), p).

Definition _check_size (size : Z) : parser unit :=
  fun p => if buf_size (np_buffer p) <? size then set_error PacketTooShort p else Ok (tt, p).

Definition buffer_remove_prefix (n : Z) : parser unit :=
  fun p => b ← remove_prefix n (np_buffer p); Ok (tt, mkNetParser b (np_error p)).

(** The loop of [_parse_int<T>], at the width of [T] ([len] bytes). *)
Fixpoint parse_loop (len : nat) (n : nat) (i : Z) (ret : Z) (b : Buffer) : res Z :=
  match n with
  | O => Ok ret
  | S n' =>
      let ret := Z.shiftl ret 8 mod 2 ^ (8 * Z.of_nat len) in
      c ← at_ i b;
      parse_loop len n' (i + 1) ((ret + c) mod 2 ^ (8 * Z.of_nat len)) b
  end.

Definition _parse_int (len : nat) : parser Z :=
  _check_size (Z.of_nat len) ;;
  let! e := error in
  if e then pret 0
  else fun p =>
    ret ← parse_loop len len 0 0 (np_buffer p);
    (buffer_remove_prefix (Z.of_nat len) ;; pret ret) p.

Definition p_remove_prefix (n : Z) : parser unit :=
  _check_size n ;;
  let! e := error in
  if e then pret tt else buffer_remove_prefix n.

Definition pu32 : parser Z := _parse_int 4.
Definition pu16 : parser Z := _parse_int 2.
Definition pu8 : parser Z := _parse_int 1.

(** [_unparse_int<T>]: the bytes it pushes, most significant first. *)
Definition _unparse_int (len : nat) (s : list byte) (val : Z) : list byte :=
  fold_left (fun s i =>
    s ++ [byte_of (Z.land (Z.shiftr val ((Z.of_nat len - Z.of_nat i - 1) * 8)) 0xff)]) (seq 0 len) s.

Definition un_u32 (s : list byte) (val : Z) : list byte := _unparse_int 4 s val.
Definition un_u16 (s : list byte) (val : Z) : list byte := _unparse_int 2 s val.
Definition un_u8 (s : list byte) (val : Z) : list byte := _unparse_int 1 s val.

(** ** Big-endian values *)

Definition be_val (l : list byte) : Z := fold_left (fun a c => a * 256 + byte_val c) l 0.

(** The [n] low-order bytes of [v], most significant first. *)
Fixpoint be_bytes (n : nat) (v : Z) : list byte :=
  match n with
  | O => []
  | S n' => byte_of (v / 256 ^ Z.of_nat n') :: be_bytes n' v
  end.

Lemma be_val_acc l : forall a, fold_left (fun a c => a * 256 + byte_val c) l a = a * 256 ^ zlen l + be_val l.
Proof.
  unfold be_val. induction l as [|c l IH]; intros a; cbn [fold_left length]; [lia|].
  rewrite IH, (IH (0 * 256 + _)), Nat2Z.inj_succ, Z.pow_succ_r by lia. lia.
Qed.

Lemma be_val_cons c l : be_val (c :: l) = byte_val c * 256 ^ zlen l + be_val l.
Proof. unfold be_val at 1. cbn [fold_left]. by rewrite be_val_acc. Qed.

Lemma be_val_app l l' : be_val (l ++ l') = be_val l * 256 ^ zlen l' + be_val l'.
Proof. unfold be_val at 1. rewrite fold_left_app, be_val_acc. done. Qed.

Lemma be_val_range l : 0 <= be_val l < 256 ^ zlen l.
Proof.
  induction l as [|c l IH]; [cbn; lia|]. rewrite be_val_cons. cbn [length].
  rewrite Nat2Z.inj_succ, Z.pow_succ_r by lia. pose proof (byte_val_range c). word_unfold. nia.
Qed.

Lemma length_be_bytes n v : length (be_bytes n v) = n.
Proof. induction n; cbn; auto. Qed.

Lemma be_val_bytes n v : be_val (be_bytes n v) = v mod 256 ^ Z.of_nat n.
Proof.
  induction n as [|n IH]; [cbn; by rewrite Z.mod_1_r|].
  cbn [be_bytes]. rewrite be_val_cons, byte_val_of, length_be_bytes, IH.
  rewrite Nat2Z.inj_succ, Z.pow_succ_r by lia. unfold u8. change (2 ^ 8) with 256.
  rewrite (Z.mul_comm 256). rewrite Z.rem_mul_r by (try apply Z.pow_nonzero; lia). lia.
Qed.

Lemma be_bytes_mod n : forall v q, be_bytes n (v + q * 256 ^ Z.of_nat n) = be_bytes n v.
Proof.
  induction n as [|n IH]; intros v q; [done|]. cbn [be_bytes].
  rewrite Nat2Z.inj_succ, Z.pow_succ_r by lia. assert (0 < 256 ^ Z.of_nat n) by (apply Z.pow_pos_nonneg; lia).
  replace (q * (256 * 256 ^ Z.of_nat n)) with (q * 256 * 256 ^ Z.of_nat n) by lia. f_equal; [|apply IH].
  rewrite Z.div_add by lia. apply byte_val_inj. rewrite !byte_val_of. unfold u8.
  change (2 ^ 8) with 256. apply Z_mod_plus_full.
Qed.

Lemma be_bytes_val n l : length l = n -> be_bytes n (be_val l) = l.
Proof.
  intros <-. induction l as [|c l IH]; [done|]. cbn [be_bytes length].
  pose proof (be_val_range l) as Hr. rewrite be_val_cons. f_equal.
  - rewrite Z.add_comm, Z.div_add, Z.div_small by lia. apply byte_of_val.
  - rewrite Z.add_comm, be_bytes_mod. apply IH.
Qed.

Lemma unparse_eq len s v : _unparse_int len s v = s ++ be_bytes len v.
Proof.
  unfold _unparse_int.
  assert (H : forall n i s, (i + n = len)%nat ->
    fold_left (fun s i => s ++ [byte_of (Z.land (Z.shiftr v ((Z.of_nat len - Z.of_nat i - 1) * 8)) 0xff)])
      (seq i n) s = s ++ be_bytes n v).
  { induction n as [|n IH]; intros i s' Hi; cbn [seq fold_left be_bytes]; [by rewrite app_nil_r|].
    rewrite IH by lia. rewrite <- app_assoc. cbn [app]. do 2 f_equal.
    replace ((Z.of_nat len - Z.of_nat i - 1) * 8) with (8 * Z.of_nat n) by lia.
    rewrite Z.shiftr_div_pow2, Z.pow_mul_r by lia. change (2 ^ 8) with 256.
    change 255 with (Z.ones 8). rewrite Z.land_ones by lia.
    apply byte_val_inj. rewrite !byte_val_of. unfold u8. apply Z.mod_mod. lia. }
  apply H. lia.
Qed.

(** ** What the readers do *)

Record view (p : NetParser) (l : list byte) (e : ParseResult) : Prop := {
  view_ok : buf_ok (np_buffer p);
  view_str : str (np_buffer p) = l;
  view_err : np_error p = e
}.

Lemma view_buf b : buf_ok b -> view (NetParser_new b) (str b) NoError.
Proof. by split. Qed.

Lemma view_new l : zlen l < 2 ^ 63 -> view (NetParser_new (Buffer_of l)) l NoError.
Proof. intros. split; [by apply buf_ok_of|apply str_of|done]. Qed.

(** [m] started on the bytes [l] without error returns [a] and leaves [rest]. *)
Definition parses {A} (m : parser A) (l : list byte) (a : A) (rest : list byte) : Prop :=
  forall p, view p l NoError -> exists p', m p = Ok (a, p') /\ view p' rest NoError.

Lemma parses_ret {A} (a : A) l : parses (pret a) l a l.
Proof. intros p Hp. by exists p. Qed.

Lemma parses_bind {A B} (m : parser A) (f : A -> parser B) l a mid b rest :
  parses m l a mid -> parses (f a) mid b rest -> parses (pbind m f) l b rest.
Proof.
  intros Hm Hf p Hp. destruct (Hm p Hp) as (p1 & E1 & Hp1). destruct (Hf p1 Hp1) as (p2 & E2 & Hp2).
  exists p2. unfold pbind. by rewrite E1.
Qed.

Lemma check_size_fits n p l e : view p l e -> n <= zlen l -> _check_size n p = Ok (tt, p).
Proof.
  intros [_ Hs _] Hn. unfold _check_size, buf_size. rewrite Hs.
  by rewrite (proj2 (Z.ltb_ge _ _)).
Qed.

Lemma buffer_remove_view n p l e :
  view p l e -> 0 <= n <= zlen l ->
  exists p', buffer_remove_prefix n p = Ok (tt, p') /\ view p' (drop (Z.to_nat n) l) e.
Proof.
  intros [Hb Hs He] Hn. destruct (remove_prefix_ok n (np_buffer p) Hb) as (b' & E & Es & Hb').
  { unfold buf_size. by rewrite Hs. }
  exists (mkNetParser b' (np_error p)). unfold buffer_remove_prefix. rewrite E. split; [done|].
  split; [done| |done]. cbn. by rewrite Es, Hs.
Qed.

Lemma parse_loop_val len n : forall i ret b,
  0 <= i -> i + Z.of_nat n <= buf_size b ->
  parse_loop len n i ret b =
    Ok (if n is O then ret else
        (ret * 256 ^ Z.of_nat n + be_val (take n (drop (Z.to_nat i) (str b))))
          mod 2 ^ (8 * Z.of_nat len)).
Proof.
  induction n as [|n IH]; intros i ret b Hi Hn; [done|]. cbn [parse_loop].
  unfold buf_size in Hn. destruct (lookup_lt_is_Some_2 (str b) (Z.to_nat i)) as [c Hc]; [lia|].
  unfold at_. rewrite Hc. cbn [mbind res_bind]. rewrite IH by (unfold buf_size; lia). f_equal.
  assert (Ed : drop (Z.to_nat i) (str b) = c :: drop (Z.to_nat (i + 1)) (str b)).
  { replace (Z.to_nat (i + 1)) with (S (Z.to_nat i)) by lia. by apply drop_S. }
  rewrite Ed. cbn [firstn]. rewrite be_val_cons.
  assert (Hlt : length (take n (drop (Z.to_nat (i + 1)) (str b))) = n)
    by (rewrite length_take, length_drop; lia).
  rewrite Hlt, Z.shiftl_mul_pow2 by lia. change (2 ^ 8) with 256.
  set (M := 2 ^ (8 * Z.of_nat len)). assert (M <> 0) by (apply Z.pow_nonzero; lia).
  assert (Ex : exists q, (ret * 256 mod M + byte_val c) mod M = ret * 256 + byte_val c + q * M).
  { pose proof (Z.div_mod (ret * 256) M). pose proof (Z.div_mod (ret * 256 mod M + byte_val c) M).
    exists (- (ret * 256 / M) - ((ret * 256 mod M + byte_val c) / M)). lia. }
  destruct Ex as [q Ex]. set (v := be_val (take n _)). destruct n as [|n].
  - change v with 0. change (256 ^ Z.of_nat 1) with 256. change (256 ^ Z.of_nat 0) with 1.
    rewrite Z.add_mod_idemp_l by done. f_equal. lia.
  - rewrite Ex, (Nat2Z.inj_succ (S n)), (Z.pow_succ_r 256 (Z.of_nat (S n))) by lia.
    set (P := 256 ^ Z.of_nat (S n)). 
    etransitivity; [|apply (Z_mod_plus_full _ (q * P) M)]. f_equal. lia.
Qed.

Lemma parses_int n bs l :
  length bs = n -> (0 < n)%nat -> parses (_parse_int n) (bs ++ l) (be_val bs) l.
Proof.
  intros Hn Hpos p Hp. unfold _parse_int, pbind at 1.
  assert (Hz : zlen bs = Z.of_nat n) by lia.
  rewrite (check_size_fits _ _ _ _ Hp) by (rewrite length_app; lia).
  unfold pbind at 1, error. rewrite (view_err _ _ _ Hp).
  rewrite bool_decide_eq_false_2 by congruence.
  rewrite parse_loop_val by (unfold buf_size; rewrite ?(view_str _ _ _ Hp), ?length_app; lia).
  rewrite (view_str _ _ _ Hp). destruct n as [|n]; [lia|]. cbn [mbind res_bind].
  unfold pbind. destruct (buffer_remove_view (Z.of_nat (S n)) p _ _ Hp) as (p' & -> & Hp').
  { rewrite length_app. lia. }
  exists p'. rewrite Nat2Z.id, <- Hn, drop_app_length in Hp'. split; [|done].
  rewrite drop_0, <- Hn, take_app_length. unfold pret. do 2 f_equal.
  rewrite Z.mul_0_l, Z.add_0_l, Z.pow_mul_r by lia. change (2 ^ 8) with 256.
  apply Z.mod_small, be_val_range.
Qed.

Lemma parses_remove_prefix n bs l :
  zlen bs = n -> parses (p_remove_prefix n) (bs ++ l) tt l.
Proof.
  intros Hn p Hp. unfold p_remove_prefix, pbind at 1.
  rewrite (check_size_fits _ _ _ _ Hp) by (rewrite length_app; lia).
  unfold pbind, error. rewrite (view_err _ _ _ Hp).
  rewrite bool_decide_eq_false_2 by congruence.
  destruct (buffer_remove_view n p _ _ Hp) as (p' & -> & Hp'); [rewrite length_app; lia|].
  exists p'. split; [done|]. rewrite <- Hn, Nat2Z.id, drop_app_length in Hp'. done.
Qed.

(** Reading an integer back from the bytes it was written as. *)
Lemma parses_be n v l :
  (0 < n)%nat -> 0 <= v < 256 ^ Z.of_nat n -> parses (_parse_int n) (be_bytes n v ++ l) v l.
Proof.
  intros Hn Hv. rewrite <- (Z.mod_small v (256 ^ Z.of_nat n)) at 2 by done.
  rewrite <- be_val_bytes. apply parses_int; [apply length_be_bytes|done].
Qed.

Lemma parses_buffer {B} (f : Buffer -> parser B) l a rest :
  (forall b, buf_ok b -> str b = l -> parses (f b) l a rest) -> parses (pbind buffer f) l a rest.
Proof. intros Hf p Hp. exact (Hf _ (view_ok _ _ _ Hp) (view_str _ _ _ Hp) p Hp). Qed.

Lemma parses_get_error l : parses get_error l NoError l.
Proof. intros p Hp. exists p. unfold get_error. by rewrite (view_err _ _ _ Hp). Qed.

Lemma parses_error l : parses error l false l.
Proof.
  intros p Hp. exists p. unfold error. rewrite (view_err _ _ _ Hp).
  by rewrite bool_decide_eq_false_2 by congruence.
Qed.

(** ** No reader has undefined behaviour, on any buffer *)

Definition pdefined {A} (m : parser A) : Prop := forall p, defined (m p).

Lemma pdefined_ret {A} (a : A) : pdefined (pret a).
Proof. done. Qed.
Lemma pdefined_bind {A B} (m : parser A) (f : A -> parser B) :
  pdefined m -> (forall a, pdefined (f a)) -> pdefined (pbind m f).
Proof. intros Hm Hf p. unfold pbind. specialize (Hm p). destruct (m p) as [[a p']|e|]; [apply Hf|done|done]. Qed.
Lemma pdefined_if {A} (b : bool) (m k : parser A) : pdefined m -> pdefined k -> pdefined (if b then m else k).
Proof. by destruct b. Qed.
Lemma pdefined_error : pdefined error.
Proof. done. Qed.
Lemma pdefined_get_error : pdefined get_error.
Proof. done. Qed.
Lemma pdefined_buffer : pdefined buffer.
Proof. done. Qed.
Lemma pdefined_check_size n : pdefined (_check_size n).
Proof. intros p. unfold _check_size. by destruct (_ <? _). Qed.
Lemma remove_prefix_defined n b : defined (remove_prefix n b).
Proof. unfold remove_prefix. defined_cases. Qed.
Lemma pdefined_buffer_remove n : pdefined (buffer_remove_prefix n).
Proof. intros p. apply defined_bind; [apply remove_prefix_defined|done]. Qed.
Lemma parse_loop_defined len n : forall i ret b, defined (parse_loop len n i ret b).
Proof.
  induction n as [|n IH]; intros i ret b; cbn [parse_loop]; [done|].
  apply defined_bind; [unfold at_; by case_match|auto].
Qed.

#[export] Hint Resolve pdefined_ret pdefined_bind pdefined_if pdefined_error pdefined_get_error pdefined_buffer
  pdefined_check_size pdefined_buffer_remove : sponge.

Lemma pdefined_int n : pdefined (_parse_int n).
Proof.
  unfold _parse_int. apply pdefined_bind; [apply pdefined_check_size|]. intros _.
  apply pdefined_bind; [done|]. intros e. destruct e; [done|]. intros p.
  apply defined_bind; [apply parse_loop_defined|]. intros a _. apply (pdefined_bind); auto with sponge.
Qed.
Lemma pdefined_remove_prefix n : pdefined (p_remove_prefix n).
Proof. unfold p_remove_prefix. auto 10 with sponge. Qed.

#[export] Hint Resolve pdefined_int pdefined_remove_prefix : sponge.

Ltac pdefined_cases :=
  repeat first
    [ progress intros | apply pdefined_ret | apply pdefined_int | apply pdefined_remove_prefix
    | apply pdefined_error | apply pdefined_get_error | apply pdefined_buffer
    | apply pdefined_bind | apply pdefined_if ].

(** ** Totality: no reader ever throws, whatever the input *)

Definition total {A} (m : parser A) : Prop :=
  forall p, buf_ok (np_buffer p) -> exists a p', m p = Ok (a, p') /\ buf_ok (np_buffer p').

Lemma total_ret {A} (a : A) : total (pret a).
Proof. intros p Hp. by exists a, p. Qed.

Lemma total_bind {A B} (m : parser A) (f : A -> parser B) :
  total m -> (forall a, total (f a)) -> total (pbind m f).
Proof.
  intros Hm Hf p Hp. destruct (Hm p Hp) as (a & p1 & E1 & Hp1).
  destruct (Hf a p1 Hp1) as (b & p2 & E2 & Hp2). exists b, p2.
  unfold pbind. by rewrite E1.
Qed.

Lemma total_if {A} (c : bool) (m k : parser A) : total m -> total k -> total (if c then m else k).
Proof. by destruct c. Qed.

Lemma total_get_error : total get_error.
Proof. intros p Hp. by eexists _, p. Qed.
Lemma total_error : total error.
Proof. intros p Hp. by eexists _, p. Qed.
Lemma total_buffer : total buffer.
Proof. intros p Hp. by eexists _, p. Qed.

(** Every guarded read ends in the error state or inside the buffer. *)
Lemma guarded_total {A} n (k : parser A) (d : A) :
  0 <= n ->
  (forall p, buf_ok (np_buffer p) -> n <= buf_size (np_buffer p) ->
     exists a p', k p = Ok (a, p') /\ buf_ok (np_buffer p')) ->
  total (_check_size n ;; let! e := error in if e then pret d else k).
Proof.
  intros Hn Hk p Hp. unfold pbind, _check_size, set_error, error.
  destruct (buf_size (np_buffer p) <? n) eqn:E; bool_prop.
  - cbn [np_error]. rewrite bool_decide_eq_true_2 by congruence. by eexists _, _.
  - case_bool_decide; [by eexists _, _|]. by apply Hk.
Qed.

Lemma total_parse_int n : total (_parse_int n).
Proof.
  apply guarded_total; [lia|]. intros p Hp Hs.
  rewrite parse_loop_val by lia. cbn [mbind res_bind].
  destruct (buffer_remove_view (Z.of_nat n) p _ _ (Build_view p _ _ Hp eq_refl eq_refl)) as (p' & E & Hp').
  { unfold buf_size in Hs. lia. }
  unfold pbind. rewrite E. eexists _, p'. split; [done|]. apply Hp'.
Qed.

Lemma total_remove_prefix n : 0 <= n -> total (p_remove_prefix n).
Proof.
  intros Hn. apply guarded_total; [done|]. intros p Hp Hs.
  destruct (buffer_remove_view n p _ _ (Build_view p _ _ Hp eq_refl eq_refl)) as (p' & E & Hp').
  { unfold buf_size in Hs. lia. }
  exists tt, p'. split; [done|]. apply Hp'.
Qed.

Ltac total_cases :=
  repeat first
    [ progress intros | apply total_ret | apply total_parse_int
    | apply total_remove_prefix; first [lia | apply Z.mod_pos_bound; lia]
    | apply total_error | apply total_get_error | apply total_buffer
    | apply total_bind | apply total_if ].

#[export] Hint Resolve total_if total_ret total_bind total_get_error total_error total_buffer
  total_parse_int : sponge.

(** Round trip of integers: [NetParser] reads back from the bytes
    [NetUnparser] appended the value reduced to its width, and leaves the bytes
    after them; on any input shorter than the width it returns zero and reports
    [PacketTooShort] without throwing. *)
Theorem parse_unparse_int n v rest p :
  (0 < n)%nat ->
  (view p (_unparse_int n [] v ++ rest) NoError ->
     exists p', _parse_int n p = Ok (v mod 256 ^ Z.of_nat n, p') /\ view p' rest NoError) /\
  (view p rest NoError -> zlen rest < Z.of_nat n ->
     _parse_int n p = Ok (0, mkNetParser (np_buffer p) PacketTooShort)).
Proof.
  intros Hn. split.
  - rewrite unparse_eq, <- be_val_bytes. intros Hp.
    by apply (parses_int n (be_bytes n v) rest (length_be_bytes n v) Hn p).
  - intros [_ Hs _] Hlt. unfold _parse_int, pbind, _check_size, buf_size.
    rewrite Hs, (proj2 (Z.ltb_lt _ _)) by done. unfold set_error, error. cbn [np_error].
    by rewrite bool_decide_eq_true_2 by congruence.
Qed.

Lemma parse_unparse_int_witness :
  let p := NetParser_new (Buffer_of [x01; x02; x03; x04; xff]) in
  exists p', _parse_int 4 p = Ok (16909060 mod 256 ^ 4, p') /\ view p' [xff] NoError.
Proof.
  cbv zeta. apply (parse_unparse_int 4 16909060 [xff]); [lia|].
  apply (view_new [x01; x02; x03; x04; xff]). cbn; lia.
Defined.

(** [as_string] indexes past its table of names for exactly one result,
    [Unsupported]; for every other one it returns the enumerator's name. *)
Theorem as_string_defined r : is_ok (as_string r) = bool_decide (r <> Unsupported).
Proof. by destruct r. Qed.

(** ** Reading past the end *)

(** Once in error, [m] stays in error. *)
Definition sticky {A} (m : parser A) : Prop :=
  forall p, np_error p = PacketTooShort ->
    exists a p', m p = Ok (a, p') /\ np_error p' = PacketTooShort.

(** [m] runs out of input on [l]. *)
Definition runs_out {A} (m : parser A) (l : list byte) : Prop :=
  forall p, view p l NoError -> exists a p', m p = Ok (a, p') /\ np_error p' = PacketTooShort.

Lemma sticky_ret {A} (a : A) : sticky (pret a).
Proof. intros p Hp. by exists a, p. Qed.

Lemma sticky_bind {A B} (m : parser A) (f : A -> parser B) :
  sticky m -> (forall a, sticky (f a)) -> sticky (pbind m f).
Proof.
  intros Hm Hf p Hp. destruct (Hm p Hp) as (a & p1 & E1 & Hp1).
  destruct (Hf a p1 Hp1) as (b & p2 & E2 & Hp2). exists b, p2. unfold pbind. by rewrite E1.
Qed.

Lemma sticky_guarded {A} n (k : parser A) (d : A) :
  sticky (_check_size n ;; let! e := error in if e then pret d else k).
Proof.
  intros p Hp. unfold pbind, _check_size, set_error, error.
  destruct (_ <? n); cbn [np_error]; rewrite ?Hp; rewrite bool_decide_eq_true_2 by congruence;
    by eexists _, _.
Qed.

Lemma sticky_parse_int n : sticky (_parse_int n).
Proof. apply sticky_guarded. Qed.
Lemma sticky_remove_prefix n : sticky (p_remove_prefix n).
Proof. apply sticky_guarded. Qed.
Lemma sticky_error : sticky error.
Proof. intros p Hp. by eexists _, p. Qed.
Lemma sticky_get_error : sticky get_error.
Proof. intros p Hp. by eexists _, p. Qed.
Lemma sticky_if {A} (c : bool) (m k : parser A) : sticky m -> sticky k -> sticky (if c then m else k).
Proof. by destruct c. Qed.
#[export] Hint Resolve sticky_if sticky_ret sticky_bind sticky_parse_int sticky_remove_prefix sticky_error
  sticky_get_error : sponge.

Lemma runs_out_guarded {A} n (k : parser A) (d : A) l :
  zlen l < n -> runs_out (_check_size n ;; let! e := error in if e then pret d else k) l.
Proof.
  intros Hn p [_ Hs He]. unfold pbind, _check_size, set_error, error, buf_size.
  rewrite Hs, (proj2 (Z.ltb_lt _ _)) by done. cbn [np_error].
  rewrite bool_decide_eq_true_2 by congruence. by eexists _, _.
Qed.

Lemma runs_out_bind_l {A B} (m : parser A) (f : A -> parser B) l :
  runs_out m l -> (forall a, sticky (f a)) -> runs_out (pbind m f) l.
Proof.
  intros Hm Hf p Hp. destruct (Hm p Hp) as (a & p1 & E1 & Hp1).
  destruct (Hf a p1 Hp1) as (b & p2 & E2 & Hp2). exists b, p2. unfold pbind. by rewrite E1.
Qed.

Lemma runs_out_bind_r {A B} (m : parser A) (f : A -> parser B) l a mid :
  parses m l a mid -> runs_out (f a) mid -> runs_out (pbind m f) l.
Proof.
  intros Hm Hf p Hp. destruct (Hm p Hp) as (p1 & E1 & Hp1).
  destruct (Hf p1 Hp1) as (b & p2 & E2 & Hp2). exists b, p2. unfold pbind. by rewrite E1.
Qed.

(** Reading an integer and then continuing: either the input is too short, or
    its first bytes are consumed. *)
Lemma runs_out_int n {B} (f : Z -> parser B) l :
  (0 < n)%nat -> (forall v, sticky (f v)) ->
  (forall bs l', l = bs ++ l' -> length bs = n -> runs_out (f (be_val bs)) l') ->
  runs_out (pbind (_parse_int n) f) l.
Proof.
  intros Hn Hs Hf. destruct (Nat.le_gt_cases n (length l)).
  - rewrite <- (take_drop n l) in Hf |- *.
    assert (Hl : length (take n l) = n) by (apply length_take_le; done).
    eapply runs_out_bind_r; [by apply parses_int|]. by apply Hf.
  - apply runs_out_bind_l; [|done]. apply runs_out_guarded. lia.
Qed.

(** ** Types: every value [m] returns is in [Q] *)

Definition yields {A} (m : parser A) (Q : A -> Prop) : Prop :=
  forall p a p', m p = Ok (a, p') -> Q a.

Lemma yields_ret {A} (a : A) (Q : A -> Prop) : Q a -> yields (pret a) Q.
Proof. intros H p b p' [= <- _]. done. Qed.

Lemma yields_bind {A B} (m : parser A) (f : A -> parser B) Q R :
  yields m Q -> (forall a, Q a -> yields (f a) R) -> yields (pbind m f) R.
Proof.
  intros Hm Hf p b p2. unfold pbind. destruct (m p) as [[a p1]|e|] eqn:E; [|done..].
  apply Hf. by eapply Hm.
Qed.

Lemma yields_any {A} (m : parser A) : yields m (fun _ => True).
Proof. done. Qed.

Lemma parse_loop_range len n : forall i ret b v,
  0 <= ret < 2 ^ (8 * Z.of_nat len) -> parse_loop len n i ret b = Ok v -> 0 <= v < 2 ^ (8 * Z.of_nat len).
Proof.
  induction n as [|n IH]; intros i ret b v Hr E; cbn [parse_loop] in E; [by injection E as <-|].
  apply res_bind_ok in E as (c & _ & E). eapply IH; [|exact E]. apply Z.mod_pos_bound. lia.
Qed.

Lemma yields_int len : yields (_parse_int len) (fun v => 0 <= v < 2 ^ (8 * Z.of_nat len)).
Proof.
  unfold _parse_int. eapply yields_bind; [apply yields_any|]. intros _ _.
  eapply yields_bind; [apply yields_any|]. intros [] _; [apply yields_ret; lia|].
  intros p v p' (r & Hr & E)%res_bind_ok. apply parse_loop_range in Hr; [|lia].
  unfold pbind in E. destruct (buffer_remove_prefix _ p) as [[[] p1]|e|]; [|done..].
  by injection E as <- _.
Qed.

(** Totality and stickiness of a composite reader. *)
Ltac reader_tac :=
  repeat first
    [ apply sticky_parse_int | apply sticky_remove_prefix | apply total_parse_int
    | apply sticky_bind; [|intros ?] | apply total_bind; [|intros ?]
    | apply sticky_if | apply total_if | progress cbv zeta
    | solve [auto with sponge] ].

(** One field of a header, read back from its bytes. *)
Ltac parse_field := eapply parses_bind; [apply parses_be; [lia|word_lia]|]; cbv beta.
