(* ===== verification/Checksum.v ===== *)
(** * The Internet checksum

    Models class [InternetChecksum] of [src/libsponge/util/util.hh] and [.cc].
    The running sum is 32 bits wide; the theorems bound the data so that it does
    not overflow and show that the computed checksum verifies, and that no
    change of a single byte goes unnoticed. *)

From S2P Require Import Prelude Parser.

Record InternetChecksum := mkChecksum { _sum : Z; _parity : bool }.

Definition InternetChecksum_new (initial_sum : Z) : InternetChecksum := mkChecksum initial_sum false.

(** Body of the loop of [add]. *)
Definition add_byte (ck : InternetChecksum) (c : byte) : InternetChecksum :=
  let val := byte_val c in
  let val := if negb (_parity ck) then u16 (Z.shiftl val 8) else val in
  mkChecksum (u32 (_sum ck + val)) (negb (_parity ck)).

Definition add (data : list byte) (ck : InternetChecksum) : InternetChecksum :=
  fold_left add_byte data ck.

(** The folding loop of [value]; a 32-bit sum needs at most two rounds, so a
    fuel of three reaches the end of the loop ([fold_carry_done]). *)
Fixpoint fold_carry (fuel : nat) (ret : Z) : Z :=
  match fuel with
  | O => ret
  | S fuel' =>
      if 0xffff <? ret then fold_carry fuel' (u32 (Z.shiftr ret 16 + Z.land ret 0xffff)) else ret
  end.

Definition value (ck : InternetChecksum) : Z := u16 (u32 (Z.lnot (fold_carry 3 (_sum ck)))).

(** ** The sum of a byte string *)

Fixpoint bsum (parity : bool) (l : list byte) : Z :=
  match l with
  | [] => 0
  | c :: l' => (if parity then byte_val c else byte_val c * 256) + bsum (negb parity) l'
  end.

Lemma bsum_range parity l : 0 <= bsum parity l <= 65280 * zlen l.
Proof.
  revert parity. induction l as [|c l IH]; intros parity; cbn [bsum length]; [lia|].
  specialize (IH (negb parity)). pose proof (byte_val_range c). word_unfold.
  destruct parity; lia.
Qed.

Lemma bsum_app parity l l' :
  bsum parity (l ++ l') = bsum parity l + bsum (xorb parity (Nat.odd (length l))) l'.
Proof.
  revert parity. induction l as [|c l IH]; intros parity; cbn [bsum app length].
  - by rewrite xorb_false_r.
  - rewrite IH, Nat.odd_succ, <- Nat.negb_odd.
    replace (xorb parity (negb (Nat.odd (length l))))
      with (xorb (negb parity) (Nat.odd (length l))) by (by destruct parity, (Nat.odd _)).
    lia.
Qed.

Lemma add_eq l : forall s parity, is_u32 s ->
  add l (mkChecksum s parity) = mkChecksum (u32 (s + bsum parity l)) (xorb parity (Nat.odd (length l))).
Proof.
  induction l as [|c l IH]; intros s parity Hs; cbn [bsum length add fold_left].
  - rewrite Z.add_0_r, u32_small, xorb_false_r by done. done.
  - unfold add_byte. cbn [_sum _parity]. unfold add in IH. rewrite IH by apply u32_range.
    rewrite Nat.odd_succ, <- Nat.negb_odd. pose proof (byte_val_range c) as Hc.
    rewrite Z.shiftl_mul_pow2 by lia. f_equal; [|by destruct parity, (Nat.odd _)].
    destruct parity; cbn [negb]; word_lia.
Qed.

(** Folding keeps the residue modulo 65535 and ends below 2^16. *)
Lemma fold_step_eq s : is_u32 s -> u32 (Z.shiftr s 16 + Z.land s 0xffff) = s / 65536 + s mod 65536.
Proof.
  intros Hs. rewrite Z.shiftr_div_pow2 by lia. change 65535 with (Z.ones 16).
  rewrite Z.land_ones by lia. word_lia.
Qed.

Lemma fold_carry_spec s :
  is_u32 s ->
  let r := fold_carry 3 s in
  0 <= r <= 65535 /\ r mod 65535 = s mod 65535 /\ (r = 0 <-> s = 0).
Proof.
  intros Hs. cbv zeta. cbn [fold_carry].
  destruct (65535 <? s) eqn:E1; bool_prop; [|word_lia].
  rewrite fold_step_eq by done. set (s1 := s / 65536 + s mod 65536).
  assert (H1 : 0 < s1 <= 131070 /\ s1 mod 65535 = s mod 65535) by (subst s1; word_lia).
  clearbody s1. destruct (65535 <? s1) eqn:E2; bool_prop; [|lia].
  rewrite fold_step_eq by word_lia. set (s2 := s1 / 65536 + s1 mod 65536).
  assert (H2 : 0 < s2 <= 65535 /\ s2 mod 65535 = s1 mod 65535) by (subst s2; word_lia).
  clearbody s2. rewrite (proj2 (Z.ltb_ge _ _)) by lia. lia.
Qed.

(** The loop of [value] has ended when its fuel is used up. *)
Lemma fold_carry_done s fuel : is_u32 s -> (3 <= fuel)%nat -> fold_carry fuel s = fold_carry 3 s.
Proof.
  intros Hs Hf. assert (Hstop : forall f r, r <= 65535 -> fold_carry f r = r).
  { intros [|f] r Hr; cbn; [done|]. by rewrite (proj2 (Z.ltb_ge _ _)). }
  do 3 (destruct fuel as [|fuel]; [lia|]). cbn [fold_carry].
  destruct (65535 <? s) eqn:E1; [|done].
  set (s1 := u32 (Z.shiftr s 16 + Z.land s 65535)).
  assert (H1 : 0 <= s1 <= 131070) by (subst s1; rewrite fold_step_eq by done; word_lia).
  destruct (65535 <? s1) eqn:E2; [|done].
  set (s2 := u32 (Z.shiftr s1 16 + Z.land s1 65535)).
  assert (H2 : 0 <= s2 <= 65535) by (subst s2; bool_prop; rewrite fold_step_eq by word_lia; word_lia).
  rewrite (proj2 (Z.ltb_ge _ _)) by lia. done.
Qed.

Lemma value_eq s parity : is_u32 s -> value (mkChecksum s parity) = 65535 - fold_carry 3 s.
Proof.
  intros Hs. unfold value. cbn [_sum]. pose proof (fold_carry_spec s Hs) as (Hr & _).
  unfold Z.lnot. word_lia.
Qed.

Lemma value_zero_iff s parity :
  is_u32 s -> value (mkChecksum s parity) = 0 <-> 0 < s /\ s mod 65535 = 0.
Proof.
  intros Hs. rewrite value_eq by done. pose proof (fold_carry_spec s Hs) as (Hr & Hm & Hz).
  split; [intros E; assert (fold_carry 3 s = 65535) as Ef by lia; rewrite Ef in *; cbn in Hm; word_lia|].
  intros [Hp H0]. rewrite H0 in Hm. word_lia.
Qed.

(** The checksum of some data with an initial (pseudo-header) sum. *)
Definition checksum (initial : Z) (data : list byte) : Z := value (add data (InternetChecksum_new initial)).

(** Sums that stay below 2^32. *)
Definition fits (initial : Z) (data : list byte) : Prop :=
  0 <= initial /\ initial + 65280 * (zlen data + 2) < 2 ^ 32.

Lemma checksum_zero_iff initial data :
  fits initial data ->
  checksum initial data = 0 <->
  0 < initial + bsum false data /\ (initial + bsum false data) mod 65535 = 0.
Proof.
  intros [H0 H1]. pose proof (bsum_range false data). unfold checksum, InternetChecksum_new.
  rewrite add_eq by word_lia. rewrite u32_small by word_lia. apply value_zero_iff. word_lia.
Qed.

Lemma bsum_field pre c post :
  Nat.even (length pre) = true -> is_u16 c ->
  bsum false (pre ++ be_bytes 2 c ++ post) = bsum false (pre ++ [x00; x00] ++ post) + c.
Proof.
  intros Hev Hc. rewrite !bsum_app, <- Nat.negb_even, Hev, length_be_bytes. cbn [negb xorb].
  change (length [x00; x00]) with 2%nat. change (Nat.odd 2) with false. cbn [xorb].
  assert (E : bsum false (be_bytes 2 c) = c); [|change (bsum false [x00; x00]) with 0; lia].
  cbn [be_bytes bsum negb]. rewrite !byte_val_of. change (256 ^ Z.of_nat 1) with 256.
  change (256 ^ Z.of_nat 0) with 1. word_lia.
Qed.

(** The value computed over a zeroed field makes the whole verify. *)
Lemma checksum_stored initial pre post :
  Nat.even (length pre) = true -> fits initial (pre ++ [x00; x00] ++ post) ->
  let c := checksum initial (pre ++ [x00; x00] ++ post) in
  is_u16 c /\ checksum initial (pre ++ be_bytes 2 c ++ post) = 0.
Proof.
  intros Hev Hf c. set (z := pre ++ [x00; x00] ++ post) in *.
  pose proof (bsum_range false z) as Hb. destruct Hf as [H0 H1].
  set (s := initial + bsum false z).
  assert (Ec : c = 65535 - fold_carry 3 s).
  { subst c. unfold checksum, InternetChecksum_new. rewrite add_eq by word_lia.
    rewrite u32_small by (subst s; word_lia). apply value_eq. subst s. word_lia. }
  destruct (fold_carry_spec s) as (Hr & Hm & Hz); [subst s; word_lia|].
  assert (Hc : is_u16 c) by word_lia. split; [done|].
  assert (Hlen : length (pre ++ be_bytes 2 c ++ post) = length z).
  { subst z. rewrite !length_app, length_be_bytes. done. }
  apply checksum_zero_iff; [split; [done|]; rewrite Hlen; done|].
  rewrite (bsum_field pre c post Hev Hc). fold z. rewrite Z.add_assoc. fold s.
  rewrite Ec. assert (Hs : 0 <= s) by (subst s; lia). clearbody s. clear - Hr Hm Hz Hs.
  split; word_lia.
Qed.

(** C31.  A checksum computed over data whose 16-bit checksum field (at an even
    offset) is zero, and then stored in that field, makes the whole verify (the
    checksum of the result is zero), and no other value does, up to the two
    representations of zero. *)
Theorem checksum_verifies initial pre post :
  Nat.even (length pre) = true -> fits initial (pre ++ [x00; x00] ++ post) ->
  let c := checksum initial (pre ++ [x00; x00] ++ post) in
  is_u16 c /\ checksum initial (pre ++ be_bytes 2 c ++ post) = 0 /\
  forall c', is_u16 c' -> checksum initial (pre ++ be_bytes 2 c' ++ post) = 0 ->
    c' = c \/ (c = 0 /\ c' = 65535) \/ (c = 65535 /\ c' = 0).
Proof.
  intros Hev Hf. cbv zeta. destruct (checksum_stored initial pre post Hev Hf) as [Hc Hz].
  split_and!; [done..|]. intros c' Hc' Hz'.
  assert (Hfit : forall v, fits initial (pre ++ be_bytes 2 v ++ post)).
  { intros v. destruct Hf as [H0 H1]. split; [done|].
    rewrite !length_app, length_be_bytes in *. done. }
  apply checksum_zero_iff in Hz as [_ Hz]; [|done]. apply checksum_zero_iff in Hz' as [_ Hz']; [|done].
  rewrite (bsum_field pre _ post Hev) in Hz by done. rewrite (bsum_field pre _ post Hev) in Hz' by done.
  revert Hz Hz' Hc. generalize (checksum initial (pre ++ [x00; x00] ++ post)).
  generalize (bsum false (pre ++ [x00; x00] ++ post)). intros S c Hz Hz' Hc. word_lia.
Qed.

Lemma checksum_verifies_witness :
  let c := checksum 6 ([x45; x00] ++ [x00; x00] ++ [x12; xff; x7e]) in
  checksum 6 ([x45; x00] ++ be_bytes 2 c ++ [x12; xff; x7e]) = 0 /\ c = 10746.
Proof.
  cbv zeta. split; [|reflexivity].
  apply (checksum_verifies 6 [x45; x00] [x12; xff; x7e]); [reflexivity|].
  split; [lia|cbn; lia].
Defined.

(** Error detection: if some data verifies, the same data with any one
    byte replaced by a different one does not. *)
Theorem checksum_detects initial pre a b post :
  fits initial (pre ++ a :: post) -> checksum initial (pre ++ a :: post) = 0 -> a <> b ->
  checksum initial (pre ++ b :: post) <> 0.
Proof.
  intros Hf Ha Hab Hb.
  assert (Hf' : fits initial (pre ++ b :: post)).
  { destruct Hf as [? Hl]. split; [done|]. rewrite length_app in *. done. }
  apply checksum_zero_iff in Ha as [_ Ha]; [|done].
  apply checksum_zero_iff in Hb as [_ Hb]; [|done].
  rewrite !bsum_app in *. cbn [bsum] in *.
  set (par := xorb false _) in *. clearbody par.
  set (A := bsum false pre) in *. set (B := bsum (negb par) post) in *. clearbody A B.
  assert (byte_val a <> byte_val b) by (intros E; by apply Hab, byte_val_inj).
  pose proof (byte_val_range a). pose proof (byte_val_range b).
  clear Hf Hf'. destruct par; word_lia.
Qed.

Lemma checksum_detects_witness :
  checksum 0 ([xba] ++ x45 :: [x45; xba]) = 0 /\ checksum 0 ([xba] ++ x46 :: [x45; xba]) <> 0.
Proof.
  split; [reflexivity|].
  apply (checksum_detects 0 [xba] x45 x46 [x45; xba]); [split; [lia|cbn; lia]|reflexivity|congruence].
Defined.
