(* ===== verification/TCPSegment.v ===== *)
(** * TCP headers and segments

    Models [src/libsponge/tcp_helpers/tcp_header.hh], [.cc] and
    [tcp_segment.hh], [.cc]: the header, its parser and serializer, and the
    segment with its checksum.  Round trip, totality, and the exact conditions
    under which [TCPSegment::parse] reports success. *)

From S2P Require Import Prelude WrappingIntegers Buffers Parser Checksum.

Record TCPHeader := mkTCPHeader {
  sport : Z; dport : Z; seqno : WrappingInt32; ackno : WrappingInt32; doff : Z;
  urg : bool; ack : bool; psh : bool; rst : bool; syn : bool; fin : bool;
  win : Z; cksum : Z; uptr : Z
}.

#[export] Instance TCPHeader_eq_dec : EqDecision TCPHeader.
Proof. solve_decision. Defined.

(** [TCPHeader::LENGTH]. *)
Definition LENGTH : Z := 20.

(** The default member initializers. *)
Definition TCPHeader_default : TCPHeader :=
  mkTCPHeader 0 0 (mkWrappingInt32 0) (mkWrappingInt32 0) (LENGTH / 4)
    false false false false false false 0 0 0.

Definition flag_set (fl_b mask : Z) : bool := negb (Z.land fl_b mask =? 0).

Definition TCPHeader_parse : parser (ParseResult * TCPHeader) :=
  let! sport := pu16 in
  let! dport := pu16 in
  let! seqno := pu32 in
  let! ackno := pu32 in
  let! doff_b := pu8 in
  let! fl_b := pu8 in
  let! win := pu16 in
  let! cksum := pu16 in
  let! uptr := pu16 in
  let h := mkTCPHeader sport dport (mkWrappingInt32 seqno) (mkWrappingInt32 ackno)
             (Z.shiftr doff_b 4)
             (flag_set fl_b 32) (flag_set fl_b 16) (flag_set fl_b 8)
             (flag_set fl_b 4) (flag_set fl_b 2) (flag_set fl_b 1) win cksum uptr in
  if doff h <? 5 then pret (HeaderTooShort, h)
  else
    p_remove_prefix (u64 (doff h * 4 - LENGTH)) ;;
    let! e := error in
    if e then let! r := get_error in pret (r, h) else pret (NoError, h).

Definition bit (b : bool) (mask : Z) : Z := if b then mask else 0.

Definition flags_byte (h : TCPHeader) : Z :=
  u8 (Z.lor (Z.lor (Z.lor (Z.lor (Z.lor (bit (urg h) 32) (bit (ack h) 16)) (bit (psh h) 8))
    (bit (rst h) 4)) (bit (syn h) 2)) (bit (fin h) 1)).

Definition TCPHeader_serialize (h : TCPHeader) : res (list byte) :=
  if doff h <? 5 then Throw runtime_error
  else
    let ret := [] in
    let ret := un_u16 ret (sport h) in
    let ret := un_u16 ret (dport h) in
    let ret := un_u32 ret (raw_value (seqno h)) in
    let ret := un_u32 ret (raw_value (ackno h)) in
    let ret := un_u8 ret (u8 (Z.shiftl (doff h) 4)) in
    let ret := un_u8 ret (flags_byte h) in
    let ret := un_u16 ret (win h) in
    let ret := un_u16 ret (cksum h) in
    let ret := un_u16 ret (uptr h) in
    Ok (resize (4 * doff h) ret).

(** [TCPHeader::operator==], which leaves out the ports and the checksum. *)
Definition TCPHeader_eqb (a b : TCPHeader) : bool :=
  weqb (seqno a) (seqno b) && weqb (ackno a) (ackno b) && (doff a =? doff b) &&
  eqb (urg a) (urg b) && eqb (ack a) (ack b) && eqb (psh a) (psh b) && eqb (rst a) (rst b) &&
  eqb (syn a) (syn b) && eqb (fin a) (fin b) && (win a =? win b) && (uptr a =? uptr b).

(** ** Segments *)

Record TCPSegment := mkTCPSegment { header : TCPHeader; payload : Buffer }.

#[export] Instance TCPSegment_eq_dec : EqDecision TCPSegment.
Proof. solve_decision. Defined.

Definition TCPSegment_default : TCPSegment := mkTCPSegment TCPHeader_default Buffer_default.

(** [TCPSegment::parse] on the object [seg]. *)
Definition TCPSegment_parse (seg : TCPSegment) (buf : Buffer) (datagram_layer_checksum : Z)
  : res (ParseResult * TCPSegment) :=
  let check := add (str buf) (InternetChecksum_new datagram_layer_checksum) in
  if negb (value check =? 0) then Ok (BadChecksum, seg)
  else
    r ← (let! rh := TCPHeader_parse in
         let! b := buffer in
         let! e := get_error in
         pret (e, mkTCPSegment (snd rh) b)) (NetParser_new buf);
    Ok (fst r).

Definition length_in_sequence_space (seg : TCPSegment) : Z :=
  zlen (str (payload seg)) + (if syn (header seg) then 1 else 0) +
  (if fin (header seg) then 1 else 0).

Definition with_cksum (c : Z) (h : TCPHeader) : TCPHeader :=
  mkTCPHeader (sport h) (dport h) (seqno h) (ackno h) (doff h) (urg h) (ack h) (psh h) (rst h)
    (syn h) (fin h) (win h) c (uptr h).

Definition TCPSegment_serialize (seg : TCPSegment) (datagram_layer_checksum : Z) : res BufferList :=
  let header_out := with_cksum 0 (header seg) in
  s ← TCPHeader_serialize header_out;
  let check := InternetChecksum_new datagram_layer_checksum in
  let check := add s check in
  let check := add (str (payload seg)) check in
  let header_out := with_cksum (value check) header_out in
  s' ← TCPHeader_serialize header_out;
  Ok (append (append [] [Buffer_of s']) [payload seg]).

(** ** The bytes of a header *)

Definition header_wf (h : TCPHeader) : Prop :=
  is_u16 (sport h) /\ is_u16 (dport h) /\ winv (seqno h) /\ winv (ackno h) /\ 5 <= doff h <= 15 /\
  is_u16 (win h) /\ is_u16 (cksum h) /\ is_u16 (uptr h).

(** The sixteen bytes before the checksum field. *)
Definition fields_before (h : TCPHeader) : list byte :=
  be_bytes 2 (sport h) ++ be_bytes 2 (dport h) ++ be_bytes 4 (raw_value (seqno h)) ++
  be_bytes 4 (raw_value (ackno h)) ++ be_bytes 1 (u8 (Z.shiftl (doff h) 4)) ++
  be_bytes 1 (flags_byte h) ++ be_bytes 2 (win h).

(** The urgent pointer and the padding after it. *)
Definition fields_after (h : TCPHeader) : list byte :=
  be_bytes 2 (uptr h) ++ replicate (Z.to_nat (4 * doff h - 20)) x00.

Lemma length_fields_before h : length (fields_before h) = 16%nat.
Proof. reflexivity. Qed.

Lemma serialize_bytes h :
  5 <= doff h ->
  TCPHeader_serialize h = Ok (fields_before h ++ be_bytes 2 (cksum h) ++ fields_after h).
Proof.
  intros Hd. unfold TCPHeader_serialize. rewrite (proj2 (Z.ltb_ge _ _)) by done. cbv zeta.
  f_equal. unfold un_u16, un_u32, un_u8. rewrite !unparse_eq. unfold resize.
  rewrite take_ge by (rewrite !length_app, !length_be_bytes; cbn; lia).
  unfold fields_before, fields_after. rewrite <- !app_assoc. cbn [app].
  repeat f_equal. rewrite ?length_app, ?length_be_bytes. cbn [length]. lia.
Qed.

Lemma flags_read h :
  let b := flags_byte h in
  is_u8 b /\
  flag_set b 32 = urg h /\ flag_set b 16 = ack h /\ flag_set b 8 = psh h /\
  flag_set b 4 = rst h /\ flag_set b 2 = syn h /\ flag_set b 1 = fin h.
Proof.
  cbv zeta. split; [apply u8_range|]. unfold flags_byte.
  by destruct (urg h), (ack h), (psh h), (rst h), (syn h), (fin h).
Qed.

Lemma doff_read d : 5 <= d <= 15 -> Z.shiftr (u8 (Z.shiftl d 4)) 4 = d.
Proof.
  intros. rewrite Z.shiftl_mul_pow2, Z.shiftr_div_pow2 by lia. change (2 ^ 4) with 16. word_lia.
Qed.

Lemma header_parses h rest :
  header_wf h ->
  parses TCPHeader_parse (fields_before h ++ be_bytes 2 (cksum h) ++ fields_after h ++ rest)
    (NoError, h) rest.
Proof.
  intros (H1 & H2 & H3 & H4 & H5 & H6 & H7 & H8). unfold winv in *.
  destruct (flags_read h) as (Hfb & F1 & F2 & F3 & F4 & F5 & F6).
  pose proof (u8_range (Z.shiftl (doff h) 4)).
  unfold TCPHeader_parse, fields_before, fields_after. rewrite <- !app_assoc.
  do 9 parse_field. cbv zeta. cbn [doff]. rewrite doff_read by done.
  rewrite (proj2 (Z.ltb_ge _ _)), F1, F2, F3, F4, F5, F6 by lia.
  unfold LENGTH. rewrite u64_small by word_lia.
  eapply parses_bind; [apply parses_remove_prefix; rewrite length_replicate; lia|].
  eapply parses_bind; [apply parses_error|]. cbv iota beta.
  destruct h as [? ? [?] [?] ? ? ? ? ? ? ? ? ? ?]. apply parses_ret.
Qed.

Lemma header_wf_cksum h c : header_wf h -> is_u16 c -> header_wf (with_cksum c h).
Proof. unfold header_wf. intros. cbn. tauto. Qed.

(** The checksum a serialized segment carries. *)
Definition segment_checksum (seg : TCPSegment) (ck : Z) : Z :=
  checksum ck (fields_before (header seg) ++ [x00; x00] ++ fields_after (header seg) ++
               str (payload seg)).

Lemma add_app l l' ck : add (l ++ l') ck = add l' (add l ck).
Proof. apply fold_left_app. Qed.

Lemma segment_serialize_eq seg ck :
  5 <= doff (header seg) ->
  TCPSegment_serialize seg ck =
    Ok [Buffer_of (fields_before (header seg) ++ be_bytes 2 (segment_checksum seg ck) ++
                   fields_after (header seg)); payload seg].
Proof.
  intros Hd. unfold TCPSegment_serialize. rewrite serialize_bytes by done.
  cbn [mbind res_bind]. rewrite serialize_bytes by done. cbn [mbind res_bind].
  rewrite !append_app. cbn [app]. do 4 f_equal. unfold segment_checksum, checksum.
  rewrite <- add_app, <- !app_assoc. done.
Qed.

(** Bytes of a segment whose checksum verifies parse to the segment. *)
Lemma segment_parse_bytes seg0 b h pl ck :
  buf_ok b -> str b = fields_before h ++ be_bytes 2 (cksum h) ++ fields_after h ++ pl ->
  header_wf h -> checksum ck (str b) = 0 ->
  exists seg', TCPSegment_parse seg0 b ck = Ok (NoError, seg') /\
    header seg' = h /\ str (payload seg') = pl.
Proof.
  intros Hb Es Hh Hck. unfold TCPSegment_parse. fold (checksum ck (str b)). rewrite Hck.
  cbn [negb Z.eqb]. pose proof (view_buf b Hb) as Hv. rewrite Es in Hv.
  destruct (header_parses h pl Hh _ Hv) as (p1 & E1 & Hp1).
  unfold pbind. rewrite E1. unfold buffer, get_error, pret. cbn [mbind res_bind fst snd].
  rewrite (view_err _ _ _ Hp1). eexists. split; [done|]. split; [done|]. apply Hp1.
Qed.

(** A buffer that holds a serialized segment parses to the segment. *)
Lemma segment_reparse seg0 seg ck :
  header_wf (header seg) -> fits ck (replicate 60 x00 ++ str (payload seg)) ->
  exists bl, TCPSegment_serialize seg ck = Ok bl /\
    zlen (concatenate bl) = 4 * doff (header seg) + zlen (str (payload seg)) /\
    forall b, buf_ok b -> str b = concatenate bl ->
      exists seg', TCPSegment_parse seg0 b ck = Ok (NoError, seg') /\
        header seg' = with_cksum (segment_checksum seg ck) (header seg) /\
        str (payload seg') = str (payload seg).
Proof.
  intros Hh [Hf0 Hf1]. pose proof Hh as (_ & _ & _ & _ & Hd & _). set (h := header seg) in *.
  destruct (checksum_stored ck (fields_before h) (fields_after h ++ str (payload seg)))
    as [Hc Hv]; [by rewrite length_fields_before| |].
  { split; [done|]. rewrite !length_app in *.
    rewrite length_replicate in Hf1. rewrite length_fields_before. unfold fields_after.
    rewrite length_app, length_be_bytes, length_replicate. cbn [length] in *. lia. }
  fold (segment_checksum seg ck) in Hc, Hv.
  rewrite segment_serialize_eq by apply Hd. fold h. eexists. split; [done|].
  rewrite concatenate_eq. cbn [map concat]. rewrite str_of, app_nil_r, <- !app_assoc. split.
  { rewrite !length_app, length_fields_before, length_be_bytes. unfold fields_after.
    rewrite length_app, length_be_bytes, length_replicate. lia. }
  intros b Hb Es. apply (segment_parse_bytes seg0 b (with_cksum (segment_checksum seg ck) h)).
  - done.
  - exact Es.
  - by apply header_wf_cksum.
  - rewrite Es. exact Hv.
Qed.

(** C27.  Round trip of segments: a well-formed segment serialized with some
    pseudo-header checksum, put on the wire as one string and parsed with the
    same pseudo-header checksum, comes back with every header field (the
    checksum field holding the computed checksum) and the same payload. *)
Theorem segment_roundtrip seg0 seg ck :
  header_wf (header seg) -> fits ck (replicate 60 x00 ++ str (payload seg)) ->
  exists bl seg',
    TCPSegment_serialize seg ck = Ok bl /\
    TCPSegment_parse seg0 (Buffer_of (concatenate bl)) ck = Ok (NoError, seg') /\
    header seg' = with_cksum (segment_checksum seg ck) (header seg) /\
    str (payload seg') = str (payload seg).
Proof.
  intros Hh Hf. pose proof Hh as (_ & _ & _ & _ & Hd & _).
  destruct (segment_reparse seg0 seg ck Hh Hf) as (bl & Hs & Hl & Hp).
  destruct (Hp (Buffer_of (concatenate bl))) as (seg' & H);
    [apply buf_ok_of; destruct Hf as [? Hf]; rewrite length_app in Hf; lia|apply str_of|].
  exists bl, seg'. tauto.
Qed.

Lemma segment_roundtrip_witness :
  let seg := mkTCPSegment
    (mkTCPHeader 80 4321 (mkWrappingInt32 7) (mkWrappingInt32 9) 6
       false true false false false true 1000 0 0) (Buffer_of [x68; x69]) in
  exists bl seg',
    TCPSegment_serialize seg 99 = Ok bl /\
    TCPSegment_parse TCPSegment_default (Buffer_of (concatenate bl)) 99 = Ok (NoError, seg') /\
    header seg' = with_cksum (segment_checksum seg 99) (header seg) /\
    str (payload seg') = str (payload seg).
Proof.
  apply (segment_roundtrip TCPSegment_default
    (mkTCPSegment (mkTCPHeader 80 4321 (mkWrappingInt32 7) (mkWrappingInt32 9) 6
       false true false false false true 1000 0 0) (Buffer_of [x68; x69])) 99).
  - unfold header_wf, winv. cbn. word_lia.
  - split; [lia|vm_compute; reflexivity].
Defined.

(** ** What [TCPSegment::parse] accepts *)

Lemma header_runs_out l : zlen l < 20 -> runs_out TCPHeader_parse l.
Proof.
  intros Hl. unfold TCPHeader_parse.
  do 9 (apply runs_out_int; [lia|intros; reader_tac|intros ? ? -> ?; rewrite length_app in Hl]).
  lia.
Qed.

(** Byte 12 of the buffer, whose upper half is the data offset. *)
Definition doff_of (l : list byte) : Z := byte_val (nth 12 l x00) / 16.

Lemma header_long l :
  20 <= zlen l ->
  doff_of l < 5 /\ (exists h, parses TCPHeader_parse l (HeaderTooShort, h) (drop 20 l)) \/
  5 <= doff_of l /\ 4 * doff_of l <= zlen l /\
    (exists h, parses TCPHeader_parse l (NoError, h) (drop (Z.to_nat (4 * doff_of l)) l)) \/
  5 <= doff_of l /\ zlen l < 4 * doff_of l /\ runs_out TCPHeader_parse l.
Proof.
  intros Hl.
  destruct l as [|a0 [|a1 [|a2 [|a3 [|a4 [|a5 [|a6 [|a7 [|a8 [|a9 [|a10 [|a11 [|a12 [|a13 [|a14
    [|a15 [|a16 [|a17 [|a18 [|a19 l]]]]]]]]]]]]]]]]]]]]; cbn [length] in Hl; try lia.
  unfold doff_of. cbn [nth]. pose proof (byte_val_range a12) as Ha.
  assert (Hd : Z.shiftr (be_val [a12]) 4 = byte_val a12 / 16)
    by (rewrite Z.shiftr_div_pow2 by lia; done).
  set (d := byte_val a12 / 16) in *. assert (0 <= d <= 15) by (subst d; word_lia).
  set (bytes := a0 :: _).
  assert (Eb : bytes = [a0; a1] ++ [a2; a3] ++ [a4; a5; a6; a7] ++ [a8; a9; a10; a11] ++ [a12] ++
    [a13] ++ [a14; a15] ++ [a16; a17] ++ [a18; a19] ++ l) by done.
  assert (Edrop : forall k, 20 <= k -> drop (Z.to_nat k) bytes = drop (Z.to_nat (k - 20)) l).
  { intros k Hk. replace (Z.to_nat k) with (20 + Z.to_nat (k - 20))%nat by lia. done. }
  assert (Elen : zlen bytes = 20 + zlen l) by (subst bytes; cbn [length]; lia).
  clearbody bytes. destruct (Z.lt_ge_cases d 5) as [H5|H5]; [left; split; [done|]|right].
  - eexists. change 20%nat with (Z.to_nat 20). rewrite (Edrop 20) by lia.
    change (Z.to_nat (20 - 20)) with 0%nat. rewrite drop_0, Eb. unfold TCPHeader_parse.
    do 9 (eapply parses_bind; [apply parses_int; [reflexivity|lia]|]; cbv beta).
    cbv zeta. cbn [doff]. rewrite Hd, (proj2 (Z.ltb_lt _ _)) by done. apply parses_ret.
  - destruct (Z.le_gt_cases (4 * d) (zlen bytes)) as [H4|H4]; [left|right];
      (split; [done|]; split; [done|]).
    + eexists. rewrite (Edrop (4 * d)), Eb by lia. unfold TCPHeader_parse.
      do 9 (eapply parses_bind; [apply parses_int; [reflexivity|lia]|]; cbv beta).
      cbv zeta. cbn [doff]. rewrite Hd, (proj2 (Z.ltb_ge _ _)) by lia.
      unfold LENGTH. rewrite u64_small by word_lia.
      rewrite <- (take_drop (Z.to_nat (4 * d - 20)) l) at 1.
      eapply parses_bind; [apply parses_remove_prefix; rewrite length_take; lia|].
      eapply parses_bind; [apply parses_error|]. apply parses_ret.
    + rewrite Eb. unfold TCPHeader_parse.
      do 9 (eapply runs_out_bind_r; [apply parses_int; [reflexivity|lia]|]; cbv beta).
      cbv zeta. cbn [doff]. rewrite Hd, (proj2 (Z.ltb_ge _ _)) by lia.
      apply runs_out_bind_l; [apply runs_out_guarded|intros; reader_tac].
      unfold LENGTH. rewrite u64_small by word_lia. lia.
Qed.

(** What [TCPSegment::parse] reports on an arbitrary buffer: it never
    throws; [BadChecksum] when the checksum does not verify; otherwise success
    exactly when the 20 header bytes are there and the header, if it claims at
    least five words, fits in the buffer.  A data offset below five words, which
    [TCPHeader::parse] rejects as [HeaderTooShort], is reported as success. *)
Theorem segment_parse_result seg0 l ck :
  zlen l < 2 ^ 63 ->
  exists seg', TCPSegment_parse seg0 (Buffer_of l) ck =
    Ok (if negb (checksum ck l =? 0) then BadChecksum
        else if (20 <=? zlen l) && ((doff_of l <? 5) || (4 * doff_of l <=? zlen l))
        then NoError else PacketTooShort, seg').
Proof.
  intros Hl. unfold TCPSegment_parse. rewrite str_of. fold (checksum ck l).
  destruct (negb _); [by eexists|]. pose proof (view_new l Hl) as Hv.
  assert (Hok : forall r rest, parses TCPHeader_parse l r rest ->
    exists seg', (r ← (let! rh := TCPHeader_parse in let! b := buffer in let! e := get_error in
         pret (e, mkTCPSegment (snd rh) b)) (NetParser_new (Buffer_of l)); Ok (fst r))
      = Ok (NoError, seg')).
  { intros r rest Hp. destruct (Hp _ Hv) as (p1 & E1 & Hp1). unfold pbind. rewrite E1.
    unfold buffer, get_error, pret. cbn [mbind res_bind fst snd].
    rewrite (view_err _ _ _ Hp1). by eexists. }
  assert (Hout : runs_out TCPHeader_parse l ->
    exists seg', (r ← (let! rh := TCPHeader_parse in let! b := buffer in let! e := get_error in
         pret (e, mkTCPSegment (snd rh) b)) (NetParser_new (Buffer_of l)); Ok (fst r))
      = Ok (PacketTooShort, seg')).
  { intros Hp. destruct (Hp _ Hv) as (a & p1 & E1 & Hp1). unfold pbind. rewrite E1.
    unfold buffer, get_error, pret. cbn [mbind res_bind fst snd]. rewrite Hp1. by eexists. }
  destruct (20 <=? zlen l) eqn:E20; bool_prop; [|apply Hout, header_runs_out; lia].
  destruct (header_long l E20) as [[H5 [h Hp]]|[(H5 & H4 & h & Hp)|(H5 & H4 & Hp)]].
  - rewrite (proj2 (Z.ltb_lt _ _)) by done. by eapply Hok.
  - rewrite (proj2 (Z.ltb_ge _ _)), (proj2 (Z.leb_le _ _)) by done. by eapply Hok.
  - rewrite (proj2 (Z.ltb_ge _ _)), (proj2 (Z.leb_gt _ _)) by done. by apply Hout.
Qed.

(** A segment with a data offset of zero and a valid checksum is accepted. *)
Lemma segment_parse_result_witness :
  let l := replicate 16 x00 ++ [xff; xff] ++ [x00; x00] in
  exists seg', TCPSegment_parse TCPSegment_default (Buffer_of l) 0 = Ok (NoError, seg').
Proof.
  apply (segment_parse_result TCPSegment_default (replicate 16 x00 ++ [xff; xff] ++ [x00; x00]) 0).
  vm_compute. reflexivity.
Defined.

(** ** Types *)

(** Every field within the width it has in the source. *)
Definition header_typed (h : TCPHeader) : Prop :=
  is_u16 (sport h) /\ is_u16 (dport h) /\ winv (seqno h) /\ winv (ackno h) /\ 0 <= doff h < 16 /\
  is_u16 (win h) /\ is_u16 (cksum h) /\ is_u16 (uptr h).

Lemma header_parse_typed : yields TCPHeader_parse (fun r => header_typed (snd r)).
Proof.
  unfold TCPHeader_parse. do 9 (eapply yields_bind; [apply yields_int|]; intros ? ?). cbv zeta.
  match goal with |- yields (if doff ?h <? 5 then _ else _) _ => assert (Hh : header_typed h) end.
  { unfold header_typed, winv. cbn. rewrite Z.shiftr_div_pow2 by lia. word_unfold. cbn in *.
    repeat split; try lia; Z.div_mod_to_equations; lia. }
  destruct (_ <? 5); [by apply yields_ret|]. eapply yields_bind; [apply yields_any|]. intros _ _.
  eapply yields_bind; [apply yields_any|]. intros [] _; [|by apply yields_ret].
  eapply yields_bind; [apply yields_any|]. intros r _. by apply yields_ret.
Qed.

Lemma segment_parsed_typed seg0 buf ck r seg :
  header_typed (header seg0) -> TCPSegment_parse seg0 buf ck = Ok (r, seg) -> header_typed (header seg).
Proof.
  unfold TCPSegment_parse. intros H0. destruct (negb _); [by intros [= _ <-]|].
  intros ([[r' seg'] p'] & E & [= _ <-])%res_bind_ok. revert E.
  match goal with |- ?m ?p = _ -> _ =>
    assert (Hy : yields m (fun x => header_typed (header (snd x)))) end.
  { eapply yields_bind; [apply header_parse_typed|]. intros rh Hh.
    eapply yields_bind; [apply yields_any|]. intros b _.
    eapply yields_bind; [apply yields_any|]. intros e _. by apply yields_ret. }
  intros E. by apply Hy in E.
Qed.

Lemma default_typed : header_typed (header TCPSegment_default).
Proof. vm_compute. repeat split; discriminate. Qed.

(** Parsing returns, for any buffer. *)
Lemma TCPSegment_parse_total seg0 buf ck : buf_ok buf -> exists r seg, TCPSegment_parse seg0 buf ck = Ok (r, seg).
Proof.
  intros Hb. unfold TCPSegment_parse. destruct (negb _); [by eexists _, _|].
  match goal with |- context [mbind _ (?m (NetParser_new buf))] => assert (Hm : total m) end.
  { unfold TCPHeader_parse, pu8, pu16, pu32. total_cases. }
  destruct (Hm (NetParser_new buf) Hb) as ([r seg] & p & E & _). rewrite E. by exists r, seg.
Qed.

(** C40.  The type of what [TCPSegment::parse] leaves behind, on any buffer: it
    returns, never throwing, and whatever its verdict every field of the header
    is within the width it has in the source, provided it was before.  The
    verdict is [BadChecksum] when the checksum does not verify, and otherwise
    success exactly when the 20 bytes of the header are there and the header, if
    it claims at least five words, fits in the buffer; a data offset below five
    words, which [TCPHeader::parse] rejects, is reported as success. *)
Theorem parsed_segment_typed seg0 l ck :
  zlen l < 2 ^ 63 -> header_typed (header seg0) ->
  exists seg', TCPSegment_parse seg0 (Buffer_of l) ck =
    Ok (if negb (checksum ck l =? 0) then BadChecksum
        else if (20 <=? zlen l) && ((doff_of l <? 5) || (4 * doff_of l <=? zlen l))
        then NoError else PacketTooShort, seg') /\
    header_typed (header seg').
Proof.
  intros Hl H0. destruct (segment_parse_result seg0 l ck Hl) as [seg' E]. exists seg'.
  split; [exact E|]. by eapply segment_parsed_typed.
Qed.

(** A segment with a data offset of zero and a valid checksum is accepted. *)
Lemma parsed_segment_typed_witness :
  let l := replicate 16 x00 ++ [xff; xff] ++ [x00; x00] in
  exists seg', TCPSegment_parse TCPSegment_default (Buffer_of l) 0 = Ok (NoError, seg') /\
    header_typed (header seg').
Proof.
  apply (parsed_segment_typed TCPSegment_default (replicate 16 x00 ++ [xff; xff] ++ [x00; x00]) 0).
  - vm_compute. reflexivity.
  - apply default_typed.
Defined.
