(* ===== verification/IPv4.v ===== *)
(** * IPv4 headers and datagrams

    Models [src/libsponge/tcp_helpers/ipv4_header.hh], [.cc] and
    [ipv4_datagram.hh], [.cc].  A datagram parsed from what [serialize] wrote is
    the datagram; and [IPv4Datagram::parse] does not look at the result of
    [IPv4Header::parse], so that headers the latter rejects are accepted. *)

From S2P Require Import Prelude Buffers Parser Checksum TCPSegment.

Record IPv4Header := mkIPv4Header {
  ip_ver : Z; ip_hlen : Z; ip_tos : Z; ip_len : Z; ip_id : Z; ip_df : bool; ip_mf : bool;
  ip_offset : Z; ip_ttl : Z; ip_proto : Z; ip_cksum : Z; ip_src : Z; ip_dst : Z
}.

#[export] Instance IPv4Header_eq_dec : EqDecision IPv4Header.
Proof. solve_decision. Defined.

Definition IP_LENGTH : Z := 20.
Definition DEFAULT_TTL : Z := 128.
Definition PROTO_TCP : Z := 6.

Definition IPv4Header_default : IPv4Header :=
  mkIPv4Header 4 (IP_LENGTH / 4) 0 0 0 true false 0 DEFAULT_TTL PROTO_TCP 0 0 0.

(** [IPv4Header::parse] on the object [h0]. *)
Definition IPv4Header_parse (h0 : IPv4Header) : parser (ParseResult * IPv4Header) :=
  let! original_serialized_version := buffer in
  let data_size := buf_size original_serialized_version in
  if data_size <? IP_LENGTH then pret (PacketTooShort, h0)
  else
    let! first_byte := pu8 in
    let! tos := pu8 in
    let! len := pu16 in
    let! id := pu16 in
    let! fo_val := pu16 in
    let! ttl := pu8 in
    let! proto := pu8 in
    let! cksum := pu16 in
    let! src := pu32 in
    let! dst := pu32 in
    let h := mkIPv4Header (Z.shiftr first_byte 4) (Z.land first_byte 0x0f) tos len id
               (flag_set fo_val 0x4000) (flag_set fo_val 0x2000) (Z.land fo_val 0x1fff)
               ttl proto cksum src dst in
    if data_size <? 4 * ip_hlen h then pret (PacketTooShort, h)
    else if negb (ip_ver h =? 4) then pret (WrongIPVersion, h)
    else if ip_hlen h <? 5 then pret (HeaderTooShort, h)
    else if negb (data_size =? ip_len h) then pret (TruncatedPacket, h)
    else
      p_remove_prefix (u64 (ip_hlen h * 4 - IP_LENGTH)) ;;
      let! e := error in
      if e then let! r := get_error in pret (r, h)
      else
        let check := add (take (Z.to_nat (4 * ip_hlen h)) (str original_serialized_version))
                       (InternetChecksum_new 0) in
        if negb (value check =? 0) then pret (BadChecksum, h) else pret (NoError, h).

Definition fo_word (h : IPv4Header) : Z :=
  u16 (Z.lor (Z.lor (bit (ip_df h) 0x4000) (bit (ip_mf h) 0x2000)) (Z.land (ip_offset h) 0x1fff)).

Definition IPv4Header_serialize (h : IPv4Header) : res (list byte) :=
  if negb (ip_ver h =? 4) then Throw runtime_error
  else if 4 * ip_hlen h <? IP_LENGTH then Throw runtime_error
  else
    let ret := [] in
    let first_byte := u8 (Z.lor (Z.shiftl (ip_ver h) 4) (Z.land (ip_hlen h) 0xf)) in
    let ret := un_u8 ret first_byte in
    let ret := un_u8 ret (ip_tos h) in
    let ret := un_u16 ret (ip_len h) in
    let ret := un_u16 ret (ip_id h) in
    let ret := un_u16 ret (fo_word h) in
    let ret := un_u8 ret (ip_ttl h) in
    let ret := un_u8 ret (ip_proto h) in
    let ret := un_u16 ret (ip_cksum h) in
    let ret := un_u32 ret (ip_src h) in
    let ret := un_u32 ret (ip_dst h) in
    Ok (resize (4 * ip_hlen h) ret).

Definition payload_length (h : IPv4Header) : Z := u16 (ip_len h - 4 * ip_hlen h).

Definition pseudo_cksum (h : IPv4Header) : Z :=
  let pcksum := u32 (Z.shiftr (ip_src h) 16 + Z.land (ip_src h) 0xffff) in
  let pcksum := u32 (pcksum + u32 (Z.shiftr (ip_dst h) 16 + Z.land (ip_dst h) 0xffff)) in
  let pcksum := u32 (pcksum + ip_proto h) in
  u32 (pcksum + payload_length h).

Record IPv4Datagram := mkIPv4Datagram { ip_header : IPv4Header; ip_payload : BufferList }.

#[export] Instance IPv4Datagram_eq_dec : EqDecision IPv4Datagram.
Proof. solve_decision. Defined.

Abbreviation InternetDatagram := IPv4Datagram.

Definition IPv4Datagram_default : IPv4Datagram := mkIPv4Datagram IPv4Header_default [].

(** [IPv4Datagram::parse] on the object [d0]; [p.buffer()] becomes a
    one-element [BufferList]. *)
Definition IPv4Datagram_parse (d0 : IPv4Datagram) (buf : Buffer) : res (ParseResult * IPv4Datagram) :=
  r ← (let! rh := IPv4Header_parse (ip_header d0) in
       let! b := buffer in
       let d := mkIPv4Datagram (snd rh) [b] in
       if negb (bl_size (ip_payload d) =? payload_length (ip_header d)) then pret (PacketTooShort, d)
       else let! e := get_error in pret (e, d)) (NetParser_new buf);
  Ok (fst r).

Definition with_ip_cksum (c : Z) (h : IPv4Header) : IPv4Header :=
  mkIPv4Header (ip_ver h) (ip_hlen h) (ip_tos h) (ip_len h) (ip_id h) (ip_df h) (ip_mf h)
    (ip_offset h) (ip_ttl h) (ip_proto h) c (ip_src h) (ip_dst h).

Definition IPv4Datagram_serialize (d : IPv4Datagram) : res BufferList :=
  if negb (bl_size (ip_payload d) =? payload_length (ip_header d)) then Throw runtime_error
  else
    let header_out := with_ip_cksum 0 (ip_header d) in
    header_zero_checksum ← IPv4Header_serialize header_out;
    let check := add header_zero_checksum (InternetChecksum_new 0) in
    let header_out := with_ip_cksum (value check) header_out in
    s ← IPv4Header_serialize header_out;
    Ok (append (append [] [Buffer_of s]) (ip_payload d)).

(** Parsing and serializing are defined on every input. *)
Lemma IPv4Datagram_parse_defined d0 buf : defined (IPv4Datagram_parse d0 buf).
Proof.
  unfold IPv4Datagram_parse, IPv4Header_parse, pu8, pu16, pu32. apply defined_bind; [|done].
  match goal with |- defined (?m _) => assert (Hm : pdefined m); [|apply Hm] end. pdefined_cases.
Qed.
(** Parsing always returns, with a payload in one buffer. *)
Lemma IPv4Datagram_parse_total d0 buf :
  buf_ok buf -> exists r h b, IPv4Datagram_parse d0 buf = Ok (r, mkIPv4Datagram h [b]) /\ buf_ok b.
Proof.
  intros Hb. assert (Hm : total (IPv4Header_parse (ip_header d0))).
  { unfold IPv4Header_parse, pu8, pu16, pu32. total_cases. }
  destruct (Hm (NetParser_new buf) Hb) as ([r h] & p & E & Hp). unfold IPv4Datagram_parse, pbind.
  rewrite E. unfold buffer. cbv zeta. destruct (negb _); by eexists _, h, (np_buffer p).
Qed.
Lemma IPv4Datagram_serialize_defined d : defined (IPv4Datagram_serialize d).
Proof. unfold IPv4Datagram_serialize, IPv4Header_serialize. defined_cases. Qed.
#[export] Hint Resolve IPv4Datagram_parse_defined IPv4Datagram_serialize_defined : sponge.

(** ** The bytes of a header *)

Definition ip_wf (h : IPv4Header) : Prop :=
  ip_ver h = 4 /\ 5 <= ip_hlen h <= 15 /\ is_u8 (ip_tos h) /\ is_u16 (ip_len h) /\
  is_u16 (ip_id h) /\ 0 <= ip_offset h < 2 ^ 13 /\ is_u8 (ip_ttl h) /\ is_u8 (ip_proto h) /\
  is_u16 (ip_cksum h) /\ is_u32 (ip_src h) /\ is_u32 (ip_dst h).

Definition first_byte_of (h : IPv4Header) : Z :=
  u8 (Z.lor (Z.shiftl (ip_ver h) 4) (Z.land (ip_hlen h) 0xf)).

Definition ip_before (h : IPv4Header) : list byte :=
  be_bytes 1 (first_byte_of h) ++ be_bytes 1 (ip_tos h) ++ be_bytes 2 (ip_len h) ++
  be_bytes 2 (ip_id h) ++ be_bytes 2 (fo_word h) ++ be_bytes 1 (ip_ttl h) ++ be_bytes 1 (ip_proto h).

Definition ip_after (h : IPv4Header) : list byte :=
  be_bytes 4 (ip_src h) ++ be_bytes 4 (ip_dst h) ++ replicate (Z.to_nat (4 * ip_hlen h - 20)) x00.

(** The header bytes with [c] in the checksum field. *)
Definition ip_bytes (h : IPv4Header) (c : Z) : list byte :=
  ip_before h ++ be_bytes 2 c ++ ip_after h.

Lemma length_ip_bytes h c : 5 <= ip_hlen h -> zlen (ip_bytes h c) = 4 * ip_hlen h.
Proof.
  intros. unfold ip_bytes, ip_before, ip_after.
  rewrite !length_app, !length_be_bytes, length_replicate. lia.
Qed.

Lemma ip_serialize_bytes h :
  ip_ver h = 4 -> 5 <= ip_hlen h -> IPv4Header_serialize h = Ok (ip_bytes h (ip_cksum h)).
Proof.
  intros Hv Hd. unfold IPv4Header_serialize, IP_LENGTH. rewrite Hv. cbn [negb Z.eqb Pos.eqb].
  rewrite (proj2 (Z.ltb_ge _ _)) by lia. cbv zeta. f_equal.
  unfold un_u16, un_u32, un_u8. rewrite !unparse_eq. unfold resize.
  rewrite take_ge by (rewrite !length_app, !length_be_bytes; cbn [length]; lia).
  unfold ip_bytes, ip_before, ip_after, first_byte_of. rewrite Hv, <- !app_assoc. cbn [app].
  repeat f_equal. rewrite ?length_app, ?length_be_bytes. cbn [length]. lia.
Qed.

Lemma first_byte_read h :
  0 <= ip_ver h <= 15 -> 0 <= ip_hlen h <= 15 ->
  is_u8 (first_byte_of h) /\ Z.shiftr (first_byte_of h) 4 = ip_ver h /\
  Z.land (first_byte_of h) 0x0f = ip_hlen h.
Proof.
  intros Hv Hh. unfold first_byte_of. split; [apply u8_range|].
  change 15 with (Z.ones 4). rewrite !Z.land_ones by lia.
  rewrite (Z.mod_small (ip_hlen h)), lor_shiftl_add, Z.shiftr_div_pow2 by lia.
  change (2 ^ 4) with 16. word_lia.
Qed.

Lemma fo_word_read h :
  0 <= ip_offset h < 2 ^ 13 ->
  is_u16 (fo_word h) /\ flag_set (fo_word h) 0x4000 = ip_df h /\
  flag_set (fo_word h) 0x2000 = ip_mf h /\ Z.land (fo_word h) 0x1fff = ip_offset h.
Proof.
  intros Ho. unfold fo_word, flag_set. split; [apply u16_range|].
  change 0x1fff with (Z.ones 13). change 0x4000 with (2 ^ 14). change 0x2000 with (2 ^ 13).
  rewrite !land_pow2, !negb_involutive, !Z.land_ones, (Z.mod_small (ip_offset h)) by lia.
  assert (E : Z.lor (Z.lor (bit (ip_df h) (2 ^ 14)) (bit (ip_mf h) (2 ^ 13))) (ip_offset h) =
              ((if ip_df h then 2 else 0) + (if ip_mf h then 1 else 0)) * 2 ^ 13 + ip_offset h).
  { rewrite <- lor_shiftl_add by lia. by destruct (ip_df h), (ip_mf h). }
  rewrite E, !Z.testbit_eqb by lia. change (2 ^ 14) with 16384. change (2 ^ 13) with 8192 in *.
  destruct (ip_df h), (ip_mf h); cbn [Z.add Pos.add];
    (split; [|split]); [apply Z.eqb_eq|apply Z.eqb_eq| |apply Z.eqb_eq|apply Z.eqb_neq|
      |apply Z.eqb_neq|apply Z.eqb_eq| |apply Z.eqb_neq|apply Z.eqb_neq| ]; word_lia.
Qed.

(** Every field within its width; the version and header length are nibbles. *)
Definition ip_fields (h : IPv4Header) : Prop :=
  0 <= ip_ver h <= 15 /\ 5 <= ip_hlen h <= 15 /\ is_u8 (ip_tos h) /\ is_u16 (ip_len h) /\
  is_u16 (ip_id h) /\ 0 <= ip_offset h < 2 ^ 13 /\ is_u8 (ip_ttl h) /\ is_u8 (ip_proto h) /\
  is_u32 (ip_src h) /\ is_u32 (ip_dst h).

Lemma ip_wf_fields h : ip_wf h -> ip_fields h.
Proof. unfold ip_wf, ip_fields. intros. destruct_and!. split_and!; (lia || done). Qed.

(** What [IPv4Header::parse] returns on the bytes of a header [h] with [c] in
    the checksum field, followed by [pl]. *)
Definition ip_verdict (h : IPv4Header) (c : Z) (pl : list byte) : ParseResult :=
  if negb (ip_ver h =? 4) then WrongIPVersion
  else if negb (4 * ip_hlen h + zlen pl =? ip_len h) then TruncatedPacket
  else if negb (checksum 0 (ip_bytes h c) =? 0) then BadChecksum else NoError.

Lemma ip_header_parses h0 h c pl :
  ip_fields h -> is_u16 c ->
  parses (IPv4Header_parse h0) (ip_bytes h c ++ pl) (ip_verdict h c pl, with_ip_cksum c h)
    (match ip_verdict h c pl with
     | WrongIPVersion | TruncatedPacket => drop 20 (ip_bytes h c ++ pl)
     | _ => pl
     end).
Proof.
  intros (Hv & Hh & H1 & H2 & H3 & H4 & H5 & H6 & H8 & H9) Hc.
  destruct (first_byte_read h) as (Hfb & Ev & Eh); [lia..|].
  destruct (fo_word_read h H4) as (Hfo & Edf & Emf & Eo).
  set (bytes := ip_bytes h c ++ pl).
  assert (Hlen : zlen bytes = 4 * ip_hlen h + zlen pl).
  { subst bytes. rewrite length_app. pose proof (length_ip_bytes h c). lia. }
  assert (Htake : take (Z.to_nat (4 * ip_hlen h)) bytes = ip_bytes h c).
  { subst bytes. rewrite <- (length_ip_bytes h c), Nat2Z.id by lia. apply take_app_length. }
  assert (Hdrop : drop 20 bytes = replicate (Z.to_nat (4 * ip_hlen h - 20)) x00 ++ pl) by done.
  unfold IPv4Header_parse. apply parses_buffer. intros b Hb Hs.
  assert (Hsz : buf_size b = 4 * ip_hlen h + zlen pl) by (unfold buf_size; by rewrite Hs).
  unfold IP_LENGTH. rewrite Hsz, Hdrop, (proj2 (Z.ltb_ge _ 20)) by lia.
  rewrite <- Hs in Htake. clear Hs Hdrop Hlen.
  subst bytes. unfold ip_bytes at 1, ip_before, ip_after. rewrite <- !app_assoc.
  do 10 parse_field. cbv zeta. cbn [ip_hlen ip_ver ip_len]. rewrite Ev, Eh, Edf, Emf, Eo.
  change (mkIPv4Header _ _ _ _ _ _ _ _ _ _ _ _ _) with (with_ip_cksum c h).
  rewrite (proj2 (Z.ltb_ge _ _)) by lia. unfold ip_verdict.
  destruct (negb (ip_ver h =? 4)); [apply parses_ret|].
  rewrite (proj2 (Z.ltb_ge _ _)) by lia.
  destruct (negb (_ =? ip_len h)); [apply parses_ret|].
  rewrite u64_small by word_lia.
  eapply parses_bind; [apply parses_remove_prefix; rewrite length_replicate; lia|].
  eapply parses_bind; [apply parses_error|]. cbv iota beta.
  rewrite Htake. fold (checksum 0 (ip_bytes h c)). destruct (negb _); apply parses_ret.
Qed.

(** The second half of [IPv4Datagram::parse]. *)
Lemma datagram_parse_eq d0 l r h pl :
  zlen l < 2 ^ 63 -> zlen pl < 2 ^ 63 -> parses (IPv4Header_parse (ip_header d0)) l (r, h) pl ->
  exists b, str b = pl /\ buf_ok b /\
    IPv4Datagram_parse d0 (Buffer_of l) =
      Ok (if zlen pl =? payload_length h then NoError else PacketTooShort, mkIPv4Datagram h [b]).
Proof.
  intros Hl Hpl Hp. destruct (Hp _ (view_new l Hl)) as (p1 & E1 & Hp1).
  exists (np_buffer p1). split_and!; [apply Hp1..|]. unfold IPv4Datagram_parse, pbind. rewrite E1.
  unfold buffer, get_error, pret. cbn [fst snd ip_payload ip_header].
  assert (Hsz : bl_size [np_buffer p1] = zlen pl).
  { unfold bl_size, buf_size. cbn [fold_left]. rewrite (view_str _ _ _ Hp1). apply u64_small. word_lia. }
  rewrite Hsz. destruct (zlen pl =? payload_length h); [|done]. cbn [negb mbind res_bind fst].
  by rewrite (view_err _ _ _ Hp1).
Qed.

(** The checksum [serialize] stores. *)
Definition header_checksum (h : IPv4Header) : Z := checksum 0 (ip_bytes h 0).

Lemma ip_bytes_zero h : ip_bytes h 0 = ip_before h ++ [x00; x00] ++ ip_after h.
Proof. done. Qed.

Lemma header_checksum_ok h :
  ip_fields h -> is_u16 (header_checksum h) /\ checksum 0 (ip_bytes h (header_checksum h)) = 0.
Proof.
  intros (_ & Hh & _). unfold header_checksum. rewrite ip_bytes_zero. unfold ip_bytes.
  apply checksum_stored; [done|]. rewrite <- ip_bytes_zero. split; [lia|].
  rewrite length_ip_bytes; lia.
Qed.

Lemma ip_bytes_cksum h c c' : ip_bytes (with_ip_cksum c h) c' = ip_bytes h c'.
Proof. done. Qed.

Lemma datagram_serialize_eq d :
  ip_wf (ip_header d) -> bl_size (ip_payload d) = payload_length (ip_header d) ->
  IPv4Datagram_serialize d =
    Ok (Buffer_of (ip_bytes (ip_header d) (header_checksum (ip_header d))) :: ip_payload d).
Proof.
  intros Hw Hs. pose proof Hw as (Hv & Hh & _). unfold IPv4Datagram_serialize.
  rewrite Hs, Z.eqb_refl. cbn [negb].
  rewrite ip_serialize_bytes by (cbn; lia). cbn [mbind res_bind].
  rewrite ip_serialize_bytes by (cbn; lia). cbn [mbind res_bind].
  rewrite !append_app, !ip_bytes_cksum. done.
Qed.

(** What the bytes of a serialized datagram parse to. *)
Lemma datagram_reparse d0 d :
  ip_wf (ip_header d) ->
  ip_len (ip_header d) = 4 * ip_hlen (ip_header d) + zlen (concatenate (ip_payload d)) ->
  exists bl b,
    IPv4Datagram_serialize d = Ok bl /\ str b = concatenate (ip_payload d) /\ buf_ok b /\
    IPv4Datagram_parse d0 (Buffer_of (concatenate bl)) =
      Ok (NoError, mkIPv4Datagram (with_ip_cksum (header_checksum (ip_header d)) (ip_header d)) [b]).
Proof.
  intros Hw Hlen. pose proof (ip_wf_fields _ Hw) as Hf. set (h := ip_header d) in *.
  set (pl := concatenate (ip_payload d)) in *.
  pose proof Hw as (Hv & Hh & _ & Hl16 & _).
  assert (Hpl : payload_length h = zlen pl) by (unfold payload_length; rewrite u16_small; word_lia).
  destruct (header_checksum_ok h Hf) as [Hc Hz].
  assert (Hver : ip_verdict h (header_checksum h) pl = NoError).
  { unfold ip_verdict. rewrite Hv, <- Hlen, Hz, !Z.eqb_refl. done. }
  pose proof (ip_header_parses (ip_header d0) h (header_checksum h) pl Hf Hc) as Hp.
  rewrite Hver in Hp. apply datagram_parse_eq in Hp as (b & Hb & Hok & Hd).
  2: { rewrite length_app, Nat2Z.inj_add, length_ip_bytes by lia. word_lia. }
  2: word_lia.
  rewrite datagram_serialize_eq; [|done|].
  2: { fold h. rewrite Hpl. apply bl_size_eq. fold pl. word_lia. }
  eexists _, b. split_and!; [done..|]. change (?b :: ?l) with ([b] ++ l). rewrite concatenate_app.
  change (concatenate [Buffer_of ?l]) with (str (Buffer_of l)). rewrite str_of. fold h pl.
  rewrite Hd. cbn [ip_header ip_payload with_ip_cksum]. fold (with_ip_cksum (header_checksum h) h).
  change (payload_length (with_ip_cksum _ h)) with (payload_length h). rewrite Hpl, Z.eqb_refl.
  done.
Qed.

(** C28.  Round trip of datagrams: a well-formed datagram whose length field
    counts header and payload is serialized without throwing, and parsing the
    concatenated bytes gives back its header (with the computed checksum) and
    its payload. *)
Theorem datagram_roundtrip d0 d :
  ip_wf (ip_header d) ->
  ip_len (ip_header d) = 4 * ip_hlen (ip_header d) + zlen (concatenate (ip_payload d)) ->
  exists bl d',
    IPv4Datagram_serialize d = Ok bl /\
    IPv4Datagram_parse d0 (Buffer_of (concatenate bl)) = Ok (NoError, d') /\
    ip_header d' = with_ip_cksum (header_checksum (ip_header d)) (ip_header d) /\
    concatenate (ip_payload d') = concatenate (ip_payload d).
Proof.
  intros Hw Hlen. destruct (datagram_reparse d0 d Hw Hlen) as (bl & b & Hs & Hb & _ & Hp).
  eexists _, _. split_and!; [exact Hs|exact Hp|done|exact Hb].
Qed.

Lemma datagram_roundtrip_witness :
  let d := mkIPv4Datagram (mkIPv4Header 4 6 0 27 1 true false 0 64 6 0 167772161 167772162)
             [Buffer_of [x01]; Buffer_of [x02; x03]] in
  exists bl d',
    IPv4Datagram_serialize d = Ok bl /\
    IPv4Datagram_parse IPv4Datagram_default (Buffer_of (concatenate bl)) = Ok (NoError, d') /\
    ip_header d' = with_ip_cksum (header_checksum (ip_header d)) (ip_header d) /\
    concatenate (ip_payload d') = concatenate (ip_payload d).
Proof.
  apply (datagram_roundtrip IPv4Datagram_default
    (mkIPv4Datagram (mkIPv4Header 4 6 0 27 1 true false 0 64 6 0 167772161 167772162)
       [Buffer_of [x01]; Buffer_of [x02; x03]])); [|reflexivity].
  unfold ip_wf. cbn. word_lia.
Defined.

(** Without options, the rest of the input is the payload whatever the verdict. *)
Lemma ip_header_parses_no_options h0 h c pl :
  ip_fields h -> ip_hlen h = 5 -> is_u16 c ->
  parses (IPv4Header_parse h0) (ip_bytes h c ++ pl) (ip_verdict h c pl, with_ip_cksum c h) pl.
Proof.
  intros Hf H5 Hc. pose proof (ip_header_parses h0 h c pl Hf Hc) as Hp.
  assert (Hdrop : drop 20 (ip_bytes h c ++ pl) = pl).
  { change 20%nat with (Z.to_nat (4 * 5)). rewrite <- H5, <- (length_ip_bytes h c) by lia.
    rewrite Nat2Z.id. apply drop_app_length. }
  rewrite Hdrop in Hp. by destruct (ip_verdict h c pl).
Qed.

Lemma datagram_accepted d0 h c pl :
  ip_fields h -> ip_hlen h = 5 -> is_u16 c -> payload_length h = zlen pl ->
  exists b, str b = pl /\
    IPv4Datagram_parse d0 (Buffer_of (ip_bytes h c ++ pl))
      = Ok (NoError, mkIPv4Datagram (with_ip_cksum c h) [b]).
Proof.
  intros Hf H5 Hc Hpl.
  assert (Hpl16 : zlen pl < 2 ^ 16) by (rewrite <- Hpl; apply u16_range).
  assert (Hl : zlen (ip_bytes h c ++ pl) < 2 ^ 63).
  { rewrite length_app, Nat2Z.inj_add, length_ip_bytes by lia. lia. }
  pose proof (ip_header_parses_no_options (ip_header d0) h c pl Hf H5 Hc) as Hp.
  apply datagram_parse_eq in Hp as (b & Hb & _ & Hd); [|lia..]. exists b. split; [done|].
  rewrite Hd. change (payload_length (with_ip_cksum c h)) with (payload_length h).
  by rewrite Hpl, Z.eqb_refl.
Qed.

(** [IPv4Datagram::parse] ignores the verdict of [IPv4Header::parse]: for
    every header without options, of any version, with any checksum, whose
    16-bit payload length agrees with the bytes that follow, the header parser
    returns its verdict and the datagram parser returns [NoError]. *)
Theorem datagram_parse_ignores_verdict d0 h c pl :
  ip_fields h -> ip_hlen h = 5 -> is_u16 c -> payload_length h = zlen pl ->
  let buf := Buffer_of (ip_bytes h c ++ pl) in
  (exists p, IPv4Header_parse (ip_header d0) (NetParser_new buf)
     = Ok ((ip_verdict h c pl, with_ip_cksum c h), p)) /\
  (exists b, str b = pl /\
     IPv4Datagram_parse d0 buf = Ok (NoError, mkIPv4Datagram (with_ip_cksum c h) [b])).
Proof.
  intros Hf H5 Hc Hpl buf. split; [|by apply datagram_accepted].
  assert (Hpl16 : zlen pl < 2 ^ 16) by (rewrite <- Hpl; apply u16_range).
  assert (Hl : zlen (ip_bytes h c ++ pl) < 2 ^ 63).
  { rewrite length_app, Nat2Z.inj_add, length_ip_bytes by lia. lia. }
  destruct (ip_header_parses_no_options (ip_header d0) h c pl Hf H5 Hc _ (view_new _ Hl)) as (p & E & _).
  by exists p.
Qed.

(** A version-6 header with a wrong checksum is accepted. *)
Lemma datagram_parse_ignores_verdict_witness :
  let h := mkIPv4Header 6 5 0 21 0 false false 0 64 6 0 1 2 in
  ip_verdict h 0 [x07] = WrongIPVersion /\
  exists b, str b = [x07] /\
    IPv4Datagram_parse IPv4Datagram_default (Buffer_of (ip_bytes h 0 ++ [x07]))
      = Ok (NoError, mkIPv4Datagram (with_ip_cksum 0 h) [b]).
Proof.
  cbv zeta. split; [reflexivity|].
  apply (datagram_parse_ignores_verdict IPv4Datagram_default
           (mkIPv4Header 6 5 0 21 0 false false 0 64 6 0 1 2) 0 [x07]);
    [unfold ip_fields; cbn; word_lia|reflexivity|word_lia|reflexivity].
Defined.
