(* ===== verification/TCPReceiver.v ===== *)
(** * The TCP receiver

    Models [src/libsponge/tcp_receiver.hh] and [.cc]: it unwraps sequence
    numbers against the last one it saw, hands payloads to the reassembler and
    computes the acknowledgment number and window.  [honest] describes the
    segments a peer with stream [S] may send; the theorems hold for any order,
    duplication and loss of them. *)

From S2P Require Import Prelude WrappingIntegers StdMap ByteStream StreamReassembler Buffers.
From S2P Require Import TCPSegment.

Record TCPReceiver := mkReceiver {
  rc_reassembler : StreamReassembler;   (* _reassembler *)
  rc_capacity : Z;                      (* _capacity *)
  rc_isn : WrappingInt32;               (* _isn *)
  rc_if_syn_set : bool;                 (* _if_syn_set *)
  rc_if_fin_set : bool;                 (* _if_fin_set *)
  rc_syn_flag : bool;                   (* _syn_flag *)
  rc_fin_flag : bool;                   (* _fin_flag *)
  rc_abs_checkpoint : Z;                (* _abs_checkpoint *)
  rc_abs_seqno_fin : Z                  (* _abs_seqno_fin *)
}.

Definition TCPReceiver_new (capacity : Z) : TCPReceiver :=
  mkReceiver (StreamReassembler_new capacity) capacity (mkWrappingInt32 0)
    false false false false 0 0.

Definition rcv_stream_out (r : TCPReceiver) : ByteStream := stream_out (rc_reassembler r).
Definition rcv_unassembled_bytes (r : TCPReceiver) : Z := unassembled_bytes (rc_reassembler r).

(** Mutation of the inbound stream through the reference of [stream_out]. *)
Definition with_stream_out (o : ByteStream) (r : TCPReceiver) : TCPReceiver :=
  mkReceiver (with_output o (rc_reassembler r)) (rc_capacity r) (rc_isn r) (rc_if_syn_set r)
    (rc_if_fin_set r) (rc_syn_flag r) (rc_fin_flag r) (rc_abs_checkpoint r) (rc_abs_seqno_fin r).

Definition segment_received (seg : TCPSegment) (r : TCPReceiver) : TCPReceiver :=
  let sq := seqno (header seg) in
  let syn_flag := syn (header seg) in
  let fin_flag := fin (header seg) in
  let '(isn, if_syn_set) :=
    if negb (rc_if_syn_set r) && syn_flag then (sq, true) else (rc_isn r, rc_if_syn_set r) in
  let '(abs_seqno_fin, if_fin_set) :=
    if negb (rc_if_fin_set r) && fin_flag
    then (unwrap (wsub (wadd sq (length_in_sequence_space seg)) 1) isn (rc_abs_checkpoint r), true)
    else (rc_abs_seqno_fin r, rc_if_fin_set r) in
  if (length_in_sequence_space seg =? 0) || negb if_syn_set then
    mkReceiver (rc_reassembler r) (rc_capacity r) isn if_syn_set if_fin_set syn_flag fin_flag
      (rc_abs_checkpoint r) abs_seqno_fin
  else
    let abs_seqno := unwrap sq isn (rc_abs_checkpoint r) in
    let stream_index := if negb syn_flag then u64 (abs_seqno - 1) else abs_seqno in
    mkReceiver (push_substring (copy (payload seg)) stream_index fin_flag (rc_reassembler r))
      (rc_capacity r) isn if_syn_set if_fin_set syn_flag fin_flag abs_seqno abs_seqno_fin.

Definition rcv_ackno (r : TCPReceiver) : option WrappingInt32 :=
  if negb (rc_if_syn_set r) then None
  else
    let ackno := u64 (get_next_index (rc_reassembler r) + (if rc_if_syn_set r then 1 else 0)) in
    let ackno := u64 (ackno + (if ackno =? rc_abs_seqno_fin r then 1 else 0)) in
    Some (wrap ackno (rc_isn r)).

Definition window_size (r : TCPReceiver) : Z :=
  u64 (rc_capacity r - buffer_size (rcv_stream_out r)).

(** ** Honest segments

    [a] is the absolute sequence number of the segment: the SYN is number 0,
    byte [i] of the stream number [i + 1], the FIN number [|S| + 1].  An empty
    segment may carry any number of that range. *)

(** The fields of a header that the other half of the peer fills in, within
    their types. *)
Definition typed (seg : TCPSegment) : Prop :=
  winv (ackno (header seg)) /\ is_u16 (win (header seg)).

Record honest_at (isn : WrappingInt32) (S : list byte) (seg : TCPSegment) (a : Z) : Prop := {
  ha_seqno : seqno (header seg) = wrap a isn;
  ha_range : 0 <= a <= zlen S + 2;
  ha_syn : length_in_sequence_space seg <> 0 -> (syn (header seg) = true <-> a = 0);
  ha_payload : excerpt_at S (Z.to_nat (if syn (header seg) then a else a - 1)) (str (payload seg));
  ha_fin : fin (header seg) = true -> a + length_in_sequence_space seg = zlen S + 2;
  ha_typed : typed seg
}.

Definition honest (isn : WrappingInt32) (S : list byte) (seg : TCPSegment) : Prop :=
  exists a, honest_at isn S seg a.

Lemma wrap_0 isn : winv isn -> wrap 0 isn = isn.
Proof. intros H. apply WrappingInt32_ext. rewrite wrap_raw, Z.add_0_r. by apply u32_small. Qed.

Lemma honest_syn isn S seg a : honest_at isn S seg a -> syn (header seg) = true -> a = 0.
Proof.
  intros [_ _ H _ _ _] E. apply H; [|done]. unfold length_in_sequence_space. rewrite E. case_if; lia.
Qed.

Lemma wsub_1 x isn : wsub (wrap x isn) 1 = wrap (x - 1) isn.
Proof.
  unfold wsub. rewrite wrap_add. apply wrap_eq_iff. word_lia.
Qed.

Section Honest.
Context (isn : WrappingInt32) (Hisn : winv isn) (S : list byte) (HS : zlen S < 2 ^ 31 - 4).

(** What the receiver knows about the peer's numbering. *)
Record Synced (r : TCPReceiver) : Prop := {
  sy_isn : rc_if_syn_set r = true -> rc_isn r = isn;
  sy_checkpoint : 0 <= rc_abs_checkpoint r <= zlen S + 2
}.

(** One honest segment is either ignored by the reassembler or pushed at its
    own position in the stream. *)
Lemma segment_received_at seg a r :
  Synced r -> honest_at isn S seg a ->
  let index := if syn (header seg) then a else a - 1 in
  Synced (segment_received seg r) /\
  ((length_in_sequence_space seg = 0 \/ rc_if_syn_set (segment_received seg r) = false) /\
     rc_reassembler (segment_received seg r) = rc_reassembler r \/
   is_u64 index /\ rc_if_syn_set (segment_received seg r) = true /\
     (fin (header seg) = true -> index + zlen (str (payload seg)) = zlen S) /\
     rc_reassembler (segment_received seg r) =
       push_substring (str (payload seg)) index (fin (header seg)) (rc_reassembler r)).
Proof.
  intros [Hi Hc] Hh. pose proof (honest_syn _ _ _ _ Hh) as Hsyn0. cbv zeta.
  destruct Hh as [Hseq Ha Hsyn Hpl Hfin _]. unfold segment_received.
  assert (His : exists isn' set',
    (if negb (rc_if_syn_set r) && syn (header seg)
     then (seqno (header seg), true) else (rc_isn r, rc_if_syn_set r)) = (isn', set') /\
    (set' = true -> isn' = isn)).
  { destruct (rc_if_syn_set r) eqn:E1; cbn; [eexists _, _; split; [done|by intros; apply Hi]|].
    destruct (syn (header seg)) eqn:E2; cbn; eexists _, _; (split; [done|]); [|done].
    intros _. rewrite Hseq, (Hsyn0 eq_refl). by apply wrap_0. }
  destruct His as (isn' & set' & -> & His).
  destruct (if negb (rc_if_fin_set r) && _ then _ else _) as [sf ff].
  destruct (_ || _) eqn:Econd.
  { split; [split; cbn; auto|left]. apply orb_true_iff in Econd as [?|?]; bool_prop; cbn; auto. }
  apply orb_false_iff in Econd as [Elen Eset]. bool_prop. subst set'. specialize (His eq_refl). subst isn'.
  specialize (Hsyn Elen).
  assert (Eu : unwrap (seqno (header seg)) isn (rc_abs_checkpoint r) = a).
  { rewrite Hseq. apply unwrap_wrap_near; (done || word_lia). }
  rewrite Eu. split; [split; cbn; auto|right]. cbn [rc_reassembler rc_if_syn_set].
  assert (Eidx : (if negb (syn (header seg)) then u64 (a - 1) else a)
                 = if syn (header seg) then a else a - 1).
  { destruct (syn (header seg)) eqn:Es; cbn; [done|]. rewrite u64_small; [done|].
    assert (a <> 0) by (intros ->; by destruct Hsyn as [_ Hs]; specialize (Hs eq_refl)). word_lia. }
  rewrite Eidx. split_and!; try done.
  - destruct (syn (header seg)) eqn:Es; [word_lia|].
    assert (a <> 0) by (intros ->; by destruct Hsyn as [_ Hs]; specialize (Hs eq_refl)). word_lia.
  - intros Hf. specialize (Hfin Hf). unfold length_in_sequence_space in Hfin. rewrite Hf in Hfin.
    destruct (syn (header seg)); lia.
Qed.

Lemma segment_received_push seg r :
  Synced r -> honest isn S seg ->
  Synced (segment_received seg r) /\
  (rc_reassembler (segment_received seg r) = rc_reassembler r \/
   exists index, is_u64 index /\ excerpt_at S (Z.to_nat index) (str (payload seg)) /\
     rc_if_syn_set (segment_received seg r) = true /\
     (fin (header seg) = true -> index + zlen (str (payload seg)) = zlen S) /\
     rc_reassembler (segment_received seg r) =
       push_substring (str (payload seg)) index (fin (header seg)) (rc_reassembler r)).
Proof.
  intros Hsy [a Hh]. destruct (segment_received_at seg a r Hsy Hh) as [Hsy' [[_ E]|(Hi & Hs & Hf & E)]];
    (split; [done|]); [by left|right].
  eexists. split_and!; [exact Hi|apply Hh|done..].
Qed.
End Honest.

(** A run of the receiver: honest segments in any order, the reader taking
    bytes, and resets; with everything the reader has taken. *)
Inductive rcv_step (isn : WrappingInt32) (S : list byte)
  : TCPReceiver * list byte -> TCPReceiver * list byte -> Prop :=
| rcv_segment r out seg :
    honest isn S seg -> rcv_step isn S (r, out) (segment_received seg r, out)
| rcv_read r out len :
    0 <= len ->
    rcv_step isn S (r, out) (with_stream_out (snd (read len (rcv_stream_out r))) r,
                             out ++ fst (read len (rcv_stream_out r)))
| rcv_error r out :
    rcv_step isn S (r, out) (with_stream_out (set_error (rcv_stream_out r)) r, out).

Lemma rcv_reachable isn S cap c :
  winv isn -> zlen S < 2 ^ 31 - 4 ->
  rtc (rcv_step isn S) (TCPReceiver_new cap, []) c ->
  Synced isn S c.1 /\
  rtc (StreamReassembler.step S) (StreamReassembler_new cap, []) (rc_reassembler c.1, c.2).
Proof.
  intros Hisn HS. revert c.
  apply (rtc_ind_r (fun c => Synced isn S c.1 /\
    rtc (StreamReassembler.step S) (StreamReassembler_new cap, []) (rc_reassembler c.1, c.2))).
  { split; [split; cbn; [done|lia]|apply rtc_refl]. }
  intros c1 c2 _ Hstep [Hsy Hr]. destruct Hstep as [r out seg Hh|r out len Hl|r out]; cbn [fst snd] in *.
  - destruct (segment_received_push isn Hisn S HS seg r Hsy Hh) as [Hsy' Hp]. split; [done|].
    destruct Hp as [->|(index & Hidx & Hex & _ & _ & ->)]; [done|].
    eapply rtc_r; [exact Hr|]. by constructor.
  - split; [destruct Hsy; by split|]. eapply rtc_r; [exact Hr|]. by constructor.
  - split; [destruct Hsy; by split|]. eapply rtc_r; [exact Hr|]. by constructor.
Qed.

Lemma inv_delivered S r w out :
  Inv S (rc_reassembler r) w (length out) -> out = take (length out) w ->
  (out ++ bs_buffer (rcv_stream_out r)) `prefix_of` S.
Proof.
  intros HI Hout. unfold rcv_stream_out, stream_out. rewrite (rep_buffer _ _ _ (inv_rep _ _ _ _ HI)).
  rewrite Hout at 1. rewrite take_drop. apply (inv_prefix _ _ _ _ HI).
Qed.

(** Safety of the receiver: for every initial sequence number and every
    stream shorter than 2^31 - 4 bytes, whatever honest segments arrive, in any
    order, duplicated or lost, the bytes delivered to the application are a
    prefix of the peer's stream. *)
Theorem receiver_safe isn S cap r out :
  winv isn -> zlen S < 2 ^ 31 - 4 -> 0 <= cap < 2 ^ 31 ->
  rtc (rcv_step isn S) (TCPReceiver_new cap, []) (r, out) ->
  (out ++ bs_buffer (rcv_stream_out r)) `prefix_of` S.
Proof.
  intros Hisn HS Hcap Hr. apply rcv_reachable in Hr as [_ Hr]; [|done..]. cbn in Hr.
  destruct (reachable_inv S ltac:(lia) cap _ Hcap Hr) as (w & HI & Hout). cbn in HI, Hout.
  by eapply inv_delivered.
Qed.

(** Sender "ab", initial number 2^32 - 1: the FIN-bearing tail, then the SYN
    with the head, then a read. *)
Definition example_seg (sq : Z) (s f : bool) (data : list byte) : TCPSegment :=
  mkTCPSegment (mkTCPHeader 0 0 (mkWrappingInt32 sq) (mkWrappingInt32 0) 5 false false false false s f 0 0 0)
    (Buffer_of data).

Lemma example_syn_honest : honest (mkWrappingInt32 4294967295) [x61; x62]
  (example_seg 4294967295 true false [x61]).
Proof.
  exists 0. split; [done|cbn; lia|done| |done|done].
  intros [|[|j]] c; vm_compute; congruence.
Qed.
Lemma example_fin_honest : honest (mkWrappingInt32 4294967295) [x61; x62]
  (example_seg 1 false true [x62]).
Proof.
  exists 2. split; [done|cbn; lia|done| |done|done].
  intros [|[|j]] c; vm_compute; congruence.
Qed.

Lemma receiver_safe_witness :
  let r := segment_received (example_seg 4294967295 true false [x61])
             (segment_received (example_seg 1 false true [x62]) (TCPReceiver_new 10)) in
  [] ++ bs_buffer (rcv_stream_out r) = [x61] /\
  ([] ++ bs_buffer (rcv_stream_out r)) `prefix_of` [x61; x62].
Proof.
  cbv zeta. split; [reflexivity|].
  apply (receiver_safe (mkWrappingInt32 4294967295) [x61; x62] 10); [unfold winv; cbn; word_lia|cbn; lia|lia|].
  eapply rtc_l; [apply rcv_segment, example_fin_honest|].
  eapply rtc_l; [apply rcv_segment, example_syn_honest|apply rtc_refl].
Defined.

(** ** Acknowledgments *)

(** A step after which no FIN has been noted without the SYN. *)
Definition orderly_step (isn : WrappingInt32) (S : list byte) (c c' : TCPReceiver * list byte) : Prop :=
  rcv_step isn S c c' /\ (rc_if_fin_set c'.1 = true -> rc_if_syn_set c'.1 = true).

Section Acks.
Context (isn : WrappingInt32) (Hisn : winv isn) (S : list byte) (HS : zlen S < 2 ^ 31 - 4).

(** The FIN's number, as the receiver has recorded it. *)
Record FinKnown (r : TCPReceiver) : Prop := {
  fk_set : rc_if_fin_set r = true -> rc_if_syn_set r = true /\ rc_abs_seqno_fin r = zlen S + 1;
  fk_unset : rc_if_fin_set r = false -> rc_abs_seqno_fin r = 0
}.

Lemma segment_received_flags seg r :
  rc_if_syn_set (segment_received seg r) = rc_if_syn_set r || syn (header seg) /\
  rc_if_fin_set (segment_received seg r) = rc_if_fin_set r || fin (header seg) /\
  rc_capacity (segment_received seg r) = rc_capacity r /\
  sr_capacity (rc_reassembler (segment_received seg r)) = sr_capacity (rc_reassembler r).
Proof.
  unfold segment_received.
  destruct (rc_if_syn_set r) eqn:E1, (rc_if_fin_set r) eqn:E2, (syn (header seg)) eqn:E3,
    (fin (header seg)) eqn:E4; cbn; case_if; cbn; rewrite ?push_capacity; auto.
Qed.

Lemma fin_seqno_fixed seg r :
  rc_if_fin_set r = true -> rc_abs_seqno_fin (segment_received seg r) = rc_abs_seqno_fin r.
Proof.
  intros E. unfold segment_received. rewrite E. cbn [negb andb].
  destruct (if negb (rc_if_syn_set r) && _ then _ else _) as [i s]. by case_if.
Qed.

(** The first FIN an orderly receiver sees gets its true number. *)
Lemma fin_seqno_first seg r :
  Synced isn S r -> honest isn S seg -> rc_if_fin_set r = false -> fin (header seg) = true ->
  rc_if_syn_set (segment_received seg r) = true ->
  rc_abs_seqno_fin (segment_received seg r) = zlen S + 1.
Proof.
  intros [Hi Hc] [a Hh] E Ef Es. pose proof (honest_syn _ _ _ _ Hh) as Hsyn0.
  destruct Hh as [Hseq Ha _ _ Hfin _]. specialize (Hfin Ef).
  rewrite (proj1 (segment_received_flags seg r)) in Es.
  unfold segment_received. rewrite E, Ef. cbn [negb andb].
  assert (Hu : unwrap (wsub (wadd (seqno (header seg)) (length_in_sequence_space seg)) 1) isn
                 (rc_abs_checkpoint r) = zlen S + 1).
  { rewrite Hseq, wrap_add, Hfin, wsub_1. replace (zlen S + 2 - 1) with (zlen S + 1) by lia.
    apply unwrap_wrap_near; (done || word_lia). }
  destruct (rc_if_syn_set r) eqn:Er; cbn [negb andb orb] in *.
  - rewrite (Hi eq_refl), Hu. by case_if.
  - rewrite Es. assert (Eseq : seqno (header seg) = isn).
    { rewrite Hseq. rewrite (Hsyn0 Es). by apply wrap_0. }
    rewrite Eseq in *. rewrite Hu. by case_if.
Qed.

Lemma fin_seqno_none seg r :
  rc_if_fin_set r = false -> fin (header seg) = false ->
  rc_abs_seqno_fin (segment_received seg r) = rc_abs_seqno_fin r.
Proof.
  intros E Ef. unfold segment_received. rewrite E, Ef. cbn [negb andb].
  destruct (if negb (rc_if_syn_set r) && _ then _ else _) as [i s]. by case_if.
Qed.

Lemma segment_received_fin_known seg r :
  Synced isn S r -> honest isn S seg -> FinKnown r ->
  (rc_if_fin_set (segment_received seg r) = true -> rc_if_syn_set (segment_received seg r) = true) ->
  FinKnown (segment_received seg r).
Proof.
  intros Hsy Hh [Hs Hu] Hord. destruct (segment_received_flags seg r) as (Fs & Ff & _).
  rewrite Fs, Ff in Hord.
  destruct (rc_if_fin_set r) eqn:E, (fin (header seg)) eqn:Ef; cbn [orb] in *; split;
    rewrite ?Fs, ?Ff; intros H; try done.
  - rewrite fin_seqno_fixed by done. destruct (Hs eq_refl) as [-> ->]. done.
  - rewrite fin_seqno_fixed by done. destruct (Hs eq_refl) as [-> ->]. done.
  - split; [auto|]. apply fin_seqno_first; auto. rewrite Fs. auto.
  - rewrite fin_seqno_none by done. auto.
Qed.

Lemma orderly_reachable cap c :
  rtc (orderly_step isn S) (TCPReceiver_new cap, []) c ->
  rtc (rcv_step isn S) (TCPReceiver_new cap, []) c /\ FinKnown c.1 /\ rc_capacity c.1 = cap /\
    sr_capacity (rc_reassembler c.1) = cap.
Proof.
  revert c. apply (rtc_ind_r (fun c => rtc (rcv_step isn S) (TCPReceiver_new cap, []) c
    /\ FinKnown c.1 /\ rc_capacity c.1 = cap /\
    sr_capacity (rc_reassembler c.1) = cap)).
  { split_and!; [apply rtc_refl|by split|done..]. }
  intros c1 c2 _ [Hstep Hord] (Hr & Hf & Hcap & Hcap'). split; [by eapply rtc_r|].
  destruct (rcv_reachable isn S cap c1 Hisn HS Hr) as [Hsy _].
  destruct Hstep as [r out seg Hh|r out len Hl|r out]; cbn [fst] in *.
  - split; [by apply segment_received_fin_known|].
    by destruct (segment_received_flags seg r) as (_ & _ & -> & ->).
  - split; [by destruct Hf|done].
  - split; [by destruct Hf|done].
Qed.

(** The acknowledgment number, from what the receiver knows. *)
Lemma rcv_ackno_eq r :
  Synced isn S r -> FinKnown r -> 0 <= get_next_index (rc_reassembler r) <= zlen S ->
  rcv_ackno r =
    (if rc_if_syn_set r
     then Some (wrap (1 + get_next_index (rc_reassembler r) +
            (if rc_if_fin_set r && (get_next_index (rc_reassembler r) =? zlen S) then 1 else 0)) isn)
     else None).
Proof.
  intros [Hi _] [Hfs Hfu] Hn. unfold rcv_ackno. destruct (rc_if_syn_set r) eqn:Es; [|done].
  cbn [negb]. rewrite (Hi eq_refl), (u64_small (_ + 1)) by word_lia.
  assert (Ef : (get_next_index (rc_reassembler r) + 1 =? rc_abs_seqno_fin r)
               = rc_if_fin_set r && (get_next_index (rc_reassembler r) =? zlen S)).
  { destruct (rc_if_fin_set r).
    - destruct (Hfs eq_refl) as [_ ->]. cbn [andb]. apply eq_true_iff_eq.
      rewrite !Z.eqb_eq. lia.
    - rewrite (Hfu eq_refl). apply Z.eqb_neq. lia. }
  rewrite Ef, u64_small by (case_if; word_lia). do 2 f_equal. lia.
Qed.
End Acks.

(** C11.  The acknowledgment number and the window: as long as no FIN arrives
    before the SYN, there is no acknowledgment before the SYN, and afterwards it
    is the number of the next byte needed, one more once the FIN has been seen
    and every byte before it assembled; the window is the capacity less what
    the application has not read, and never negative. *)
Theorem receiver_ackno isn S cap r out :
  winv isn -> zlen S < 2 ^ 31 - 4 -> 0 <= cap < 2 ^ 31 ->
  rtc (orderly_step isn S) (TCPReceiver_new cap, []) (r, out) ->
  let next := get_next_index (rc_reassembler r) in
  0 <= next <= zlen S /\ zlen out + buffer_size (rcv_stream_out r) <= next /\
  rcv_ackno r =
    (if rc_if_syn_set r
     then Some (wrap (1 + next + (if rc_if_fin_set r && (next =? zlen S) then 1 else 0)) isn)
     else None) /\
  window_size r = cap - buffer_size (rcv_stream_out r) /\ 0 <= window_size r.
Proof.
  intros Hisn HS Hcap Hr. apply orderly_reachable in Hr as (Hr & Hfk & Ec & Ec'); [|done..].
  cbn [fst] in *. apply rcv_reachable in Hr as [Hsy Hr]; [|done..]. cbn [fst snd] in *.
  destruct (reachable_inv S ltac:(lia) cap _ Hcap Hr) as (w & HI & Hout). cbn [fst snd] in *.
  pose proof (inv_next _ _ _ _ HI) as Hn. pose proof (inv_nonneg _ _ _ _ HI) as Hn0.
  pose proof (inv_written _ _ _ _ HI) as Hwr.
  destruct (inv_window _ _ _ _ HI) as (Hw1 & Hw2 & Hw3 & Hw4). cbv zeta.
  assert (Ewin : window_size r = cap - buffer_size (rcv_stream_out r)).
  { unfold window_size. rewrite Ec, <- Ec'. exact Hw4. }
  rewrite Ewin. unfold window, rcv_stream_out, get_next_index, stream_out in *.
  split_and!; try lia.
  - destruct (bs_input_ended _); lia.
  - apply rcv_ackno_eq with (S := S); try done.
Qed.

Lemma receiver_ackno_witness :
  let r := segment_received (example_seg 1 false true [x62])
             (segment_received (example_seg 4294967295 true false [x61]) (TCPReceiver_new 10)) in
  rcv_ackno r = Some (mkWrappingInt32 3) /\ window_size r = 10 - buffer_size (rcv_stream_out r).
Proof.
  cbv zeta. split; [reflexivity|].
  apply (receiver_ackno (mkWrappingInt32 4294967295) [x61; x62] 10 _ []);
    [unfold winv; cbn; word_lia|cbn; lia|lia|].
  eapply rtc_l; [split; [apply rcv_segment, example_syn_honest|done]|].
  eapply rtc_l; [split; [apply rcv_segment, example_fin_honest|done]|apply rtc_refl].
Defined.

(** The number recorded for a FIN that comes before the SYN, for good. *)
Lemma fin_poisoned isn S cap seg c :
  winv isn -> zlen S < 2 ^ 31 - 4 ->
  honest isn S seg -> fin (header seg) = true -> syn (header seg) = false ->
  rtc (rcv_step isn S) (segment_received seg (TCPReceiver_new cap), []) c ->
  rc_if_fin_set c.1 = true /\ rc_abs_seqno_fin c.1 = (raw_value isn + zlen S + 1) mod 2 ^ 32.
Proof.
  intros Hisn HS Hh Hf Hs. revert c.
  apply (rtc_ind_r (fun c => rc_if_fin_set c.1 = true /\
           rc_abs_seqno_fin c.1 = (raw_value isn + zlen S + 1) mod 2 ^ 32)).
  - destruct (segment_received_flags seg (TCPReceiver_new cap)) as (_ & E & _).
    cbn [fst]. rewrite E, Hf. split; [done|].
    unfold segment_received. cbn [TCPReceiver_new rc_if_fin_set rc_if_syn_set rc_isn rc_abs_checkpoint].
    rewrite Hf, Hs. cbn [negb andb]. rewrite orb_true_r. cbn [rc_abs_seqno_fin].
    destruct Hh as [a [Hseq Ha _ _ Hfin _]].
    rewrite Hseq, wrap_add, (Hfin Hf), wsub_1, unwrap_cases;
      [|apply winv_wrap|unfold winv; cbn; word_lia|word_lia].
    unfold rel. cbn [raw_value]. rewrite wrap_raw.
    case_if; [|exfalso]; word_lia.
  - intros c1 c2 _ Hstep [Hfs Hfn]. destruct Hstep as [r' o' seg' _|r' o' len _|r' o'];
      cbn [fst] in *; [|done..].
    destruct (segment_received_flags seg' r') as (_ & E & _).
    rewrite E, Hfs, fin_seqno_fixed by done. done.
Qed.

(** A FIN that arrives before the SYN is numbered against the initial
    number 0 and that number is never revised: unless the peer's initial number
    happens to be 0, no later exchange, however complete, acknowledges the FIN. *)
Theorem fin_before_syn_unacked isn S cap seg r out :
  winv isn -> raw_value isn <> 0 -> zlen S < 2 ^ 31 - 4 -> 0 <= cap < 2 ^ 31 ->
  honest isn S seg -> fin (header seg) = true -> syn (header seg) = false ->
  rtc (rcv_step isn S) (segment_received seg (TCPReceiver_new cap), []) (r, out) ->
  rcv_ackno r <> Some (wrap (zlen S + 2) isn).
Proof.
  intros Hisn Hne HS Hcap Hh Hf Hs Hr.
  destruct (fin_poisoned _ _ _ _ _ Hisn HS Hh Hf Hs Hr) as [_ Hfn]. cbn [fst] in Hfn.
  assert (Hfull : rtc (rcv_step isn S) (TCPReceiver_new cap, []) (r, out)).
  { eapply rtc_l; [by apply rcv_segment|exact Hr]. }
  apply rcv_reachable in Hfull as [[Hi _] Hr']; [|done..]. cbn [fst snd] in *.
  destruct (reachable_inv S ltac:(lia) cap _ Hcap Hr') as (w & HI & _). cbn [fst snd] in *.
  pose proof (inv_next _ _ _ _ HI) as Hn. pose proof (inv_nonneg _ _ _ _ HI) as Hn0.
  unfold rcv_ackno, get_next_index. destruct (rc_if_syn_set r) eqn:Es; [|done]. cbn [negb].
  rewrite (Hi eq_refl), (u64_small (_ + 1)) by word_lia. intros E%(inj Some).
  rewrite u64_small in E by (case_if; word_lia). apply wrap_eq_iff in E.
  unfold winv in *. revert E. case_if; word_lia.
Qed.

Lemma fin_before_syn_unacked_witness :
  let r := segment_received (example_seg 1 false true [x62])
     (segment_received (example_seg 4294967295 true false [x61])
        (segment_received (example_seg 1 false true [x62]) (TCPReceiver_new 10))) in
  bs_buffer (rcv_stream_out r) = [x61; x62] /\ input_ended (rcv_stream_out r) = true /\
  rcv_ackno r <> Some (wrap 4 (mkWrappingInt32 4294967295)).
Proof.
  cbv zeta. split; [reflexivity|]. split; [reflexivity|].
  apply (fin_before_syn_unacked (mkWrappingInt32 4294967295) [x61; x62] 10
           (example_seg 1 false true [x62]) _ []);
    [unfold winv; cbn; word_lia|cbn; lia|cbn; lia|lia|exact example_fin_honest|done|done|].
  eapply rtc_l; [apply rcv_segment, example_syn_honest|].
  eapply rtc_l; [apply rcv_segment, example_fin_honest|apply rtc_refl].
Defined.
