(* ===== verification/TCPSender.v ===== *)
(** * The TCP sender

    Models [src/libsponge/tcp_sender.hh] and [.cc] with the constants of
    [tcp_helpers/tcp_config.hh]: the retransmission timer, the segments in
    flight, [fill_window], [ack_received], [tick].  [SInv] is the invariant of
    the sender for arbitrary acknowledgments, including forged ones. *)

From S2P Require Import Prelude WrappingIntegers StdMap ByteStream StreamReassembler Buffers.
From S2P Require Import TCPSegment TCPReceiver.

(** ** Constants of [TCPConfig] *)

Definition DEFAULT_CAPACITY : Z := 64000.
Definition MAX_PAYLOAD_SIZE : Z := 1000.
Definition TIMEOUT_DFLT : Z := 1000.
Definition MAX_RETX_ATTEMPTS : Z := 8.

Record TCPConfig := mkTCPConfig {
  cfg_rt_timeout : Z;                       (* rt_timeout *)
  cfg_recv_capacity : Z;                    (* recv_capacity *)
  cfg_send_capacity : Z;                    (* send_capacity *)
  cfg_fixed_isn : option WrappingInt32      (* fixed_isn *)
}.

Definition TCPConfig_default : TCPConfig :=
  mkTCPConfig TIMEOUT_DFLT DEFAULT_CAPACITY DEFAULT_CAPACITY None.

(** ** The timer *)

Record Timer := mkTimer { tm_elapsed_time : Z; tm_if_run : bool }.

Definition Timer_new : Timer := mkTimer 0 false.
Definition timer_stop (t : Timer) : Timer := mkTimer 0 false.
Definition timer_start (t : Timer) : Timer := mkTimer 0 true.
Definition timer_increment (ms_since_last_tick : Z) (t : Timer) : Timer :=
  if negb (tm_if_run t) then t
  else mkTimer (u32 (tm_elapsed_time t + ms_since_last_tick)) (tm_if_run t).

(** ** The sender *)

Record TCPSender := mkSender {
  sd_isn : WrappingInt32;               (* _isn *)
  sd_segments_out : list TCPSegment;    (* _segments_out, front first *)
  sd_initial_rto : Z;                   (* _initial_retransmission_timeout *)
  sd_stream : ByteStream;               (* _stream *)
  sd_next_seqno : Z;                    (* _next_seqno *)
  sd_outstanding : list TCPSegment;     (* _outstanding_segments, front first *)
  sd_bytes_in_flight : Z;               (* _bytes_in_flight *)
  sd_is_syn_set : bool;                 (* _is_syn_set *)
  sd_is_fin_set : bool;                 (* _is_fin_set *)
  sd_consecutive : Z;                   (* _consecutive_retransmissions *)
  sd_recent_abs_ackno : Z;              (* _recent_abs_ackno *)
  sd_window_size : Z;                   (* _window_size *)
  sd_is_window_size_0 : bool;           (* _is_window_size_0 *)
  sd_RTO : Z;                           (* _RTO *)
  sd_timer : Timer                      (* _timer *)
}.

(** [random] is the value of [random_device()()]. *)
Definition TCPSender_new (random capacity retx_timeout : Z) (fixed_isn : option WrappingInt32)
  : TCPSender :=
  let isn := default (mkWrappingInt32 (u32 random)) fixed_isn in
  mkSender isn [] retx_timeout (ByteStream_new capacity) 0 [] 0 false false 0 0 1 false
    retx_timeout Timer_new.

Definition bytes_in_flight (s : TCPSender) : Z := sd_bytes_in_flight s.
Definition consecutive_retransmissions (s : TCPSender) : Z := sd_consecutive s.
Definition stream_in (s : TCPSender) : ByteStream := sd_stream s.
Definition next_seqno_absolute (s : TCPSender) : Z := sd_next_seqno s.
Definition next_seqno (s : TCPSender) : WrappingInt32 := wrap (sd_next_seqno s) (sd_isn s).
Definition is_syn_sent (s : TCPSender) : bool := sd_is_syn_set s.
Definition is_fin_sent (s : TCPSender) : bool := sd_is_fin_set s.
Definition is_fin_acked (s : TCPSender) : bool :=
  sd_is_fin_set s && (sd_next_seqno s =? sd_recent_abs_ackno s).

(** Mutation of the outbound stream through the reference of [stream_in], and
    of the queue through that of [segments_out]. *)
Definition with_stream_in (st : ByteStream) (s : TCPSender) : TCPSender :=
  mkSender (sd_isn s) (sd_segments_out s) (sd_initial_rto s) st (sd_next_seqno s)
    (sd_outstanding s) (sd_bytes_in_flight s) (sd_is_syn_set s) (sd_is_fin_set s)
    (sd_consecutive s) (sd_recent_abs_ackno s) (sd_window_size s) (sd_is_window_size_0 s)
    (sd_RTO s) (sd_timer s).

Definition with_segments_out (q : list TCPSegment) (s : TCPSender) : TCPSender :=
  mkSender (sd_isn s) q (sd_initial_rto s) (sd_stream s) (sd_next_seqno s)
    (sd_outstanding s) (sd_bytes_in_flight s) (sd_is_syn_set s) (sd_is_fin_set s)
    (sd_consecutive s) (sd_recent_abs_ackno s) (sd_window_size s) (sd_is_window_size_0 s)
    (sd_RTO s) (sd_timer s).

(** The header of a default [TCPSegment] with the three fields the sender sets. *)
Definition seg_header (sq : WrappingInt32) (s f : bool) : TCPHeader :=
  let d := TCPHeader_default in
  mkTCPHeader (sport d) (dport d) sq (ackno d) (doff d) (urg d) (ack d) (psh d) (rst d) s f
    (win d) (cksum d) (uptr d).

(** The condition of the loop of [fill_window]. *)
Definition fill_cond (s : TCPSender) : bool :=
  negb (sd_is_syn_set s) || (sd_next_seqno s <? u64 (sd_recent_abs_ackno s + sd_window_size s)).

(** Its body, up to the [break]: the segment it builds and the sender with the
    stream read and the flags noted. *)
Definition fill_segment (s : TCPSender) : TCPSegment * TCPSender :=
  let remaining_capacity := u64 (sd_recent_abs_ackno s + sd_window_size s - sd_next_seqno s) in
  let read_size := Z.min remaining_capacity MAX_PAYLOAD_SIZE in
  let '(data, stream) := read read_size (sd_stream s) in
  let sq := wrap (sd_next_seqno s) (sd_isn s) in
  let syn_now := sd_next_seqno s =? 0 in
  let segment := mkTCPSegment (seg_header sq syn_now false) (Buffer_of data) in
  let fin_now := eof stream && negb (sd_is_fin_set s) &&
                 (length_in_sequence_space segment <? remaining_capacity) in
  (mkTCPSegment (seg_header sq syn_now fin_now) (Buffer_of data),
   mkSender (sd_isn s) (sd_segments_out s) (sd_initial_rto s) stream (sd_next_seqno s)
     (sd_outstanding s) (sd_bytes_in_flight s) (sd_is_syn_set s || syn_now)
     (sd_is_fin_set s || fin_now) (sd_consecutive s) (sd_recent_abs_ackno s)
     (sd_window_size s) (sd_is_window_size_0 s) (sd_RTO s) (sd_timer s)).

(** The rest of the body. *)
Definition fill_push (segment : TCPSegment) (s : TCPSender) : TCPSender :=
  let len := length_in_sequence_space segment in
  mkSender (sd_isn s) (sd_segments_out s ++ [segment]) (sd_initial_rto s) (sd_stream s)
    (u64 (sd_next_seqno s + len)) (sd_outstanding s ++ [segment])
    (u64 (sd_bytes_in_flight s + len)) (sd_is_syn_set s) (sd_is_fin_set s)
    (sd_consecutive s) (sd_recent_abs_ackno s) (sd_window_size s) (sd_is_window_size_0 s)
    (sd_RTO s) (if negb (tm_if_run (sd_timer s)) then timer_start (sd_timer s) else sd_timer s).

(** The loop; [None] when the fuel runs out. *)
Fixpoint fill_loop (fuel : nat) (s : TCPSender) : option TCPSender :=
  match fuel with
  | O => None
  | S fuel' =>
      if fill_cond s then
        let '(segment, s1) := fill_segment s in
        if length_in_sequence_space segment =? 0 then Some s1
        else fill_loop fuel' (fill_push segment s1)
      else Some s
  end.

(** Every round but the last takes a byte, sends the SYN or sends the FIN. *)
Definition fill_fuel (s : TCPSender) : nat := length (bs_buffer (sd_stream s)) + 3.

Definition fill_window (s : TCPSender) : TCPSender := default s (fill_loop (fill_fuel s) s).

(** One round of the loop of [ack_received] that pops a segment of length [len]. *)
Definition ack_pop (len : Z) (rest : list TCPSegment) (s : TCPSender) : TCPSender :=
  mkSender (sd_isn s) (sd_segments_out s) (sd_initial_rto s) (sd_stream s) (sd_next_seqno s)
    rest (u64 (sd_bytes_in_flight s - len)) (sd_is_syn_set s) (sd_is_fin_set s)
    0 (sd_recent_abs_ackno s) (sd_window_size s) (sd_is_window_size_0 s)
    (sd_initial_rto s) (timer_start (sd_timer s)).

Fixpoint ack_loop (abs_ackno : Z) (outstanding : list TCPSegment) (s : TCPSender) : TCPSender :=
  match outstanding with
  | [] => s
  | segment :: rest =>
      let abs_seqno := unwrap (seqno (header segment)) (sd_isn s) (sd_recent_abs_ackno s) in
      let len := length_in_sequence_space segment in
      if (abs_ackno <? u64 (abs_seqno + len)) || (sd_next_seqno s <? abs_ackno) then s
      else ack_loop abs_ackno rest (ack_pop len rest s)
  end.

Definition ack_received (ackno : WrappingInt32) (window_size : Z) (s : TCPSender) : TCPSender :=
  let '(window, zero) :=
    if window_size =? 0 then (1, true) else (window_size, sd_is_window_size_0 s) in
  let s1 := mkSender (sd_isn s) (sd_segments_out s) (sd_initial_rto s) (sd_stream s)
    (sd_next_seqno s) (sd_outstanding s) (sd_bytes_in_flight s) (sd_is_syn_set s)
    (sd_is_fin_set s) (sd_consecutive s) (sd_recent_abs_ackno s) window zero (sd_RTO s)
    (sd_timer s) in
  let abs_ackno := unwrap ackno (sd_isn s1) (sd_recent_abs_ackno s1) in
  let s2 := ack_loop abs_ackno (sd_outstanding s1) s1 in
  mkSender (sd_isn s2) (sd_segments_out s2) (sd_initial_rto s2) (sd_stream s2)
    (sd_next_seqno s2) (sd_outstanding s2) (sd_bytes_in_flight s2) (sd_is_syn_set s2)
    (sd_is_fin_set s2) (sd_consecutive s2) abs_ackno (sd_window_size s2)
    (sd_is_window_size_0 s2) (sd_RTO s2)
    (match sd_outstanding s2 with [] => timer_stop (sd_timer s2) | _ => sd_timer s2 end).

(** [tick]; [front()] of an empty queue has no defined behaviour. *)
Definition sender_tick (ms_since_last_tick : Z) (s : TCPSender) : res TCPSender :=
  if negb (tm_if_run (sd_timer s)) then Ok s
  else
    let timer := timer_increment ms_since_last_tick (sd_timer s) in
    if sd_RTO s <=? tm_elapsed_time timer then
      match sd_outstanding s with
      | [] => Undefined
      | earliest_segment :: _ =>
          let '(consecutive, RTO) :=
            if negb (sd_is_window_size_0 s)
            then (u32 (sd_consecutive s + 1), u32 (sd_RTO s * 2))
            else (sd_consecutive s, sd_RTO s) in
          Ok (mkSender (sd_isn s) (sd_segments_out s ++ [earliest_segment]) (sd_initial_rto s)
                (sd_stream s) (sd_next_seqno s) (sd_outstanding s) (sd_bytes_in_flight s)
                (sd_is_syn_set s) (sd_is_fin_set s) consecutive (sd_recent_abs_ackno s)
                (sd_window_size s) (sd_is_window_size_0 s) RTO (timer_start timer))
      end
    else Ok (mkSender (sd_isn s) (sd_segments_out s) (sd_initial_rto s)
               (sd_stream s) (sd_next_seqno s) (sd_outstanding s) (sd_bytes_in_flight s)
               (sd_is_syn_set s) (sd_is_fin_set s) (sd_consecutive s) (sd_recent_abs_ackno s)
               (sd_window_size s) (sd_is_window_size_0 s) (sd_RTO s) timer).

Definition send_empty_segment (s : TCPSender) : TCPSender :=
  let segment :=
    mkTCPSegment (seg_header (wrap (sd_next_seqno s) (sd_isn s)) false false) Buffer_default in
  with_segments_out (sd_segments_out s ++ [segment]) s.

(** ** The invariant *)

(** [segs] occupy the sequence numbers from [a] up to [b] without gaps. *)
Fixpoint chain (isn : WrappingInt32) (W : list byte) (a : Z) (segs : list TCPSegment) (b : Z) : Prop :=
  match segs with
  | [] => a = b
  | seg :: rest =>
      honest_at isn W seg a /\ 0 < length_in_sequence_space seg /\
      chain isn W (a + length_in_sequence_space seg) rest b
  end.

(** A segment the sender may have put on the wire: honest for the stream [W],
    and with a FIN only once the sender has noted it. *)
Definition emitted (s : TCPSender) (W : list byte) (seg : TCPSegment) : Prop :=
  honest (sd_isn s) W seg /\ (fin (header seg) = true -> sd_is_fin_set s = true).

(** [W] is everything written to the outbound stream, [rd] how much of it has
    been put into segments. *)
Record SInv (s : TCPSender) (W : list byte) (rd : nat) : Prop := {
  si_isn : winv (sd_isn s);
  si_rep : Represents (sd_stream s) W rd;
  si_next : sd_next_seqno s = (if sd_is_syn_set s then 1 else 0) + Z.of_nat rd
              + (if sd_is_fin_set s then 1 else 0);
  si_syn : sd_is_syn_set s = false -> rd = 0%nat /\ sd_is_fin_set s = false;
  si_fin : sd_is_fin_set s = true -> bs_input_ended (sd_stream s) = true /\ rd = length W;
  si_chain : exists una, 0 <= una /\ chain (sd_isn s) W una (sd_outstanding s) (sd_next_seqno s) /\
               sd_bytes_in_flight s = sd_next_seqno s - una;
  si_out : Forall (emitted s W) (sd_segments_out s);
  si_flight : Forall (emitted s W) (sd_outstanding s);
  si_timer : tm_if_run (sd_timer s) = match sd_outstanding s with [] => false | _ => true end;
  si_recent : is_u64 (sd_recent_abs_ackno s);
  si_window : is_u16 (sd_window_size s)
}.

Lemma chain_le isn W a segs b : chain isn W a segs b -> a <= b.
Proof.
  revert a. induction segs as [|seg segs IH]; cbn; intros a; [lia|].
  intros (_ & Hl & Hc%IH). lia.
Qed.

Lemma chain_snoc isn W a segs b seg :
  chain isn W a segs b -> honest_at isn W seg b -> 0 < length_in_sequence_space seg ->
  chain isn W a (segs ++ [seg]) (b + length_in_sequence_space seg).
Proof.
  revert a. induction segs as [|x segs IH]; cbn; intros a Hc Hh Hl.
  - by subst a.
  - destruct Hc as (Hx & Hxl & Hc). auto.
Qed.

Lemma SInv_new random cap rto fixed :
  0 <= cap < 2 ^ 31 -> (forall isn, fixed = Some isn -> winv isn) ->
  SInv (TCPSender_new random cap rto fixed) [] 0.
Proof.
  intros Hcap Hf. split; cbn; try done.
  - destruct fixed; cbn; [auto|]. apply u32_range.
  - by apply new_represents.
  - exists 0. done.
Qed.

Lemma length_seq_nonneg seg : 0 <= length_in_sequence_space seg.
Proof. unfold length_in_sequence_space. repeat case_if; lia. Qed.

(** Total length in sequence space. *)
Definition seq_total (segs : list TCPSegment) : Z :=
  foldr (fun seg n => length_in_sequence_space seg + n) 0 segs.

(** The right edge of the peer's window. *)
Definition window_edge (s : TCPSender) : Z := u64 (sd_recent_abs_ackno s + sd_window_size s).

(** What the loop of [fill_window] may still do. *)
Definition fill_measure (s : TCPSender) : nat :=
  length (bs_buffer (sd_stream s)) + (if sd_is_syn_set s then 0 else 1)
  + (if sd_is_fin_set s then 0 else 1).

Section Fill.
Context (W : list byte) (HW : zlen W < 2 ^ 62).

Lemma eof_rep st rd : Represents st W rd -> eof st = bs_input_ended st && (rd =? length W)%nat.
Proof.
  intros R. unfold eof, buffer_empty. rewrite (rep_buffer_size _ _ _ R).
  pose proof (rep_read _ _ _ R). f_equal. apply eq_true_iff_eq.
  rewrite Z.eqb_eq, Nat.eqb_eq. lia.
Qed.

Lemma excerpt_of_rest rd n : excerpt_at W rd (take n (drop rd W)).
Proof.
  apply excerpt_take. intros j c Hc. by rewrite lookup_drop in Hc.
Qed.

(** The segment built at the current position is honest. *)
Lemma next_segment_honest s rd data f :
  SInv s W rd -> excerpt_at W rd data -> (rd + length data <= length W)%nat ->
  (f = true -> sd_is_fin_set s = false /\ (rd + length data)%nat = length W) ->
  honest_at (sd_isn s) W
    (mkTCPSegment (seg_header (wrap (sd_next_seqno s) (sd_isn s)) (negb (sd_is_syn_set s)) f)
       (Buffer_of data)) (sd_next_seqno s).
Proof.
  intros HI Hex Hlen Hff. pose proof (si_next _ _ _ HI) as Hn.
  pose proof (si_syn _ _ _ HI) as Hs. pose proof (si_fin _ _ _ HI) as Hf.
  split; unfold length_in_sequence_space; cbn [seg_header header payload seqno syn fin];
    rewrite ?str_of; rewrite Hn.
  - done.
  - repeat case_match; lia.
  - intros _. destruct (sd_is_syn_set s); cbn [negb].
    + split; [done|]. case_match; lia.
    + destruct (Hs eq_refl) as [-> ->]. done.
  - destruct (sd_is_syn_set s); cbn [negb].
    + destruct (sd_is_fin_set s).
      * destruct (Hf eq_refl) as [_ ->]. destruct data; [apply excerpt_nil|cbn in Hlen; lia].
      * by replace (Z.to_nat (1 + Z.of_nat rd + 0 - 1)) with rd by lia.
    + destruct (Hs eq_refl) as [-> ->]. done.
  - intros ->. destruct (Hff eq_refl) as [-> <-].
    destruct (sd_is_syn_set s); cbn [negb]; lia.
  - done.
Qed.

(** One round of [fill_window]: the segment is the next one of the stream. *)
Lemma fill_segment_spec s rd seg s1 :
  SInv s W rd -> fill_cond s = true -> fill_segment s = (seg, s1) ->
  let data := str (payload seg) in
  let room := u64 (window_edge s - sd_next_seqno s) in
  data = take (Z.to_nat (Z.min room MAX_PAYLOAD_SIZE)) (drop rd W) /\
  (sd_is_syn_set s = true -> 0 < room /\ room = window_edge s - sd_next_seqno s) /\
  syn (header seg) = negb (sd_is_syn_set s) /\
  fin (header seg) = bs_input_ended (sd_stream s) && (rd + length data =? length W)%nat &&
    negb (sd_is_fin_set s) && (zlen data + (if sd_is_syn_set s then 0 else 1) <? room) /\
  honest_at (sd_isn s) W seg (sd_next_seqno s) /\
  Represents (sd_stream s1) W (rd + length data) /\
  bs_input_ended (sd_stream s1) = bs_input_ended (sd_stream s) /\
  s1 = mkSender (sd_isn s) (sd_segments_out s) (sd_initial_rto s) (sd_stream s1) (sd_next_seqno s)
     (sd_outstanding s) (sd_bytes_in_flight s) true
     (sd_is_fin_set s || fin (header seg)) (sd_consecutive s) (sd_recent_abs_ackno s)
     (sd_window_size s) (sd_is_window_size_0 s) (sd_RTO s) (sd_timer s).
Proof.
  intros HI Hcond Hseg. cbv zeta. pose proof HI as [Hisn R Hn Hs Hf _ _ _ _ Hrc Hwd].
  assert (Esyn : (sd_next_seqno s =? 0) = negb (sd_is_syn_set s)).
  { destruct (sd_is_syn_set s) eqn:E; cbn [negb] in *.
    - apply Z.eqb_neq. case_match; lia.
    - destruct (Hs eq_refl) as [-> E2]. rewrite E2 in Hn. by apply Z.eqb_eq. }
  assert (Eroom : u64 (window_edge s - sd_next_seqno s)
                  = u64 (sd_recent_abs_ackno s + sd_window_size s - sd_next_seqno s)).
  { unfold window_edge. word_lia. }
  unfold fill_segment in Hseg. rewrite <- Eroom in Hseg. clear Eroom.
  set (room := u64 (window_edge s - sd_next_seqno s)) in *.
  assert (0 <= room) by (subst room; apply u64_range).
  assert (Hrs : 0 <= Z.min room MAX_PAYLOAD_SIZE) by (unfold MAX_PAYLOAD_SIZE; lia).
  unfold read in Hseg. rewrite (peek_represents _ _ _ R), Esyn in Hseg by done.
  destruct (pop_represents _ _ _ R _ Hrs) as (R' & _ & Hend & _).
  set (st := pop_output (Z.min room MAX_PAYLOAD_SIZE) (sd_stream s)) in *.
  set (data := take (Z.to_nat (Z.min room MAX_PAYLOAD_SIZE)) (drop rd W)) in *.
  pose proof (excerpt_of_rest rd (Z.to_nat (Z.min room MAX_PAYLOAD_SIZE))) as Hex. fold data in Hex.
  assert (Epop : popped (sd_stream s) (Z.min room MAX_PAYLOAD_SIZE) = length data).
  { unfold popped, data. rewrite (rep_buffer_size _ _ _ R), length_take, length_drop.
    pose proof (rep_read _ _ _ R). lia. }
  rewrite Epop in R'. rewrite (eof_rep _ _ R'), Hend in Hseg.
  unfold length_in_sequence_space in Hseg. cbn [header payload seg_header syn fin] in Hseg.
  rewrite str_of, Z.add_0_r in Hseg. clearbody st. simplify_eq Hseg. intros <- <-.
  cbn [header payload seg_header syn fin sd_stream]. rewrite str_of.
  assert (Eneg : (if negb (sd_is_syn_set s) then 1 else 0) = if sd_is_syn_set s then 0 else 1)
    by (by destruct (sd_is_syn_set s)).
  rewrite Eneg. split_and!; try done.
  - intros E. unfold fill_cond in Hcond. rewrite E in Hcond. cbn in Hcond. bool_prop.
    pose proof (u64_range (sd_recent_abs_ackno s + sd_window_size s)).
    subst room. unfold window_edge in *. 
    assert (0 <= sd_next_seqno s) by (rewrite Hn; repeat case_match; lia).
    rewrite u64_small by word_lia. lia.
  - apply next_segment_honest with (rd := rd); [done..| |].
    + apply (rep_read _ _ _ R').
    + intros Hfn. bool_prop. by rewrite <- Nat.eqb_eq.
  - by destruct (sd_is_syn_set s).
Qed.

Lemma data_bound s rd seg s1 :
  SInv s W rd -> fill_cond s = true -> fill_segment s = (seg, s1) ->
  (rd + length (str (payload seg)) <= length W)%nat /\ zlen (str (payload seg)) <= MAX_PAYLOAD_SIZE.
Proof.
  intros HI Hc Hseg.
  destruct (fill_segment_spec s rd seg s1 HI Hc Hseg) as (Ed & _ & _ & _ & _ & R' & _).
  split; [apply (rep_read _ _ _ R')|]. rewrite Ed, length_take. unfold MAX_PAYLOAD_SIZE. lia.
Qed.

Lemma emitted_snoc s s' f segs seg :
  Forall (emitted s W) segs -> honest (sd_isn s) W seg ->
  sd_isn s' = sd_isn s -> sd_is_fin_set s' = sd_is_fin_set s || f -> f = fin (header seg) ->
  Forall (emitted s' W) (segs ++ [seg]).
Proof.
  intros HF Hh Ei Ef ->. apply Forall_app_2.
  - eapply Forall_impl; [exact HF|]. intros x [Hx Hxf]. split; [by rewrite Ei|].
    intros E. by rewrite Ef, (Hxf E).
  - constructor; [|constructor]. split; [by rewrite Ei|]. intros E. by rewrite Ef, E, orb_true_r.
Qed.

Lemma fill_push_inv s rd seg s1 :
  SInv s W rd -> fill_cond s = true -> fill_segment s = (seg, s1) ->
  length_in_sequence_space seg <> 0 ->
  SInv (fill_push seg s1) W (rd + length (str (payload seg))) /\
  (fill_measure (fill_push seg s1) < fill_measure s)%nat.
Proof.
  intros HI Hc Hseg Hlen.
  pose proof (data_bound _ _ _ _ HI Hc Hseg) as [Hle _].
  destruct (fill_segment_spec s rd seg s1 HI Hc Hseg)
    as (_ & _ & Esyn & Efin & Hh & R' & Hend & Es1).
  pose proof (length_seq_nonneg seg) as Hl0.
  destruct HI as [Hisn R Hn Hs Hf (una & Hu0 & Hch & Hbif) Ho Hfl Ht Hrc Hwd].
  assert (Hbound : 0 <= sd_next_seqno s + length_in_sequence_space seg < 2 ^ 64).
  { rewrite Hn. unfold length_in_sequence_space. repeat case_match; word_lia. }
  assert (Hnext : sd_next_seqno s + length_in_sequence_space seg =
    1 + Z.of_nat (rd + length (str (payload seg))) +
    (if sd_is_fin_set s || fin (header seg) then 1 else 0)).
  { rewrite Hn. unfold length_in_sequence_space. rewrite Esyn.
    destruct (sd_is_syn_set s); cbn [negb].
    - destruct (sd_is_fin_set s); cbn [orb]; [|lia].
      rewrite Efin. cbn [negb]. rewrite andb_false_r. cbn. lia.
    - destruct (Hs eq_refl) as [-> ->]. cbn [orb]. lia. }
  pose proof (chain_le _ _ _ _ _ Hch) as Hcle.
  rewrite Es1. split.
  - split; cbn [fill_push sd_isn sd_segments_out sd_stream sd_next_seqno sd_outstanding
      sd_bytes_in_flight sd_is_syn_set sd_is_fin_set sd_timer sd_recent_abs_ackno sd_window_size];
      try done.
    + rewrite u64_small by done. done.
    + intros E. rewrite Hend. destruct (sd_is_fin_set s); cbn [orb] in E.
      * destruct (Hf eq_refl) as [? ->]. split; [done|lia].
      * rewrite Efin in E. bool_prop. split; [done|]. by apply Nat.eqb_eq.
    + exists una. split; [done|]. rewrite !u64_small by word_lia.
      split; [|lia]. apply chain_snoc; [done..|lia].
    + eapply emitted_snoc; [done|by eexists|done..].
    + eapply emitted_snoc; [done|by eexists|done..].
    + rewrite Ht. by destruct (sd_outstanding s).
  - unfold fill_measure. cbn [fill_push sd_is_syn_set sd_is_fin_set sd_stream].
    rewrite (rep_buffer _ _ _ R'), (rep_buffer _ _ _ R), !length_drop.
    unfold length_in_sequence_space in Hlen. rewrite Esyn in Hlen.
    destruct (sd_is_syn_set s), (sd_is_fin_set s), (fin (header seg)); cbn in *; lia.
Qed.

Lemma fill_break_inv s rd seg s1 :
  SInv s W rd -> fill_cond s = true -> fill_segment s = (seg, s1) ->
  length_in_sequence_space seg = 0 ->
  SInv s1 W rd /\ bs_buffer (sd_stream s1) = [] /\
  (bs_input_ended (sd_stream s1) = true -> sd_is_fin_set s1 = true) /\
  s1 = with_stream_in (sd_stream s1) s /\ sd_is_syn_set s = true.
Proof.
  intros HI Hc Hseg Hlen.
  pose proof (data_bound _ _ _ _ HI Hc Hseg) as [Hle _].
  destruct (fill_segment_spec s rd seg s1 HI Hc Hseg)
    as (Ed & Hroom & Esyn & Efin & _ & R' & Hend & Es1).
  unfold length_in_sequence_space in Hlen. rewrite Esyn in Hlen.
  destruct (sd_is_syn_set s) eqn:Es; cbn [negb] in Hlen; [|case_match; lia].
  destruct (fin (header seg)) eqn:Ef; [lia|]. destruct (str (payload seg)) eqn:Est; [|cbn in Hlen; lia].
  destruct (Hroom eq_refl) as [Hroom0 _]. rewrite orb_false_r in Es1.
  cbn [length] in *. rewrite Nat.add_0_r in R', Efin, Hle.
  assert (Hrd : rd = length W).
  { apply (f_equal length) in Ed. rewrite length_take, length_drop in Ed.
    unfold MAX_PAYLOAD_SIZE in Ed. cbn [length] in Ed. lia. }
  split_and!; try done.
  - destruct HI as [Hisn R Hn Hs Hf Hch Ho Hfl Ht Hrc Hwd].
    rewrite Es1. split; cbn [sd_isn sd_segments_out sd_stream sd_next_seqno sd_outstanding
      sd_bytes_in_flight sd_is_syn_set sd_is_fin_set sd_timer sd_recent_abs_ackno sd_window_size];
      try done.
    + by rewrite Es in Hn.
    + by rewrite Hend.
  - by rewrite (rep_buffer _ _ _ R'), Hrd, drop_all.
  - rewrite Hend, Es1. cbn [sd_is_fin_set]. intros E. rewrite E in Efin. cbn [andb] in Efin.
    rewrite (proj2 (Nat.eqb_eq _ _) Hrd) in Efin. cbn [andb] in Efin.
    rewrite (proj2 (Z.ltb_lt 0 _)) in Efin by lia.
    destruct (sd_is_fin_set s); [done|]. done.
  - rewrite Es1 at 1. unfold with_stream_in. by rewrite Es.
Qed.

(** The result of [fill_window]: new segments appended to both queues, the
    window respected and used, everything else unchanged. *)
Record Filled (s s' : TCPSender) : Prop := {
  fd_segments : exists segs,
    sd_segments_out s' = sd_segments_out s ++ segs /\
    sd_outstanding s' = sd_outstanding s ++ segs /\
    sd_next_seqno s' = sd_next_seqno s + seq_total segs /\
    Forall (fun seg => zlen (str (payload seg)) <= MAX_PAYLOAD_SIZE) segs;
  fd_unchanged : sd_isn s' = sd_isn s /\ sd_initial_rto s' = sd_initial_rto s /\
    sd_consecutive s' = sd_consecutive s /\ sd_RTO s' = sd_RTO s /\
    sd_is_window_size_0 s' = sd_is_window_size_0 s;
  fd_window : sd_recent_abs_ackno s' = sd_recent_abs_ackno s /\ sd_window_size s' = sd_window_size s;
  fd_ended : bs_input_ended (sd_stream s') = bs_input_ended (sd_stream s);
  fd_bound : sd_next_seqno s <= sd_next_seqno s' <=
    Z.max (sd_next_seqno s) (window_edge s + (if sd_is_syn_set s then 0 else 1));
  fd_syn : sd_is_syn_set s' = true;
  fd_full : window_edge s <= sd_next_seqno s' \/
    (bs_buffer (sd_stream s') = [] /\
     (bs_input_ended (sd_stream s') = true -> sd_is_fin_set s' = true))
}.

(** A segment that [fill_window] sends ends inside the window, the SYN one byte
    further. *)
Lemma fill_push_next s rd seg s1 :
  SInv s W rd -> fill_cond s = true -> fill_segment s = (seg, s1) ->
  sd_next_seqno (fill_push seg s1) = sd_next_seqno s + length_in_sequence_space seg /\
  sd_next_seqno s + length_in_sequence_space seg <=
    Z.max (sd_next_seqno s) (window_edge s + (if sd_is_syn_set s then 0 else 1)).
Proof.
  intros HI Hc Hseg. pose proof (data_bound _ _ _ _ HI Hc Hseg) as [Hle _].
  destruct (fill_segment_spec s rd seg s1 HI Hc Hseg)
    as (Ed & Hroom & Esyn & Efin & _ & _ & _ & Es1).
  pose proof (si_next _ _ _ HI) as Hn. pose proof (si_syn _ _ _ HI) as Hs.
  pose proof (u64_range (sd_recent_abs_ackno s + sd_window_size s)) as Hedge.
  fold (window_edge s) in Hedge.
  apply (f_equal length) in Ed. rewrite length_take in Ed.
  split.
  - rewrite Es1. cbn [fill_push sd_next_seqno]. apply u64_small. rewrite Hn.
    unfold length_in_sequence_space. repeat case_match; word_lia.
  - unfold length_in_sequence_space. rewrite Esyn.
    destruct (sd_is_syn_set s); cbn [negb].
    + destruct (Hroom eq_refl) as [Hr0 Hr]. rewrite Hr in Ed, Efin.
      destruct (fin (header seg)) eqn:Ef; [|lia]. symmetry in Efin. bool_prop. lia.
    + destruct (Hs eq_refl) as [-> E2]. rewrite E2 in Hn. cbn in Hn. rewrite Hn, Z.sub_0_r in *.
      rewrite u64_small in Ed, Efin by done.
      destruct (fin (header seg)) eqn:Ef; [symmetry in Efin; bool_prop|]; word_lia.
Qed.

(** With enough fuel the loop returns, and its result is as described. *)
Lemma fill_loop_spec fuel : forall s rd,
  SInv s W rd -> (fill_measure s < fuel)%nat ->
  exists s' rd', fill_loop fuel s = Some s' /\ SInv s' W rd' /\ Filled s s'.
Proof.
  induction fuel as [|fuel IH]; intros s rd HI Hm; [lia|]. cbn [fill_loop].
  destruct (fill_cond s) eqn:Hc.
  - destruct (fill_segment s) as [seg s1] eqn:Hseg.
    destruct (length_in_sequence_space seg =? 0) eqn:El; bool_prop.
    + destruct (fill_break_inv s rd seg s1 HI Hc Hseg El) as (HI' & Hb & Hf & E1 & Es).
      exists s1, rd. split; [done|]. split; [done|].
      destruct (fill_segment_spec s rd seg s1 HI Hc Hseg) as (_ & _ & _ & _ & _ & _ & Hend & _).
      rewrite E1 in Hb, Hf, Hend |- *. split; cbn in *; try done.
      * exists []. cbn. by rewrite !app_nil_r, Z.add_0_r.
      * rewrite Es. lia.
      * by right.
    + destruct (fill_push_inv s rd seg s1 HI Hc Hseg El) as [HI' Hm'].
      destruct (fill_push_next s rd seg s1 HI Hc Hseg) as [En Hbd].
      pose proof (data_bound _ _ _ _ HI Hc Hseg) as [_ Hmax].
      destruct (fill_segment_spec s rd seg s1 HI Hc Hseg) as (_ & _ & _ & _ & _ & _ & Hend & E1).
      pose proof (length_seq_nonneg seg).
      destruct (IH _ _ HI' ltac:(lia)) as (s' & rd' & -> & HI'' & [(segs & Eo & Eout & Etot & HF) Hu Hw He Hb Hsy Hfull]).
      exists s', rd'. split; [done|]. split; [done|].
      assert (Eedge : window_edge (fill_push seg s1) = window_edge s) by (by rewrite E1).
      rewrite Eedge, En in *. rewrite E1 in *.
      split; cbn [fill_push sd_isn sd_initial_rto sd_consecutive sd_RTO sd_is_window_size_0
        sd_recent_abs_ackno sd_window_size sd_stream sd_is_syn_set sd_segments_out sd_outstanding] in *;
        try done.
      * exists (seg :: segs). rewrite Eo, Eout, <- !app_assoc.
        split_and!; [done..|rewrite Etot; cbn; unfold seq_total; lia|by constructor].
      * by rewrite He.
      * destruct (sd_is_syn_set s); lia.
  - unfold fill_cond in Hc. bool_prop. exists s, rd. split; [done|]. split; [done|].
    split; try done.
    + exists []. cbn. by rewrite !app_nil_r, Z.add_0_r.
    + lia.
    + left. done.
Qed.

Lemma fill_window_spec s rd :
  SInv s W rd -> exists rd', SInv (fill_window s) W rd' /\ Filled s (fill_window s).
Proof.
  intros HI. destruct (fill_loop_spec (fill_fuel s) s rd HI) as (s' & rd' & E & HI' & HF).
  { unfold fill_fuel, fill_measure. repeat case_match; lia. }
  exists rd'. unfold fill_window. rewrite E. done.
Qed.
End Fill.

(** ** Acknowledgments *)

(** How many segments at the front the loop of [ack_received] removes. *)
Fixpoint acked_count (abs_ackno : Z) (s : TCPSender) (segs : list TCPSegment) : nat :=
  match segs with
  | [] => 0
  | seg :: rest =>
      if (abs_ackno <? u64 (unwrap (seqno (header seg)) (sd_isn s) (sd_recent_abs_ackno s)
                            + length_in_sequence_space seg))
         || (sd_next_seqno s <? abs_ackno)
      then 0 else S (acked_count abs_ackno s rest)
  end.

(** The sender with [k] segments acknowledged. *)
Definition acked (k : nat) (s : TCPSender) : TCPSender :=
  match k with
  | O => s
  | _ => mkSender (sd_isn s) (sd_segments_out s) (sd_initial_rto s) (sd_stream s)
    (sd_next_seqno s) (drop k (sd_outstanding s))
    (u64 (sd_bytes_in_flight s - seq_total (take k (sd_outstanding s))))
    (sd_is_syn_set s) (sd_is_fin_set s) 0 (sd_recent_abs_ackno s) (sd_window_size s)
    (sd_is_window_size_0 s) (sd_initial_rto s) (timer_start (sd_timer s))
  end.

Lemma acked_count_ext a s s' l :
  sd_isn s' = sd_isn s -> sd_recent_abs_ackno s' = sd_recent_abs_ackno s ->
  sd_next_seqno s' = sd_next_seqno s -> acked_count a s' l = acked_count a s l.
Proof.
  intros E1 E2 E3. induction l as [|x l IHl]; cbn; [done|]. by rewrite E1, E2, E3, IHl.
Qed.

Lemma acked_count_le a s l : (acked_count a s l <= length l)%nat.
Proof. induction l as [|x l IH]; cbn; [lia|]. case_if; lia. Qed.

Lemma ack_loop_eq a q : forall s,
  sd_outstanding s = q -> ack_loop a q s = acked (acked_count a s q) s.
Proof.
  induction q as [|seg q IH]; intros s Eq; cbn [ack_loop acked_count]; [done|].
  case_if; [done|]. rewrite IH by done.
  rewrite (acked_count_ext a s) by done. unfold acked at 2. rewrite Eq. cbn [drop take seq_total foldr].
  fold (seq_total (take (acked_count a s q) q)).
  destruct (acked_count a s q) as [|k]; cbn [acked ack_pop sd_isn sd_segments_out sd_initial_rto
    sd_stream sd_next_seqno sd_outstanding sd_bytes_in_flight sd_is_syn_set sd_is_fin_set
    sd_recent_abs_ackno sd_window_size sd_is_window_size_0 sd_timer].
  - rewrite drop_0, take_0. cbn [seq_total foldr ack_pop]. by rewrite Z.add_0_r.
  - f_equal. word_lia.
Qed.

(** [ack_received] in closed form. *)
Lemma ack_received_eq n wnd s :
  let a := unwrap n (sd_isn s) (sd_recent_abs_ackno s) in
  let s' := acked (acked_count a s (sd_outstanding s)) s in
  ack_received n wnd s =
  mkSender (sd_isn s) (sd_segments_out s) (sd_initial_rto s) (sd_stream s) (sd_next_seqno s)
    (sd_outstanding s') (sd_bytes_in_flight s') (sd_is_syn_set s) (sd_is_fin_set s)
    (sd_consecutive s') a (if wnd =? 0 then 1 else wnd)
    (if wnd =? 0 then true else sd_is_window_size_0 s) (sd_RTO s')
    (match sd_outstanding s' with [] => timer_stop (sd_timer s') | _ => sd_timer s' end).
Proof.
  cbv zeta. unfold ack_received.
  assert (Hif : (if wnd =? 0 then (1, true) else (wnd, sd_is_window_size_0 s))
     = (if wnd =? 0 then 1 else wnd, if wnd =? 0 then true else sd_is_window_size_0 s)) by by case_if.
  rewrite Hif. cbv beta iota zeta. rewrite ack_loop_eq by done.
  cbn [sd_isn sd_recent_abs_ackno sd_outstanding].
  rewrite (acked_count_ext _ s) by done. by destruct (acked_count _ s (sd_outstanding s)).
Qed.

Lemma chain_drop isn W segs : forall k a b,
  chain isn W a segs b -> chain isn W (a + seq_total (take k segs)) (drop k segs) b.
Proof.
  induction segs as [|seg segs IH]; intros [|k] a b Hc;
    cbn [take drop seq_total foldr]; rewrite ?Z.add_0_r; try done.
  destruct Hc as (_ & _ & Hc). apply (IH k) in Hc.
  fold (seq_total (take k segs)). by rewrite Z.add_assoc.
Qed.

Lemma seq_total_nonneg segs : 0 <= seq_total segs.
Proof.
  induction segs as [|seg segs IH]; [done|]. cbn [seq_total foldr].
  fold (seq_total segs). pose proof (length_seq_nonneg seg). lia.
Qed.

Section Preserve.
Context (W : list byte) (HW : zlen W < 2 ^ 62).

Lemma SInv_next_bound s rd : SInv s W rd -> 0 <= sd_next_seqno s <= zlen W + 2.
Proof.
  intros HI. rewrite (si_next _ _ _ HI). pose proof (rep_read _ _ _ (si_rep _ _ _ HI)).
  repeat case_match; lia.
Qed.

(** Any acknowledgment, even of data never sent, keeps the invariant. *)
Lemma ack_received_inv n wnd s rd :
  SInv s W rd -> winv n -> is_u16 wnd -> SInv (ack_received n wnd s) W rd.
Proof.
  intros HI Hn Hwnd. pose proof (SInv_next_bound _ _ HI) as Hnb.
  rewrite ack_received_eq.
  destruct HI as [Hisn R Hnx Hs Hf (una & Hu0 & Hch & Hbif) Ho Hfl Ht Hrc Hwd].
  set (k := acked_count _ s _). clearbody k.
  pose proof (chain_drop _ _ _ k _ _ Hch) as Hch'. pose proof (chain_le _ _ _ _ _ Hch') as Hle.
  pose proof (seq_total_nonneg (take k (sd_outstanding s))).
  assert (Ek : sd_outstanding (acked k s) = drop k (sd_outstanding s)) by by destruct k.
  assert (Eb : sd_bytes_in_flight (acked k s)
             = sd_next_seqno s - (una + seq_total (take k (sd_outstanding s)))).
  { destruct k; cbn [acked sd_bytes_in_flight].
    - rewrite take_0. cbn. lia.
    - rewrite Hbif, u64_small; word_lia. }
  split; cbn [sd_isn sd_segments_out sd_stream sd_next_seqno sd_outstanding
      sd_bytes_in_flight sd_is_syn_set sd_is_fin_set sd_timer sd_recent_abs_ackno sd_window_size];
    rewrite ?Ek, ?Eb; try done.
  - exists (una + seq_total (take k (sd_outstanding s))). split_and!; [lia|done|lia].
  - by apply Forall_drop.
  - destruct (drop k (sd_outstanding s)) eqn:Ed; [done|].
    destruct k; [|done]. cbn [acked]. rewrite Ht. by rewrite drop_0 in Ed; rewrite Ed.
  - by apply unwrap_range.
  - case_if; [word_lia|done].
Qed.

Lemma emitted_ext s s' segs :
  sd_isn s' = sd_isn s -> sd_is_fin_set s' = sd_is_fin_set s ->
  Forall (emitted s W) segs -> Forall (emitted s' W) segs.
Proof.
  intros E1 E2 HF. eapply Forall_impl; [exact HF|]. intros x Hx. unfold emitted. by rewrite E1, E2.
Qed.

(** With a segment in flight whenever the timer runs, [tick] is defined; it
    either lets time pass or retransmits the oldest segment. *)
Lemma tick_cases ms s rd :
  SInv s W rd ->
  (tm_if_run (sd_timer s) = false /\ sender_tick ms s = Ok s) \/
  (exists seg rest, sd_outstanding s = seg :: rest /\ tm_if_run (sd_timer s) = true /\
    sender_tick ms s = Ok
      (if sd_RTO s <=? u32 (tm_elapsed_time (sd_timer s) + ms) then
         mkSender (sd_isn s) (sd_segments_out s ++ [seg]) (sd_initial_rto s) (sd_stream s)
           (sd_next_seqno s) (sd_outstanding s) (sd_bytes_in_flight s) (sd_is_syn_set s)
           (sd_is_fin_set s)
           (if sd_is_window_size_0 s then sd_consecutive s else u32 (sd_consecutive s + 1))
           (sd_recent_abs_ackno s) (sd_window_size s) (sd_is_window_size_0 s)
           (if sd_is_window_size_0 s then sd_RTO s else u32 (sd_RTO s * 2)) (mkTimer 0 true)
       else
         mkSender (sd_isn s) (sd_segments_out s) (sd_initial_rto s) (sd_stream s)
           (sd_next_seqno s) (sd_outstanding s) (sd_bytes_in_flight s) (sd_is_syn_set s)
           (sd_is_fin_set s) (sd_consecutive s) (sd_recent_abs_ackno s) (sd_window_size s)
           (sd_is_window_size_0 s) (sd_RTO s)
           (mkTimer (u32 (tm_elapsed_time (sd_timer s) + ms)) true))).
Proof.
  intros HI. pose proof (si_timer _ _ _ HI) as Ht.
  unfold sender_tick, timer_increment. destruct (tm_if_run (sd_timer s)) eqn:E; cbn [negb];
    [right|by left].
  destruct (sd_outstanding s) as [|seg rest] eqn:Eo; [done|].
  exists seg, rest. split_and!; [done..|]. cbn [tm_elapsed_time].
  destruct (sd_RTO s <=? _); [|done]. by destruct (sd_is_window_size_0 s).
Qed.

Lemma tick_inv ms s rd : SInv s W rd -> exists s', sender_tick ms s = Ok s' /\ SInv s' W rd.
Proof.
  intros HI. destruct (tick_cases ms s rd HI) as [[_ ->]|(seg & rest & Eo & Er & ->)]; [by exists s|].
  eexists. split; [done|]. destruct HI as [Hisn R Hnx Hs Hf Hch Ho Hfl Ht Hrc Hwd].
  case_if; split; cbn [sd_isn sd_segments_out sd_stream sd_next_seqno sd_outstanding
      sd_bytes_in_flight sd_is_syn_set sd_is_fin_set sd_timer sd_recent_abs_ackno sd_window_size
      tm_if_run]; try done; try (by rewrite Eo).
  apply Forall_app_2; [by apply (emitted_ext s)|]. rewrite Eo in Hfl.
  inversion Hfl; subst. constructor; [done|constructor].
Qed.

Lemma send_empty_inv s rd : SInv s W rd -> SInv (send_empty_segment s) W rd.
Proof.
  intros HI. pose proof (SInv_next_bound _ _ HI) as Hnb.
  destruct HI as [Hisn R Hnx Hs Hf Hch Ho Hfl Ht Hrc Hwd].
  split; cbn; try done.
  apply Forall_app_2; [by apply (emitted_ext s)|]. constructor; [|constructor].
  split; [|done]. exists (sd_next_seqno s). by split.
Qed.

Lemma with_segments_out_inv q s rd :
  SInv s W rd -> q ⊆ sd_segments_out s -> SInv (with_segments_out q s) W rd.
Proof.
  intros [Hisn R Hnx Hs Hf Hch Ho Hfl Ht Hrc Hwd] Hq. split; cbn; try done.
  apply Forall_forall. intros x Hx. apply Hq in Hx. rewrite Forall_forall in Ho. by apply Ho.
Qed.
End Preserve.

(** ** The writer *)

Lemma honest_at_app isn W d seg a :
  (fin (header seg) = true -> d = []) -> honest_at isn W seg a -> honest_at isn (W ++ d) seg a.
Proof.
  intros Hd [Hseq Ha Hsyn Hpl Hfin Hty]. split; try done.
  - rewrite length_app. lia.
  - by apply excerpt_app.
  - intros E. rewrite (Hd E), app_nil_r. auto.
Qed.

Lemma emitted_app s W d seg :
  (sd_is_fin_set s = true -> d = []) -> emitted s W seg -> emitted s (W ++ d) seg.
Proof.
  intros Hd [[a Ha] Hf]. split; [|done]. exists a. apply honest_at_app; auto.
Qed.

Lemma chain_app isn W d segs : forall a b,
  Forall (fun seg => fin (header seg) = true -> d = []) segs ->
  chain isn W a segs b -> chain isn (W ++ d) a segs b.
Proof.
  induction segs as [|seg segs IH]; intros a b HF; [done|]. inversion HF; subst.
  intros (Hh & Hl & Hc). split_and!; [by apply honest_at_app|done|by apply IH].
Qed.

(** Replacing the outbound stream by one that has accepted [d] more. *)
Lemma with_stream_inv s W rd st d :
  SInv s W rd -> Represents st (W ++ d) rd ->
  (bs_input_ended (sd_stream s) = true -> d = [] /\ bs_input_ended st = true) ->
  SInv (with_stream_in st s) (W ++ d) rd.
Proof.
  intros [Hisn R Hnx Hs Hf (una & Hu & Hch & Hb) Ho Hfl Ht Hrc Hwd] R' Hend.
  assert (Hd : sd_is_fin_set s = true -> d = []).
  { intros E. apply Hend. by apply Hf. }
  assert (Hext : forall l, Forall (emitted s W) l -> Forall (emitted (with_stream_in st s) (W ++ d)) l).
  { intros l Hl. eapply Forall_impl; [exact Hl|]. intros x Hx. by apply emitted_app. }
  split; cbn [with_stream_in sd_isn sd_segments_out sd_stream sd_next_seqno sd_outstanding
    sd_bytes_in_flight sd_is_syn_set sd_is_fin_set sd_timer sd_recent_abs_ackno sd_window_size]; auto.
  - intros E. destruct (Hf E) as [E1 ->]. destruct (Hend E1) as [-> ?]. by rewrite app_nil_r.
  - exists una. split_and!; [done| |done]. apply chain_app; [|done].
    eapply Forall_impl; [exact Hfl|]. intros x [_ Hx] E. auto.
Qed.

(** The bytes of [data] that [write] takes. *)
Definition taken (data : list byte) (st : ByteStream) : list byte :=
  take (Z.to_nat (fst (write data st))) data.

Lemma write_inv s W rd data :
  SInv s W rd ->
  SInv (with_stream_in (snd (write data (sd_stream s))) s) (W ++ taken data (sd_stream s)) rd.
Proof.
  intros HI. pose proof (si_rep _ _ _ HI) as R.
  destruct (write_represents _ _ _ R data) as (En & R' & _ & Ee & _).
  assert (Et : taken data (sd_stream s) = accepted (sd_stream s) data).
  { unfold taken. rewrite En, Nat2Z.id. unfold accepted. destruct (bs_input_ended (sd_stream s)); [done|].
    rewrite length_take. destruct (Nat.le_ge_cases (length data) (Z.to_nat (remaining_capacity (sd_stream s)))).
    - rewrite Nat.min_r by done. by rewrite !take_ge by lia.
    - by rewrite Nat.min_l by done. }
  rewrite Et. apply with_stream_inv; [done..|]. intros E. unfold accepted. by rewrite Ee, E.
Qed.

Lemma end_input_inv s W rd :
  SInv s W rd -> SInv (with_stream_in (end_input (sd_stream s)) s) W rd.
Proof.
  intros HI. rewrite <- (app_nil_r W). apply with_stream_inv; [done| |done].
  rewrite app_nil_r. apply (end_input_represents _ _ _ (si_rep _ _ _ HI)).
Qed.

Lemma set_error_inv s W rd :
  SInv s W rd -> SInv (with_stream_in (set_error (sd_stream s)) s) W rd.
Proof.
  intros HI. rewrite <- (app_nil_r W). apply with_stream_inv; [done| |done].
  rewrite app_nil_r. apply (set_error_represents _ _ _ (si_rep _ _ _ HI)).
Qed.

(** ** Runs of the sender *)

(** One operation on the sender by its owner, with everything written so far.
    Acknowledgments are arbitrary. *)
Inductive snd_step : TCPSender * list byte -> TCPSender * list byte -> Prop :=
| snd_write s W data :
    snd_step (s, W) (with_stream_in (snd (write data (sd_stream s))) s, W ++ taken data (sd_stream s))
| snd_end s W : snd_step (s, W) (with_stream_in (end_input (sd_stream s)) s, W)
| snd_error s W : snd_step (s, W) (with_stream_in (set_error (sd_stream s)) s, W)
| snd_fill s W : snd_step (s, W) (fill_window s, W)
| snd_ack s W n wnd : winv n -> is_u16 wnd -> snd_step (s, W) (ack_received n wnd s, W)
| snd_tick s W ms s' : is_u64 ms -> sender_tick ms s = Ok s' -> snd_step (s, W) (s', W)
| snd_empty s W : snd_step (s, W) (send_empty_segment s, W)
| snd_drain s W : snd_step (s, W) (with_segments_out (tail (sd_segments_out s)) s, W).

Lemma snd_step_prefix c c' : snd_step c c' -> c.2 `prefix_of` c'.2.
Proof. destruct 1; cbn; try done. by eexists. Qed.

Lemma snd_step_inv c c' rd :
  snd_step c c' -> zlen c'.2 < 2 ^ 62 -> SInv c.1 c.2 rd -> exists rd', SInv c'.1 c'.2 rd'.
Proof.
  intros Hstep HW HI. destruct Hstep as [s W data|s W|s W|s W|s W n wnd Hn Hw|s W ms s' _ Et|s W|s W];
    cbn [fst snd] in *.
  - exists rd. by apply write_inv.
  - exists rd. by apply end_input_inv.
  - exists rd. by apply set_error_inv.
  - destruct (fill_window_spec W HW s rd HI) as (rd' & HI' & _). by exists rd'.
  - exists rd. by apply ack_received_inv.
  - destruct (tick_inv W ms s rd HI) as (s2 & E & HI'). rewrite Et in E. simplify_eq. by exists rd.
  - exists rd. by apply send_empty_inv.
  - exists rd. apply with_segments_out_inv; [done|]. intros x Hx.
    destruct (sd_segments_out s); [done|]. by right.
Qed.

Lemma snd_steps_prefix c c' : rtc snd_step c c' -> c.2 `prefix_of` c'.2.
Proof.
  induction 1 as [|c1 c2 c3 H1 _ IH]; [done|]. etrans; [by eapply snd_step_prefix|done].
Qed.

Definition sender_start (random cap rto : Z) (fixed : option WrappingInt32) : TCPSender * list byte :=
  (TCPSender_new random cap rto fixed, []).

Lemma chain_total isn W segs : forall a b, chain isn W a segs b -> seq_total segs = b - a.
Proof.
  induction segs as [|seg segs IH]; intros a b; cbn; [lia|].
  intros (_ & _ & Hc%IH). unfold seq_total in Hc. lia.
Qed.

Lemma fill_loop_mono fuel : forall s s' fuel',
  fill_loop fuel s = Some s' -> (fuel <= fuel')%nat -> fill_loop fuel' s = Some s'.
Proof.
  induction fuel as [|fuel IH]; intros s s' [|fuel'] E Hle; cbn in *; try done; [lia|].
  destruct (fill_cond s); [|done]. destruct (fill_segment s) as [seg s1].
  destruct (_ =? 0); [done|]. apply IH; [done|lia].
Qed.

Section Start.
Context (random cap rto : Z) (fixed : option WrappingInt32) (Hcap : 0 <= cap < 2 ^ 31)
  (Hfixed : forall isn, fixed = Some isn -> winv isn).

Lemma snd_reachable c :
  rtc snd_step (sender_start random cap rto fixed) c -> zlen c.2 < 2 ^ 62 ->
  exists rd, SInv c.1 c.2 rd.
Proof.
  revert c. apply (rtc_ind_r (fun c => zlen c.2 < 2 ^ 62 -> exists rd, SInv c.1 c.2 rd)).
  - intros _. exists 0%nat. by apply SInv_new.
  - intros c1 c2 _ Hstep IH HW.
    pose proof (prefix_length _ _ (snd_step_prefix _ _ Hstep)).
    destruct IH as [rd HI]; [lia|]. by eapply snd_step_inv.
Qed.

(** C8.  Invariant of the sender under arbitrary, even forged, acknowledgments:
    [bytes_in_flight] is the sequence space of the outstanding segments, the
    timer runs exactly while something is outstanding, [tick] never takes the
    front of an empty queue, and every queued segment carries the bytes, SYN
    and FIN that its sequence number stands for. *)
Theorem sender_invariant s W :
  rtc snd_step (sender_start random cap rto fixed) (s, W) -> zlen W < 2 ^ 62 ->
  bytes_in_flight s = seq_total (sd_outstanding s) /\
  (tm_if_run (sd_timer s) = true <-> sd_outstanding s <> []) /\
  (forall ms, is_ok (sender_tick ms s) = true) /\
  Forall (honest (sd_isn s) W) (sd_segments_out s ++ sd_outstanding s).
Proof.
  intros Hr HW. destruct (snd_reachable _ Hr HW) as [rd HI]. cbn [fst snd] in HI. split_and!.
  - unfold bytes_in_flight. destruct (si_chain _ _ _ HI) as (una & _ & Hc & ->). symmetry. by eapply chain_total.
  - rewrite (si_timer _ _ _ HI). by destruct (sd_outstanding s).
  - intros ms. by destruct (tick_inv W ms s rd HI) as (s' & -> & _).
  - destruct HI as [? ? ? ? ? ? Ho Hf ? ? ?].
    apply Forall_app_2; (eapply Forall_impl; [eassumption|]); by intros x [? _].
Qed.

End Start.

(** A sender with initial number 7: three bytes written, the SYN (and one byte)
    sent and acknowledged with a window of 2, the next segment out. *)
Definition example_sender : TCPSender :=
  let s0 := TCPSender_new 0 100 1000 (Some (mkWrappingInt32 7)) in
  let s1 := with_stream_in (snd (write [x61; x62; x63; x64] (sd_stream s0))) s0 in
  fill_window (ack_received (mkWrappingInt32 9) 2 (fill_window s1)).

Lemma example_sender_run :
  rtc snd_step (sender_start 0 100 1000 (Some (mkWrappingInt32 7)))
    (example_sender, [x61; x62; x63; x64]).
Proof.
  pose (s0 := TCPSender_new 0 100 1000 (Some (mkWrappingInt32 7))).
  pose (d := [x61; x62; x63; x64]).
  assert (E : d = [] ++ taken d (sd_stream s0)) by (vm_compute; reflexivity).
  change (rtc snd_step (s0, []) (example_sender, d)). rewrite E.
  eapply rtc_l; [apply (snd_write s0 [] d)|].
  eapply rtc_l; [apply snd_fill|].
  eapply rtc_l; [apply (snd_ack _ _ (mkWrappingInt32 9) 2); unfold winv; cbn; word_lia|].
  apply rtc_once, snd_fill.
Qed.

Lemma example_isn isn : Some (mkWrappingInt32 7) = Some isn -> winv isn.
Proof. intros [= <-]. unfold winv. cbn. word_lia. Qed.

Lemma sender_invariant_witness :
  bytes_in_flight example_sender = 2 /\
  bytes_in_flight example_sender = seq_total (sd_outstanding example_sender).
Proof.
  split; [reflexivity|].
  apply (sender_invariant 0 100 1000 (Some (mkWrappingInt32 7)) ltac:(lia) example_isn
           example_sender [x61; x62; x63; x64] example_sender_run ltac:(cbn; lia)).
Defined.


(** ** Genuine acknowledgments *)

(** The segments from [una] on that are not wholly below [a], and where they start. *)
Fixpoint drop_acked (a una : Z) (segs : list TCPSegment) : Z * list TCPSegment :=
  match segs with
  | [] => (una, [])
  | seg :: rest =>
      let e := una + length_in_sequence_space seg in
      if e <=? a then drop_acked a e rest else (una, segs)
  end.

Lemma acked_count_exact s W a : forall segs una,
  chain (sd_isn s) W una segs (sd_next_seqno s) -> winv (sd_isn s) -> 0 <= una ->
  0 <= sd_recent_abs_ackno s < 2 ^ 31 -> sd_next_seqno s < 2 ^ 31 -> a <= sd_next_seqno s ->
  let k := acked_count a s segs in
  drop_acked a una segs = (una + seq_total (take k segs), drop k segs).
Proof.
  induction segs as [|seg segs IH]; intros una Hc Hi Hu Hr Hn Ha; cbv zeta.
  { cbn. by rewrite Z.add_0_r. }
  cbn [acked_count drop_acked]. destruct Hc as ([Hseq _ _ _ _ _] & Hl & Hc).
  pose proof (chain_le _ _ _ _ _ Hc). rewrite Hseq, unwrap_wrap_near by (done || word_lia).
  rewrite u64_small by word_lia. rewrite (proj2 (Z.ltb_ge _ _) Ha), orb_false_r, Z.ltb_antisym.
  destruct (_ <=? a) eqn:E; cbn [negb].
  - rewrite IH by (done || lia). cbn [take drop seq_total foldr].
    fold (seq_total (take (acked_count a s segs) segs)). by rewrite Z.add_assoc.
  - cbn [take drop]. cbn. by rewrite Z.add_0_r.
Qed.

(** C10.  A genuine acknowledgment: when the peer acknowledges [a], a number no
    larger than the next one to be sent, and the earlier acknowledgments were
    genuine too, exactly the segments that lie wholly below [a] are dropped;
    if there was one, the timer restarts with the initial timeout and the
    count of retransmissions is cleared; the timer stops when nothing is left. *)
Theorem ack_received_exact random cap rto fixed s W a wnd :
  0 <= cap < 2 ^ 31 -> (forall isn, fixed = Some isn -> winv isn) ->
  rtc snd_step (sender_start random cap rto fixed) (s, W) -> zlen W < 2 ^ 31 - 4 ->
  sd_recent_abs_ackno s <= sd_next_seqno s -> 0 <= a <= sd_next_seqno s ->
  let s' := ack_received (wrap a (sd_isn s)) wnd s in
  let una := sd_next_seqno s - bytes_in_flight s in
  let '(una', rest) := drop_acked a una (sd_outstanding s) in
  sd_outstanding s' = rest /\ bytes_in_flight s' = sd_next_seqno s - una' /\
  sd_recent_abs_ackno s' = a /\
  (if (length rest =? length (sd_outstanding s))%nat
   then sd_RTO s' = sd_RTO s /\ sd_consecutive s' = sd_consecutive s /\
        (rest <> [] -> sd_timer s' = sd_timer s)
   else sd_RTO s' = sd_initial_rto s /\ sd_consecutive s' = 0 /\
        tm_elapsed_time (sd_timer s') = 0) /\
  (tm_if_run (sd_timer s') = true <-> rest <> []).
Proof.
  intros Hcap Hfix Hr HW Hrec Ha. cbv zeta.
  destruct (snd_reachable _ _ _ _ Hcap Hfix _ Hr ltac:(cbn [snd]; lia)) as [rd HI].
  cbn [fst snd] in HI. pose proof (SInv_next_bound W s rd HI) as Hnb.
  destruct HI as [Hisn _ _ _ _ (una & Hu0 & Hch & Hbif) _ _ Ht Hrc _].
  rewrite ack_received_eq.
  assert (Ea : unwrap (wrap a (sd_isn s)) (sd_isn s) (sd_recent_abs_ackno s) = a).
  { apply unwrap_wrap_near; (done || word_lia). }
  rewrite Ea. unfold bytes_in_flight at 1.
  replace (sd_next_seqno s - sd_bytes_in_flight s) with una by lia.
  rewrite (acked_count_exact s W a _ _ Hch) by (done || word_lia).
  pose proof (acked_count_le a s (sd_outstanding s)) as Hk.
  set (k := acked_count a s (sd_outstanding s)) in *. clearbody k.
  pose proof (chain_drop _ _ _ k _ _ Hch) as Hch'. pose proof (chain_le _ _ _ _ _ Hch') as Hle.
  pose proof (seq_total_nonneg (take k (sd_outstanding s))).
  assert (Ek : sd_outstanding (acked k s) = drop k (sd_outstanding s)) by by destruct k.
  cbn [bytes_in_flight sd_outstanding sd_bytes_in_flight sd_recent_abs_ackno sd_RTO sd_consecutive
    sd_timer]. unfold bytes_in_flight. cbn [sd_bytes_in_flight]. rewrite Ek, length_drop.
  split_and!; [done| |done| |].
  - destruct k; cbn [acked sd_bytes_in_flight]; [rewrite take_0; cbn; lia|].
    rewrite Hbif, u64_small; word_lia.
  - destruct k as [|k]; cbn [acked sd_RTO sd_consecutive sd_timer].
    + rewrite Nat.sub_0_r, Nat.eqb_refl, drop_0.
      split_and!; [done..|]. by destruct (sd_outstanding s).
    + destruct (sd_outstanding s) as [|x l] eqn:Eo.
      { cbn in Hk. lia. }
      rewrite (proj2 (Nat.eqb_neq _ _)) by (cbn; lia).
      split_and!; [done..|]. by destruct (drop _ _).
  - destruct (drop k (sd_outstanding s)) eqn:Ed; [done|].
    destruct k; cbn [acked]; [|done]. rewrite drop_0 in Ed. by rewrite Ht, Ed.
Qed.

Lemma ack_received_exact_witness :
  let s' := ack_received (wrap 4 (mkWrappingInt32 7)) 5 example_sender in
  sd_outstanding s' = [] /\ sd_recent_abs_ackno s' = 4.
Proof.
  cbv zeta. split; [vm_compute; reflexivity|].
  pose proof (ack_received_exact 0 100 1000 (Some (mkWrappingInt32 7)) example_sender
    [x61; x62; x63; x64] 4 5 ltac:(lia) example_isn example_sender_run ltac:(cbn; lia)
    ltac:(apply Z.leb_le; vm_compute; reflexivity)
    ltac:(split; apply Z.leb_le; vm_compute; reflexivity)) as H.
  cbv zeta in H. destruct (drop_acked _ _ _) as [una rest].
  destruct H as (_ & _ & H & _). exact H.
Defined.

(** ** Retransmission *)

(** [k] timeouts in a row, each after exactly the current timeout. *)
Fixpoint expirations (k : nat) (s : TCPSender) : res TCPSender :=
  match k with
  | O => Ok s
  | S k' => s' ← sender_tick (sd_RTO s) s; expirations k' s'
  end.

Lemma expirations_spec seg rest k : forall s,
  sd_outstanding s = seg :: rest -> sd_timer s = mkTimer 0 true -> sd_is_window_size_0 s = false ->
  0 <= sd_RTO s -> sd_RTO s * 2 ^ Z.of_nat k < 2 ^ 32 -> 0 <= sd_consecutive s ->
  sd_consecutive s + Z.of_nat k < 2 ^ 32 ->
  exists s', expirations k s = Ok s' /\
    sd_segments_out s' = sd_segments_out s ++ replicate k seg /\
    sd_RTO s' = sd_RTO s * 2 ^ Z.of_nat k /\
    sd_consecutive s' = sd_consecutive s + Z.of_nat k /\
    sd_outstanding s' = sd_outstanding s /\ sd_next_seqno s' = sd_next_seqno s /\
    sd_timer s' = mkTimer 0 true.
Proof.
  induction k as [|k IH]; intros s Eo Et Ew H0 HR Hc0 Hc.
  { exists s. rewrite Z.mul_1_r, Z.add_0_r, app_nil_r. done. }
  cbn [expirations]. rewrite Nat2Z.inj_succ, Z.pow_succ_r in * by lia.
  assert (0 < 2 ^ Z.of_nat k) by lia.
  assert (HR1 : 0 <= sd_RTO s * 2 < 2 ^ 32) by nia.
  unfold sender_tick, timer_increment. rewrite Et, Eo, Ew. cbn [tm_if_run negb tm_elapsed_time].
  rewrite Z.add_0_l, (u32_small (sd_RTO s)), Z.leb_refl by word_lia.
  rewrite (u32_small (sd_RTO s * 2)), (u32_small (sd_consecutive s + 1)) by word_lia.
  match goal with |- context [Ok ?x ≫= _] => destruct (IH x) as (s' & E & E1 & E2 & E3 & E4 & E5 & E6) end;
    cbn [sd_outstanding sd_timer sd_is_window_size_0 sd_RTO sd_consecutive timer_start]; try done;
    try lia.
  cbn in E1, E2, E3, E4, E5. exists s'. split; [exact E|].
  rewrite E1, E2, E3, E4, E5, E6. split_and!; try done; [|lia..].
  by rewrite <- app_assoc.
Qed.

(** C34.  Exponential backoff: while the window is open, [k] timeouts in a row
    resend the oldest outstanding segment [k] times and nothing else, multiply
    the timeout by 2^k and count [k] consecutive retransmissions. *)
Theorem retransmission_backoff random cap rto fixed s W seg rest k :
  0 <= cap < 2 ^ 31 -> (forall isn, fixed = Some isn -> winv isn) ->
  rtc snd_step (sender_start random cap rto fixed) (s, W) -> zlen W < 2 ^ 62 ->
  sd_outstanding s = seg :: rest -> tm_elapsed_time (sd_timer s) = 0 ->
  sd_is_window_size_0 s = false -> 0 <= sd_RTO s -> sd_RTO s * 2 ^ Z.of_nat k < 2 ^ 32 ->
  0 <= consecutive_retransmissions s -> consecutive_retransmissions s + Z.of_nat k < 2 ^ 32 ->
  exists s', expirations k s = Ok s' /\
    sd_segments_out s' = sd_segments_out s ++ replicate k seg /\
    sd_RTO s' = sd_RTO s * 2 ^ Z.of_nat k /\
    consecutive_retransmissions s' = consecutive_retransmissions s + Z.of_nat k /\
    sd_outstanding s' = sd_outstanding s.
Proof.
  intros Hcap Hfix Hr HW Eo Et Ew HR0 HR Hc0 Hc.
  destruct (snd_reachable _ _ _ _ Hcap Hfix _ Hr HW) as [rd HI].
  pose proof (si_timer _ _ _ HI) as Hrun. cbn [fst] in Hrun. rewrite Eo in Hrun.
  destruct (expirations_spec seg rest k s) as (s' & ? & ? & ? & ? & ? & _); try done.
  - destruct (sd_timer s); cbn in *. by subst.
  - by exists s'.
Qed.

Lemma retransmission_backoff_witness :
  exists s', expirations 3 example_sender = Ok s' /\ sd_RTO s' = 8000 /\
    consecutive_retransmissions s' = 3.
Proof.
  destruct (sd_outstanding example_sender) as [|seg rest] eqn:Eo; [vm_compute in Eo; discriminate|].
  destruct (retransmission_backoff 0 100 1000 (Some (mkWrappingInt32 7)) example_sender
    [x61; x62; x63; x64] seg rest 3 ltac:(lia) example_isn example_sender_run ltac:(cbn; lia) Eo
    eq_refl eq_refl ltac:(apply Z.leb_le; vm_compute; reflexivity)
    ltac:(apply Z.ltb_lt; vm_compute; reflexivity) ltac:(apply Z.leb_le; vm_compute; reflexivity)
    ltac:(apply Z.ltb_lt; vm_compute; reflexivity)) as (s' & E & _ & E2 & E3 & _).
  exists s'. split; [exact E|]. split; [exact E2|exact E3].
Defined.

(** ** Zero windows *)

Lemma fill_loop_keeps fuel : forall s s',
  fill_loop fuel s = Some s' ->
  sd_is_window_size_0 s' = sd_is_window_size_0 s /\ sd_consecutive s' = sd_consecutive s.
Proof.
  induction fuel as [|fuel IH]; intros s s'; cbn [fill_loop]; [done|].
  destruct (fill_cond s); [|by intros [= <-]].
  assert (E1 : sd_is_window_size_0 (fill_segment s).2 = sd_is_window_size_0 s) by done.
  assert (E2 : sd_consecutive (fill_segment s).2 = sd_consecutive s) by done.
  destruct (fill_segment s) as [seg s1]. cbn [snd] in E1, E2. rewrite <- E1, <- E2.
  destruct (length_in_sequence_space seg =? 0); [by intros [= <-]|]. intros H%IH. exact H.
Qed.

Lemma pop_output_capacity len st : bs_capacity (pop_output len st) = bs_capacity st.
Proof.
  unfold pop_output. generalize (Z.to_nat (s32 (Z.min len (buffer_size st)))). intros n. revert st.
  induction n as [|n IH]; intros st; [done|]. cbn [pop_loop]. by rewrite IH.
Qed.

Lemma fill_window_capacity s : bs_capacity (sd_stream (fill_window s)) = bs_capacity (sd_stream s).
Proof.
  unfold fill_window. generalize (fill_fuel s). intros fuel. revert s.
  induction fuel as [|fuel IH]; intros s; cbn [fill_loop]; [done|].
  destruct (fill_cond s); [|done].
  assert (E1 : bs_capacity (sd_stream (fill_segment s).2) = bs_capacity (sd_stream s))
    by apply pop_output_capacity.
  destruct (fill_segment s) as [seg s1]. cbn [snd] in E1.
  destruct (length_in_sequence_space seg =? 0); [done|]. specialize (IH (fill_push seg s1)).
  cbn [fill_push sd_stream] in IH. by destruct (fill_loop fuel _); cbn in *; rewrite ?IH.
Qed.

(** The FIN flag is never taken back. *)
Lemma fill_window_fin s : sd_is_fin_set s = true -> sd_is_fin_set (fill_window s) = true.
Proof.
  unfold fill_window. generalize (fill_fuel s). intros fuel. revert s.
  induction fuel as [|fuel IH]; intros s E; cbn [fill_loop]; [done|].
  destruct (fill_cond s); [|done].
  assert (E1 : sd_is_fin_set (fill_segment s).2 = true) by (cbn; by rewrite E).
  destruct (fill_segment s) as [seg s1]. cbn [snd] in E1.
  destruct (length_in_sequence_space seg =? 0); [done|].
  specialize (IH (fill_push seg s1) E1). by destruct (fill_loop fuel _).
Qed.

(** Once the peer has advertised a window of 0, the flag that suspends
    backoff is never cleared: whatever happens afterwards, the number of
    consecutive retransmissions only ever stays or drops to 0, so it never
    reaches the limit at which the connection gives up. *)
Theorem zero_window_sticky s W s' W' :
  rtc snd_step (s, W) (s', W') -> sd_is_window_size_0 s = true ->
  sd_is_window_size_0 s' = true /\
  (consecutive_retransmissions s' = consecutive_retransmissions s \/
   consecutive_retransmissions s' = 0).
Proof.
  intros Hr Hz. change s' with (s', W').1. remember (s', W') as c eqn:Ec. clear Ec. revert c Hr.
  apply (rtc_ind_r (fun c => sd_is_window_size_0 c.1 = true /\
    (sd_consecutive c.1 = sd_consecutive s \/ sd_consecutive c.1 = 0))); [by auto|].
  intros c1 c2 _ Hstep [IHz IHc].
  destruct Hstep as [x V data|x V|x V|x V|x V n wnd _ _|x V ms x' _ Et|x V|x V]; cbn [fst] in *;
    try (split; [exact IHz|exact IHc]).
  - unfold fill_window. destruct (fill_loop (fill_fuel x) x) as [y|] eqn:E; cbn; [|by split].
    apply fill_loop_keeps in E as [-> ->]. by split.
  - rewrite ack_received_eq. cbn [sd_is_window_size_0 sd_consecutive].
    split; [by case_if|]. destruct (acked_count _ _ _); cbn; [done|by right].
  - unfold sender_tick in Et. rewrite IHz in Et.
    repeat case_match; simplify_eq; by split.
Qed.

Lemma zero_window_sticky_witness :
  let s1 := ack_received (mkWrappingInt32 9) 0 example_sender in
  let s2 := ack_received (mkWrappingInt32 9) 100 s1 in
  sd_window_size s2 = 100 /\ sd_is_window_size_0 s2 = true.
Proof.
  cbv zeta. split; [vm_compute; reflexivity|].
  eapply (zero_window_sticky (ack_received (mkWrappingInt32 9) 0 example_sender) []
            (ack_received (mkWrappingInt32 9) 100 (ack_received (mkWrappingInt32 9) 0 example_sender)) []).
  - apply rtc_once, snd_ack; unfold winv; cbn; word_lia.
  - vm_compute. reflexivity.
Defined.
