(* ===== verification/EndToEnd.v ===== *)
(** * Sender and receiver over an unreliable network

    Composes [TCPSender] (src/libsponge/tcp_sender.cc) with [TCPReceiver]
    (src/libsponge/tcp_receiver.cc).  The network keeps every segment ever sent
    and may deliver any of them at any time, any number of times or never; the
    acknowledgments the sender gets are arbitrary. *)

From S2P Require Import Prelude WrappingIntegers StdMap ByteStream StreamReassembler Buffers.
From S2P Require Import TCPSegment TCPReceiver TCPSender.

(** The fields a connection fills in before it transmits a segment (ports,
    acknowledgment, window, RST) are irrelevant to the data it carries. *)
Definition same_data (seg seg' : TCPSegment) : Prop :=
  seqno (header seg') = seqno (header seg) /\ syn (header seg') = syn (header seg) /\
  fin (header seg') = fin (header seg) /\ str (payload seg') = str (payload seg) /\
  typed seg'.

Record net := mkNet {
  nt_sender : TCPSender;
  nt_written : list byte;       (* everything the writer's stream accepted *)
  nt_soup : list TCPSegment;    (* everything ever transmitted *)
  nt_receiver : TCPReceiver;
  nt_out : list byte            (* everything the reader has taken *)
}.

Inductive net_step : net -> net -> Prop :=
| net_sender s W s' W' soup r out :
    snd_step (s, W) (s', W') -> net_step (mkNet s W soup r out) (mkNet s' W' soup r out)
| net_send s W soup r out seg rest seg' :
    sd_segments_out s = seg :: rest -> same_data seg seg' ->
    net_step (mkNet s W soup r out) (mkNet (with_segments_out rest s) W (seg' :: soup) r out)
| net_deliver s W soup r out seg :
    seg ∈ soup -> net_step (mkNet s W soup r out) (mkNet s W soup (segment_received seg r) out)
| net_read s W soup r out len :
    0 <= len ->
    net_step (mkNet s W soup r out)
      (mkNet s W soup (with_stream_out (snd (read len (rcv_stream_out r))) r)
         (out ++ fst (read len (rcv_stream_out r))))
| net_error s W soup r out :
    net_step (mkNet s W soup r out) (mkNet s W soup (with_stream_out (set_error (rcv_stream_out r)) r) out).

Definition net_start (random scap rto : Z) (fixed : option WrappingInt32) (rcap : Z) : net :=
  mkNet (TCPSender_new random scap rto fixed) [] [] (TCPReceiver_new rcap) [].

(** The receiver fed from a fixed soup. *)
Inductive soup_step (soup : list TCPSegment)
  : TCPReceiver * list byte -> TCPReceiver * list byte -> Prop :=
| soup_segment r out seg : seg ∈ soup -> soup_step soup (r, out) (segment_received seg r, out)
| soup_read r out len :
    0 <= len ->
    soup_step soup (r, out) (with_stream_out (snd (read len (rcv_stream_out r))) r,
                             out ++ fst (read len (rcv_stream_out r)))
| soup_error r out : soup_step soup (r, out) (with_stream_out (set_error (rcv_stream_out r)) r, out).

Lemma soup_step_mono soup soup' c c' : soup ⊆ soup' -> soup_step soup c c' -> soup_step soup' c c'.
Proof. intros H []; constructor; auto. Qed.

Lemma soup_rtc_mono soup soup' c c' :
  soup ⊆ soup' -> rtc (soup_step soup) c c' -> rtc (soup_step soup') c c'.
Proof. intros H. apply rtc_subrel. intros x y. by apply soup_step_mono. Qed.

Lemma soup_honest isn W soup c c' :
  Forall (honest isn W) soup -> rtc (soup_step soup) c c' -> rtc (rcv_step isn W) c c'.
Proof.
  intros HF. apply rtc_subrel. intros x y [r out seg Hin|r out len Hl|r out]; constructor; auto.
  rewrite Forall_forall in HF. auto.
Qed.

Lemma same_data_emitted s W seg seg' : same_data seg seg' -> emitted s W seg -> emitted s W seg'.
Proof.
  intros (Eq & Es & Ef & Ep & Hty) [[a [Hseq Ha Hsyn Hpl Hfin _]] Hf]. split; [|by rewrite Ef].
  exists a. unfold length_in_sequence_space in *.
  split; unfold length_in_sequence_space; rewrite ?Eq, ?Es, ?Ef, ?Ep; done.
Qed.

(** Segments that were emitted stay honest while the sender runs on. *)
Lemma snd_step_emitted c c' rd seg :
  snd_step c c' -> zlen c'.2 < 2 ^ 62 -> SInv c.1 c.2 rd ->
  emitted c.1 c.2 seg -> emitted c'.1 c'.2 seg.
Proof.
  intros Hstep HW HI He.
  destruct Hstep as [s W data|s W|s W|s W|s W n wnd _ _|s W ms s' _ Et|s W|s W];
    cbn [fst snd] in *; try exact He.
  - apply (emitted_app s); [|done]. intros E. destruct (si_fin _ _ _ HI E) as [E1 _].
    unfold taken, write. by rewrite E1.
  - destruct (fill_window_spec W HW s rd HI) as (rd' & HI' & HF).
    destruct (fd_unchanged _ _ HF) as (Ei & _). destruct He as [Hh Hfin]. split; [by rewrite Ei|].
    intros E. apply fill_window_fin, Hfin, E.
  - destruct He as [Hh Hfin]. rewrite ack_received_eq. by split.
  - destruct (tick_cases W ms s rd HI) as [[_ E]|(seg' & rest & _ & _ & E)]; rewrite Et in E;
      simplify_eq E; intros ->; [done|]. by case_if.
Qed.

Record NetInv (rcap : Z) (n : net) : Prop := {
  ni_sender : exists rd, SInv (nt_sender n) (nt_written n) rd;
  ni_soup : Forall (emitted (nt_sender n) (nt_written n)) (nt_soup n);
  ni_receiver : rtc (soup_step (nt_soup n)) (TCPReceiver_new rcap, []) (nt_receiver n, nt_out n)
}.

Lemma net_step_written n n' : net_step n n' -> nt_written n `prefix_of` nt_written n'.
Proof.
  destruct 1; cbn; try done. by eapply (snd_step_prefix (_, _) (_, _)).
Qed.

Lemma net_step_inv rcap n n' :
  net_step n n' -> zlen (nt_written n') < 2 ^ 62 -> NetInv rcap n -> NetInv rcap n'.
Proof.
  intros Hstep HW [[rd HI] Hsoup Hr].
  destruct Hstep as [s W s' W' soup r out Hs|s W soup r out seg rest seg' Eo Hsame
    |s W soup r out seg Hin|s W soup r out len Hl|s W soup r out]; cbn in *;
    try (split; cbn; [by exists rd|done|eapply rtc_r; [exact Hr|by constructor]]).
  - split; cbn; [by eapply (snd_step_inv (_, _) (_, _))| |done].
    eapply Forall_impl; [exact Hsoup|]. intros x Hx.
    by apply (snd_step_emitted (s, W) (s', W') rd).
  - assert (Hseg : emitted s W seg).
    { pose proof (si_out _ _ _ HI) as HF. rewrite Eo in HF. by inversion HF. }
    split; cbn.
    + exists rd. apply with_segments_out_inv; [done|]. rewrite Eo. intros x Hx. by right.
    + constructor; [by apply (same_data_emitted s W seg)|done].
    + eapply soup_rtc_mono; [|exact Hr]. intros x Hx. by right.
Qed.

Section Run.
Context (random scap rto : Z) (fixed : option WrappingInt32) (rcap : Z)
  (Hscap : 0 <= scap < 2 ^ 31) (Hrcap : 0 <= rcap < 2 ^ 31)
  (Hfixed : forall isn, fixed = Some isn -> winv isn).

Lemma net_reachable n :
  rtc net_step (net_start random scap rto fixed rcap) n -> zlen (nt_written n) < 2 ^ 62 ->
  NetInv rcap n.
Proof.
  revert n. apply (rtc_ind_r (fun n => zlen (nt_written n) < 2 ^ 62 -> NetInv rcap n)).
  - intros _. split; cbn; [exists 0%nat; by apply SInv_new|constructor|apply rtc_refl].
  - intros n1 n2 _ Hstep IH HW. pose proof (prefix_length _ _ (net_step_written _ _ Hstep)).
    eapply net_step_inv; [exact Hstep|done|]. apply IH. lia.
Qed.

(** End-to-end safety: whatever the network loses, duplicates or
    reorders, and whatever acknowledgments are forged, the bytes the
    receiving application has read or can read are a prefix of the bytes the
    sending application wrote, for streams shorter than 2^31 - 4 bytes. *)
Theorem end_to_end_safe n :
  rtc net_step (net_start random scap rto fixed rcap) n ->
  zlen (nt_written n) < 2 ^ 31 - 4 ->
  (nt_out n ++ bs_buffer (rcv_stream_out (nt_receiver n))) `prefix_of` nt_written n.
Proof.
  intros Hr HW. destruct (net_reachable n Hr ltac:(lia)) as [[rd HI] Hsoup Hrcv].
  assert (Hh : Forall (honest (sd_isn (nt_sender n)) (nt_written n)) (nt_soup n)).
  { eapply Forall_impl; [exact Hsoup|]. by intros x [? _]. }
  pose proof (soup_honest _ _ _ _ _ Hh Hrcv) as Hrun.
  apply rcv_reachable in Hrun as [_ Hrun]; [|apply (si_isn _ _ _ HI)|done]. cbn [fst snd] in Hrun.
  destruct (reachable_inv (nt_written n) ltac:(lia) rcap _ Hrcap Hrun) as (w & HI' & Hout). cbn [fst snd] in *.
  by eapply inv_delivered.
Qed.
End Run.

(** ** A stream that ends early *)

(** The rest of the stream, at its place. *)
Definition is_rest (isn : WrappingInt32) (S w : list byte) (seg : TCPSegment) : Prop :=
  seqno (header seg) = wrap (zlen w + 1) isn /\ syn (header seg) = false /\ w ++ str (payload seg) = S.

(** The receiver and its reassembler have the same capacity. *)
Lemma rcv_caps isn S c c' : rtc (rcv_step isn S) c c' ->
  rc_capacity c.1 = sr_capacity (rc_reassembler c.1) -> rc_capacity c'.1 = sr_capacity (rc_reassembler c'.1).
Proof.
  induction 1 as [|c1 c2 c3 Hs _ IH]; [done|]. intros E. apply IH.
  destruct Hs as [r out seg _|r out len _|r out]; cbn [fst] in *; [|done..].
  destruct (segment_received_flags seg r) as (_ & _ & -> & ->). done.
Qed.

(** Once the inbound stream has ended, no segment changes it. *)
Lemma segment_frozen seg r :
  bs_input_ended (rcv_stream_out r) = true -> rcv_stream_out (segment_received seg r) = rcv_stream_out r.
Proof.
  intros E. unfold segment_received, rcv_stream_out, stream_out in *.
  destruct (if negb (rc_if_syn_set r) && _ then _ else _) as [i0 s0].
  destruct (if negb (rc_if_fin_set r) && _ then _ else _) as [f0 g0].
  destruct (_ || _); cbn [rc_reassembler]; [done|]. by apply push_frozen.
Qed.

Lemma frozen_steps soup w c c' :
  rtc (soup_step soup) c c' ->
  Represents (rcv_stream_out c.1) w (length c.2) -> c.2 = take (length c.2) w ->
  bs_input_ended (rcv_stream_out c.1) = true ->
  input_ended (rcv_stream_out c'.1) = true /\ c'.2 ++ bs_buffer (rcv_stream_out c'.1) = w.
Proof.
  induction 1 as [c|c1 c2 c3 Hs _ IH]; intros R Ho He.
  - split; [done|]. rewrite (rep_buffer _ _ _ R). rewrite Ho at 1. apply take_drop.
  - destruct Hs as [r out seg _|r out len Hl|r out]; cbn [fst snd] in *.
    + apply IH; cbn [fst snd]; rewrite ?segment_frozen; done.
    + destruct (read_represents _ _ _ _ R Ho Hl) as (R' & Ho' & _ & He' & _). apply IH; [done..|].
      change (bs_input_ended (snd (read len (rcv_stream_out r))) = true). by rewrite He'.
    + apply IH; [by apply set_error_represents|done..].
Qed.

Section Truncation.
Context (isn : WrappingInt32) (Hisn : winv isn) (S : list byte) (HS : zlen S < 2 ^ 31 - 4).
Context (r : TCPReceiver) (w out : list byte) (Hsy : Synced isn S r).
Context (HI : Inv S (rc_reassembler r) w (length out)) (Hsyn : rc_if_syn_set r = true).
Context (Hempty : rcv_unassembled_bytes r = 0) (Hopen : input_ended (rcv_stream_out r) = false).
Context (fin_seg : TCPSegment) (Hfin : fin (header fin_seg) = true) (Hpl : str (payload fin_seg) = []).
Context (Hh : honest isn S fin_seg) (Hshort : w <> S).
Abbreviation r1 := (segment_received fin_seg r).

Lemma stored_nothing : sr_unassembled (rc_reassembler r) = [].
Proof.
  unfold rcv_unassembled_bytes, unassembled_bytes in Hempty. rewrite (inv_ub _ _ _ _ HI) in Hempty.
  destruct (sr_unassembled _); [done|cbn in Hempty; lia].
Qed.

Lemma missing_bytes : sr_next_index (rc_reassembler r) = zlen w /\ zlen w < zlen S.
Proof.
  pose proof (inv_written _ _ _ _ HI) as Hw. unfold input_ended, rcv_stream_out, stream_out in Hopen. rewrite Hopen in Hw.
  split; [done|]. destruct (inv_prefix _ _ _ _ HI) as [k Ek]. destruct k as [|b k].
  - rewrite app_nil_r in Ek. congruence.
  - rewrite Ek, length_app. cbn. lia.
Qed.

(** What the segment leaves: the stream ended, its end noted behind the bytes that
    are still missing. *)
Lemma early_fin :
  rc_reassembler r1 = mkReassembler (end_input (sr_output (rc_reassembler r))) (sr_capacity (rc_reassembler r)) [] 0 true
                        (sr_next_index (rc_reassembler r)) /\
  Synced isn S r1 /\ rc_if_syn_set r1 = true /\ rc_if_fin_set r1 = true /\
  (rc_if_fin_set r = false -> rc_abs_seqno_fin r1 = zlen S + 1).
Proof.
  pose proof Hh as [a Ha]. pose proof missing_bytes as [_ Hm].
  destruct (segment_received_flags fin_seg r) as (Es & Ef & _). rewrite Hsyn in Es. cbn [orb] in Es. rewrite Hfin, orb_true_r in Ef.
  assert (Hlen : length_in_sequence_space fin_seg <> 0)
    by (unfold length_in_sequence_space; rewrite Hfin; case_if; lia).
  destruct (segment_received_at isn Hisn S HS fin_seg a r Hsy Ha) as [Hsy1 [[[?|E] _]|(Hidx & Hss & _ & E)]];
    [done|congruence|].
  split_and!; try done.
  - rewrite E, Hpl, Hfin. apply push_empty_eof; [apply stored_nothing|exact Hempty].
  - intros Hf0. by apply (fin_seqno_first isn Hisn S HS).
Qed.

(** The missing bytes come: they are acknowledged together with the FIN. *)
Lemma early_fin_ack seg :
  rc_capacity r = sr_capacity (rc_reassembler r) -> rc_if_fin_set r = false -> honest isn S seg -> is_rest isn S w seg ->
  zlen (str (payload seg)) <= window_size r ->
  rcv_ackno (segment_received seg r1) = Some (wrap (zlen S + 2) isn).
Proof.
  intros Hcap Hf0 [a Ha] (Hsq & Hs & Hw) Hfit. destruct early_fin as (Er & Hsy1 & Hs1 & Hf1 & Hfn).
  pose proof missing_bytes as [Hnext Hm]. rewrite <- Hw, length_app in Hm.
  assert (Ea : a = zlen w + 1).
  { rewrite (ha_seqno _ _ _ _ Ha) in Hsq. apply wrap_eq_iff in Hsq. pose proof (ha_range _ _ _ _ Ha).
    rewrite <- Hw, length_app in *. word_lia. }
  assert (Hlen : length_in_sequence_space seg <> 0) by (unfold length_in_sequence_space; rewrite Hs; case_if; lia).
  assert (HI1 : Inv S (rc_reassembler r1) w (length out)).
  { rewrite Er. pose proof stored_nothing as En. destruct HI. split; cbn in *; try done; try lia;
      first [by apply end_input_represents|constructor]. }
  destruct (segment_received_at isn Hisn S HS seg a _ Hsy1 Ha) as [Hsy2 [[[?|E] _]|(Hidx & Hss & _ & E)]]; [done| |].
  { destruct (segment_received_flags seg r1) as (Es & _). rewrite Hs1 in Es. cbn [orb] in Es. congruence. }
  rewrite Hs in E, Hidx. replace (a - 1) with (zlen w) in E, Hidx by lia.
  assert (Hex : excerpt_at S (Z.to_nat (zlen w)) (str (payload seg))).
  { intros j c Hj. by rewrite <- Hw, Nat2Z.id, lookup_app_r, Nat.add_comm, Nat.add_sub by lia. }
  assert (Hst : stored_in_window (rc_reassembler r1)) by (unfold stored_in_window; rewrite Er; constructor).
  assert (Hfw : fits_window (rc_reassembler r1) (str (payload seg)) (zlen w)).
  { unfold fits_window, window. rewrite Er. cbn [sr_next_index sr_capacity sr_output].
    change (buffer_size (end_input _)) with (buffer_size (sr_output (rc_reassembler r))).
    destruct (inv_window _ _ _ _ HI) as (_ & _ & _ & Ew). unfold window_size, rcv_stream_out, stream_out in Hfit.
    rewrite Hcap, Ew in Hfit. unfold window in Hfit. lia. }
  destruct (push_known S ltac:(lia) _ w _ (str (payload seg)) (zlen w) (fin (header seg)) HI1 Hst Hidx Hex Hfw)
    as (Hk & Hunk & _ & Hge). 
  assert (HI2 : exists w', Inv S (rc_reassembler (segment_received seg r1)) w' (length out)).
  { rewrite E. destruct (push_inv S ltac:(lia) _ w _ (str (payload seg)) (zlen w) (fin (header seg)) HI1 Hidx Hex)
      as (bs & HI2 & _). by eexists. }
  destruct HI2 as [w' HI2]. rewrite <- E in Hk, Hunk, Hge.
  assert (Hn : sr_next_index (rc_reassembler (segment_received seg r1)) = zlen S).
  { pose proof (inv_next _ _ _ _ HI2). pose proof (inv_nonneg _ _ _ _ HI2).
    destruct (Z.lt_ge_cases (sr_next_index (rc_reassembler (segment_received seg r1))) (zlen S)) as [Hlt|]; [|lia].
    exfalso. apply Hunk, Hk; [done|]. right. rewrite Er in Hge. cbn [sr_next_index] in Hge.
    rewrite <- Hw, length_app in Hlt. lia. }
  unfold rcv_ackno. rewrite Hss. cbn [negb]. unfold get_next_index. rewrite Hn.
  assert (Ef : rc_abs_seqno_fin (segment_received seg r1) = zlen S + 1).
  { rewrite <- (Hfn Hf0). by apply fin_seqno_fixed. }
  rewrite Ef, (u64_small (zlen S + 1)), Z.eqb_refl, u64_small by word_lia.
  rewrite (sy_isn _ _ _ Hsy2 Hss). do 2 f_equal. lia.
Qed.
End Truncation.

(** ** A run with one lost segment

    The writer writes "ab" and ends its stream; SYN and "a" travel together, are
    delivered and acknowledged by the receiver; "b" is transmitted but not
    delivered, the FIN arrives. *)

Definition tr0 : TCPSender := TCPSender_new 0 100 1000 (Some (mkWrappingInt32 7)).
Definition tr1 : TCPSender := with_stream_in (snd (write [x61; x62] (sd_stream tr0))) tr0.
Definition tr2 : TCPSender := fill_window tr1.
Definition seg_syn : TCPSegment := hd TCPSegment_default (sd_segments_out tr2).
Definition tr3 : TCPSender := with_segments_out [] tr2.
Definition rc3 : TCPReceiver := segment_received seg_syn (TCPReceiver_new 100).
Definition ack3 : WrappingInt32 := default (mkWrappingInt32 0) (rcv_ackno rc3).
Definition tr4 : TCPSender := fill_window (ack_received ack3 (window_size rc3) tr3).
Definition seg_b : TCPSegment := hd TCPSegment_default (sd_segments_out tr4).
Definition tr5 : TCPSender := with_segments_out [] tr4.
Definition tr6 : TCPSender := fill_window (with_stream_in (end_input (sd_stream tr5)) tr5).
Definition seg_fin : TCPSegment := hd TCPSegment_default (sd_segments_out tr6).
Definition tr7 : TCPSender := with_segments_out [] tr6.

(** Before the FIN is delivered. *)
Definition lossy_net : net :=
  mkNet tr7 ([] ++ taken [x61; x62] (sd_stream tr0)) [seg_fin; seg_b; seg_syn] rc3 [].

(** Transmission of the only queued segment. *)
Lemma net_send_only s W soup r out seg :
  sd_segments_out s = [seg] /\ typed seg ->
  net_step (mkNet s W soup r out) (mkNet (with_segments_out [] s) W (seg :: soup) r out).
Proof. intros [E Hty]. by apply (net_send s W soup r out seg [] seg). Qed.

(** A sender operation whose result has a name. *)
Lemma net_sender_to s W s' W' soup r out c :
  snd_step (s, W) c -> c = (s', W') -> net_step (mkNet s W soup r out) (mkNet s' W' soup r out).
Proof. intros H ->. by apply net_sender. Qed.

Lemma seg_syn_out : sd_segments_out tr2 = [seg_syn] /\ typed seg_syn.
Proof. split; [vm_compute; reflexivity|split; vm_compute; by split]. Qed.
Lemma seg_b_out : sd_segments_out tr4 = [seg_b] /\ typed seg_b.
Proof. split; [vm_compute; reflexivity|split; vm_compute; by split]. Qed.
Lemma seg_fin_out : sd_segments_out tr6 = [seg_fin] /\ typed seg_fin.
Proof. split; [vm_compute; reflexivity|split; vm_compute; by split]. Qed.

Lemma lossy_reachable : rtc net_step (net_start 0 100 1000 (Some (mkWrappingInt32 7)) 100) lossy_net.
Proof.
  pose (W := [] ++ taken [x61; x62] (sd_stream tr0)). pose (r := TCPReceiver_new 100).
  pose (s3 := ack_received ack3 (window_size rc3) tr3).
  pose (s5 := with_stream_in (end_input (sd_stream tr5)) tr5).
  apply (rtc_l _ _ (mkNet tr1 W [] r [])).
  { by eapply net_sender_to; [apply (snd_write tr0 [] [x61; x62])|]. }
  apply (rtc_l _ _ (mkNet tr2 W [] r [])).
  { eapply net_sender_to; [apply snd_fill|vm_compute; reflexivity]. }
  apply (rtc_l _ _ (mkNet tr3 W [seg_syn] r [])); [apply net_send_only, seg_syn_out|].
  apply (rtc_l _ _ (mkNet tr3 W [seg_syn] rc3 [])); [apply (net_deliver _ _ _ _ _ seg_syn); left|].
  apply (rtc_l _ _ (mkNet s3 W [seg_syn] rc3 [])).
  { eapply net_sender_to; [apply (snd_ack _ _ ack3 (window_size rc3)); vm_compute; by split|]. reflexivity. }
  apply (rtc_l _ _ (mkNet tr4 W [seg_syn] rc3 [])).
  { eapply net_sender_to; [apply snd_fill|vm_compute; reflexivity]. }
  apply (rtc_l _ _ (mkNet tr5 W [seg_b; seg_syn] rc3 [])); [apply net_send_only, seg_b_out|].
  apply (rtc_l _ _ (mkNet s5 W [seg_b; seg_syn] rc3 [])).
  { by eapply net_sender_to; [apply snd_end|]. }
  apply (rtc_l _ _ (mkNet tr6 W [seg_b; seg_syn] rc3 [])).
  { eapply net_sender_to; [apply snd_fill|vm_compute; reflexivity]. }
  apply rtc_once, net_send_only, seg_fin_out.
Qed.

Lemma end_to_end_safe_witness :
  nt_written lossy_net = [x61; x62] /\
  (nt_out lossy_net ++ bs_buffer (rcv_stream_out (nt_receiver lossy_net))) `prefix_of` nt_written lossy_net.
Proof.
  split; [vm_compute; reflexivity|].
  apply (end_to_end_safe 0 100 1000 (Some (mkWrappingInt32 7)) 100 ltac:(lia) ltac:(lia) example_isn
           lossy_net lossy_reachable).
  apply Z.ltb_lt. vm_compute. reflexivity.
Defined.

(** C35.  Silent truncation, in every run: when an empty FIN reaches a receiver that
    has received the SYN but no FIN and stores nothing, before all the bytes in
    front of it have come, the receiving stream ends, without an error, and whatever segments
    arrive and however the reader reads from then on, it gets exactly the bytes that
    were assembled by then, a proper prefix of what the sender's application wrote.
    The missing bytes, sent again, are not delivered, but they and the FIN are
    acknowledged. *)
Theorem lost_segment_truncates random scap rto fixed rcap n fin_seg :
  0 <= scap < 2 ^ 31 -> 0 <= rcap < 2 ^ 31 -> (forall isn, fixed = Some isn -> winv isn) ->
  rtc net_step (net_start random scap rto fixed rcap) n -> zlen (nt_written n) < 2 ^ 31 - 4 ->
  fin_seg ∈ nt_soup n -> fin (header fin_seg) = true -> str (payload fin_seg) = [] ->
  rc_if_syn_set (nt_receiver n) = true -> rc_if_fin_set (nt_receiver n) = false ->
  rcv_unassembled_bytes (nt_receiver n) = 0 -> input_ended (rcv_stream_out (nt_receiver n)) = false ->
  let w := nt_out n ++ bs_buffer (rcv_stream_out (nt_receiver n)) in
  w <> nt_written n ->
  let r := segment_received fin_seg (nt_receiver n) in
  w `prefix_of` nt_written n /\
  error (rcv_stream_out r) = error (rcv_stream_out (nt_receiver n)) /\
  (forall soup r' out', rtc (soup_step soup) (r, nt_out n) (r', out') ->
     input_ended (rcv_stream_out r') = true /\ out' ++ bs_buffer (rcv_stream_out r') = w) /\
  (forall seg, seg ∈ nt_soup n -> is_rest (sd_isn (nt_sender n)) (nt_written n) w seg ->
     zlen (str (payload seg)) <= window_size (nt_receiver n) ->
     rcv_ackno (segment_received seg r) = Some (wrap (zlen (nt_written n) + 2) (sd_isn (nt_sender n)))).
Proof.
  intros Hscap Hrcap Hfixed Hr HW Hin Hfin Hpl Hsyn Hf0 Hempty Hopen w Hne r.
  destruct (net_reachable _ _ _ _ _ Hscap Hfixed n Hr ltac:(lia)) as [[rd HI] Hsoup Hrcv].
  assert (Hh : Forall (honest (sd_isn (nt_sender n)) (nt_written n)) (nt_soup n))
    by (eapply Forall_impl; [exact Hsoup|]; by intros x [? _]).
  pose proof (si_isn _ _ _ HI) as Hisn.
  apply (soup_honest _ _ _ _ _ Hh) in Hrcv. pose proof (rcv_caps _ _ _ _ Hrcv eq_refl) as Hcap.
  apply rcv_reachable in Hrcv as [Hsy Hrun]; [|done..]. cbn [fst snd] in Hsy, Hrun, Hcap.
  destruct (reachable_inv (nt_written n) ltac:(lia) rcap _ Hrcap Hrun) as (w' & HIr & Hout). cbn [fst snd] in HIr, Hout.
  assert (Ew : w = w').
  { unfold w, rcv_stream_out, stream_out. rewrite (rep_buffer _ _ _ (inv_rep _ _ _ _ HIr)). rewrite Hout at 1. apply take_drop. }
  rewrite Ew in *. rewrite Forall_forall in Hh.
  destruct (early_fin _ Hisn _ HW (nt_receiver n) w' (nt_out n) Hsy HIr Hsyn Hempty Hopen fin_seg Hfin Hpl (Hh _ Hin) Hne)
    as (Er & _). split_and!.
  - apply (inv_prefix _ _ _ _ HIr).
  - unfold r, rcv_stream_out, stream_out. by rewrite Er.
  - intros soup r' out' Hsteps. apply (frozen_steps soup w' _ _ Hsteps); cbn [fst snd]; [|exact Hout|].
    + unfold r, rcv_stream_out, stream_out. rewrite Er. apply end_input_represents, (inv_rep _ _ _ _ HIr).
    + unfold r, rcv_stream_out, stream_out. by rewrite Er.
  - intros seg Hseg Hrest Hfit. eapply early_fin_ack; eauto.
Qed.

Lemma lost_segment_truncates_witness :
  let r := segment_received seg_fin (nt_receiver lossy_net) in
  nt_written lossy_net = [x61; x62] /\ input_ended (rcv_stream_out r) = true /\
  nt_out lossy_net ++ bs_buffer (rcv_stream_out r) = [x61] /\
  rcv_ackno (segment_received seg_b r) = Some (mkWrappingInt32 11).
Proof.
  assert (Hn : rcv_unassembled_bytes (nt_receiver lossy_net) = 0) by (vm_compute; reflexivity).
  destruct (lost_segment_truncates 0 100 1000 (Some (mkWrappingInt32 7)) 100 lossy_net seg_fin ltac:(lia) ltac:(lia)
    example_isn lossy_reachable ltac:(apply Z.ltb_lt; vm_compute; reflexivity) ltac:(left) ltac:(vm_compute; reflexivity)
    ltac:(vm_compute; reflexivity) ltac:(vm_compute; reflexivity) ltac:(vm_compute; reflexivity) Hn
    ltac:(vm_compute; reflexivity) ltac:(vm_compute; discriminate)) as (_ & _ & Hend & Hack).
  destruct (Hend [] _ _ (rtc_refl _ _)) as [He Hb]. cbv zeta.
  split; [vm_compute; reflexivity|]. split; [exact He|]. split; [rewrite Hb; vm_compute; reflexivity|].
  rewrite (Hack seg_b); [vm_compute; reflexivity|right; left| |vm_compute; discriminate].
  split_and!; vm_compute; reflexivity.
Defined.
