(* ===== verification/Transfer.v ===== *)
(** * A complete transfer

    Composes [TCPSender] (src/libsponge/tcp_sender.cc) and [TCPReceiver]
    (src/libsponge/tcp_receiver.cc) over a network that loses nothing and keeps
    the order, with an application that writes whenever there is room, ends its
    stream when everything is written, and reads whatever has arrived.
    [EndToEnd.v] says that nothing wrong is delivered over any network;
    [transfer_completes] says that here everything is delivered, for every stream
    and all capacities. *)

From S2P Require Import Prelude WrappingIntegers StdMap ByteStream StreamReassembler Buffers.
From S2P Require Import TCPSegment TCPReceiver TCPSender.

(** ** A round *)

Record transfer := mkTransfer {
  tf_sender : TCPSender;
  tf_pending : list byte;      (* what the writer has still to write *)
  tf_receiver : TCPReceiver;
  tf_out : list byte           (* what the reader has read *)
}.

(** The writer fills the outbound stream and ends it after the last byte. *)
Definition feed (pending : list byte) (s : TCPSender) : list byte * TCPSender :=
  let '(n, st) := write pending (sd_stream s) in
  let rest := drop (Z.to_nat n) pending in
  (rest, with_stream_in (if bool_decide (rest = []) then end_input st else st) s).

Definition deliver (segs : list TCPSegment) (r : TCPReceiver) : TCPReceiver :=
  fold_left (fun r seg => segment_received seg r) segs r.

(** The writer writes, the sender fills the window, its segments arrive in order,
    the reader reads everything, and the receiver's acknowledgment and window
    arrive at the sender. *)
Definition transfer_round (t : transfer) : transfer :=
  let '(pending, s) := feed (tf_pending t) (tf_sender t) in
  let s := fill_window s in
  let r := deliver (sd_segments_out s) (tf_receiver t) in
  let s := with_segments_out [] s in
  let '(data, o) := read (buffer_size (rcv_stream_out r)) (rcv_stream_out r) in
  let r := with_stream_out o r in
  let s := match rcv_ackno r with
           | Some n => ack_received n (Z.min (window_size r) 65535) s
           | None => s
           end in
  mkTransfer s pending r (tf_out t ++ data).

Fixpoint transfer_rounds (n : nat) (t : transfer) : transfer :=
  match n with O => t | S n' => transfer_rounds n' (transfer_round t) end.

Definition transfer_start (random scap rto : Z) (fixed : option WrappingInt32) (rcap : Z) (data : list byte)
  : transfer :=
  mkTransfer (TCPSender_new random scap rto fixed) data (TCPReceiver_new rcap) [].

(** ** The receiver, in order *)

Section InOrder.
Context (isn : WrappingInt32) (Hisn : winv isn) (S : list byte) (HS : zlen S < 2 ^ 31 - 4).
Context (rcap : Z) (Hrcap : 0 < rcap < 2 ^ 31).

(** The receiver has everything up to the number [a], holds nothing beyond it,
    and the reader has taken [out]. *)
Record Received (a : Z) (r : TCPReceiver) (out : list byte) : Prop := {
  re_good : exists hist w, Good S hist (rc_reassembler r) w out;
  re_synced : Synced isn S r;
  re_fin : FinKnown S r;
  re_caps : rc_capacity r = rcap /\ sr_capacity (rc_reassembler r) = rcap;
  re_known : forall k, 0 <= k -> known (rc_reassembler r) k -> k < sr_next_index (rc_reassembler r);
  re_next : a = (if rc_if_syn_set r then 1 else 0) + sr_next_index (rc_reassembler r)
                + (if rc_if_fin_set r then 1 else 0);
  re_syn : rc_if_syn_set r = false -> a = 0;
  re_eof : sr_if_eof (rc_reassembler r) = rc_if_fin_set r;
  re_end : rc_if_fin_set r = true -> sr_next_index (rc_reassembler r) = zlen S
}.

Lemma Received_new : Received 0 (TCPReceiver_new rcap) [].
Proof.
  split; cbn; try done.
  - destruct (good_Good S ltac:(lia) rcap [] (StreamReassembler_new rcap) []) as [w Hg];
      [lia|constructor|by exists [], w].
  - split; cbn; [done|lia].
  - intros k Hk [?|[? [=]]]. cbn in *. lia.
Qed.

(** A push at the next index that fits the window is assembled at once. *)
Lemma push_next hist r w out data eof :
  Good S hist r w out -> (forall k, 0 <= k -> known r k -> k < sr_next_index r) ->
  good_push S r data (sr_next_index r) eof ->
  let r' := push_substring data (sr_next_index r) eof r in
  sr_next_index r' = sr_next_index r + zlen data /\
  (forall k, 0 <= k -> known r' k -> k < sr_next_index r').
Proof.
  intros Hg Hk Hp. cbv zeta. pose proof (good_inv _ _ _ _ _ Hg) as HI.
  destruct Hp as (Hidx & Hex & Hfit & _). pose proof (inv_nonneg _ _ _ _ HI) as Hn0.
  destruct (push_known S ltac:(lia) r w _ data _ eof HI (good_window _ _ _ _ _ Hg) Hidx Hex Hfit)
    as (Hkn & Hf & _ & Hmono).
  set (r' := push_substring _ _ _ _) in *. clearbody r'.
  assert (Hiff : forall k, 0 <= k -> (known r' k <-> k < sr_next_index r + zlen data)).
  { intros k Hk0. rewrite Hkn by done. split; [intros [Hr|?]; [apply Hk in Hr; lia|lia]|].
    intros Hlt. destruct (Z.lt_ge_cases k (sr_next_index r)); [left; left; lia|right; lia]. }
  assert (E : sr_next_index r' = sr_next_index r + zlen data).
  { rewrite Hiff in Hf by lia. destruct (Z.lt_ge_cases (sr_next_index r + zlen data) (sr_next_index r')); [|lia].
    assert (Hbad : known r' (sr_next_index r + zlen data)) by (left; lia). rewrite Hiff in Hbad; lia. }
  split; [done|]. intros k Hk0. rewrite Hiff by done. lia.
Qed.

(** After the FIN there is nothing left to receive. *)
Lemma fin_is_last a r out seg :
  Received a r out -> honest_at isn S seg a -> 0 < length_in_sequence_space seg -> rc_if_fin_set r = false.
Proof.
  intros HR Hh Hl. destruct (rc_if_fin_set r) eqn:E; [exfalso|done].
  pose proof (re_next _ _ _ HR) as Hn. pose proof (re_end _ _ _ HR E) as He.
  destruct (fk_set _ _ (re_fin _ _ _ HR) E) as [Es _]. rewrite Es, E in Hn.
  destruct Hh as [_ Ha Hsyn Hpl Hfin _]. unfold length_in_sequence_space in *.
  destruct (syn (header seg)); [pose proof (proj1 (Hsyn ltac:(lia)) eq_refl); lia|].
  destruct (fin (header seg)); [specialize (Hfin eq_refl); lia|].
  destruct (str (payload seg)) eqn:Ep; [cbn in Hl; lia|].
  apply excerpt_length in Hpl; [|done]. cbn in Hpl. lia.
Qed.

(** The next segment is taken whole. *)
Lemma receive_next a r out seg :
  Received a r out -> honest_at isn S seg a -> 0 < length_in_sequence_space seg ->
  a + length_in_sequence_space seg - 1 <= zlen out + rcap ->
  Received (a + length_in_sequence_space seg) (segment_received seg r) out.
Proof.
  intros HR Hh Hl Hroom. pose proof (fin_is_last _ _ _ _ HR Hh Hl) as Hnf.
  destruct HR as [(hist & w & Hg) Hsy Hfk [Hc1 Hc2] Hk Hn Hs He Hend].
  destruct (segment_received_flags seg r) as (Fs & Ff & Fc & Fc').
  pose proof (good_inv _ _ _ _ _ Hg) as HI. pose proof (inv_nonneg _ _ _ _ HI) as Hn0.
  pose proof (ha_syn _ _ _ _ Hh ltac:(lia)) as Hsyn.
  assert (Hsyn' : syn (header seg) = negb (rc_if_syn_set r)).
  { destruct (rc_if_syn_set r), (syn (header seg)); try done.
    - destruct Hsyn as [Hsyn _]. specialize (Hsyn eq_refl). destruct (rc_if_fin_set r); lia.
    - destruct Hsyn as [_ Hsyn]. by specialize (Hsyn (Hs eq_refl)). }
  assert (Hset : rc_if_syn_set (segment_received seg r) = true)
    by (rewrite Fs, Hsyn'; by destruct (rc_if_syn_set r)).
  destruct (segment_received_at isn Hisn S HS seg a r Hsy Hh) as [Hsy' [[[?|?] _]|(Hi & _ & Hf & Er)]];
    [lia|congruence|].
  assert (Eidx : (if syn (header seg) then a else a - 1) = sr_next_index (rc_reassembler r)).
  { rewrite Hsyn', Hn, Hnf. destruct (rc_if_syn_set r); cbn [negb]; lia. }
  assert (Elen : a + length_in_sequence_space seg = 1 + (sr_next_index (rc_reassembler r) + zlen (str (payload seg)))
                 + (if fin (header seg) then 1 else 0)).
  { unfold length_in_sequence_space. rewrite Hsyn', Hn, Hnf. destruct (rc_if_syn_set r); cbn [negb]; lia. }
  pose proof (ha_payload _ _ _ _ Hh) as Hpl. rewrite Eidx in Hi, Hf, Er, Hpl.
  assert (Hp : good_push S (rc_reassembler r) (str (payload seg)) (sr_next_index (rc_reassembler r)) (fin (header seg))).
  { split_and!; [done..| |by intros E; split; [auto|right]].
    unfold fits_window, window. destruct (inv_window _ _ _ _ HI) as (_ & [_ ->] & _).
    rewrite (good_written _ _ _ _ _ Hg). destruct (fin (header seg)); lia. }
  destruct (push_next hist _ w out _ _ Hg Hk Hp) as [En Hk'].
  destruct (Good_push S ltac:(lia) hist _ w out _ _ _ Hg Hp) as [bs Hg'].
  destruct (push_ended (str (payload seg)) (sr_next_index (rc_reassembler r)) (fin (header seg)) (rc_reassembler r))
    as [He' _].
  rewrite <- Er in En, Hk', Hg', He'.
  split; [by eauto|done| |by rewrite Fc, Fc'|done|..].
  - apply segment_received_fin_known with (isn := isn); try done. by exists a.
  - by rewrite Hset, Ff, Hnf, En.
  - by rewrite Hset.
  - rewrite He', He, Ff, Hnf. by destruct (fin (header seg)).
  - rewrite Ff, Hnf, En. done.
Qed.

Lemma deliver_chain segs : forall a b r out,
  Received a r out -> chain isn S a segs b -> b - 1 <= zlen out + rcap -> Received b (deliver segs r) out.
Proof.
  induction segs as [|seg segs IH]; intros a b r out HR Hc Hb; cbn in Hc; [by subst|].
  destruct Hc as (Hh & Hl & Hc). pose proof (chain_le _ _ _ _ _ Hc).
  apply (IH _ _ _ _ (receive_next _ _ _ _ HR Hh Hl ltac:(lia)) Hc Hb).
Qed.

(** The reader takes everything. *)
Lemma read_everything a r out :
  Received a r out ->
  let '(data, o) := read (buffer_size (rcv_stream_out r)) (rcv_stream_out r) in
  let r' := with_stream_out o r in
  Received a r' (out ++ data) /\ window_size r' = rcap /\
  out ++ data = take (Z.to_nat (sr_next_index (rc_reassembler r))) S /\
  (rc_if_fin_set r = true -> eof o = true).
Proof.
  intros [(hist & w & Hg) Hsy Hfk [Hc1 Hc2] Hk Hn Hs He Hend].
  pose proof (good_inv _ _ _ _ _ Hg) as HI. pose proof (inv_rep _ _ _ _ HI) as R.
  pose proof (Good_read S hist _ w out (buffer_size (rcv_stream_out r)) Hg ltac:(unfold buffer_size; lia)) as Hg'.
  unfold rcv_stream_out, stream_out in *.
  assert (Ed : fst (read (buffer_size (sr_output (rc_reassembler r))) (sr_output (rc_reassembler r))) = drop (length out) w).
  { cbn [read fst]. rewrite (peek_represents _ _ _ R) by (unfold buffer_size; lia).
    apply take_ge. rewrite (rep_buffer_size _ _ _ R), length_drop. lia. }
  assert (Eo : out ++ drop (length out) w = w).
  { rewrite (good_out _ _ _ _ _ Hg) at 1. apply take_drop. }
  destruct (read _ _) as [data o]. cbn [fst snd] in *. subst data. rewrite Eo in *.
  pose proof (good_inv _ _ _ _ _ Hg') as HI'. pose proof (good_written _ _ _ _ _ Hg) as Hw.
  split_and!.
  - split; cbn; try done; [by exists hist, w|by destruct Hsy|by destruct Hfk].
  - unfold window_size. cbn. rewrite Hc1.
    destruct (inv_window _ _ _ _ HI') as (_ & [_ Hb] & _). cbn in Hb. unfold rcv_stream_out, stream_out. cbn.
    rewrite Hb, u64_small; [lia|word_lia].
  - destruct (inv_prefix _ _ _ _ HI) as [k ->]. rewrite take_app_le, take_ge by lia. done.
  - intros E. destruct (inv_window _ _ _ _ HI') as (_ & [_ Hb] & _). unfold eof, buffer_empty. cbn in Hb.
    rewrite Hb. apply andb_true_iff. split; [|apply Z.eqb_eq; lia].
    apply (good_ended _ _ _ _ _ Hg'). cbn. rewrite He, E. auto.
Qed.

(** The number acknowledged is the next one expected. *)
Lemma received_ackno a r out : Received a r out -> a <> 0 -> rcv_ackno r = Some (wrap a isn).
Proof.
  intros [(hist & w & Hg) Hsy Hfk _ _ Hn Hs _ Hend] Ha. pose proof (good_inv _ _ _ _ _ Hg) as HI.
  rewrite (rcv_ackno_eq isn S HS r Hsy Hfk (conj (inv_nonneg _ _ _ _ HI) (inv_next _ _ _ _ HI))).
  destruct (rc_if_syn_set r); [|by specialize (Hs eq_refl)]. rewrite Hn. unfold get_next_index.
  destruct (rc_if_fin_set r); cbn [andb]; [|done]. by rewrite (Hend eq_refl), Z.eqb_refl.
Qed.
End InOrder.

(** ** The writer and the sender *)

Lemma write_accepted st W rd data :
  Represents st W rd ->
  fst (write data st) = zlen (accepted st data) /\ Represents (snd (write data st)) (W ++ accepted st data) rd /\
  bs_capacity (snd (write data st)) = bs_capacity st /\ bs_input_ended (snd (write data st)) = bs_input_ended st.
Proof. intros R. by destruct (write_represents _ _ _ R data) as (? & ? & ? & ? & _). Qed.

Lemma accepted_prefix st data : accepted st data ++ drop (length (accepted st data)) data = data.
Proof.
  unfold accepted. destruct (bs_input_ended st); [done|]. rewrite length_take.
  destruct (Nat.le_ge_cases (Z.to_nat (remaining_capacity st)) (length data)).
  - rewrite Nat.min_l by done. apply take_drop.
  - by rewrite Nat.min_r, take_ge, drop_all, app_nil_r by done.
Qed.

Lemma feed_spec pending s W rd :
  SInv s W rd -> 1 <= bs_capacity (sd_stream s) -> (bs_input_ended (sd_stream s) = true -> pending = []) ->
  exists W' rest st, feed pending s = (rest, with_stream_in st s) /\ W' ++ rest = W ++ pending /\
    SInv (with_stream_in st s) W' rd /\ bs_capacity st = bs_capacity (sd_stream s) /\
    (bs_input_ended st = true <-> rest = []) /\ (bs_buffer st = [] -> rest = []).
Proof.
  intros HI Hcap Hend. pose proof (si_rep _ _ _ HI) as R.
  destruct (write_accepted _ _ _ pending R) as (En & R' & Ec & Ee).
  pose proof (accepted_prefix (sd_stream s) pending) as Hsplit.
  unfold feed. destruct (write pending (sd_stream s)) as [n st]. cbn [fst snd] in *. rewrite En, Nat2Z.id.
  set (acc := accepted (sd_stream s) pending) in *. set (rest := drop (length acc) pending) in *.
  set (st' := if bool_decide (rest = []) then end_input st else st).
  assert (R'' : Represents st' (W ++ acc) rd).
  { unfold st'. destruct (bool_decide _); [by apply end_input_represents|done]. }
  exists (W ++ acc), rest, st'. split_and!; [done|by rewrite <- app_assoc, Hsplit|..].
  - apply with_stream_inv; [done..|]. intros E. specialize (Hend E). subst pending.
    unfold acc, accepted. rewrite E. split; [done|]. unfold st', rest, acc, accepted. by rewrite E, drop_nil.
  - unfold st'. by destruct (bool_decide _).
  - unfold st'. case_bool_decide as Er; cbn; [done|]. rewrite Ee. split; [|done]. intros E. unfold rest. by rewrite (Hend E), drop_nil.
  - intros Eb. rewrite (rep_buffer _ _ _ R'') in Eb. apply (f_equal length) in Eb.
    rewrite length_drop, length_app in Eb. cbn in Eb. pose proof (rep_read _ _ _ R) as Hrd.
    destruct pending as [|c pending]; [unfold rest; apply drop_nil|]. exfalso.
    assert (Hacc : acc = []) by (apply length_zero_iff_nil; lia).
    unfold acc, accepted in Hacc. destruct (bs_input_ended (sd_stream s)); [by specialize (Hend eq_refl)|].
    rewrite (rep_remaining _ _ _ R) in Hacc. pose proof (rep_cap _ _ _ R).
    destruct (Z.to_nat _) eqn:Ez in Hacc; [lia|done].
Qed.

Lemma chain_empty isn W a segs b : chain isn W a segs b -> b <= a -> segs = [].
Proof.
  destruct segs as [|seg segs]; [done|]. intros (_ & Hl & Hc%chain_le) Hb. lia.
Qed.

Lemma drop_all_acked isn W segs : forall a b, chain isn W a segs b -> drop_acked b a segs = (b, []).
Proof.
  induction segs as [|seg segs IH]; intros a b; cbn; [by intros ->|]. intros (_ & Hl & Hc).
  pose proof (chain_le _ _ _ _ _ Hc). rewrite (proj2 (Z.leb_le _ _)) by done. by apply IH.
Qed.

(** An acknowledgment of everything. *)
Lemma ack_everything s W rd wnd :
  SInv s W rd -> zlen W < 2 ^ 31 - 4 -> 0 <= sd_recent_abs_ackno s < 2 ^ 31 -> 0 < wnd -> is_u16 wnd ->
  let s' := ack_received (wrap (sd_next_seqno s) (sd_isn s)) wnd s in
  SInv s' W rd /\ sd_outstanding s' = [] /\ sd_recent_abs_ackno s' = sd_next_seqno s /\
  sd_next_seqno s' = sd_next_seqno s /\ sd_window_size s' = wnd /\ sd_stream s' = sd_stream s /\
  sd_segments_out s' = sd_segments_out s /\ sd_isn s' = sd_isn s.
Proof.
  intros HI HW Hr Hw Hu. cbv zeta. pose proof (SInv_next_bound W s rd HI) as Hnb.
  pose proof (ack_received_inv W ltac:(lia) (wrap (sd_next_seqno s) (sd_isn s)) wnd s rd HI (winv_wrap _ _) Hu) as HI'.
  split; [done|]. clear HI'. destruct HI as [Hisn _ _ _ _ (una & Hu0 & Hch & _) _ _ _ _ _].
  rewrite ack_received_eq. cbn [sd_outstanding sd_recent_abs_ackno sd_next_seqno sd_window_size sd_stream
    sd_segments_out sd_isn].
  rewrite unwrap_wrap_near by (done || word_lia).
  rewrite (proj2 (Z.eqb_neq wnd 0)) by lia.
  pose proof (acked_count_exact s W (sd_next_seqno s) _ _ Hch Hisn Hu0 Hr ltac:(lia) ltac:(lia)) as Hk.
  rewrite (drop_all_acked _ _ _ _ _ Hch) in Hk. injection Hk as _ Hk.
  split_and!; try done. rewrite Hk. by destruct (acked_count _ _ _).
Qed.

(** ** Between rounds *)

Section Rounds.
Context (isn : WrappingInt32) (Hisn : winv isn) (S : list byte) (HS : zlen S < 2 ^ 31 - 4).
Context (rcap : Z) (Hrcap : 0 < rcap < 2 ^ 31).

(** Everything sent has been received, read and acknowledged, and the window is open. *)
Record Settled (t : transfer) : Prop := {
  se_sender : exists W rd, SInv (tf_sender t) W rd /\ W ++ tf_pending t = S;
  se_isn : sd_isn (tf_sender t) = isn;
  se_cap : 1 <= bs_capacity (sd_stream (tf_sender t));
  se_ended : bs_input_ended (sd_stream (tf_sender t)) = true -> tf_pending t = [];
  se_queues : sd_segments_out (tf_sender t) = [] /\ sd_outstanding (tf_sender t) = [];
  se_acked : sd_recent_abs_ackno (tf_sender t) = sd_next_seqno (tf_sender t);
  se_window : 1 <= sd_window_size (tf_sender t) <= rcap;
  se_received : Received isn S rcap (sd_next_seqno (tf_sender t)) (tf_receiver t) (tf_out t);
  se_read : tf_out t = take (Z.to_nat (sr_next_index (rc_reassembler (tf_receiver t)))) S;
  se_eof : rc_if_fin_set (tf_receiver t) = true -> eof (rcv_stream_out (tf_receiver t)) = true
}.

Lemma sender_start_flags s W rd : SInv s W rd -> (sd_is_syn_set s = true <-> sd_next_seqno s <> 0).
Proof.
  intros HI. rewrite (si_next _ _ _ HI). destruct (sd_is_syn_set s) eqn:E.
  - split; [|done]. intros _. case_match; lia.
  - destruct (si_syn _ _ _ HI E) as [-> ->]. done.
Qed.

(** What the sender sends in a round fits the receiver's window. *)
Lemma sent_fits t s W rd b :
  Settled t -> SInv s W rd -> sd_next_seqno s = sd_next_seqno (tf_sender t) ->
  sd_next_seqno (tf_sender t) <= b <=
    Z.max (sd_next_seqno s) (sd_next_seqno s + sd_window_size (tf_sender t) + (if sd_is_syn_set s then 0 else 1)) ->
  rc_if_fin_set (tf_receiver t) = false -> b - 1 <= zlen (tf_out t) + rcap.
Proof.
  intros HT HI En Hb Hf.
  pose proof (se_window _ HT) as Hw. pose proof (se_received _ HT) as HR.
  pose proof (re_next _ _ _ _ _ _ HR) as Hn. rewrite Hf in Hn.
  destruct (re_good _ _ _ _ _ _ HR) as (hist & w & Hg). pose proof (good_inv _ _ _ _ _ Hg) as HIr.
  pose proof (inv_nonneg _ _ _ _ HIr) as Hn0. pose proof (inv_next _ _ _ _ HIr) as Hn1.
  rewrite (se_read _ HT), length_take. pose proof (sender_start_flags _ _ _ HI) as Hsf.
  rewrite En in Hsf, Hb.
  destruct (sd_is_syn_set s).
  - destruct (rc_if_syn_set (tf_receiver t)) eqn:Es; [lia|]. pose proof (re_syn _ _ _ _ _ _ HR Es). lia.
  - destruct (Z.eq_dec (sd_next_seqno (tf_sender t)) 0) as [E0|E0]; [lia|]. by apply Hsf in E0.
Qed.

(** The sender at its last round: the FIN is out, or something more was sent. *)
Lemma fill_progress s W rd rest s' rd' :
  SInv s W rd -> SInv s' W rd' -> Filled s s' -> zlen W < 2 ^ 31 - 4 ->
  sd_recent_abs_ackno s = sd_next_seqno s -> 1 <= sd_window_size s ->
  (bs_input_ended (sd_stream s) = true <-> rest = []) -> (bs_buffer (sd_stream s) = [] -> rest = []) ->
  sd_next_seqno s < sd_next_seqno s' \/ sd_next_seqno s' = zlen (W ++ rest) + 2.
Proof.
  intros HI HI' HF HW Hrec Hwin Hend Hbuf. pose proof (SInv_next_bound W s rd HI) as Hnb.
  pose proof (si_window _ _ _ HI) as Hwu. pose proof (fd_bound _ _ HF) as Hb.
  destruct (fd_full _ _ HF) as [Hedge|[Hb' Hfin]].
  { left. unfold window_edge in Hedge. rewrite Hrec, u64_small in Hedge by word_lia. lia. }
  destruct (Z.lt_ge_cases (sd_next_seqno s) (sd_next_seqno s')) as [|Hge]; [by left|right].
  pose proof (si_next _ _ _ HI) as Hn. pose proof (si_next _ _ _ HI') as Hn'.
  rewrite (fd_syn _ _ HF) in Hn'. rewrite (fd_ended _ _ HF) in Hfin.
  pose proof (rep_read _ _ _ (si_rep _ _ _ HI)) as Hrd. pose proof (rep_read _ _ _ (si_rep _ _ _ HI')) as Hrd'.
  rewrite (rep_buffer _ _ _ (si_rep _ _ _ HI')) in Hb'. apply (f_equal length) in Hb'. rewrite length_drop in Hb'. cbn in Hb'.
  assert (Hsyn : sd_is_syn_set s = true).
  { apply (sender_start_flags _ _ _ HI). case_match; lia. }
  rewrite Hsyn in Hn.
  destruct (sd_is_fin_set s') eqn:Ef'.
  - destruct (si_fin _ _ _ HI' Ef') as [E _]. rewrite (fd_ended _ _ HF) in E. apply Hend in E as ->.
    rewrite app_nil_r. lia.
  - exfalso. assert (Er : rd = length W) by (destruct (sd_is_fin_set s) eqn:Ef; [by destruct (si_fin _ _ _ HI Ef)|lia]).
    assert (Hne : bs_input_ended (sd_stream s) = true); [|by specialize (Hfin Hne)].
    apply Hend, Hbuf. by rewrite (rep_buffer _ _ _ (si_rep _ _ _ HI)), Er, drop_all.
Qed.

(** The segments of a round are received whole. *)
Lemma round_received t s W rd rest s' rd' segs :
  Settled t -> SInv s W rd -> SInv s' W rd' -> Filled s s' -> W ++ rest = S ->
  sd_isn s = isn -> sd_next_seqno s = sd_next_seqno (tf_sender t) ->
  sd_recent_abs_ackno s = sd_next_seqno s -> sd_window_size s = sd_window_size (tf_sender t) ->
  (bs_input_ended (sd_stream s) = true -> rest = []) ->
  sd_outstanding s' = segs -> sd_next_seqno s' = sd_next_seqno s + seq_total segs ->
  Received isn S rcap (sd_next_seqno s') (deliver segs (tf_receiver t)) (tf_out t).
Proof.
  intros HT HI HI' HF EW Ei En Er Ew Hend Eout Etot.
  destruct (fd_unchanged _ _ HF) as (Ei' & _). pose proof (se_received _ HT) as HR.
  assert (HlW : zlen W <= zlen S) by (rewrite <- EW, length_app; lia).
  pose proof (SInv_next_bound W s rd HI) as Hnb. pose proof (SInv_next_bound W s' rd' HI') as Hnb'.
  assert (Hc : chain isn S (sd_next_seqno s) segs (sd_next_seqno s')).
  { destruct (si_chain _ _ _ HI') as (una & _ & Hc & _). rewrite Eout in Hc.
    pose proof (chain_total _ _ _ _ _ Hc). replace (sd_next_seqno s) with una by lia.
    rewrite <- EW. apply chain_app; [|by rewrite <- Ei, <- Ei'].
    pose proof (si_flight _ _ _ HI') as Hfl. rewrite Eout in Hfl. eapply Forall_impl; [exact Hfl|].
    intros x [_ Hx] E. destruct (si_fin _ _ _ HI' (Hx E)) as [E' _]. rewrite (fd_ended _ _ HF) in E'. auto. }
  destruct (rc_if_fin_set (tf_receiver t)) eqn:Ef.
  - assert (Hlast : sd_next_seqno s' <= sd_next_seqno s).
    { pose proof (re_next _ _ _ _ _ _ HR) as Hn. rewrite Ef, (re_end _ _ _ _ _ _ HR Ef) in Hn.
      destruct (fk_set _ _ (re_fin _ _ _ _ _ _ HR) Ef) as [Es _]. rewrite Es in Hn. lia. }
    pose proof (chain_le _ _ _ _ _ Hc). rewrite (chain_empty _ _ _ _ _ Hc Hlast).
    by replace (sd_next_seqno s') with (sd_next_seqno (tf_sender t)) by lia.
  - rewrite En in Hc. apply deliver_chain with (a := sd_next_seqno (tf_sender t)); try done.
    apply (sent_fits t s W rd); try done. pose proof (fd_bound _ _ HF) as Hb. unfold window_edge in Hb.
    pose proof (si_window _ _ _ HI). rewrite Er, u64_small in Hb by word_lia. rewrite <- En, <- Ew. lia.
Qed.

(** A round leaves everything settled and gets further, until the FIN is
    acknowledged. *)
Lemma round_settles t :
  Settled t ->
  Settled (transfer_round t) /\
  (sd_next_seqno (tf_sender t) < sd_next_seqno (tf_sender (transfer_round t)) \/
   sd_next_seqno (tf_sender (transfer_round t)) = zlen S + 2).
Proof.
  intros HT. destruct (se_sender _ HT) as (W0 & rd0 & HI0 & EW0).
  destruct (feed_spec (tf_pending t) _ W0 rd0 HI0 (se_cap _ HT) (se_ended _ HT))
    as (W & rest & st & Ef & EW & HI & Ecap & Hend & Hbuf).
  rewrite EW0 in EW. unfold transfer_round. rewrite Ef. set (s := with_stream_in st (tf_sender t)) in *.
  assert (HW : zlen W < 2 ^ 31 - 4) by (rewrite <- EW, length_app in HS; lia).
  destruct (fill_window_spec W ltac:(lia) s rd0 HI) as (rd & HI' & HF).
  pose proof (fill_window_capacity s) as Ecap'. set (s' := fill_window s) in *. clearbody s'.
  destruct (fd_segments _ _ HF) as (segs & Eo & Eout & Etot & _). destruct (se_queues _ HT) as [Q1 Q2].
  cbn [s with_stream_in sd_segments_out sd_outstanding] in Eo, Eout. rewrite Q1 in Eo. rewrite Q2 in Eout. cbn in Eo, Eout.
  destruct (fd_unchanged _ _ HF) as (Ei & _). destruct (fd_window _ _ HF) as [Erec Ewin].
  pose proof (fill_progress s W rd0 rest s' rd HI HI' HF HW (se_acked _ HT) (proj1 (se_window _ HT)) Hend Hbuf) as Hprog.
  rewrite EW in Hprog. rewrite Eo.
  pose proof (round_received t s W rd0 rest s' rd segs HT HI HI' HF EW (se_isn _ HT) eq_refl (se_acked _ HT) eq_refl
                (proj1 Hend) Eout Etot) as HR.
  set (r := deliver segs (tf_receiver t)) in *. clearbody r.
  assert (Hread := HR). apply read_everything in Hread; [|done..].
  destruct (read _ _) as [data o]. destruct Hread as (HR' & Hwin & Hout & Hended).
  set (r' := with_stream_out o r) in *.
  assert (Hack : rcv_ackno r' = Some (wrap (sd_next_seqno s') (sd_isn s'))).
  { pose proof (sender_start_flags _ _ _ HI') as Hsf. rewrite (fd_syn _ _ HF) in Hsf.
    apply received_ackno in HR' as ->; [|done|by apply Hsf]. by rewrite Ei, <- (se_isn _ HT). }
  rewrite Hack, Hwin. set (s2 := with_segments_out [] s').
  assert (HI2 : SInv s2 W rd) by (apply with_segments_out_inv; [done|]; intros x Hx; by apply elem_of_nil in Hx).
  pose proof (SInv_next_bound W s rd0 HI) as Hnb.
  destruct (ack_everything s2 W rd (Z.min rcap 65535) HI2 HW) as (HI3 & E1 & E2 & E3 & E4 & E5 & E6 & E7);
    [cbn; rewrite Erec; cbn; rewrite (se_acked _ HT); cbn in Hnb; lia|lia|word_lia|].
  change (sd_next_seqno s2) with (sd_next_seqno s') in *. change (sd_isn s2) with (sd_isn s') in *.
  set (s3 := ack_received _ _ s2) in *. clearbody s3.
  split; [|cbn; rewrite E3; exact Hprog].
  split; cbn [tf_sender tf_pending tf_receiver tf_out]; rewrite ?E1, ?E2, ?E3, ?E4, ?E5, ?E6, ?E7; try done.
  - by exists W, rd.
  - rewrite Ei. apply (se_isn _ HT).
  - cbn. rewrite Ecap'. cbn. rewrite Ecap. apply (se_cap _ HT).
  - cbn. rewrite (fd_ended _ _ HF). apply Hend.
  - lia.
Qed.

Lemma rounds_settle n : forall t,
  Settled t ->
  Settled (transfer_rounds n t) /\
  (sd_next_seqno (tf_sender t) + Z.of_nat n <= sd_next_seqno (tf_sender (transfer_rounds n t)) \/
   sd_next_seqno (tf_sender (transfer_rounds n t)) = zlen S + 2).
Proof.
  induction n as [|n IH]; intros t HT; cbn [transfer_rounds]; [split; [done|left; lia]|].
  destruct (round_settles t HT) as [HT' Hp]. destruct (IH _ HT') as [HT'' Hp']. split; [done|].
  destruct (se_sender _ HT'') as (W & rd & HI & EW). pose proof (SInv_next_bound W _ rd HI) as Hb.
  assert (zlen W <= zlen S) by (rewrite <- EW, length_app; lia).
  destruct Hp' as [?|?]; [|by right]. destruct Hp; [left; lia|right; lia].
Qed.

(** When the last number has been acknowledged, everything has arrived. *)
Lemma settled_done t :
  Settled t -> sd_next_seqno (tf_sender t) = zlen S + 2 ->
  tf_out t = S /\ tf_pending t = [] /\ eof (rcv_stream_out (tf_receiver t)) = true /\
  is_fin_acked (tf_sender t) = true /\ bytes_in_flight (tf_sender t) = 0.
Proof.
  intros HT En. destruct (se_sender _ HT) as (W & rd & HI & EW). pose proof (se_received _ HT) as HR.
  destruct (re_good _ _ _ _ _ _ HR) as (hist & w & Hg). pose proof (inv_next _ _ _ _ (good_inv _ _ _ _ _ Hg)) as Hn1.
  pose proof (re_next _ _ _ _ _ _ HR) as Hn. pose proof (si_next _ _ _ HI) as Hs.
  pose proof (rep_read _ _ _ (si_rep _ _ _ HI)) as Hrd. rewrite En in Hn, Hs.
  assert (Hp : length W = length S /\ tf_pending t = []).
  { rewrite <- EW, length_app in *. split; [|apply length_zero_iff_nil]; repeat case_match; lia. }
  destruct Hp as [Hl ->].
  assert (Hfin : rc_if_fin_set (tf_receiver t) = true /\ sd_is_fin_set (tf_sender t) = true /\
                 sr_next_index (rc_reassembler (tf_receiver t)) = zlen S).
  { repeat case_match; split_and!; (done || lia). }
  destruct Hfin as (Ef & Ef' & Ei). split_and!; [|done|by apply (se_eof _ HT)|..].
  - rewrite (se_read _ HT), Ei. apply take_ge. lia.
  - unfold is_fin_acked. rewrite Ef', (se_acked _ HT). apply Z.eqb_refl.
  - unfold bytes_in_flight. destruct (si_chain _ _ _ HI) as (una & _ & Hc & ->). rewrite (proj2 (se_queues _ HT)) in Hc. cbn in Hc. lia.
Qed.
End Rounds.

Lemma Settled_start random scap rto fixed rcap S :
  0 < scap < 2 ^ 31 -> 0 < rcap < 2 ^ 31 -> (forall isn, fixed = Some isn -> winv isn) -> zlen S < 2 ^ 31 - 4 ->
  Settled (default (mkWrappingInt32 (u32 random)) fixed) S rcap (transfer_start random scap rto fixed rcap S).
Proof.
  intros Hs Hr Hf HS. split; cbn; try done; [|lia..|].
  - exists [], 0%nat. split; [|done]. apply SInv_new; [lia|done].
  - by apply Received_new.
Qed.

(** C2.  Liveness of a transfer: over a network that loses and reorders nothing,
    for every stream shorter than 2^31 - 4 bytes, every initial sequence number
    and all capacities of at least one byte, after as many rounds as the stream
    has bytes, and two more for SYN and FIN, the reader has read exactly the
    stream and sees its end, the FIN has been acknowledged, and nothing is left
    to be written or in flight. *)
Theorem transfer_completes random scap rto fixed rcap S n :
  0 < scap < 2 ^ 31 -> 0 < rcap < 2 ^ 31 -> (forall isn, fixed = Some isn -> winv isn) ->
  zlen S < 2 ^ 31 - 4 -> (length S + 2 <= n)%nat ->
  let t := transfer_rounds n (transfer_start random scap rto fixed rcap S) in
  tf_out t = S /\ tf_pending t = [] /\ eof (rcv_stream_out (tf_receiver t)) = true /\
  is_fin_acked (tf_sender t) = true /\ bytes_in_flight (tf_sender t) = 0.
Proof.
  intros Hs Hr Hf HS Hn. cbv zeta. set (isn := default (mkWrappingInt32 (u32 random)) fixed).
  assert (Hisn : winv isn) by (unfold isn; destruct fixed; cbn; [auto|apply u32_range]).
  destruct (rounds_settle isn Hisn S HS rcap Hr n _ (Settled_start random scap rto fixed rcap S Hs Hr Hf HS)) as [HT Hp].
  apply (settled_done isn S HS rcap _ HT). destruct Hp as [Hp|]; [|done]. cbn in Hp.
  destruct (se_sender _ _ _ _ HT) as (W & rd & HI & EW). pose proof (SInv_next_bound W _ rd HI).
  assert (zlen W <= zlen S) by (rewrite <- EW, length_app; lia). lia.
Qed.

(** Five bytes through a buffer of two into a window of one, with the initial
    number just below the wrap-around. *)
Lemma transfer_completes_witness :
  let t := transfer_rounds 7 (transfer_start 0 2 1000 (Some (mkWrappingInt32 4294967295)) 1 [x61; x62; x63; x64; x65]) in
  tf_out t = [x61; x62; x63; x64; x65] /\ tf_pending t = [] /\ eof (rcv_stream_out (tf_receiver t)) = true /\
  is_fin_acked (tf_sender t) = true /\ bytes_in_flight (tf_sender t) = 0.
Proof.
  apply (transfer_completes 0 2 1000 (Some (mkWrappingInt32 4294967295)) 1 [x61; x62; x63; x64; x65] 7);
    [lia|lia| |cbn; lia|cbn; lia].
  intros isn [= <-]. unfold winv. cbn. word_lia.
Defined.
