(* ===== verification/TCPState.v ===== *)
(** * The "official" TCP states

    Models [src/libsponge/tcp_helpers/tcp_state.hh] and [.cc]: the summary
    strings of a sender and a receiver and the twelve states of RFC 793.  The
    theorems say that the summaries tell the states apart and what each sender
    summary means in terms of the sender's own variables. *)

From S2P Require Import Prelude WrappingIntegers StdMap ByteStream StreamReassembler Buffers.
From S2P Require Import TCPSegment TCPReceiver TCPSender.
From Stdlib Require Import Strings.String.

Open Scope Z_scope.

Module TCPReceiverStateSummary.
Definition ERROR : string := "error (connection was reset)".
Definition LISTEN : string := "waiting for SYN: ackno is empty".
Definition SYN_RECV : string := "SYN received (ackno exists), and input to stream hasn't ended".
Definition FIN_RECV : string := "input to stream has ended".
End TCPReceiverStateSummary.

Module TCPSenderStateSummary.
Definition ERROR : string := "error (connection was reset)".
Definition CLOSED : string := "waiting for stream to begin (no SYN sent)".
Definition SYN_SENT : string := "stream started but nothing acknowledged".
Definition SYN_ACKED : string := "stream ongoing".
Definition FIN_SENT : string := "stream finished (FIN sent) but not fully acknowledged".
Definition FIN_ACKED : string := "stream finished and fully acknowledged".
End TCPSenderStateSummary.

Module RS := TCPReceiverStateSummary.
Module SS := TCPSenderStateSummary.

Record TCPState := mkTCPState {
  ts_sender : string;       (* _sender *)
  ts_receiver : string;     (* _receiver *)
  ts_active : bool;         (* _active *)
  ts_linger : bool          (* _linger_after_streams_finish *)
}.

Inductive State :=
| LISTEN | SYN_RCVD | SYN_SENT | ESTABLISHED | CLOSE_WAIT | LAST_ACK
| FIN_WAIT_1 | FIN_WAIT_2 | CLOSING | TIME_WAIT | CLOSED | RESET.

#[export] Instance State_eq_dec : EqDecision State.
Proof. solve_decision. Defined.

(** [operator==] and [operator!=]. *)
Definition TCPState_eqb (a b : TCPState) : bool :=
  Bool.eqb (ts_active a) (ts_active b) && Bool.eqb (ts_linger a) (ts_linger b) &&
  String.eqb (ts_sender a) (ts_sender b) && String.eqb (ts_receiver a) (ts_receiver b).
Definition TCPState_neqb (a b : TCPState) : bool := negb (TCPState_eqb a b).

Definition to_string (b : bool) : string := if b then "1" else "0".

Definition TCPState_name (t : TCPState) : string :=
  ("sender=`" ++ ts_sender t ++ "`, receiver=`" ++ ts_receiver t ++ "`, active=" ++
   to_string (ts_active t) ++ ", linger_after_streams_finish=" ++ to_string (ts_linger t))%string.

(** [TCPState(State)]. *)
Definition TCPState_of (state : State) : TCPState :=
  match state with
  | LISTEN => mkTCPState SS.CLOSED RS.LISTEN true true
  | SYN_RCVD => mkTCPState SS.SYN_SENT RS.SYN_RECV true true
  | SYN_SENT => mkTCPState SS.SYN_SENT RS.LISTEN true true
  | ESTABLISHED => mkTCPState SS.SYN_ACKED RS.SYN_RECV true true
  | CLOSE_WAIT => mkTCPState SS.SYN_ACKED RS.FIN_RECV true false
  | LAST_ACK => mkTCPState SS.FIN_SENT RS.FIN_RECV true false
  | CLOSING => mkTCPState SS.FIN_SENT RS.FIN_RECV true true
  | FIN_WAIT_1 => mkTCPState SS.FIN_SENT RS.SYN_RECV true true
  | FIN_WAIT_2 => mkTCPState SS.FIN_ACKED RS.SYN_RECV true true
  | TIME_WAIT => mkTCPState SS.FIN_ACKED RS.FIN_RECV true true
  | RESET => mkTCPState SS.ERROR RS.ERROR false false
  | CLOSED => mkTCPState SS.FIN_ACKED RS.FIN_RECV false false
  end.

Definition receiver_summary (receiver : TCPReceiver) : string :=
  if error (rcv_stream_out receiver) then RS.ERROR
  else if negb (bool_decide (is_Some (rcv_ackno receiver))) then RS.LISTEN
  else if input_ended (rcv_stream_out receiver) then RS.FIN_RECV
  else RS.SYN_RECV.

Definition sender_summary (sender : TCPSender) : string :=
  if error (stream_in sender) then SS.ERROR
  else if next_seqno_absolute sender =? 0 then SS.CLOSED
  else if next_seqno_absolute sender =? bytes_in_flight sender then SS.SYN_SENT
  else if negb (eof (stream_in sender)) then SS.SYN_ACKED
  else if next_seqno_absolute sender <? u64 (bytes_written (stream_in sender) + 2) then SS.SYN_ACKED
  else if negb (bytes_in_flight sender =? 0) then SS.FIN_SENT
  else SS.FIN_ACKED.

(** [TCPState(sender, receiver, active, linger)]. *)
Definition TCPState_new (sender : TCPSender) (receiver : TCPReceiver) (active linger : bool) : TCPState :=
  mkTCPState (sender_summary sender) (receiver_summary receiver) active
    (if active then linger else false).

Lemma TCPState_eqb_eq a b : TCPState_eqb a b = true <-> a = b.
Proof.
  unfold TCPState_eqb. rewrite !andb_true_iff, !Bool.eqb_true_iff, !String.eqb_eq.
  destruct a, b; cbn. split; [intros [[[-> ->] ->] ->]; done|by intros [= -> -> -> ->]].
Qed.

(** The twelve official states have pairwise different summaries, also as
    rendered by [name]; [operator==] compares exactly the states. *)
Theorem states_distinguished st1 st2 :
  (TCPState_eqb (TCPState_of st1) (TCPState_of st2) = true <-> st1 = st2) /\
  (TCPState_name (TCPState_of st1) = TCPState_name (TCPState_of st2) <-> st1 = st2).
Proof.
  assert (E : TCPState_eqb (TCPState_of st1) (TCPState_of st2) = bool_decide (st1 = st2) /\
    String.eqb (TCPState_name (TCPState_of st1)) (TCPState_name (TCPState_of st2))
      = bool_decide (st1 = st2)) by (destruct st1, st2; vm_compute; split; reflexivity).
  destruct E as [E1 E2]. rewrite E1, <- String.eqb_eq, E2. by rewrite !bool_decide_eq_true.
Qed.

(** What a sender summary means, for any sender reached with arbitrary
    acknowledgments: whether the SYN was sent, whether anything, everything but
    the FIN, or all of it was acknowledged. *)
Theorem sender_summary_meaning random cap rto fixed s W :
  0 <= cap < 2 ^ 31 -> (forall isn, fixed = Some isn -> winv isn) ->
  rtc snd_step (sender_start random cap rto fixed) (s, W) -> zlen W < 2 ^ 62 ->
  sender_summary s =
    if error (stream_in s) then SS.ERROR
    else if negb (is_syn_sent s) then SS.CLOSED
    else if seq_total (sd_outstanding s) =? sd_next_seqno s then SS.SYN_SENT
    else if negb (is_fin_sent s) then SS.SYN_ACKED
    else match sd_outstanding s with [] => SS.FIN_ACKED | _ => SS.FIN_SENT end.
Proof.
  intros Hcap Hfix Hr HW. destruct (snd_reachable _ _ _ _ Hcap Hfix _ Hr HW) as [rd HI].
  cbn [fst snd] in HI. destruct HI as [_ R Hn Hs Hf (una & Hu & Hc & Hb) _ _ _ _ _].
  pose proof (chain_total _ _ _ _ _ Hc) as Htot. pose proof (rep_read _ _ _ R) as Hrd.
  unfold sender_summary, next_seqno_absolute, bytes_in_flight, stream_in, is_syn_sent, is_fin_sent,
    bytes_written.
  destruct (error (sd_stream s)); [done|].
  rewrite (eof_rep _ _ _ R), (rep_written _ _ _ R), Hb, <- Htot.
  destruct (sd_is_syn_set s) eqn:Es; cbn [negb].
  2: { destruct (Hs eq_refl) as [-> E]. rewrite E in Hn. cbn in Hn. by rewrite Hn. }
  rewrite (proj2 (Z.eqb_neq _ 0)) by (case_match; lia). rewrite (Z.eqb_sym (sd_next_seqno s)).
  destruct (_ =? sd_next_seqno s); [done|].
  rewrite u64_add_l, u64_small by word_lia.
  destruct (sd_is_fin_set s); cbn [negb].
  - destruct (Hf eq_refl) as [E ->]. rewrite E, Nat.eqb_refl. cbn [andb negb].
    rewrite (proj2 (Z.ltb_ge _ _)) by lia.
    destruct (sd_outstanding s) as [|seg l]; [done|]. destruct Hc as (_ & Hl & Hc).
    pose proof (seq_total_nonneg l). cbn [seq_total foldr]. fold (seq_total l).
    by rewrite (proj2 (Z.eqb_neq _ 0)) by lia.
  - rewrite (proj2 (Z.ltb_lt _ _)) by lia. by case_if.
Qed.

Lemma sender_summary_meaning_witness :
  sender_summary example_sender = SS.SYN_ACKED /\
  sender_summary example_sender =
    if error (stream_in example_sender) then SS.ERROR
    else if negb (is_syn_sent example_sender) then SS.CLOSED
    else if seq_total (sd_outstanding example_sender) =? sd_next_seqno example_sender then SS.SYN_SENT
    else if negb (is_fin_sent example_sender) then SS.SYN_ACKED
    else match sd_outstanding example_sender with [] => SS.FIN_ACKED | _ => SS.FIN_SENT end.
Proof.
  split; [vm_compute; reflexivity|].
  apply (sender_summary_meaning 0 100 1000 (Some (mkWrappingInt32 7)) example_sender
    [x61; x62; x63; x64] ltac:(lia) example_isn example_sender_run ltac:(cbn; lia)).
Defined.
