(* ===== verification/TCPConnection.v ===== *)
(** * The TCP connection

    Models [src/libsponge/tcp_connection.hh] and [.cc]: one endpoint, made of a
    [TCPSender] and a [TCPReceiver], with the rules that tie them together
    (acknowledging, resets, keep-alives, lingering and shutdown). *)

From S2P Require Import Prelude WrappingIntegers StdMap ByteStream StreamReassembler Buffers.
From S2P Require Import TCPSegment TCPReceiver TCPSender TCPState EndToEnd.

Record TCPConnection := mkConnection {
  cn_cfg : TCPConfig;                     (* _cfg *)
  cn_receiver : TCPReceiver;              (* _receiver *)
  cn_sender : TCPSender;                  (* _sender *)
  cn_segments_out : list TCPSegment;      (* _segments_out, front first *)
  cn_linger : bool;                       (* _linger_after_streams_finish *)
  cn_active : bool;                       (* _active *)
  cn_time : Z                             (* _time_since_last_segment_received *)
}.

Definition TCPConnection_new (random : Z) (cfg : TCPConfig) : TCPConnection :=
  mkConnection cfg (TCPReceiver_new (cfg_recv_capacity cfg))
    (TCPSender_new random (cfg_send_capacity cfg) (cfg_rt_timeout cfg) (cfg_fixed_isn cfg))
    [] true true 0.

(** Updates of single members. *)
Definition set_receiver (r : TCPReceiver) (c : TCPConnection) : TCPConnection :=
  mkConnection (cn_cfg c) r (cn_sender c) (cn_segments_out c) (cn_linger c) (cn_active c) (cn_time c).
Definition set_sender (s : TCPSender) (c : TCPConnection) : TCPConnection :=
  mkConnection (cn_cfg c) (cn_receiver c) s (cn_segments_out c) (cn_linger c) (cn_active c) (cn_time c).
Definition set_segments_out (q : list TCPSegment) (c : TCPConnection) : TCPConnection :=
  mkConnection (cn_cfg c) (cn_receiver c) (cn_sender c) q (cn_linger c) (cn_active c) (cn_time c).
Definition set_linger (b : bool) (c : TCPConnection) : TCPConnection :=
  mkConnection (cn_cfg c) (cn_receiver c) (cn_sender c) (cn_segments_out c) b (cn_active c) (cn_time c).
Definition set_active (b : bool) (c : TCPConnection) : TCPConnection :=
  mkConnection (cn_cfg c) (cn_receiver c) (cn_sender c) (cn_segments_out c) (cn_linger c) b (cn_time c).
Definition set_time (t : Z) (c : TCPConnection) : TCPConnection :=
  mkConnection (cn_cfg c) (cn_receiver c) (cn_sender c) (cn_segments_out c) (cn_linger c) (cn_active c) t.

Definition remaining_outbound_capacity (c : TCPConnection) : Z :=
  remaining_capacity (stream_in (cn_sender c)).
Definition cn_bytes_in_flight (c : TCPConnection) : Z := bytes_in_flight (cn_sender c).
Definition cn_unassembled_bytes (c : TCPConnection) : Z := rcv_unassembled_bytes (cn_receiver c).
Definition time_since_last_segment_received (c : TCPConnection) : Z := cn_time c.
Definition active (c : TCPConnection) : bool := cn_active c.
Definition inbound_stream (c : TCPConnection) : ByteStream := rcv_stream_out (cn_receiver c).
Definition state (c : TCPConnection) : TCPState :=
  TCPState_new (cn_sender c) (cn_receiver c) (active c) (cn_linger c).

(** A segment with the receiver's acknowledgment filled in. *)
Definition stamp (receiver : TCPReceiver) (segment : TCPSegment) : TCPSegment :=
  match rcv_ackno receiver with
  | Some a =>
      let h := header segment in
      mkTCPSegment
        (mkTCPHeader (sport h) (dport h) (seqno h) a (doff h) (urg h) true (psh h) (rst h)
           (syn h) (fin h) (u16 (Z.min (window_size receiver) 65535)) (cksum h) (uptr h))
        (payload segment)
  | None => segment
  end.

Definition set_rst (segment : TCPSegment) : TCPSegment :=
  let h := header segment in
  mkTCPSegment
    (mkTCPHeader (sport h) (dport h) (seqno h) (ackno h) (doff h) (urg h) (ack h) (psh h) true
       (syn h) (fin h) (win h) (cksum h) (uptr h))
    (payload segment).

Fixpoint send_loop (queue : list TCPSegment) (c : TCPConnection) : TCPConnection :=
  match queue with
  | [] => c
  | segment :: rest =>
      let c1 := set_segments_out (cn_segments_out c ++ [stamp (cn_receiver c) segment]) c in
      send_loop rest (set_sender (with_segments_out rest (cn_sender c1)) c1)
  end.

Definition send_segments (c : TCPConnection) : TCPConnection :=
  send_loop (sd_segments_out (cn_sender c)) c.

(** [_sender.stream_in().set_error(); _receiver.stream_out().set_error(); _active = false]. *)
Definition unclean (c : TCPConnection) : TCPConnection :=
  let c1 := set_sender (with_stream_in (set_error (stream_in (cn_sender c))) (cn_sender c)) c in
  let c2 := set_receiver (with_stream_out (set_error (rcv_stream_out (cn_receiver c1))) (cn_receiver c1)) c1 in
  set_active false c2.

(** The RST of an unclean shutdown: the front of the sender's queue after
    [send_empty_segment]. *)
Definition send_rst (c : TCPConnection) : res TCPConnection :=
  let c1 := set_sender (send_empty_segment (cn_sender c)) c in
  match sd_segments_out (cn_sender c1) with
  | [] => Undefined
  | front :: rest =>
      let rst_segment := stamp (cn_receiver c1) (set_rst front) in
      let c2 := set_sender (with_segments_out rest (cn_sender c1)) c1 in
      Ok (set_segments_out (cn_segments_out c2 ++ [rst_segment]) c2)
  end.

(** [segment_received], one definition per paragraph of its body. *)

Definition rst_phase (seg : TCPSegment) (c : TCPConnection) : TCPConnection :=
  if rst (header seg) then unclean c else c.

Definition ack_phase (seg : TCPSegment) (c : TCPConnection) : TCPConnection :=
  if ack (header seg) then
    let c := set_sender (ack_received (ackno (header seg)) (win (header seg)) (cn_sender c)) c in
    if is_syn_sent (cn_sender c) then set_sender (fill_window (cn_sender c)) c else c
  else c.

Definition reply_phase (seg : TCPSegment) (c : TCPConnection) : TCPConnection :=
  if negb (length_in_sequence_space seg =? 0) then
    if syn (header seg) && negb (is_syn_sent (cn_sender c))
    then set_sender (fill_window (cn_sender c)) c
    else set_sender (send_empty_segment (cn_sender c)) c
  else c.

Definition keepalive_phase (seg : TCPSegment) (c : TCPConnection) : TCPConnection :=
  match rcv_ackno (cn_receiver c) with
  | Some a =>
      if (length_in_sequence_space seg =? 0) && weqb (seqno (header seg)) (wsub a 1)
      then set_sender (send_empty_segment (cn_sender c)) c else c
  | None => c
  end.

Definition linger_phase (c : TCPConnection) : TCPConnection :=
  if negb (is_fin_sent (cn_sender c)) && input_ended (rcv_stream_out (cn_receiver c))
  then set_linger false c else c.

Definition conn_segment_received (seg : TCPSegment) (c : TCPConnection) : TCPConnection :=
  let c := rst_phase seg c in
  let c := set_receiver (segment_received seg (cn_receiver c)) c in
  let c := ack_phase seg c in
  let c := reply_phase seg c in
  let c := keepalive_phase seg c in
  let c := linger_phase c in
  send_segments (set_time 0 c).

Definition conn_write (data : list byte) (c : TCPConnection) : Z * TCPConnection :=
  if zlen data =? 0 then (0, c)
  else
    let '(num_written, st) := write data (stream_in (cn_sender c)) in
    let c := set_sender (with_stream_in st (cn_sender c)) c in
    let c := set_sender (fill_window (cn_sender c)) c in
    (num_written, send_segments c).

(** The condition of the second branch of [tick]. *)
Definition streams_finished (c : TCPConnection) : bool :=
  eof (stream_in (cn_sender c)) && input_ended (rcv_stream_out (cn_receiver c)) &&
  (cn_bytes_in_flight c =? 0) && (cn_unassembled_bytes c =? 0) && is_fin_acked (cn_sender c) &&
  (next_seqno_absolute (cn_sender c) =? u64 (bytes_written (stream_in (cn_sender c)) + 2)).

Definition conn_tick (ms_since_last_tick : Z) (c : TCPConnection) : res TCPConnection :=
  let c := set_time (u64 (cn_time c + ms_since_last_tick)) c in
  s ← sender_tick ms_since_last_tick (cn_sender c);
  let c := set_sender s c in
  if MAX_RETX_ATTEMPTS <? consecutive_retransmissions (cn_sender c) then send_rst (unclean c)
  else if streams_finished c then
    let c := if negb (cn_linger c) || (10 * cfg_rt_timeout (cn_cfg c) <=? cn_time c)
             then set_active false c else c in
    Ok (send_segments c)
  else Ok (send_segments c).

Definition end_input_stream (c : TCPConnection) : TCPConnection :=
  let c := set_sender (with_stream_in (end_input (stream_in (cn_sender c))) (cn_sender c)) c in
  let c := set_sender (fill_window (cn_sender c)) c in
  send_segments c.

Definition connect (c : TCPConnection) : TCPConnection :=
  if negb (active c) then c
  else send_segments (set_sender (fill_window (cn_sender c)) c).

(** The destructor, apart from the message it prints. *)
Definition TCPConnection_destroy (c : TCPConnection) : res TCPConnection :=
  if active c then send_rst (unclean c) else Ok c.

(** ** Closed forms *)

Lemma with_segments_out_twice q q' s : with_segments_out q (with_segments_out q' s) = with_segments_out q s.
Proof. done. Qed.

Lemma send_loop_eq q : forall c,
  sd_segments_out (cn_sender c) = q ->
  send_loop q c =
    mkConnection (cn_cfg c) (cn_receiver c) (with_segments_out [] (cn_sender c))
      (cn_segments_out c ++ map (stamp (cn_receiver c)) q) (cn_linger c) (cn_active c) (cn_time c).
Proof.
  induction q as [|seg q IH]; intros [cfg r s out l a t] E; cbn [send_loop cn_sender] in *.
  - rewrite app_nil_r. f_equal. destruct s; cbn in *. by subst.
  - rewrite IH by done. cbn. by rewrite <- app_assoc.
Qed.

Lemma send_segments_eq c :
  send_segments c =
    mkConnection (cn_cfg c) (cn_receiver c) (with_segments_out [] (cn_sender c))
      (cn_segments_out c ++ map (stamp (cn_receiver c)) (sd_segments_out (cn_sender c)))
      (cn_linger c) (cn_active c) (cn_time c).
Proof. by apply send_loop_eq. Qed.

(** [send_rst] always finds a segment at the front. *)
Lemma send_rst_ok c : exists front rest,
  sd_segments_out (cn_sender c) ++
    [mkTCPSegment (seg_header (next_seqno (cn_sender c)) false false) Buffer_default] = front :: rest /\
  send_rst c = Ok (mkConnection (cn_cfg c) (cn_receiver c) (with_segments_out rest (cn_sender c))
    (cn_segments_out c ++ [stamp (cn_receiver c) (set_rst front)]) (cn_linger c) (cn_active c) (cn_time c)).
Proof.
  unfold send_rst. cbn [set_sender cn_sender send_empty_segment with_segments_out sd_segments_out].
  fold (next_seqno (cn_sender c)).
  destruct (sd_segments_out (cn_sender c) ++ _) as [|front rest] eqn:E.
  - by destruct (sd_segments_out (cn_sender c)).
  - by exists front, rest.
Qed.

(** ** Errors persist *)

Lemma pop_output_error len s : bs_error (pop_output len s) = bs_error s.
Proof.
  unfold pop_output. generalize (Z.to_nat (s32 (Z.min len (buffer_size s)))). intros n.
  revert s. induction n as [|n IH]; intros s; [done|]. cbn [pop_loop]. by rewrite IH.
Qed.

Lemma write_error data s : bs_error (snd (write data s)) = bs_error s.
Proof.
  unfold write. destruct (bs_input_ended s); [done|]. cbn [snd].
  generalize (Z.to_nat (s32 (Z.min (zlen data) (remaining_capacity s)))) 0%nat. intros n.
  revert s. induction n as [|n IH]; intros s i; [done|]. cbn [write_loop]. by rewrite IH.
Qed.

Lemma push_error data index e r :
  bs_error (sr_output (push_substring data index e r)) = bs_error (sr_output r).
Proof.
  unfold push_substring. destruct (preprocess data index r) as [start sub].
  destruct (store_loop _ _ _ _ _ _) as [m ub]. destruct (assemble_loop _ _ _ _ _ _) as [[[m' d] n] ub'].
  cbn [sr_output]. destruct (_ && (ub' =? 0)); cbn [end_input bs_error]; apply write_error.
Qed.

Lemma segment_received_error seg r :
  error (rcv_stream_out (segment_received seg r)) = error (rcv_stream_out r).
Proof.
  unfold segment_received, error, rcv_stream_out, stream_out.
  destruct (if negb (rc_if_syn_set r) && _ then _ else _) as [i b].
  destruct (if negb (rc_if_fin_set r) && _ then _ else _) as [f b'].
  case_if; cbn [rc_reassembler]; [done|]. by rewrite push_error.
Qed.

Lemma fill_window_error s : error (sd_stream (fill_window s)) = error (sd_stream s).
Proof.
  unfold fill_window. generalize (fill_fuel s). intros fuel. revert s.
  induction fuel as [|fuel IH]; intros s; cbn [fill_loop]; [done|].
  destruct (fill_cond s); [|done].
  assert (E1 : error (sd_stream (fill_segment s).2) = error (sd_stream s)) by apply pop_output_error.
  destruct (fill_segment s) as [seg s1]. cbn [snd] in E1. rewrite <- E1.
  destruct (length_in_sequence_space seg =? 0); [done|].
  specialize (IH (fill_push seg s1)). cbn in IH |- *. by destruct (fill_loop fuel _).
Qed.

Lemma ack_received_error n wnd s : error (sd_stream (ack_received n wnd s)) = error (sd_stream s).
Proof. by rewrite ack_received_eq. Qed.

(** ** Resets *)

Definition dead (c : TCPConnection) : Prop :=
  error (stream_in (cn_sender c)) = true /\ error (rcv_stream_out (cn_receiver c)) = true /\
  cn_active c = false.

Lemma dead_state c : dead c -> state c = TCPState_of RESET.
Proof.
  intros (E1 & E2 & E3). unfold state, TCPState_new, sender_summary, receiver_summary, active.
  by rewrite E1, E2, E3.
Qed.

Lemma dead_unclean c : dead (unclean c).
Proof. done. Qed.

Lemma dead_set_sender s c :
  error (stream_in s) = error (stream_in (cn_sender c)) -> dead c -> dead (set_sender s c).
Proof. intros E (E1 & E2 & E3). split; [cbn; by rewrite E|done]. Qed.

Lemma dead_segment_received seg c : dead c -> dead (set_receiver (segment_received seg (cn_receiver c)) c).
Proof. intros (E1 & E2 & E3). split_and!; [done|cbn; by rewrite segment_received_error|done]. Qed.

Lemma dead_ack_phase seg c : dead c -> dead (ack_phase seg c).
Proof.
  intros H. unfold ack_phase. case_if; [|done]. cbv zeta.
  assert (H' : dead (set_sender (ack_received (ackno (header seg)) (win (header seg)) (cn_sender c)) c)).
  { apply dead_set_sender; [apply ack_received_error|done]. }
  case_if; [|done]. apply dead_set_sender; [apply fill_window_error|done].
Qed.

Lemma dead_reply_phase seg c : dead c -> dead (reply_phase seg c).
Proof.
  intros H. unfold reply_phase. repeat case_if; [|by apply dead_set_sender|done].
  apply dead_set_sender; [apply fill_window_error|done].
Qed.

Lemma dead_keepalive_phase seg c : dead c -> dead (keepalive_phase seg c).
Proof.
  intros H. unfold keepalive_phase. destruct (rcv_ackno _); [|done]. case_if; [|done].
  by apply dead_set_sender.
Qed.

Lemma dead_linger_phase c : dead c -> dead (linger_phase c).
Proof. intros H. unfold linger_phase. by case_if. Qed.

Lemma dead_send_segments c : dead c -> dead (send_segments c).
Proof. intros H. by rewrite send_segments_eq. Qed.

Lemma dead_conn_segment_received seg c : dead (rst_phase seg c) -> dead (conn_segment_received seg c).
Proof.
  intros H. unfold conn_segment_received.
  apply dead_send_segments. change (dead (linger_phase (keepalive_phase seg (reply_phase seg
    (ack_phase seg (set_receiver (segment_received seg (cn_receiver (rst_phase seg c))) (rst_phase seg c))))))).
  by apply dead_linger_phase, dead_keepalive_phase, dead_reply_phase, dead_ack_phase, dead_segment_received.
Qed.

(** A segment with the RST flag puts the connection, in any state, into
    the official state RESET; and a connection in that condition stays so
    whatever segments arrive later. *)
Theorem rst_resets seg c :
  rst (header seg) = true ->
  TCPState_eqb (state (conn_segment_received seg c)) (TCPState_of RESET) = true /\
  active (conn_segment_received seg c) = false /\
  forall seg', state (conn_segment_received seg' (conn_segment_received seg c)) = TCPState_of RESET.
Proof.
  intros H. assert (D : dead (conn_segment_received seg c)).
  { apply dead_conn_segment_received. unfold rst_phase. rewrite H. apply dead_unclean. }
  split_and!; [by apply TCPState_eqb_eq, dead_state|apply D|].
  intros seg'. apply dead_state, dead_conn_segment_received. unfold rst_phase. by case_if.
Qed.

(** ** The end of the outbound stream

    Only [end_input_stream] ends it. *)

Definition outbound_ended (c : TCPConnection) : bool := bs_input_ended (stream_in (cn_sender c)).

Lemma pop_output_ended len s : bs_input_ended (pop_output len s) = bs_input_ended s.
Proof.
  unfold pop_output. generalize (Z.to_nat (s32 (Z.min len (buffer_size s)))). intros n.
  revert s. induction n as [|n IH]; intros s; [done|]. cbn [pop_loop]. by rewrite IH.
Qed.

Lemma write_keeps_ended data s : bs_input_ended (snd (write data s)) = bs_input_ended s.
Proof.
  unfold write. destruct (bs_input_ended s) eqn:E; [done|]. cbn [snd]. rewrite <- E. clear E.
  generalize (Z.to_nat (s32 (Z.min (zlen data) (remaining_capacity s)))) 0%nat. intros n.
  revert s. induction n as [|n IH]; intros s i; [done|]. cbn [write_loop]. by rewrite IH.
Qed.

Lemma fill_window_ended s : bs_input_ended (sd_stream (fill_window s)) = bs_input_ended (sd_stream s).
Proof.
  unfold fill_window. generalize (fill_fuel s). intros fuel. revert s.
  induction fuel as [|fuel IH]; intros s; cbn [fill_loop]; [done|].
  destruct (fill_cond s); [|done].
  assert (E1 : bs_input_ended (sd_stream (fill_segment s).2) = bs_input_ended (sd_stream s))
    by apply pop_output_ended.
  destruct (fill_segment s) as [seg s1]. cbn [snd] in E1. rewrite <- E1.
  destruct (length_in_sequence_space seg =? 0); [done|].
  specialize (IH (fill_push seg s1)). cbn in IH |- *. by destruct (fill_loop fuel _).
Qed.

Lemma fill_ended c : outbound_ended (set_sender (fill_window (cn_sender c)) c) = outbound_ended c.
Proof. apply fill_window_ended. Qed.

Lemma send_segments_ended c : outbound_ended (send_segments c) = outbound_ended c.
Proof. by rewrite send_segments_eq. Qed.

Lemma segment_received_ended seg c : outbound_ended (conn_segment_received seg c) = outbound_ended c.
Proof.
  unfold conn_segment_received. rewrite send_segments_ended.
  transitivity (outbound_ended (keepalive_phase seg (reply_phase seg (ack_phase seg
    (set_receiver (segment_received seg (cn_receiver (rst_phase seg c))) (rst_phase seg c)))))).
  { unfold linger_phase. by case_if. }
  transitivity (outbound_ended (reply_phase seg (ack_phase seg
    (set_receiver (segment_received seg (cn_receiver (rst_phase seg c))) (rst_phase seg c))))).
  { unfold keepalive_phase. destruct (rcv_ackno _); [|done]. by case_if. }
  transitivity (outbound_ended (ack_phase seg
    (set_receiver (segment_received seg (cn_receiver (rst_phase seg c))) (rst_phase seg c)))).
  { unfold reply_phase. repeat case_if; [apply fill_ended|done..]. }
  transitivity (outbound_ended (rst_phase seg c)).
  { unfold ack_phase. destruct (ack (header seg)); [|done]. cbv zeta. unfold outbound_ended, stream_in.
    destruct (is_syn_sent _); cbn [set_sender cn_sender set_receiver]; rewrite ?fill_window_ended;
      by rewrite ack_received_eq. }
  unfold rst_phase. by case_if.
Qed.

Lemma conn_write_ended data c : outbound_ended (snd (conn_write data c)) = outbound_ended c.
Proof.
  unfold conn_write. case_if; [done|].
  pose proof (write_keeps_ended data (stream_in (cn_sender c))) as E.
  destruct (write data _) as [n st]. cbn [snd] in *. by rewrite send_segments_ended, fill_ended.
Qed.

Lemma connect_ended c : outbound_ended (connect c) = outbound_ended c.
Proof. unfold connect. case_if; [done|]. by rewrite send_segments_ended, fill_ended. Qed.

Lemma end_ended c : outbound_ended (end_input_stream c) = true.
Proof. unfold end_input_stream. cbv zeta. by rewrite send_segments_ended, fill_ended. Qed.

Lemma sender_tick_stream ms s s' : sender_tick ms s = Ok s' -> sd_stream s' = sd_stream s.
Proof.
  unfold sender_tick. case_if; [by intros [= <-]|]. case_if; [|by intros [= <-]].
  destruct (sd_outstanding s); [done|]. case_if; by intros [= <-].
Qed.

Lemma tick_ended ms c c' : conn_tick ms c = Ok c' -> outbound_ended c' = outbound_ended c.
Proof.
  unfold conn_tick. intros (s & Hs%sender_tick_stream & E)%res_bind_ok. cbn [set_time cn_sender] in Hs.
  assert (E0 : outbound_ended (set_sender s (set_time (u64 (cn_time c + ms)) c)) = outbound_ended c)
    by (unfold outbound_ended, stream_in; cbn; by rewrite Hs).
  destruct (MAX_RETX_ATTEMPTS <? _).
  - destruct (send_rst_ok (unclean (set_sender s (set_time (u64 (cn_time c + ms)) c))))
      as (front & rest & _ & Er). rewrite Er in E. injection E as <-. exact E0.
  - destruct (streams_finished _); injection E as <-; rewrite send_segments_ended; [by case_if|done].
Qed.

(** ** Runs of a connection *)

(** A connection with everything its application has written and read. *)
Record endpoint := mkEndpoint {
  ep_conn : TCPConnection;
  ep_written : list byte;
  ep_read : list byte
}.

(** One call by the owner; incoming segments satisfy [P]. *)
Inductive conn_step (P : TCPSegment -> Prop) : endpoint -> endpoint -> Prop :=
| cs_segment c W out seg :
    P seg -> conn_step P (mkEndpoint c W out) (mkEndpoint (conn_segment_received seg c) W out)
| cs_write c W out data :
    conn_step P (mkEndpoint c W out)
      (mkEndpoint (snd (conn_write data c)) (W ++ take (Z.to_nat (fst (conn_write data c))) data) out)
| cs_tick c W out ms c' :
    is_u64 ms -> conn_tick ms c = Ok c' -> conn_step P (mkEndpoint c W out) (mkEndpoint c' W out)
| cs_end c W out : conn_step P (mkEndpoint c W out) (mkEndpoint (end_input_stream c) W out)
| cs_connect c W out : conn_step P (mkEndpoint c W out) (mkEndpoint (connect c) W out)
| cs_read c W out len :
    0 <= len ->
    conn_step P (mkEndpoint c W out)
      (mkEndpoint (set_receiver (with_stream_out (snd (read len (inbound_stream c))) (cn_receiver c)) c)
         W (out ++ fst (read len (inbound_stream c))))
| cs_dequeue c W out :
    conn_step P (mkEndpoint c W out) (mkEndpoint (set_segments_out (tail (cn_segments_out c)) c) W out)
| cs_destroy c W out c' :
    TCPConnection_destroy c = Ok c' -> conn_step P (mkEndpoint c W out) (mkEndpoint c' W out).

(** The same in smaller steps: one operation of the sender or the receiver, or
    the transmission of one segment. *)
Inductive micro (P : TCPSegment -> Prop) : endpoint -> endpoint -> Prop :=
| mi_sender c W out s' W' :
    snd_step (cn_sender c, W) (s', W') ->
    micro P (mkEndpoint c W out) (mkEndpoint (set_sender s' c) W' out)
| mi_transmit c W out seg rest seg' :
    sd_segments_out (cn_sender c) = seg :: rest -> (typed seg -> same_data seg seg') ->
    micro P (mkEndpoint c W out)
      (mkEndpoint (set_sender (with_segments_out rest (cn_sender c))
                     (set_segments_out (cn_segments_out c ++ [seg']) c)) W out)
| mi_segment c W out seg :
    P seg ->
    micro P (mkEndpoint c W out) (mkEndpoint (set_receiver (segment_received seg (cn_receiver c)) c) W out)
| mi_error c W out :
    micro P (mkEndpoint c W out)
      (mkEndpoint (set_receiver (with_stream_out (set_error (inbound_stream c)) (cn_receiver c)) c) W out)
| mi_read c W out len :
    0 <= len ->
    micro P (mkEndpoint c W out)
      (mkEndpoint (set_receiver (with_stream_out (snd (read len (inbound_stream c))) (cn_receiver c)) c)
         W (out ++ fst (read len (inbound_stream c))))
| mi_dequeue c W out :
    micro P (mkEndpoint c W out) (mkEndpoint (set_segments_out (tail (cn_segments_out c)) c) W out)
| mi_control c W out l a t :
    micro P (mkEndpoint c W out) (mkEndpoint (set_linger l (set_active a (set_time t c))) W out).

Section Micro.
Context (P : TCPSegment -> Prop) (HP : forall seg, P seg -> typed seg).
Implicit Types (c : TCPConnection) (W out : list byte).

Abbreviation steps c W c' W' := (forall out, rtc (micro P) (mkEndpoint c W out) (mkEndpoint c' W' out)).

Lemma steps_trans c1 W1 c2 W2 c3 W3 : steps c1 W1 c2 W2 -> steps c2 W2 c3 W3 -> steps c1 W1 c3 W3.
Proof. intros H1 H2 out. etrans; [apply H1|apply H2]. Qed.

Lemma steps_refl c W : steps c W c W.
Proof. intros out. apply rtc_refl. Qed.

Lemma steps_sender c W s' W' : snd_step (cn_sender c, W) (s', W') -> steps c W (set_sender s' c) W'.
Proof. intros H out. by apply rtc_once, mi_sender. Qed.

Lemma steps_control c W l a t : steps c W (set_linger l (set_active a (set_time t c))) W.
Proof. intros out. apply rtc_once, mi_control. Qed.

Lemma steps_active a c W : steps c W (set_active a c) W.
Proof. apply (steps_control c W (cn_linger c) a (cn_time c)). Qed.
Lemma steps_linger l c W : steps c W (set_linger l c) W.
Proof. apply (steps_control c W l (cn_active c) (cn_time c)). Qed.
Lemma steps_time t c W : steps c W (set_time t c) W.
Proof. apply (steps_control c W (cn_linger c) (cn_active c) t). Qed.

Lemma typed_stamp r seg : typed seg -> typed (stamp r seg).
Proof.
  intros H. unfold stamp. destruct (rcv_ackno r) as [a|] eqn:E; [|done].
  split; cbn; [|apply u16_range]. revert E. unfold rcv_ackno.
  case_if; [done|]. intros <-%(inj Some). apply winv_wrap.
Qed.

Lemma same_data_stamp r seg : typed seg -> same_data seg (stamp r seg).
Proof.
  intros H. pose proof (typed_stamp r seg H). unfold stamp in *.
  destruct (rcv_ackno r); by split_and!.
Qed.

Lemma steps_send_loop q : forall c W,
  sd_segments_out (cn_sender c) = q -> steps c W (send_loop q c) W.
Proof.
  induction q as [|seg q IH]; intros c W E out; cbn [send_loop]; [apply rtc_refl|].
  eapply rtc_l; [apply (mi_transmit P c W out seg q (stamp (cn_receiver c) seg) E)|].
  { apply same_data_stamp. }
  by apply IH.
Qed.

Lemma steps_send_segments c W : steps c W (send_segments c) W.
Proof. by apply steps_send_loop. Qed.

Lemma steps_fill c W : steps c W (set_sender (fill_window (cn_sender c)) c) W.
Proof. apply steps_sender, snd_fill. Qed.
Lemma steps_empty c W : steps c W (set_sender (send_empty_segment (cn_sender c)) c) W.
Proof. apply steps_sender, snd_empty. Qed.

Lemma steps_unclean c W : steps c W (unclean c) W.
Proof.
  unfold unclean. eapply steps_trans; [apply steps_sender, snd_error|].
  eapply steps_trans; [|apply steps_active]. intros out. apply rtc_once, mi_error.
Qed.

Lemma steps_send_rst c W c' : send_rst c = Ok c' -> steps c W c' W.
Proof.
  unfold send_rst. set (c1 := set_sender (send_empty_segment (cn_sender c)) c).
  destruct (sd_segments_out (cn_sender c1)) as [|front rest] eqn:E; [done|].
  intros [= <-]. eapply steps_trans; [apply steps_empty|]. intros out. apply rtc_once.
  apply (mi_transmit P c1 W out front rest (stamp (cn_receiver c1) (set_rst front)) E).
  intros H. apply (same_data_stamp (cn_receiver c1) (set_rst front)). done.
Qed.

Lemma steps_ack_phase seg c W : typed seg -> steps c W (ack_phase seg c) W.
Proof.
  intros [H1 H2]. unfold ack_phase. case_if; [|apply steps_refl]. cbv zeta.
  assert (H : steps c W (set_sender (ack_received (ackno (header seg)) (win (header seg)) (cn_sender c)) c) W)
    by (by apply steps_sender, snd_ack).
  case_if; [|exact H]. eapply steps_trans; [exact H|apply steps_fill].
Qed.

Lemma steps_segment seg c W : P seg -> steps c W (conn_segment_received seg c) W.
Proof.
  intros Hseg. unfold conn_segment_received.
  eapply steps_trans; [|apply steps_send_segments]. eapply steps_trans; [|apply steps_time].
  eapply (steps_trans _ _ (rst_phase seg c)).
  { unfold rst_phase. case_if; [apply steps_unclean|apply steps_refl]. }
  eapply steps_trans; [intros out; by apply rtc_once, (mi_segment P _ _ _ seg)|].
  eapply steps_trans; [apply (steps_ack_phase seg); auto|].
  set (c2 := ack_phase seg _). clearbody c2.
  apply (steps_trans _ _ (reply_phase seg c2) W).
  { unfold reply_phase. repeat case_if; [apply steps_fill|apply steps_empty|apply steps_refl]. }
  set (c3 := reply_phase seg c2). clearbody c3.
  apply (steps_trans _ _ (keepalive_phase seg c3) W).
  { unfold keepalive_phase. destruct (rcv_ackno _); [|apply steps_refl].
    case_if; [apply steps_empty|apply steps_refl]. }
  unfold linger_phase. case_if; [apply steps_linger|apply steps_refl].
Qed.

Lemma steps_write data c W :
  steps c W (snd (conn_write data c)) (W ++ take (Z.to_nat (fst (conn_write data c))) data).
Proof.
  unfold conn_write. destruct (zlen data =? 0) eqn:E; cbn [fst snd].
  { rewrite app_nil_r. apply steps_refl. }
  pose proof (snd_write (cn_sender c) W data) as Hw. unfold taken, stream_in in *.
  destruct (write data (sd_stream (cn_sender c))) as [n st]. cbn [fst snd] in *.
  eapply steps_trans; [apply steps_sender, Hw|].
  eapply steps_trans; [apply steps_fill|apply steps_send_segments].
Qed.

Lemma steps_tick ms c W c' : is_u64 ms -> conn_tick ms c = Ok c' -> steps c W c' W.
Proof.
  intros Hms. unfold conn_tick. intros (s & Et & H)%res_bind_ok.
  eapply steps_trans; [apply (steps_time (u64 (cn_time c + ms)))|].
  eapply steps_trans; [eapply steps_sender, snd_tick; [exact Hms|exact Et]|].
  set (c2 := set_sender s _) in *. clearbody c2. revert H.
  destruct (MAX_RETX_ATTEMPTS <? _).
  { intros H. eapply steps_trans; [apply steps_unclean|by apply steps_send_rst]. }
  destruct (streams_finished c2); intros [= <-]; [|apply steps_send_segments].
  eapply steps_trans; [|apply steps_send_segments].
  case_if; [apply steps_active|apply steps_refl].
Qed.

(** Every call decomposes into small steps. *)
Lemma conn_step_micro e e' : conn_step P e e' -> rtc (micro P) e e'.
Proof.
  destruct 1 as [c W out seg Hseg|c W out data|c W out ms c' Hms Ht|c W out|c W out|c W out len Hl
    |c W out|c W out c' Hd].
  - by apply steps_segment.
  - apply steps_write.
  - by eapply steps_tick.
  - unfold end_input_stream. eapply steps_trans; [apply steps_sender, snd_end|].
    eapply steps_trans; [apply steps_fill|apply steps_send_segments].
  - unfold connect. case_if; [apply rtc_refl|].
    eapply steps_trans; [apply steps_fill|apply steps_send_segments].
  - by apply rtc_once, mi_read.
  - apply rtc_once, mi_dequeue.
  - unfold TCPConnection_destroy in Hd. destruct (active c); [|simplify_eq; apply rtc_refl].
    eapply steps_trans; [apply steps_unclean|by apply steps_send_rst].
Qed.

Lemma conn_steps_micro e e' : rtc (conn_step P) e e' -> rtc (micro P) e e'.
Proof.
  induction 1 as [|e1 e2 e3 H1 _ IH]; [apply rtc_refl|].
  etrans; [by apply conn_step_micro|done].
Qed.
End Micro.

(** What the connection fills in. *)
Lemma stamp_acks r a seg : rcv_ackno r = Some a ->
  ack (header (stamp r seg)) = true /\ ackno (header (stamp r seg)) = a /\
  win (header (stamp r seg)) = Z.min (window_size r) 65535.
Proof.
  intros Ha. unfold stamp. rewrite Ha. cbn [header ack ackno win]. split_and!; [done..|]. apply u16_small. unfold window_size.
  pose proof (u64_range (rc_capacity r - buffer_size (rcv_stream_out r))). word_lia.
Qed.

(** ** The invariant of a connection *)

Record CInv (e : endpoint) : Prop := {
  ci_sender : exists rd, SInv (cn_sender (ep_conn e)) (ep_written e) rd;
  ci_out : Forall (emitted (cn_sender (ep_conn e)) (ep_written e)) (cn_segments_out (ep_conn e))
}.

Lemma micro_written P e e' : micro P e e' -> ep_written e `prefix_of` ep_written e'.
Proof.
  destruct 1; cbn; try done. by eapply (snd_step_prefix (_, _) (_, _)).
Qed.

Lemma micros_written P e e' : rtc (micro P) e e' -> ep_written e `prefix_of` ep_written e'.
Proof.
  induction 1 as [|e1 e2 e3 H1 _ IH]; [done|]. etrans; [by eapply micro_written|done].
Qed.

(** Small steps keep the invariant, and what was emitted stays emitted. *)
Lemma micro_inv P e e' :
  micro P e e' -> zlen (ep_written e') < 2 ^ 62 -> CInv e ->
  CInv e' /\ (forall seg, emitted (cn_sender (ep_conn e)) (ep_written e) seg ->
                emitted (cn_sender (ep_conn e')) (ep_written e') seg).
Proof.
  intros Hstep HW [[rd HI] Ho].
  destruct Hstep as [c W out s' W' Hs|c W out seg rest seg' Eo Hsame|c W out seg Hseg|c W out
    |c W out len Hl|c W out|c W out l a t]; cbn in *;
    try (split; [by split; [exists rd|]|done]).
  - assert (Hem : forall seg, emitted (cn_sender c) W seg -> emitted s' W' seg).
    { intros seg. by apply (snd_step_emitted (cn_sender c, W) (s', W') rd). }
    split; [split; cbn|done].
    + by eapply (snd_step_inv (cn_sender c, W) (s', W')).
    + eapply Forall_impl; [exact Ho|done].
  - assert (Hseg : emitted (cn_sender c) W seg).
    { pose proof (si_out _ _ _ HI) as HF. rewrite Eo in HF. by inversion HF. }
    split; [split; cbn|done].
    + exists rd. apply with_segments_out_inv; [done|]. rewrite Eo. intros x Hx. by right.
    + apply Forall_app_2; [exact Ho|]. constructor; [|constructor].
      apply (same_data_emitted (cn_sender c) W seg); [|exact Hseg]. apply Hsame.
      destruct Hseg as [[a Ha] _]. apply (ha_typed _ _ _ _ Ha).
  - split; [|done]. split; [by exists rd|]. cbn.
    destruct (cn_segments_out c); [done|]. by inversion Ho.
Qed.

Lemma micros_inv P e e' :
  rtc (micro P) e e' -> zlen (ep_written e') < 2 ^ 62 -> CInv e ->
  CInv e' /\ (forall seg, emitted (cn_sender (ep_conn e)) (ep_written e) seg ->
                emitted (cn_sender (ep_conn e')) (ep_written e') seg).
Proof.
  induction 1 as [|e1 e2 e3 H1 H2 IH]; intros HW HI; [done|].
  pose proof (prefix_length _ _ (micros_written _ _ _ H2)).
  destruct (micro_inv P e1 e2 H1 ltac:(lia) HI) as [HI2 He2].
  destruct (IH HW HI2) as [HI3 He3]. split; [done|auto].
Qed.

Definition endpoint_new (random : Z) (cfg : TCPConfig) : endpoint :=
  mkEndpoint (TCPConnection_new random cfg) [] [].

(** Configurations whose numbers fit their types; capacities below 2^31. *)
Record cfg_ok (cfg : TCPConfig) : Prop := {
  ok_recv : 0 <= cfg_recv_capacity cfg < 2 ^ 31;
  ok_send : 0 <= cfg_send_capacity cfg < 2 ^ 31;
  ok_isn : forall isn, cfg_fixed_isn cfg = Some isn -> winv isn
}.

Lemma CInv_new random cfg : cfg_ok cfg -> CInv (endpoint_new random cfg).
Proof.
  intros [_ Hs Hi]. split; [|constructor]. exists 0%nat. by apply SInv_new.
Qed.

Lemma conn_reachable random cfg e :
  cfg_ok cfg -> rtc (conn_step typed) (endpoint_new random cfg) e -> zlen (ep_written e) < 2 ^ 62 ->
  CInv e.
Proof.
  intros Hcfg Hr HW. eapply (micros_inv typed); [|exact HW|by apply CInv_new].
  by apply conn_steps_micro.
Qed.

Lemma send_rst_is_ok c : is_ok (send_rst c) = true.
Proof. by destruct (send_rst_ok c) as (front & rest & _ & ->). Qed.

Lemma tick_is_ok e ms : CInv e -> is_ok (conn_tick ms (ep_conn e)) = true.
Proof.
  intros [[rd HI] _]. unfold conn_tick. cbn [set_time cn_sender].
  destruct (tick_inv _ ms _ rd HI) as (s' & -> & _). cbn [mbind res_bind].
  destruct (MAX_RETX_ATTEMPTS <? _); [apply send_rst_is_ok|]. by case_if.
Qed.

(** A write that fits is accepted whole. *)
Lemma conn_write_all c W out data :
  CInv (mkEndpoint c W out) -> outbound_ended c = false -> zlen data <= remaining_outbound_capacity c ->
  fst (conn_write data c) = zlen data.
Proof.
  intros [[rd HI] _] He Hl. unfold conn_write. destruct (zlen data =? 0) eqn:E; bool_prop; [done|].
  cbn [ep_conn ep_written] in HI. destruct (write_represents _ _ _ (si_rep _ _ _ HI) data) as [Hw _].
  unfold stream_in. destruct (write data (sd_stream (cn_sender c))) as [n st]. cbn [fst] in *.
  rewrite Hw. unfold accepted, outbound_ended, stream_in, remaining_outbound_capacity in *. rewrite He.
  unfold stream_in in Hl. by rewrite take_ge by lia.
Qed.

(** C24.  Whatever a peer sends, no call on a connection has undefined
    behaviour: [tick] and the destructor always return, and all transmitted
    segments carry the application's bytes at their sequence numbers. *)
Theorem connection_total random cfg e ms :
  cfg_ok cfg -> rtc (conn_step typed) (endpoint_new random cfg) e -> zlen (ep_written e) < 2 ^ 62 ->
  is_ok (conn_tick ms (ep_conn e)) = true /\ is_ok (TCPConnection_destroy (ep_conn e)) = true /\
  Forall (honest (sd_isn (cn_sender (ep_conn e))) (ep_written e)) (cn_segments_out (ep_conn e)).
Proof.
  intros Hcfg Hr HW. pose proof (conn_reachable _ _ _ Hcfg Hr HW) as HI. split_and!.
  - by apply tick_is_ok.
  - unfold TCPConnection_destroy. destruct (active _); [apply send_rst_is_ok|done].
  - eapply Forall_impl; [apply (ci_out _ HI)|]. by intros x [? _].
Qed.

(** A server that has received a client's SYN. *)
Definition example_cfg : TCPConfig := mkTCPConfig 1000 100 100 (Some (mkWrappingInt32 7)).
Definition example_conn : TCPConnection :=
  conn_segment_received (example_seg 40 true false []) (TCPConnection_new 0 example_cfg).

Lemma example_cfg_ok : cfg_ok example_cfg.
Proof. split; cbn; [lia|lia|apply example_isn]. Qed.

Lemma example_conn_run :
  rtc (conn_step typed) (endpoint_new 0 example_cfg) (mkEndpoint example_conn [] []).
Proof. apply rtc_once, cs_segment. by split. Qed.

Lemma connection_total_witness :
  is_ok (conn_tick 2000 example_conn) = true /\
  Forall (honest (mkWrappingInt32 7) []) (cn_segments_out example_conn) /\
  length (cn_segments_out example_conn) = 1%nat.
Proof.
  destruct (connection_total 0 example_cfg (mkEndpoint example_conn [] []) 2000
    example_cfg_ok example_conn_run ltac:(cbn; lia)) as (H1 & _ & H2).
  split; [exact H1|]. split; [exact H2|]. vm_compute. reflexivity.
Defined.

Lemma rst_resets_witness :
  rst (header (set_rst (example_seg 0 false false []))) = true /\
  active (conn_segment_received (set_rst (example_seg 0 false false [])) example_conn) = false.
Proof.
  split; [reflexivity|].
  apply (rst_resets (set_rst (example_seg 0 false false [])) example_conn eq_refl).
Defined.

(** ** Shutdown *)

Lemma sender_tick_keeps ms s s' : sender_tick ms s = Ok s' ->
  sd_stream s' = sd_stream s /\ sd_next_seqno s' = sd_next_seqno s /\ sd_outstanding s' = sd_outstanding s /\
  sd_bytes_in_flight s' = sd_bytes_in_flight s /\ sd_is_fin_set s' = sd_is_fin_set s /\
  sd_recent_abs_ackno s' = sd_recent_abs_ackno s.
Proof.
  unfold sender_tick. case_if; [by intros [= <-]|]. case_if; [|by intros [= <-]].
  destruct (sd_outstanding s); [done|]. case_if; by intros [= <-].
Qed.

(** Nothing is in flight exactly when no segment is outstanding. *)
Lemma in_flight_nil s W rd : SInv s W rd -> sd_bytes_in_flight s = 0 <-> sd_outstanding s = [].
Proof.
  intros HI. destruct (si_chain _ _ _ HI) as (una & Hu & Hc & ->). destruct (sd_outstanding s) as [|seg segs].
  - cbn in Hc. split; [done|lia].
  - destruct Hc as (_ & Hl & Hc%chain_le). split; [lia|done].
Qed.

(** The outbound stream is finished: the SYN, every byte written and the FIN are
    sent, no segment waits for its acknowledgment, and the last acknowledgment
    that came is that of the FIN. *)
Definition all_acknowledged (W : list byte) (s : TCPSender) : Prop :=
  next_seqno_absolute s = zlen W + 2 /\ sd_outstanding s = [] /\ sd_recent_abs_ackno s = zlen W + 2.

(** The inbound stream is finished: the reassembler has ended it and stores nothing. *)
Definition all_assembled (r : TCPReceiver) : Prop :=
  input_ended (rcv_stream_out r) = true /\ rcv_unassembled_bytes r = 0.

Lemma streams_finished_iff c W rd :
  SInv (cn_sender c) W rd -> zlen W < 2 ^ 62 ->
  streams_finished c = true <-> all_acknowledged W (cn_sender c) /\ all_assembled (cn_receiver c).
Proof.
  intros HI HW. pose proof (si_next _ _ _ HI) as Hn. pose proof (rep_read _ _ _ (si_rep _ _ _ HI)) as Hr.
  pose proof (in_flight_nil _ _ _ HI) as Hf.
  unfold streams_finished, all_acknowledged, all_assembled, is_fin_acked, next_seqno_absolute, cn_bytes_in_flight,
    cn_unassembled_bytes, bytes_in_flight, bytes_written, stream_in.
  rewrite !andb_true_iff, !Z.eqb_eq, (eof_rep W _ _ (si_rep _ _ _ HI)), andb_true_iff, Nat.eqb_eq,
    (rep_written _ _ _ (si_rep _ _ _ HI)), (u64_small (zlen W)), (u64_small (_ + 2)), Hf by word_lia.
  split.
  - intros (((((_ & ?) & ?) & ?) & _ & ?) & ?). split_and!; try done. congruence.
  - intros [(En & Eo & Ea) [? ?]].
    assert (Hfin : sd_is_fin_set (cn_sender c) = true /\ rd = length W)
      by (destruct (sd_is_syn_set (cn_sender c)), (sd_is_fin_set (cn_sender c)); (split; [done || lia|lia])).
    destruct Hfin as [Hfin ->]. destruct (si_fin _ _ _ HI Hfin) as [He _]. split_and!; try done. congruence.
Qed.

(** C25.  What [tick] decides, for every connection that is reached and active.
    When more than [MAX_RETX_ATTEMPTS] consecutive retransmissions have been made,
    this one included, the connection goes to RESET, with both streams in error, and
    transmits a single RST.  Otherwise it becomes inactive exactly when both streams
    are finished, the outbound one with every byte the application wrote and the FIN
    acknowledged and the inbound one ended with nothing left to assemble, and it
    need not linger or has heard nothing for ten initial timeouts; and it transmits
    all that the sender has queued, each segment with the receiver's current
    acknowledgment and window. *)
Theorem tick_shutdown random cfg e ms c' :
  cfg_ok cfg -> rtc (conn_step typed) (endpoint_new random cfg) e -> zlen (ep_written e) < 2 ^ 62 ->
  active (ep_conn e) = true -> conn_tick ms (ep_conn e) = Ok c' ->
  let c := ep_conn e in
  exists new, cn_segments_out c' = cn_segments_out c ++ new /\
  if MAX_RETX_ATTEMPTS <? consecutive_retransmissions (cn_sender c') then
    state c' = TCPState_of RESET /\ error (stream_in (cn_sender c')) = true /\ error (inbound_stream c') = true /\
    exists seg, new = [seg] /\ rst (header seg) = true
  else
    (active c' = false <->
       all_acknowledged (ep_written e) (cn_sender c) /\ all_assembled (cn_receiver c) /\
       (cn_linger c = false \/ 10 * cfg_rt_timeout (cn_cfg c) <= u64 (cn_time c + ms))) /\
    sd_segments_out (cn_sender c') = [] /\
    (forall a, rcv_ackno (cn_receiver c) = Some a ->
       Forall (fun seg => ack (header seg) = true /\ ackno (header seg) = a /\
                 win (header seg) = Z.min (window_size (cn_receiver c)) 65535) new).
Proof.
  intros Hcfg Hr HW Ha H. pose proof (conn_reachable _ _ _ Hcfg Hr HW) as [[rd HI] _].
  destruct e as [c W out]. cbn [ep_conn ep_written] in *. unfold conn_tick in H. apply res_bind_ok in H as (s & Et & H).
  cbn [set_time cn_sender] in Et. set (c1 := set_sender s (set_time (u64 (cn_time c + ms)) c)) in *.
  destruct (tick_inv _ ms _ rd HI) as (s' & Es' & HI'). assert (s' = s) as -> by congruence.
  pose proof (streams_finished_iff c1 W rd HI' HW) as Hf.
  destruct (sender_tick_keeps _ _ _ Et) as (_ & En & Eo & _ & _ & Er).
  unfold all_acknowledged, next_seqno_absolute in Hf. change (cn_sender c1) with s in Hf, H. rewrite En, Eo, Er in Hf.
  destruct (MAX_RETX_ATTEMPTS <? consecutive_retransmissions s) eqn:Em.
  - destruct (send_rst_ok (unclean c1)) as (front & rest & _ & E). rewrite E in H. injection H as <-.
    eexists. split; [done|]. cbn [cn_sender with_segments_out]. unfold consecutive_retransmissions in *. cbn. rewrite Em.
    split_and!; [by apply dead_state|done..|]. eexists. split; [done|]. unfold stamp. by destruct (rcv_ackno _).
  - set (stop := streams_finished c1 && (negb (cn_linger c) || (10 * cfg_rt_timeout (cn_cfg c) <=? u64 (cn_time c + ms)))).
    assert (Ec : c' = send_segments (set_active (negb stop) c1)).
    { unfold stop. destruct (streams_finished c1); [|injection H as <-]; cbn [andb negb].
      - injection H as <-. change (cn_linger c1) with (cn_linger c). change (cn_cfg c1) with (cn_cfg c).
        change (cn_time c1) with (u64 (cn_time c + ms)). destruct (_ || _); [done|]. cbn [negb]. by rewrite <- Ha.
      - by rewrite <- Ha. }
    rewrite Ec, send_segments_eq. cbn [cn_segments_out set_active c1 set_sender set_time cn_sender cn_receiver].
    eexists. split; [done|]. unfold consecutive_retransmissions in *. cbn [with_segments_out sd_consecutive]. rewrite Em.
    split_and!; [|done|].
    + unfold active. cbn [cn_active set_active]. rewrite negb_false_iff. unfold stop. rewrite andb_true_iff, Hf, orb_true_iff, negb_true_iff, Z.leb_le.
      unfold all_acknowledged, next_seqno_absolute. change (cn_receiver c1) with (cn_receiver c). tauto.
    + intros a Hack. apply Forall_map, Forall_true. intros seg. by apply stamp_acks.
Qed.

(** The client of [example_conn] ends its stream, the server its own, and the client
    acknowledges everything; with nothing left to wait for, the next tick ends the
    connection. *)
Definition client_seg (sq ak : Z) (f : bool) : TCPSegment :=
  mkTCPSegment (mkTCPHeader 0 0 (mkWrappingInt32 sq) (mkWrappingInt32 ak) 5 false true false false false f 100 0 0)
    Buffer_default.
Definition finished_conn : TCPConnection :=
  conn_segment_received (client_seg 42 9 false)
    (end_input_stream (conn_segment_received (client_seg 41 8 true) example_conn)).

Lemma finished_conn_run :
  rtc (conn_step typed) (endpoint_new 0 example_cfg) (mkEndpoint finished_conn [] []).
Proof.
  etrans; [exact example_conn_run|].
  assert (Ht : forall sq ak f, is_u32 ak -> typed (client_seg sq ak f)) by (intros; split; [done|cbn; word_lia]).
  eapply rtc_l; [apply (cs_segment _ _ _ _ (client_seg 41 8 true)), Ht; word_lia|]. eapply rtc_l; [apply cs_end|].
  apply rtc_once, cs_segment, Ht. word_lia.
Qed.

Lemma tick_shutdown_witness :
  exists c', conn_tick 1 finished_conn = Ok c' /\ active finished_conn = true /\ active c' = false.
Proof.
  destruct (conn_tick 1 finished_conn) as [c'| |] eqn:E; [|vm_compute in E; discriminate..].
  exists c'. split; [reflexivity|]. split; [reflexivity|].
  destruct (tick_shutdown 0 example_cfg (mkEndpoint finished_conn [] []) 1 c' example_cfg_ok finished_conn_run
    ltac:(cbn; lia) eq_refl E) as (new & _ & H).
  assert (Hc : match conn_tick 1 finished_conn with Ok c => consecutive_retransmissions (cn_sender c) = 0 | _ => False end)
    by (vm_compute; reflexivity).
  rewrite E in Hc. rewrite Hc in H. apply (proj2 (proj1 H)).
  split; [vm_compute; by split_and!|]. split; [vm_compute; by split_and!|]. left. vm_compute. reflexivity.
Defined.

(** ** Every data segment is answered *)

Lemma fill_loop_grows fuel : forall s s',
  fill_loop fuel s = Some s' -> sd_segments_out s `prefix_of` sd_segments_out s'.
Proof.
  induction fuel as [|fuel IH]; intros s s'; cbn [fill_loop]; [done|].
  destruct (fill_cond s); [|by intros [= <-]].
  assert (E1 : sd_segments_out (fill_segment s).2 = sd_segments_out s) by done.
  destruct (fill_segment s) as [seg s1]. cbn [snd] in E1. rewrite <- E1.
  destruct (length_in_sequence_space seg =? 0); [by intros [= <-]|]. intros H%IH.
  etrans; [|exact H]. by eexists.
Qed.

(** The first call of [fill_window] sends the SYN. *)
Lemma fill_window_syn W s rd :
  zlen W < 2 ^ 62 -> SInv s W rd -> is_syn_sent s = false -> sd_segments_out (fill_window s) <> [].
Proof.
  intros HW HI Es. unfold fill_window, fill_fuel.
  replace (length (bs_buffer (sd_stream s)) + 3)%nat with (S (length (bs_buffer (sd_stream s)) + 2)) by lia.
  cbn [fill_loop].
  assert (Hc : fill_cond s = true) by (unfold fill_cond, is_syn_sent in *; by rewrite Es).
  rewrite Hc. destruct (fill_segment s) as [seg s1] eqn:Hseg.
  destruct (fill_segment_spec W s rd seg s1 HI Hc Hseg) as (_ & _ & Esyn & _).
  assert (Hlen : length_in_sequence_space seg <> 0).
  { unfold length_in_sequence_space, is_syn_sent in *. rewrite Esyn, Es. cbn. case_if; lia. }
  rewrite (proj2 (Z.eqb_neq _ _) Hlen).
  destruct (fill_push_inv W HW s rd seg s1 HI Hc Hseg Hlen) as [HI' Hm].
  destruct (fill_loop_spec W HW (length (bs_buffer (sd_stream s)) + 2) _ _ HI') as (s' & _ & E & _).
  { unfold fill_measure in *. repeat case_match; lia. }
  rewrite E. change (sd_segments_out s' <> []). apply fill_loop_grows in E as [k ->]. cbn.
  by destruct (sd_segments_out s1).
Qed.

Lemma set_receiver_sender r c : cn_sender (set_receiver r c) = cn_sender c.
Proof. done. Qed.

(** Up to the reply nothing is transmitted and the receiver is final. *)
Lemma ack_phase_keeps seg c :
  cn_segments_out (ack_phase seg c) = cn_segments_out c /\
  cn_receiver (ack_phase seg c) = cn_receiver c.
Proof. unfold ack_phase. by repeat case_if. Qed.

Lemma reply_phase_keeps seg c :
  cn_segments_out (reply_phase seg c) = cn_segments_out c /\
  cn_receiver (reply_phase seg c) = cn_receiver c.
Proof. unfold reply_phase. by repeat case_if. Qed.

Lemma keepalive_phase_keeps seg c :
  cn_segments_out (keepalive_phase seg c) = cn_segments_out c /\
  cn_receiver (keepalive_phase seg c) = cn_receiver c /\
  sd_segments_out (cn_sender c) `prefix_of` sd_segments_out (cn_sender (keepalive_phase seg c)).
Proof.
  unfold keepalive_phase. destruct (rcv_ackno _); [|done]. case_if; [|done].
  split_and!; try done. cbn. by eexists.
Qed.

Lemma linger_phase_keeps c :
  cn_segments_out (linger_phase c) = cn_segments_out c /\
  cn_receiver (linger_phase c) = cn_receiver c /\ cn_sender (linger_phase c) = cn_sender c.
Proof. unfold linger_phase. by case_if. Qed.

(** The queue of the sender after the reply to a segment that occupies sequence
    space. *)
Lemma reply_phase_queues seg c W rd :
  zlen W < 2 ^ 62 -> SInv (cn_sender c) W rd -> length_in_sequence_space seg <> 0 ->
  sd_segments_out (cn_sender (reply_phase seg c)) <> [].
Proof.
  intros HW HI Hl. unfold reply_phase. rewrite (proj2 (Z.eqb_neq _ _) Hl). cbn [negb].
  destruct (syn (header seg) && _) eqn:E.
  - bool_prop. by eapply fill_window_syn.
  - cbn. by destruct (sd_segments_out (cn_sender c)).
Qed.


