(* ===== verification/Duplex.v ===== *)
(** * Two connections over an unreliable network

    Two endpoints (src/libsponge/tcp_connection.cc) exchange the segments they
    queue.  The network remembers everything transmitted in each direction and
    delivers any of it at any time, any number of times, or never. *)

From S2P Require Import Prelude WrappingIntegers StdMap ByteStream StreamReassembler Buffers.
From S2P Require Import TCPSegment TCPReceiver TCPSender EndToEnd TCPConnection.

Record duplex := mkDuplex {
  dx_a : endpoint;
  dx_b : endpoint;
  dx_from_a : list TCPSegment;    (* transmitted by a *)
  dx_from_b : list TCPSegment     (* transmitted by b *)
}.

Definition swap (d : duplex) : duplex := mkDuplex (dx_b d) (dx_a d) (dx_from_b d) (dx_from_a d).

(** A step of endpoint a, or of the network on its behalf; the headers' fields
    outside the data may be rewritten on the way (ports, checksum). *)
Inductive left_step : duplex -> duplex -> Prop :=
| ls_call a a' b fa fb :
    conn_step (fun seg => seg ∈ fb) a a' -> left_step (mkDuplex a b fa fb) (mkDuplex a' b fa fb)
| ls_transmit a b fa fb seg seg' :
    seg ∈ cn_segments_out (ep_conn a) -> same_data seg seg' ->
    left_step (mkDuplex a b fa fb) (mkDuplex a b (seg' :: fa) fb).

Definition duplex_step (d d' : duplex) : Prop := left_step d d' \/ left_step (swap d) (swap d').

Definition duplex_start (random_a random_b : Z) (cfg_a cfg_b : TCPConfig) : duplex :=
  mkDuplex (endpoint_new random_a cfg_a) (endpoint_new random_b cfg_b) [] [].

(** What endpoint [e] has received, given what its peer has transmitted. *)
Definition fed (cap : Z) (soup : list TCPSegment) (e : endpoint) : Prop :=
  rtc (soup_step soup) (TCPReceiver_new cap, []) (cn_receiver (ep_conn e), ep_read e).

Definition all_emitted (soup : list TCPSegment) (e : endpoint) : Prop :=
  Forall (emitted (cn_sender (ep_conn e)) (ep_written e)) soup.

Record DInv (cap_a cap_b : Z) (d : duplex) : Prop := {
  di_a : CInv (dx_a d);
  di_b : CInv (dx_b d);
  di_from_a : all_emitted (dx_from_a d) (dx_a d);
  di_from_b : all_emitted (dx_from_b d) (dx_b d);
  di_fed_a : fed cap_a (dx_from_b d) (dx_a d);
  di_fed_b : fed cap_b (dx_from_a d) (dx_b d)
}.

Lemma swap_swap d : swap (swap d) = d.
Proof. by destruct d. Qed.

Lemma DInv_swap ca cb d : DInv ca cb d -> DInv cb ca (swap d).
Proof. by intros []. Qed.

Lemma all_emitted_typed soup e seg : all_emitted soup e -> seg ∈ soup -> typed seg.
Proof.
  unfold all_emitted. rewrite Forall_forall. intros H Hin. destruct (H seg Hin) as [[a Ha] _].
  apply (ha_typed _ _ _ _ Ha).
Qed.

Lemma micro_fed soup e e' :
  micro (fun seg => seg ∈ soup) e e' ->
  rtc (soup_step soup) (cn_receiver (ep_conn e), ep_read e) (cn_receiver (ep_conn e'), ep_read e').
Proof.
  destruct 1; cbn; try apply rtc_refl; apply rtc_once; by constructor.
Qed.

Lemma micros_fed cap soup e e' :
  rtc (micro (fun seg => seg ∈ soup)) e e' -> fed cap soup e -> fed cap soup e'.
Proof.
  induction 1 as [|e1 e2 e3 H1 _ IH]; [done|]. intros H. apply IH.
  unfold fed in *. etrans; [exact H|by apply micro_fed].
Qed.

Lemma left_step_written d d' :
  left_step d d' ->
  ep_written (dx_a d) `prefix_of` ep_written (dx_a d') /\ ep_written (dx_b d') = ep_written (dx_b d).
Proof.
  destruct 1 as [a a' b fa fb H|]; [|done]. split; [|done].
  cbn. destruct H; cbn; try done. by eexists.
Qed.

Lemma left_step_inv ca cb d d' :
  left_step d d' -> zlen (ep_written (dx_a d')) < 2 ^ 62 -> DInv ca cb d -> DInv ca cb d'.
Proof.
  intros Hstep HW [Ha Hb Hfa Hfb Ra Rb].
  destruct Hstep as [a a' b fa fb H|a b fa fb seg seg' Hin Hsame];
    cbn [dx_a dx_b dx_from_a dx_from_b] in *.
  - apply conn_step_micro in H; [|intros seg; by apply all_emitted_typed with (1 := Hfb)].
    destruct (micros_inv _ _ _ H HW Ha) as [Ha' Hem]. split; cbn; try done.
    + unfold all_emitted. eapply Forall_impl; [exact Hfa|done].
    + by eapply micros_fed.
  - split; cbn; try done.
    + constructor; [|done]. apply (same_data_emitted _ _ seg); [done|].
      pose proof (ci_out _ Ha) as Ho. rewrite Forall_forall in Ho. by apply Ho.
    + unfold fed in *. eapply soup_rtc_mono; [|exact Rb]. intros x Hx. by right.
Qed.

Lemma duplex_step_written d d' :
  duplex_step d d' ->
  ep_written (dx_a d) `prefix_of` ep_written (dx_a d') /\
  ep_written (dx_b d) `prefix_of` ep_written (dx_b d').
Proof.
  intros [H|H]; apply left_step_written in H as [H1 H2]; cbn in *; split; try done; by rewrite H2.
Qed.

Lemma duplex_step_inv ca cb d d' :
  duplex_step d d' -> zlen (ep_written (dx_a d')) < 2 ^ 62 -> zlen (ep_written (dx_b d')) < 2 ^ 62 ->
  DInv ca cb d -> DInv ca cb d'.
Proof.
  intros [H|H] HA HB HI; [by eapply left_step_inv|].
  rewrite <- (swap_swap d'). apply DInv_swap. eapply left_step_inv; [exact H|done|]. by apply DInv_swap.
Qed.

(** What a fed endpoint holds is a prefix of what the peer has written. *)
Lemma fed_prefix cap soup e peer :
  0 <= cap < 2 ^ 31 -> CInv peer -> zlen (ep_written peer) < 2 ^ 31 - 4 ->
  all_emitted soup peer -> fed cap soup e ->
  (ep_read e ++ bs_buffer (inbound_stream (ep_conn e))) `prefix_of` ep_written peer.
Proof.
  intros Hcap [[rd HI] _] HW Hs Hf.
  assert (Hh : Forall (honest (sd_isn (cn_sender (ep_conn peer))) (ep_written peer)) soup).
  { eapply Forall_impl; [exact Hs|]. by intros x [? _]. }
  pose proof (soup_honest _ _ _ _ _ Hh Hf) as Hrun.
  apply rcv_reachable in Hrun as [_ Hrun]; [|apply (si_isn _ _ _ HI)|done]. cbn [fst snd] in Hrun.
  destruct (reachable_inv (ep_written peer) ltac:(lia) cap _ Hcap Hrun) as (w & HI' & Hout).
  cbn [fst snd] in *. by eapply inv_delivered.
Qed.

Section Run.
Context (random_a random_b : Z) (cfg_a cfg_b : TCPConfig) (Ha : cfg_ok cfg_a) (Hb : cfg_ok cfg_b).

Lemma duplex_reachable d :
  rtc duplex_step (duplex_start random_a random_b cfg_a cfg_b) d ->
  zlen (ep_written (dx_a d)) < 2 ^ 62 -> zlen (ep_written (dx_b d)) < 2 ^ 62 ->
  DInv (cfg_recv_capacity cfg_a) (cfg_recv_capacity cfg_b) d.
Proof.
  revert d. apply (rtc_ind_r (fun d => zlen (ep_written (dx_a d)) < 2 ^ 62 ->
    zlen (ep_written (dx_b d)) < 2 ^ 62 -> DInv (cfg_recv_capacity cfg_a) (cfg_recv_capacity cfg_b) d)).
  - intros _ _. split; cbn; try (by apply CInv_new); try constructor.
  - intros d1 d2 _ Hstep IH HA HB. destruct (duplex_step_written _ _ Hstep) as [H1 H2].
    apply prefix_length in H1, H2.
    eapply duplex_step_inv; [exact Hstep|done|done|]. apply IH; lia.
Qed.

Lemma duplex_prefix d :
  rtc duplex_step (duplex_start random_a random_b cfg_a cfg_b) d ->
  zlen (ep_written (dx_a d)) < 2 ^ 31 - 4 -> zlen (ep_written (dx_b d)) < 2 ^ 31 - 4 ->
  (ep_read (dx_b d) ++ bs_buffer (inbound_stream (ep_conn (dx_b d)))) `prefix_of` ep_written (dx_a d) /\
  (ep_read (dx_a d) ++ bs_buffer (inbound_stream (ep_conn (dx_a d)))) `prefix_of` ep_written (dx_b d).
Proof.
  intros Hr HA HB. destruct (duplex_reachable d Hr ltac:(lia) ltac:(lia)) as [Ia Ib Ea Eb Fa Fb].
  split; eapply fed_prefix; try eassumption; [apply Hb|apply Ha].
Qed.

(** C1.  Two connections talking over a network that loses, duplicates and
    reorders: at every moment, in both directions, what one application has
    read or can read is a prefix of what the other has written, as long as
    neither has written 2^31 - 4 bytes. *)
Theorem duplex_safe d :
  rtc duplex_step (duplex_start random_a random_b cfg_a cfg_b) d ->
  zlen (ep_written (dx_a d)) < 2 ^ 31 - 4 -> zlen (ep_written (dx_b d)) < 2 ^ 31 - 4 ->
  (ep_read (dx_b d) ++ bs_buffer (inbound_stream (ep_conn (dx_b d)))) `prefix_of` ep_written (dx_a d) /\
  (ep_read (dx_a d) ++ bs_buffer (inbound_stream (ep_conn (dx_a d)))) `prefix_of` ep_written (dx_b d).
Proof. apply duplex_prefix. Qed.
End Run.

(** ** A handshake and a first segment of data *)

Definition cfg_7 : TCPConfig := mkTCPConfig 1000 100 100 (Some (mkWrappingInt32 7)).
Definition cfg_40 : TCPConfig := mkTCPConfig 1000 100 100 (Some (mkWrappingInt32 40)).

Definition ca0 : TCPConnection := TCPConnection_new 0 cfg_7.
Definition cb0 : TCPConnection := TCPConnection_new 0 cfg_40.
Definition ca1 : TCPConnection := connect ca0.
Definition sg_syn : TCPSegment := default TCPSegment_default (cn_segments_out ca1 !! 0%nat).
Definition cb1 : TCPConnection := conn_segment_received sg_syn cb0.
Definition sg_synack : TCPSegment := default TCPSegment_default (cn_segments_out cb1 !! 0%nat).
Definition ca2 : TCPConnection := conn_segment_received sg_synack ca1.
Definition ca3 : TCPConnection := snd (conn_write [x68; x69] ca2).
Definition sg_data : TCPSegment := default TCPSegment_default (cn_segments_out ca3 !! 2%nat).
Definition cb2 : TCPConnection := conn_segment_received sg_data cb1.
Definition ca_written : list byte :=
  [] ++ take (Z.to_nat (fst (conn_write [x68; x69] ca2))) [x68; x69].

Definition handshake_end : duplex :=
  mkDuplex (mkEndpoint ca3 ca_written []) (mkEndpoint cb2 [] []) [sg_data; sg_syn] [sg_synack].

(** A call whose result has a name. *)
Lemma call_to a a' b fa fb e :
  conn_step (fun seg => seg ∈ fb) a e -> e = a' -> left_step (mkDuplex a b fa fb) (mkDuplex a' b fa fb).
Proof. intros H <-. by apply ls_call. Qed.

(** A queued segment of concrete, well-typed value goes on the wire. *)
Lemma transmit_nth a b fa fb n seg :
  cn_segments_out (ep_conn a) !! n = Some seg -> typed seg ->
  left_step (mkDuplex a b fa fb) (mkDuplex a b (seg :: fa) fb).
Proof. intros H Ht. apply (ls_transmit a b fa fb seg seg); [apply list_elem_of_lookup; by exists n|done]. Qed.

Lemma handshake_reachable : rtc duplex_step (duplex_start 0 0 cfg_7 cfg_40) handshake_end.
Proof.
  apply (rtc_l _ _ (mkDuplex (mkEndpoint ca1 [] []) (mkEndpoint cb0 [] []) [] [])).
  { left. eapply call_to; [apply cs_connect|vm_compute; reflexivity]. }
  apply (rtc_l _ _ (mkDuplex (mkEndpoint ca1 [] []) (mkEndpoint cb0 [] []) [sg_syn] [])).
  { left. apply (transmit_nth _ _ _ _ 0); [vm_compute; reflexivity|split; vm_compute; by split]. }
  apply (rtc_l _ _ (mkDuplex (mkEndpoint ca1 [] []) (mkEndpoint cb1 [] []) [sg_syn] [])).
  { right. eapply call_to; [apply (cs_segment _ cb0 [] [] sg_syn); left|vm_compute; reflexivity]. }
  apply (rtc_l _ _ (mkDuplex (mkEndpoint ca1 [] []) (mkEndpoint cb1 [] []) [sg_syn] [sg_synack])).
  { right. apply (transmit_nth _ _ _ _ 0); [vm_compute; reflexivity|split; vm_compute; by split]. }
  apply (rtc_l _ _ (mkDuplex (mkEndpoint ca2 [] []) (mkEndpoint cb1 [] []) [sg_syn] [sg_synack])).
  { left. eapply call_to; [apply (cs_segment _ ca1 [] [] sg_synack); left|vm_compute; reflexivity]. }
  apply (rtc_l _ _ (mkDuplex (mkEndpoint ca3 ca_written []) (mkEndpoint cb1 [] []) [sg_syn] [sg_synack])).
  { left. eapply call_to; [apply (cs_write _ ca2 [] [] [x68; x69])|vm_compute; reflexivity]. }
  apply (rtc_l _ _ (mkDuplex (mkEndpoint ca3 ca_written []) (mkEndpoint cb1 [] []) [sg_data; sg_syn] [sg_synack])).
  { left. apply (transmit_nth _ _ _ _ 2); [vm_compute; reflexivity|split; vm_compute; by split]. }
  apply rtc_once. right. eapply call_to; [apply (cs_segment _ cb1 [] [] sg_data); left|vm_compute; reflexivity].
Qed.

Lemma duplex_safe_witness :
  let d := handshake_end in
  bs_buffer (inbound_stream (ep_conn (dx_b d))) = [x68; x69] /\
  (ep_read (dx_b d) ++ bs_buffer (inbound_stream (ep_conn (dx_b d)))) `prefix_of` ep_written (dx_a d).
Proof.
  cbv zeta. split; [vm_compute; reflexivity|].
  destruct (duplex_safe 0 0 cfg_7 cfg_40
    ltac:(split; cbn; [lia|lia|intros ? [= <-]; split; vm_compute; congruence])
    ltac:(split; cbn; [lia|lia|intros ? [= <-]; split; vm_compute; congruence])
    handshake_end handshake_reachable
    ltac:(apply Z.ltb_lt; vm_compute; reflexivity) ltac:(apply Z.ltb_lt; vm_compute; reflexivity))
    as [H _].
  exact H.
Defined.
