(* ===== verification/Benchmark.v ===== *)
(** * The benchmark

    Models [src/apps/tcp_benchmark.cc]: two connections in one program, with the
    segments of one handed to the other in order or in reverse, until the string
    written at one end has been read at the other.  The time measurement and the
    output are left out; the string is a parameter. *)

From S2P Require Import Prelude WrappingIntegers StdMap ByteStream StreamReassembler Buffers.
From S2P Require Import TCPSegment TCPReceiver TCPSender EndToEnd TCPConnection Duplex.

(** The first loop of [move_segments]: [x]'s queue goes to the end of [segments]. *)
Fixpoint take_segments (queue : list TCPSegment) (x : TCPConnection) (segments : list TCPSegment)
  : TCPConnection * list TCPSegment :=
  match queue with
  | [] => (x, segments)
  | seg :: rest => take_segments rest (set_segments_out rest x) (segments ++ [seg])
  end.

Definition move_segments (x y : TCPConnection) (segments : list TCPSegment) (reorder : bool)
  : TCPConnection * TCPConnection * list TCPSegment :=
  let '(x, segments) := take_segments (cn_segments_out x) x segments in
  let order := if reorder then rev segments else segments in
  (x, fold_left (fun y seg => conn_segment_received seg y) order y, []).

(** The variables [loop] captures. *)
Record bench := mkBench {
  bm_x : TCPConnection;              (* x *)
  bm_y : TCPConnection;              (* y *)
  bm_to_send : Buffer;               (* bytes_to_send *)
  bm_x_closed : bool;                (* x_closed *)
  bm_received : list byte            (* string_received *)
}.

(** The [while] loop that writes input into [x]; [None] when the fuel runs out. *)
Fixpoint write_input (fuel : nat) (x : TCPConnection) (bytes_to_send : Buffer)
  : option (res (TCPConnection * Buffer)) :=
  match fuel with
  | O => None
  | S fuel' =>
      if negb (buf_size bytes_to_send =? 0) && negb (remaining_outbound_capacity x =? 0) then
        let want := Z.min (remaining_outbound_capacity x) (buf_size bytes_to_send) in
        let '(written, x) := conn_write (take (Z.to_nat want) (str bytes_to_send)) x in
        if negb (want =? written) then Some (Throw runtime_error)
        else
          match remove_prefix written bytes_to_send with
          | Ok bytes_to_send => write_input fuel' x bytes_to_send
          | Throw e => Some (Throw e)
          | Undefined => Some Undefined
          end
      else Some (Ok (x, bytes_to_send))
  end.

(** The closure [loop]. *)
Definition bench_loop (reorder : bool) (b : bench) : res bench :=
  k ← default Undefined (write_input (S (length (str (bm_to_send b)))) (bm_x b) (bm_to_send b));
  let '(x, bytes_to_send) := k in
  let '(x, x_closed) :=
    if (buf_size bytes_to_send =? 0) && negb (bm_x_closed b) then (end_input_stream x, true)
    else (x, bm_x_closed b) in
  let '(x, y, segments) := move_segments x (bm_y b) [] reorder in
  let '(y, x, segments) := move_segments y x segments false in
  let available_output := buffer_size (inbound_stream y) in
  let '(string_received, y) :=
    if 0 <? available_output then
      let '(data, st) := read available_output (inbound_stream y) in
      (bm_received b ++ data, set_receiver (with_stream_out st (cn_receiver y)) y)
    else (bm_received b, y) in
  x ← conn_tick 1000 x;
  y ← conn_tick 1000 y;
  Ok (mkBench x y bytes_to_send x_closed string_received).

(** [main_loop] before its loops; the randoms are those of the two connections. *)
Definition bench_start (random_x random_y : Z) (config : TCPConfig) (string_to_send : list byte) : bench :=
  mkBench (connect (TCPConnection_new random_x config)) (end_input_stream (TCPConnection_new random_y config))
    (Buffer_of string_to_send) false [].

(** [while (condition) loop();], at most [n] times; [false] when the loop ended. *)
Fixpoint bench_while (n : nat) (condition : bench -> bool) (reorder : bool) (b : bench) : res (bool * bench) :=
  match n with
  | O => Ok (true, b)
  | S n' => if condition b then b ← bench_loop reorder b; bench_while n' condition reorder b
            else Ok (false, b)
  end.

Definition transferring (b : bench) : bool := negb (eof (inbound_stream (bm_y b))).
Definition closing (b : bench) : bool := active (bm_x b) || active (bm_y b).

(** [main_loop] with at most [n] iterations of its first loop and [m] of its
    second; [None] when these were not enough. *)
Definition bench_main_loop (n m : nat) (reorder : bool) (random_x random_y : Z) (config : TCPConfig)
    (string_to_send : list byte) : res (option bench) :=
  k ← bench_while n transferring reorder (bench_start random_x random_y config string_to_send);
  let '(more, b) := k in
  if (more : bool) then Ok None
  else if negb (bool_decide (bm_received b = string_to_send)) then Throw runtime_error
  else
    k ← bench_while m closing reorder b;
    let '(more, b) := k in
    if (more : bool) then Ok None else Ok (Some b).

(** ** The program as a run of two endpoints *)

Lemma swap_rtc d d' : rtc duplex_step d d' -> rtc duplex_step (swap d) (swap d').
Proof.
  induction 1 as [|d1 d2 d3 Hs _ IH]; [done|]. eapply rtc_l; [|exact IH].
  destruct Hs as [Hs|Hs]; [right|left; exact Hs]. by rewrite !swap_swap.
Qed.

(** A segment in the queue is typed. *)
Lemma queued_typed seg e : CInv e -> seg ∈ cn_segments_out (ep_conn e) -> typed seg.
Proof.
  intros He Hin. pose proof (ci_out _ He) as Ho. rewrite Forall_forall in Ho.
  destruct (Ho seg Hin) as [[a Ha] _]. apply (ha_typed _ _ _ _ Ha).
Qed.

Section Run.
Context (config : TCPConfig) (Hcfg : cfg_ok config).

(** Some run of two endpoints leads to [a] and [b], in which [fa] and [fb] have
    been transmitted. *)
Definition runs (ra rb : Z) (a b : endpoint) (fa fb : list TCPSegment) : Prop :=
  rtc duplex_step (duplex_start ra rb config config) (mkDuplex a b fa fb).

Lemma runs_swap ra rb a b fa fb : runs ra rb a b fa fb -> runs rb ra b a fb fa.
Proof. apply swap_rtc. Qed.

Lemma runs_call ra rb a b fa fb a' :
  runs ra rb a b fa fb -> conn_step (fun seg => seg ∈ fb) a a' -> runs ra rb a' b fa fb.
Proof. intros Hr Hs. eapply rtc_r; [exact Hr|]. left. by constructor. Qed.

Definition short (a : endpoint) : Prop := zlen (ep_written a) < 2 ^ 62.

Lemma runs_inv ra rb a b fa fb : runs ra rb a b fa fb -> short a -> short b -> CInv a /\ CInv b.
Proof. intros Hr Ha Hb. by destruct (duplex_reachable _ _ _ _ Hcfg Hcfg _ Hr Ha Hb). Qed.

(** [take_segments] transmits the queue. *)
Lemma take_runs ra rb b fb W out queue : forall x segments fa,
  short (mkEndpoint x W out) -> short b -> cn_segments_out x = queue ->
  runs ra rb (mkEndpoint x W out) b fa fb -> segments ⊆ fa ->
  let '(x', segments') := take_segments queue x segments in
  exists fa', runs ra rb (mkEndpoint x' W out) b fa' fb /\ segments' ⊆ fa' /\
    outbound_ended x' = outbound_ended x.
Proof.
  induction queue as [|seg rest IH]; intros x segments fa HW Hb Eq Hr Hc; cbn [take_segments]; [by exists fa|].
  specialize (IH (set_segments_out rest x) (segments ++ [seg]) (seg :: fa) HW Hb eq_refl).
  destruct (take_segments rest _ _) as [x' segments'].
  assert (Hin : seg ∈ cn_segments_out x) by (rewrite Eq; left).
  apply IH; clear IH.
  - eapply runs_call.
    + eapply rtc_r; [exact Hr|]. left. apply (ls_transmit _ _ _ _ seg seg); [done|].
      destruct (runs_inv _ _ _ _ _ _ Hr HW Hb) as [HI _]. pose proof (queued_typed seg _ HI Hin). by split_and!.
    + replace rest with (tail (cn_segments_out x)) by by rewrite Eq. apply cs_dequeue.
  - intros s [Hs|Hs%list_elem_of_singleton]%elem_of_app; [right; auto|subst; left].
Qed.

(** The second loop delivers them. *)
Lemma deliver_runs ra rb a W out segments fa fb : forall y,
  runs ra rb a (mkEndpoint y W out) fa fb -> segments ⊆ fa ->
  let y' := fold_left (fun y seg => conn_segment_received seg y) segments y in
  runs ra rb a (mkEndpoint y' W out) fa fb /\ outbound_ended y' = outbound_ended y.
Proof.
  induction segments as [|seg segments IH]; intros y Hr Hc; [done|]. cbn [fold_left].
  destruct (IH (conn_segment_received seg y)) as [Hr' He'].
  - apply runs_swap. eapply runs_call; [apply runs_swap, Hr|]. apply cs_segment, Hc. left.
  - intros s Hs. apply Hc. by right.
  - split; [done|]. by rewrite He', segment_received_ended.
Qed.

Lemma move_runs ra rb x W out y W' out' fa fb reorder :
  short (mkEndpoint x W out) -> short (mkEndpoint y W' out') ->
  runs ra rb (mkEndpoint x W out) (mkEndpoint y W' out') fa fb ->
  let '(x', y', segments) := move_segments x y [] reorder in
  segments = [] /\ outbound_ended x' = outbound_ended x /\ outbound_ended y' = outbound_ended y /\
  exists fa', runs ra rb (mkEndpoint x' W out) (mkEndpoint y' W' out') fa' fb.
Proof.
  intros Hx Hy Hr. unfold move_segments.
  pose proof (take_runs ra rb (mkEndpoint y W' out') fb W out (cn_segments_out x) x [] fa Hx Hy eq_refl Hr) as Ht.
  destruct (take_segments _ _ _) as [x' segments]. destruct Ht as (fa' & Hr' & Hc & He); [intros s Hs; inversion Hs|].
  destruct (deliver_runs ra rb (mkEndpoint x' W out) W' out' (if reorder then rev segments else segments) fa' fb y)
    as [Hr2 He2]; [done| |by split_and!; [..|exists fa']].
  destruct reorder; [|done]. intros seg Hs. apply Hc. apply list_elem_of_In, in_rev. by apply list_elem_of_In.
Qed.

Section Transfer.
Context (rx ry : Z) (S : list byte) (HS : zlen S < 2 ^ 31 - 4).

Record BInv (b : bench) : Prop := {
  bi_closed : bm_x_closed b = true -> str (bm_to_send b) = [];
  bi_ended : outbound_ended (bm_x b) = bm_x_closed b;
  bi_buffer : buf_ok (bm_to_send b);
  bi_runs : exists W fx fy, W ++ str (bm_to_send b) = S /\
    runs rx ry (mkEndpoint (bm_x b) W []) (mkEndpoint (bm_y b) [] (bm_received b)) fx fy
}.

Lemma part_short W rest x out : W ++ rest = S -> short (mkEndpoint x W out).
Proof. intros <-. unfold short. cbn. rewrite length_app in HS. lia. Qed.

Lemma write_input_spec y fx fy fuel : forall x buf W,
  (length (str buf) < fuel)%nat -> (str buf <> [] -> outbound_ended x = false) -> buf_ok buf ->
  W ++ str buf = S -> short y -> runs rx ry (mkEndpoint x W []) y fx fy ->
  exists x' buf' W', write_input fuel x buf = Some (Ok (x', buf')) /\
    outbound_ended x' = outbound_ended x /\ buf_ok buf' /\ W' ++ str buf' = S /\
    (str buf = [] -> str buf' = []) /\ runs rx ry (mkEndpoint x' W' []) y fx fy.
Proof.
  induction fuel as [|fuel IH]; intros x buf W Hf He Hb HW Hy Hr; [lia|]. cbn [write_input].
  destruct (negb _ && negb _) eqn:E; [|by exists x, buf, W]. bool_prop.
  set (want := Z.min _ _). set (data := take (Z.to_nat want) (str buf)).
  assert (Hcap : 0 <= remaining_outbound_capacity x) by apply u64_range.
  assert (Hwant : 0 < want <= buf_size buf /\ want <= remaining_outbound_capacity x)
    by (unfold want, buf_size in *; lia).
  assert (Hld : zlen data = want) by (unfold data, buf_size in *; rewrite length_take; lia).
  assert (Hne : str buf <> []) by (unfold buf_size in *; by destruct (str buf)).
  destruct (runs_inv _ _ _ _ _ _ Hr (part_short _ _ _ _ HW) Hy) as [HIx _].
  pose proof (conn_write_all x W [] data HIx (He Hne) ltac:(lia)) as Hall.
  pose proof (conn_write_ended data x) as Hend.
  pose proof (cs_write (fun seg => seg ∈ fy) x W [] data) as Hstep. rewrite Hall, Hld in Hstep.
  destruct (conn_write data x) as [written x']. cbn [fst snd] in *. subst written.
  rewrite Hld, Z.eqb_refl. cbn [negb].
  destruct (remove_prefix_ok want buf Hb ltac:(lia)) as (buf' & -> & Es & Hb').
  destruct (IH x' buf' (W ++ take (Z.to_nat want) data)) as (x2 & buf2 & W2 & Hw & He2 & Hb2 & HW2 & Hn2 & Hr2).
  - rewrite Es, length_drop. unfold buf_size in *. lia.
  - intros _. by rewrite Hend, He.
  - done.
  - rewrite take_ge by lia. unfold data. rewrite Es, <- app_assoc, take_drop. done.
  - done.
  - by eapply runs_call.
  - exists x2, buf2, W2. split_and!; try done. by rewrite He2.
Qed.

(** Closing [x] when everything is written. *)
Lemma close_x_spec x buf W x_closed y fx fy :
  (x_closed = true -> str buf = []) -> outbound_ended x = x_closed ->
  runs rx ry (mkEndpoint x W []) y fx fy ->
  let '(x', closed') := if (buf_size buf =? 0) && negb x_closed then (end_input_stream x, true)
                        else (x, x_closed) in
  (closed' = true <-> str buf = []) /\ outbound_ended x' = closed' /\
  runs rx ry (mkEndpoint x' W []) y fx fy.
Proof.
  intros Hc He Hr. destruct (_ && _) eqn:E.
  2:{ split_and!; [|done..]. split; [done|]. intros Eb. unfold buf_size in E. rewrite Eb in E. by destruct x_closed. }
  bool_prop. split_and!; [|apply end_ended|].
  - split; [|done]. intros _. unfold buf_size in *. by destruct (str buf).
  - eapply runs_call; [exact Hr|apply cs_end].
Qed.

Lemma tick_runs x W out y fx fy ra rb :
  short (mkEndpoint x W out) -> short y -> runs ra rb (mkEndpoint x W out) y fx fy ->
  exists x', conn_tick 1000 x = Ok x' /\ outbound_ended x' = outbound_ended x /\
    runs ra rb (mkEndpoint x' W out) y fx fy.
Proof.
  intros Hx Hy Hr. destruct (runs_inv _ _ _ _ _ _ Hr Hx Hy) as [HI _].
  pose proof (tick_is_ok _ 1000 HI) as Hok. cbn [ep_conn] in Hok.
  destruct (conn_tick 1000 x) as [x'|e|] eqn:E; [|done..]. exists x'. split_and!; [done|by eapply tick_ended|].
  eapply runs_call; [exact Hr|by apply (cs_tick _ x W out 1000)].
Qed.

Lemma read_runs x W y received fx fy :
  runs rx ry (mkEndpoint x W []) (mkEndpoint y [] received) fx fy ->
  let '(received', y') :=
    if 0 <? buffer_size (inbound_stream y) then
      let '(data, st) := read (buffer_size (inbound_stream y)) (inbound_stream y) in
      (received ++ data, set_receiver (with_stream_out st (cn_receiver y)) y)
    else (received, y) in
  received `prefix_of` received' /\ runs rx ry (mkEndpoint x W []) (mkEndpoint y' [] received') fx fy.
Proof.
  intros Hr. destruct (0 <? _) eqn:E; [|done]. bool_prop. split; [by eexists|]. apply runs_swap in Hr. apply runs_swap.
  eapply runs_call; [exact Hr|]. apply (cs_read _ y [] received (buffer_size (inbound_stream y))). lia.
Qed.

(** The end of [x]'s stream follows the last byte at once. *)
Definition closes (b : bench) : Prop := str (bm_to_send b) = [] -> bm_x_closed b = true.

Lemma bench_loop_spec reorder b :
  BInv b -> exists b', bench_loop reorder b = Ok b' /\ BInv b' /\ closes b' /\ bm_received b `prefix_of` bm_received b'.
Proof.
  destruct b as [x y buf x_closed received]. intros [Hc He Hb (W & fx & fy & HW & Hr)]. cbn in Hc, He, Hb, HW, Hr.
  assert (Hy : forall y out, short (mkEndpoint y [] out)) by done.
  unfold bench_loop. cbn [bm_x bm_y bm_to_send bm_x_closed bm_received].
  destruct (write_input_spec (mkEndpoint y [] received) fx fy (Datatypes.S (length (str buf))) x buf W)
    as (x1 & buf1 & W1 & -> & He1 & Hb1 & HW1 & Hn1 & Hr1);
    try done; [lia| |].
  { intros Hne. destruct (outbound_ended x); [|done]. by rewrite Hc in Hne by done. }
  cbn [default id mbind res_bind bm_x_closed bm_y bm_received].
  assert (Hx : forall x out, short (mkEndpoint x W1 out)) by (intros; by eapply part_short).
  pose proof (close_x_spec x1 buf1 W1 x_closed _ fx fy ltac:(auto) ltac:(congruence) Hr1) as Hcl.
  destruct (if (_ =? 0) && _ then _ else _) as [x2 closed2]. destruct Hcl as (Hc2 & He2 & Hr2).
  pose proof (move_runs _ _ _ _ _ _ _ _ _ _ reorder (Hx _ _) (Hy _ _) Hr2) as Hm.
  destruct (move_segments x2 y [] reorder) as [[x3 y3] seg3]. destruct Hm as (-> & He3 & _ & fx3 & Hr3).
  pose proof (move_runs _ _ _ _ _ _ _ _ _ _ false (Hy _ _) (Hx _ _) (runs_swap _ _ _ _ _ _ Hr3)) as Hm.
  destruct (move_segments y3 x3 [] false) as [[y4 x4] seg4]. destruct Hm as (-> & _ & He4 & fy4 & Hr4).
  apply runs_swap, read_runs in Hr4. cbv zeta.
  destruct (if 0 <? _ then _ else _) as [received' y5]. destruct Hr4 as [Hpre Hr4].
  destruct (tick_runs _ _ _ _ _ _ _ _ (Hx _ _) (Hy _ _) Hr4) as (x6 & -> & He6 & Hr6). cbn [mbind res_bind].
  destruct (tick_runs _ _ _ _ _ _ _ _ (Hy _ _) (Hx _ _) (runs_swap _ _ _ _ _ _ Hr6)) as (y7 & -> & _ & Hr7).
  cbn [mbind res_bind]. eexists. split; [done|]. split; [|split; [by intros ?; apply Hc2|done]]. split; cbn; [apply Hc2| |done|].
  - by rewrite He6, He4, He3.
  - exists W1, fx3, fy4. split; [done|]. by apply runs_swap.
Qed.

Lemma bench_start_inv random_x random_y :
  rx = random_x -> ry = random_y -> BInv (bench_start random_x random_y config S).
Proof.
  intros <- <-. unfold bench_start. split; cbn [bm_x bm_y bm_to_send bm_x_closed bm_received];
    [done|by rewrite connect_ended|cbn; lia|].
  exists [], [], []. split; [by rewrite str_of|].
  eapply runs_call; [|apply cs_connect]. apply runs_swap. eapply runs_call; [|apply cs_end].
  apply runs_swap. apply rtc_refl.
Qed.

Lemma bench_while_spec n condition reorder : forall b,
  BInv b -> exists more b', bench_while n condition reorder b = Ok (more, b') /\ BInv b' /\
    (more = false -> condition b' = false) /\ bm_received b `prefix_of` bm_received b' /\
    (closes b \/ n <> 0%nat /\ condition b = true -> closes b').
Proof.
  induction n as [|n IH]; intros b HI; cbn [bench_while].
  { exists true, b. split_and!; try done. intros [?|[? _]]; done. }
  destruct (condition b) eqn:Ec.
  2:{ exists false, b. split_and!; try done. intros [?|[_ ?]]; done. }
  destruct (bench_loop_spec reorder b HI) as (b1 & -> & HI1 & Hc1 & Hp1). cbn [mbind res_bind].
  destruct (IH b1 HI1) as (more & b2 & E & HI2 & He & Hp & Hc). exists more, b2. split_and!; try done; [by etrans|].
  intros _. apply Hc. by left.
Qed.

(** [y]'s stream has not ended before the first pass. *)
Lemma start_transferring : transferring (bench_start rx ry config S) = true.
Proof.
  unfold transferring, bench_start. cbn [bm_y]. unfold end_input_stream. by rewrite send_segments_eq.
Qed.

Lemma bench_prefix b :
  BInv b -> (bm_received b ++ bs_buffer (inbound_stream (bm_y b))) `prefix_of` S.
Proof.
  intros [_ _ _ (W & fx & fy & HW & Hr)].
  destruct (duplex_prefix rx ry config config Hcfg Hcfg _ Hr) as [Hp _]; cbn in *.
  - rewrite <- HW, length_app in HS. lia.
  - lia.
  - etrans; [exact Hp|]. rewrite <- HW. by eexists.
Qed.
End Transfer.
End Run.

(** C14.  Safety of the benchmark: whatever string is sent, and whether the segments
    are handed over in order or in reverse, any number of passes of its first loop
    go through: every [write] takes what it was asked to take and neither connection
    throws.  What has been received, together with what waits at the receiver, is a
    prefix of the string; nothing waits any more once the loop is left; and
    [x]'s stream is ended in the same pass in which the last byte is written to it,
    not before.  [main_loop] throws "strings don't match" exactly when [y]'s stream
    ended before the whole string had come; when it returns, the string received is
    the string sent and both connections have ended.  (That the loops are left is
    the subject of [benchmark_completes].) *)
Theorem benchmark_safe random_x random_y config S n m reorder :
  cfg_ok config -> zlen S < 2 ^ 31 - 4 ->
  exists more b, bench_while n transferring reorder (bench_start random_x random_y config S) = Ok (more, b) /\
    (bm_received b ++ bs_buffer (inbound_stream (bm_y b))) `prefix_of` S /\
    (more = false -> bs_buffer (inbound_stream (bm_y b)) = [] /\ input_ended (inbound_stream (bm_y b)) = true) /\
    (n <> 0%nat -> (outbound_ended (bm_x b) = true <-> str (bm_to_send b) = [])) /\
    match bench_main_loop n m reorder random_x random_y config S with
    | Ok (Some b') => more = false /\ bm_received b' = S /\ active (bm_x b') = false /\ active (bm_y b') = false
    | Ok None => more = true \/ more = false /\ bm_received b = S /\ exists b', bench_while m closing reorder b = Ok (true, b')
    | Throw e => e = runtime_error /\ more = false /\ bm_received b <> S
    | Undefined => False
    end.
Proof.
  intros Hcfg HS.
  pose proof (bench_start_inv config random_x random_y S HS random_x random_y eq_refl eq_refl) as H0.
  unfold bench_main_loop.
  destruct (bench_while_spec config Hcfg random_x random_y S HS n transferring reorder _ H0)
    as (more & b & -> & HI & Hend & _ & Hcl). pose proof (bench_prefix config Hcfg _ _ S HS b HI) as Hp.
  exists more, b. split_and!; [done..| | |].
  - intros Hm. apply Hend, negb_false_iff in Hm. unfold eof, buffer_empty, buffer_size in Hm. bool_prop. split; [|done].
    by destruct (bs_buffer (inbound_stream (bm_y b))).
  - intros Hn. rewrite (bi_ended _ _ _ _ _ HI). split; [apply (bi_closed _ _ _ _ _ HI)|].
    apply Hcl. right. split; [done|]. by apply start_transferring.
  - cbn [mbind res_bind]. destruct more; [by left|]. destruct (bool_decide _) eqn:Eb; cbn [negb].
    2:{ by apply bool_decide_eq_false_1 in Eb. }
    apply bool_decide_eq_true_1 in Eb.
    destruct (bench_while_spec config Hcfg random_x random_y S HS m closing reorder _ HI)
      as (more & b' & -> & HI' & Hend' & Hp1 & _). cbn [mbind res_bind].
    destruct more; [right; by split_and!; [..|exists b']|].
    pose proof (bench_prefix config Hcfg _ _ S HS b' HI') as Hp'.
    specialize (Hend' eq_refl). unfold closing in Hend'. apply orb_false_iff in Hend' as [? ?].
    split_and!; [done| |done..]. apply (anti_symm prefix); [etrans; [|exact Hp']; by eexists|by rewrite <- Eb].
Qed.

(** ** Small runs: windows of twenty bytes *)

Definition bench_cfg : TCPConfig := mkTCPConfig 1000 20 20 (Some (mkWrappingInt32 7)).
Definition numbers (n : nat) : list byte := map (fun i => byte_of (Z.of_nat i)) (seq 0 n).
Definition completes (n : nat) (reorder : bool) : bool :=
  match bench_main_loop 50 50 reorder 0 0 bench_cfg (numbers n) with
  | Ok (Some b) => bool_decide (bm_received b = numbers n)
  | _ => false
  end.

(** Every string of at most two windows arrives, and both connections end. *)
Example small_runs_complete : forallb (fun n => completes n false && completes n true) (seq 0 45) = true.
Proof. vm_compute. reflexivity. Qed.

Lemma benchmark_safe_witness :
  exists more b, bench_while 50 transferring true (bench_start 0 0 bench_cfg (numbers 45)) = Ok (more, b) /\
    (bm_received b ++ bs_buffer (inbound_stream (bm_y b))) `prefix_of` numbers 45.
Proof.
  assert (Hc : cfg_ok bench_cfg) by (split; cbn; [lia|lia|intros ? [= <-]; split; vm_compute; congruence]).
  assert (Hl : zlen (numbers 45) < 2 ^ 31 - 4) by (apply Z.ltb_lt; vm_compute; reflexivity).
  destruct (benchmark_safe 0 0 bench_cfg (numbers 45) 50 50 true Hc Hl) as (more & b & E & Hp & _).
  exists more, b. exact (conj E Hp).
Defined.
