(* ===== verification/Flow.v ===== *)
(** * One direction between two connections, in order

    The sender of one connection (src/libsponge/tcp_connection.cc), its queue of
    transmitted segments, and the receiver of the other one, when the network
    neither loses nor reorders.  [feeds] says which segments of the queue the
    receiver has still to get, among the empty ones and the retransmissions; it is
    kept when segments are transmitted ([feeds_send], [feeds_old]) and when the
    head of the queue is received ([receive_feeds]); [receive_old] shows that
    retransmissions and empty segments are without effect on the receiver. *)

From S2P Require Import Prelude WrappingIntegers StdMap ByteStream StreamReassembler Buffers.
From S2P Require Import TCPSegment TCPReceiver TCPSender EndToEnd Transfer TCPState TCPConnection.

(** ** Segments as the sender builds them *)

Definition plain (seg : TCPSegment) : Prop := rst (header seg) = false /\ ack (header seg) = false.

Lemma fill_loop_plain fuel : forall s s',
  fill_loop fuel s = Some s' -> Forall plain (sd_outstanding s) -> Forall plain (sd_outstanding s').
Proof.
  induction fuel as [|fuel IH]; intros s s'; cbn [fill_loop]; [done|].
  destruct (fill_cond s); [|by intros [= <-]].
  assert (E1 : sd_outstanding (fill_segment s).2 = sd_outstanding s) by done.
  assert (E2 : plain (fill_segment s).1) by done.
  destruct (fill_segment s) as [seg s1]. cbn [fst snd] in E1, E2.
  destruct (length_in_sequence_space seg =? 0); [intros [= <-]; by rewrite E1|].
  intros E Hp. apply (IH _ _ E). cbn. rewrite E1. apply Forall_app_2; [done|by constructor].
Qed.

Lemma fill_window_plain s : Forall plain (sd_outstanding s) -> Forall plain (sd_outstanding (fill_window s)).
Proof.
  unfold fill_window. destruct (fill_loop _ s) as [s'|] eqn:E; [by apply (fill_loop_plain _ _ _ E)|done].
Qed.

Lemma honest_at_same isn S seg seg' a : same_data seg seg' -> honest_at isn S seg a -> honest_at isn S seg' a.
Proof.
  intros (Eq & Es & Ef & Ep & Hty) [Hseq Ha Hsyn Hpl Hfin _].
  split; unfold length_in_sequence_space in *; rewrite ?Eq, ?Es, ?Ef, ?Ep; done.
Qed.

Lemma stamp_length r seg : length_in_sequence_space (stamp r seg) = length_in_sequence_space seg.
Proof. unfold stamp. by destruct (rcv_ackno r). Qed.
Lemma stamp_rst r seg : rst (header (stamp r seg)) = rst (header seg).
Proof. unfold stamp. by destruct (rcv_ackno r). Qed.
Lemma stamp_honest isn S r seg a : honest_at isn S seg a -> honest_at isn S (stamp r seg) a.
Proof. intros H. eapply honest_at_same; [|exact H]. apply same_data_stamp, H. Qed.

(** ** What a queue does to the receiver

    [O] are the segments that the receiver at number [a] has still to get: they
    are in the queue in this order, among segments that are empty or old. *)
Section Queue.
Context (isn : WrappingInt32) (S : list byte).

Fixpoint feeds (a : Z) (q O : list TCPSegment) : Prop :=
  match q with
  | [] => O = []
  | seg :: q' =>
      rst (header seg) = false /\ exists p, honest_at isn S seg p /\
      ((exists o O', O = o :: O' /\ p = a /\ length_in_sequence_space seg = length_in_sequence_space o /\
          0 < length_in_sequence_space seg /\ feeds (a + length_in_sequence_space seg) q' O') \/
       (0 < length_in_sequence_space seg /\ p + length_in_sequence_space seg <= a /\ feeds a q' O) \/
       (length_in_sequence_space seg = 0 /\ p = a /\ feeds a q' O))
  end.

Lemma seq_total_cons seg segs : seq_total (seg :: segs) = length_in_sequence_space seg + seq_total segs.
Proof. done. Qed.

Lemma seq_total_app l l' : seq_total (l ++ l') = seq_total l + seq_total l'.
Proof. induction l as [|x l IH]; [done|]. cbn [app]. rewrite !seq_total_cons, IH. lia. Qed.

(** New segments are transmitted. *)
Lemma feeds_send r segs : forall a q O c,
  feeds a q O -> chain isn S (a + seq_total O) segs c -> Forall plain segs ->
  feeds a (q ++ map (stamp r) segs) (O ++ segs).
Proof.
  intros a q. revert a. induction q as [|x q IH]; intros a O c Hf Hc Hp; cbn [app feeds] in *.
  - subst O. cbn [app]. rewrite Z.add_0_r in Hc. revert a c Hc. induction Hp as [|seg segs [Hr _] _ IHs]; intros a c Hc; [done|].
    destruct Hc as (Hh & Hl & Hc). cbn [map feeds]. split; [by rewrite stamp_rst|].
    exists a. split; [by apply stamp_honest|]. left. exists seg, segs. rewrite !stamp_length.
    split_and!; try done. by eapply IHs.
  - destruct Hf as (Hr & p & Hh & Hcase). split; [done|]. exists p. split; [done|].
    destruct Hcase as [(o & O' & -> & -> & El & Hl & Hf)|[(Hl & Hold & Hf)|(Hl & -> & Hf)]].
    + left. exists o, (O' ++ segs). split_and!; try done. eapply IH; [done| |done].
      rewrite seq_total_cons, <- El in Hc. by rewrite Z.add_assoc in Hc.
    + right; left. split_and!; [done..|]. by eapply IH.
    + right; right. split_and!; [done..|]. by eapply IH.
Qed.

(** A segment already transmitted, or an empty one at the next number, is transmitted. *)
Lemma feeds_old r seg p : forall q a O,
  feeds a q O -> honest_at isn S seg p -> rst (header seg) = false ->
  (0 < length_in_sequence_space seg /\ p + length_in_sequence_space seg <= a + seq_total O \/
   length_in_sequence_space seg = 0 /\ p = a + seq_total O) ->
  feeds a (q ++ [stamp r seg]) O.
Proof.
  induction q as [|x q IH]; intros a O Hf Hh Hr Hold; cbn [app feeds] in *.
  - subst O. cbn in Hold. rewrite Z.add_0_r in Hold. split; [by rewrite stamp_rst|]. exists p.
    rewrite stamp_length. split; [by apply stamp_honest|]. right.
    destruct Hold as [[? ?]|[? ?]]; [by left|by right].
  - destruct Hf as (Hrx & px & Hhx & Hcase). split; [done|]. exists px. split; [done|].
    destruct Hcase as [(o & O' & -> & -> & El & Hl & Hf)|[(Hl & Ho & Hf)|(Hl & Ho & Hf)]].
    + left. exists o, O'. split_and!; try done. apply IH; try done.
      rewrite seq_total_cons, <- El in Hold. destruct Hold as [[? ?]|[? ?]]; [left|right]; lia.
    + right; left. split_and!; [done..|]. by apply IH.
    + right; right. split_and!; [done..|]. by apply IH.
Qed.
End Queue.

(** ** Old segments at the receiver *)

Section Receive.
Context (isn : WrappingInt32) (Hisn : winv isn) (S : list byte) (HS : zlen S < 2 ^ 31 - 4).
Context (rcap : Z) (Hrcap : 0 < rcap < 2 ^ 31).
Abbreviation Received := (Received isn S rcap).

(** A push of bytes below the next index changes nothing. *)
Lemma push_old hist r w out data index eof :
  Good S hist r w out -> (forall k, 0 <= k -> known r k -> k < sr_next_index r) ->
  good_push S r data index eof -> 0 <= index -> index + zlen data <= sr_next_index r ->
  let r' := push_substring data index eof r in
  sr_next_index r' = sr_next_index r /\ (forall k, 0 <= k -> known r' k -> k < sr_next_index r').
Proof.
  intros Hg Hk Hp H0 Hold. cbv zeta. pose proof (good_inv _ _ _ _ _ Hg) as HI.
  destruct Hp as (Hidx & Hex & Hfit & _). pose proof (inv_nonneg _ _ _ _ HI) as Hn0.
  destruct (push_known S ltac:(lia) r w _ data index eof HI (good_window _ _ _ _ _ Hg) Hidx Hex Hfit)
    as (Hkn & Hf & _ & Hmono).
  set (r' := push_substring _ _ _ _) in *. clearbody r'.
  assert (Hiff : forall k, 0 <= k -> known r' k -> k < sr_next_index r).
  { intros k Hk0 Hkk. apply Hkn in Hkk as [Hr|?]; [by apply Hk|lia|done]. }
  assert (E : sr_next_index r' = sr_next_index r).
  { destruct (Z.lt_ge_cases (sr_next_index r) (sr_next_index r')); [|lia].
    assert (Hbad : known r' (sr_next_index r)) by (left; lia). apply Hiff in Hbad; lia. }
  split; [done|]. rewrite E. done.
Qed.

(** An old segment lies below the next index. *)
Lemma old_below a r out seg p :
  Received a r out -> honest_at isn S seg p -> 0 < length_in_sequence_space seg ->
  p + length_in_sequence_space seg <= a ->
  let index := if syn (header seg) then p else p - 1 in
  rc_if_syn_set r = true /\ (fin (header seg) = true -> rc_if_fin_set r = true) /\
  0 <= index /\ index + zlen (str (payload seg)) <= sr_next_index (rc_reassembler r).
Proof.
  intros HR Hh Hl Hold. cbv zeta. pose proof (re_next _ _ _ _ _ _ HR) as Hn.
  destruct (re_good _ _ _ _ _ _ HR) as (hist & w & Hg). pose proof (inv_next _ _ _ _ (good_inv _ _ _ _ _ Hg)) as Hn1.
  pose proof (ha_range _ _ _ _ Hh) as Hp. pose proof (ha_syn _ _ _ _ Hh ltac:(lia)) as Hsyn.
  destruct (rc_if_syn_set r) eqn:Es; [|pose proof (re_syn _ _ _ _ _ _ HR Es); lia].
  assert (Hfin : fin (header seg) = true -> rc_if_fin_set r = true).
  { intros E. pose proof (ha_fin _ _ _ _ Hh E). destruct (rc_if_fin_set r); [done|lia]. }
  pose proof (ha_payload _ _ _ _ Hh) as Hex.
  assert (Hend : str (payload seg) <> [] -> (if syn (header seg) then p else p - 1) + zlen (str (payload seg)) <= zlen S).
  { intros Hne. apply excerpt_length in Hex; [|done]. destruct (syn (header seg)); [|lia].
    destruct Hsyn as [Hsyn _]. specialize (Hsyn eq_refl). lia. }
  pose proof (re_end _ _ _ _ _ _ HR) as Hre. unfold length_in_sequence_space in *.
  split_and!; [done|done|..].
  - destruct (syn (header seg)); [lia|]. destruct (Z.eq_dec p 0) as [->|]; [|lia].
    destruct Hsyn as [_ Hsyn]. by specialize (Hsyn eq_refl).
  - destruct (rc_if_fin_set r).
    + rewrite (Hre eq_refl). destruct (str (payload seg)) eqn:Ep; [|apply Hend; done].
      cbn [length] in *. destruct (syn (header seg)); [destruct Hsyn as [Hsyn _]; specialize (Hsyn eq_refl); lia|].
      destruct (fin (header seg)) eqn:Ef; [|cbn in Hl; lia]. pose proof (ha_fin _ _ _ _ Hh Ef). lia.
    + destruct (fin (header seg)); [by specialize (Hfin eq_refl)|].
      destruct (syn (header seg)); [destruct Hsyn as [Hsyn _]; specialize (Hsyn eq_refl)|]; lia.
Qed.

(** Old and empty segments are without effect. *)
Lemma receive_old a r out seg p :
  Received a r out -> honest_at isn S seg p ->
  length_in_sequence_space seg = 0 \/ p + length_in_sequence_space seg <= a ->
  Received a (segment_received seg r) out.
Proof.
  intros HR Hh Hold. pose proof HR as [(hist & w & Hg) Hsy Hfk [Hc1 Hc2] Hk Hn Hs He Hend].
  destruct (segment_received_flags seg r) as (Fs & Ff & Fc & Fc').
  destruct (segment_received_at isn Hisn S HS seg p r Hsy Hh) as [Hsy' Hcase].
  pose proof (length_seq_nonneg seg) as Hl0.
  destruct (Z.eq_dec (length_in_sequence_space seg) 0) as [El|El].
  { assert (Hns : syn (header seg) = false /\ fin (header seg) = false).
    { unfold length_in_sequence_space in El. destruct (syn _), (fin _); split; (done || lia). }
    destruct Hns as [Es Ef]. rewrite Es, orb_false_r in Fs. rewrite Ef, orb_false_r in Ff.
    assert (Er : rc_reassembler (segment_received seg r) = rc_reassembler r).
    { unfold segment_received. rewrite Es, Ef, !andb_false_r, El. done. }
    split; rewrite ?Er, ?Fs, ?Ff, ?Fc; try done; [by eauto|].
    apply segment_received_fin_known with (isn := isn); [done..|by exists p|done|]. rewrite Fs, Ff. apply Hfk. }
  destruct (old_below a r out seg p HR Hh ltac:(lia) ltac:(lia)) as (Hset & Hfin & Hi0 & Hbelow).
  rewrite Hset in Fs. cbn [orb] in Fs. assert (Ff' : rc_if_fin_set (segment_received seg r) = rc_if_fin_set r).
  { rewrite Ff. destruct (fin (header seg)); [rewrite (Hfin eq_refl); done|by rewrite orb_false_r]. }
  destruct Hcase as [[[?|?] _]|(Hi & _ & Hf & Er)]; [lia|congruence|].
  pose proof (ha_payload _ _ _ _ Hh) as Hpl.
  set (index := if syn (header seg) then p else p - 1) in *. clearbody index.
  pose proof (good_inv _ _ _ _ _ Hg) as HI. pose proof (inv_window _ _ _ _ HI) as [Hw _].
  assert (Hp : good_push S (rc_reassembler r) (str (payload seg)) index (fin (header seg))).
  { split_and!; [done..|unfold fits_window; lia|]. intros E. split; [auto|right; lia]. }
  destruct (push_old hist _ w out _ _ _ Hg Hk Hp Hi0 Hbelow) as [En Hk'].
  destruct (Good_push S ltac:(lia) hist _ w out _ _ _ Hg Hp) as [bs Hg'].
  destruct (push_ended (str (payload seg)) index (fin (header seg)) (rc_reassembler r)) as [He' _].
  rewrite <- Er in En, Hk', Hg', He'.
  split; rewrite ?Fs, ?Ff', ?Fc, ?Fc', ?En, ?Hset in *; try done; [by eauto| |].
  - apply segment_received_fin_known with (isn := isn); [done..|by exists p|done|]. by rewrite Fs.
  - rewrite He'. destruct (fin (header seg)); [symmetry; auto|done].
Qed.

(** The head of the queue is received; an empty one bears the next number. *)
Lemma receive_feeds a r out seg q O :
  Received a r out -> feeds isn S a (seg :: q) O -> a + seq_total O - 1 <= zlen out + rcap ->
  exists a' O1 O', O = O1 ++ O' /\ a' = a + seq_total O1 /\ Received a' (segment_received seg r) out /\
    feeds isn S a' q O' /\
    (0 < length_in_sequence_space seg \/
     length_in_sequence_space seg = 0 /\ a' = a /\ seqno (header seg) = wrap a isn).
Proof.
  intros HR (_ & p & Hh & Hcase) Hroom. pose proof (seq_total_nonneg O).
  destruct Hcase as [(o & O' & -> & -> & El & Hl & Hf)|[(Hl & Hold & Hf)|(Hl & -> & Hf)]].
  - exists (a + length_in_sequence_space seg), [o], O'. rewrite seq_total_cons in *. cbn [app seq_total foldr].
    pose proof (seq_total_nonneg O'). split_and!; [done|cbn; lia| |done|by left].
    apply receive_next; try done. lia.
  - exists a, [], O. split_and!; [done|cbn; lia|eapply receive_old; eauto|done|by left].
  - exists a, [], O. split_and!; [done|cbn; lia|eapply receive_old; eauto|done|].
    right. split_and!; [done..|]. apply (ha_seqno _ _ _ _ Hh).
Qed.
End Receive.

(** ** Acknowledgments on their way back

    The queue [q] of the other side, handled by a sender whose last number
    acknowledged is [a], leaves it with [b]: the numbers in between are no larger
    and the windows at most [cap]. *)
Fixpoint acks (isn : WrappingInt32) (cap a : Z) (q : list TCPSegment) (b : Z) : Prop :=
  match q with
  | [] => a = b
  | seg :: q' =>
      if ack (header seg) then
        exists n, ackno (header seg) = wrap n isn /\ 0 <= n <= b /\ 0 <= win (header seg) <= cap /\
          is_u16 (win (header seg)) /\ acks isn cap n q' b
      else acks isn cap a q' b
  end.

Lemma acks_plain isn cap segs : forall a, Forall plain segs -> acks isn cap a segs a.
Proof. intros a H. induction H as [|seg segs [_ Ha] _ IH]; [done|]. cbn. by rewrite Ha. Qed.

Section Stamp.
Context (isn : WrappingInt32) (S : list byte) (HS : zlen S < 2 ^ 31 - 4) (cap : Z).

Lemma received_window b r out : Received isn S cap b r out -> 0 <= window_size r <= cap.
Proof.
  intros HR. destruct (re_caps _ _ _ _ _ _ HR) as [Ec Ec']. destruct (re_good _ _ _ _ _ _ HR) as (h & w & Hg).
  destruct (inv_window _ _ _ _ (good_inv _ _ _ _ _ Hg)) as ([Hw _] & [Hb _] & _ & Ew).
  unfold window_size, rcv_stream_out, stream_out. rewrite Ec, <- Ec', Ew. unfold window in *. lia.
Qed.

Lemma received_none r out : Received isn S cap 0 r out -> rcv_ackno r = None.
Proof.
  intros HR. unfold rcv_ackno. destruct (rc_if_syn_set r) eqn:Es; [|done].
  pose proof (re_next _ _ _ _ _ _ HR) as Hn. rewrite Es in Hn. destruct (re_good _ _ _ _ _ _ HR) as (h & w & Hg).
  pose proof (inv_nonneg _ _ _ _ (good_inv _ _ _ _ _ Hg)). destruct (rc_if_fin_set r); lia.
Qed.

Lemma received_start r out seg : Received isn S cap 0 r out -> stamp r seg = seg.
Proof. intros HR. unfold stamp. by rewrite (received_none _ _ HR). Qed.

Lemma stamp_fields b r out seg : Received isn S cap b r out -> b <> 0 ->
  ack (header (stamp r seg)) = true /\ ackno (header (stamp r seg)) = wrap b isn /\
  0 <= win (header (stamp r seg)) <= cap /\ is_u16 (win (header (stamp r seg))).
Proof.
  intros HR Hb. pose proof (received_window _ _ _ HR) as Hw. unfold stamp.
  rewrite (received_ackno isn S HS cap b r out HR Hb). cbn [header ack ackno win].
  rewrite u16_small by word_lia. split_and!; (done || word_lia).
Qed.

(** Segments [segs] are transmitted by a connection whose receiver is at [b']. *)
Lemma acks_send b' r out segs : Received isn S cap b' r out -> Forall plain segs ->
  forall q a b, 0 <= b <= b' -> (b' <> b -> segs <> []) -> acks isn cap a q b ->
  acks isn cap a (q ++ map (stamp r) segs) b'.
Proof.
  intros HR Hp. induction q as [|x q IH]; intros a b Hb Hne Ha; cbn [acks app] in *.
  - subst b. destruct (Z.eq_dec b' 0) as [->|Hb'].
    { replace a with 0 by lia. rewrite (map_ext _ id), map_id; [by apply acks_plain|].
      intros seg. by eapply received_start. }
    revert a Hb Hne. induction Hp as [|seg segs _ _ IHs]; intros a Hb Hne; cbn [map acks].
    + destruct (Z.eq_dec b' a); [done|by destruct Hne].
    + destruct (stamp_fields b' r out seg HR Hb') as (-> & En & Hw & Hu). exists b'.
      do 4 (split; [done || lia|]). apply IHs; [lia|done].
  - destruct (ack (header x)); [|by apply (IH _ _ Hb Hne)].
    destruct Ha as (n & En & Hn & Hw & Hu & Ha). exists n.
    do 4 (split; [done || lia|]). by apply (IH _ _ Hb Hne).
Qed.
End Stamp.

(** ** One direction *)

(** The first number in flight. *)
Definition una (s : TCPSender) : Z := sd_next_seqno s - seq_total (sd_outstanding s).

(** The sender has sent what it could. *)
Definition filled (s : TCPSender) : Prop :=
  window_edge s <= sd_next_seqno s \/
  bs_buffer (sd_stream s) = [] /\ (bs_input_ended (sd_stream s) = true -> sd_is_fin_set s = true).

Section Direction.
Context (isn : WrappingInt32) (Hisn : winv isn) (S : list byte) (HS : zlen S < 2 ^ 31 - 4).
Context (rcap : Z) (Hrcap : 0 < rcap < 2 ^ 31).
Abbreviation Received := (Received isn S rcap).

(** The sender [s], which has still to be given [pending], the queue [q] that
    leads from it to the receiver [r], and the number [R] that [r] expects.  Of
    what is in flight the part [O1] has arrived and [O2] is in the queue. *)
Record Flow (s : TCPSender) (pending : list byte) (q : list TCPSegment) (r : TCPReceiver) (out : list byte)
    (R : Z) : Prop := {
  fl_sender : exists W rd, SInv s W rd /\ W ++ pending = S;
  fl_isn : sd_isn s = isn;
  fl_cap : 1 <= bs_capacity (sd_stream s);
  fl_ended : bs_input_ended (sd_stream s) = true -> pending = [];
  fl_syn : sd_is_syn_set s = true;
  fl_out : sd_segments_out s = [];
  fl_received : Received R r out;
  fl_flight : exists O1 O2, sd_outstanding s = O1 ++ O2 /\ feeds isn S R q O2 /\
    sd_next_seqno s = R + seq_total O2 /\ (sd_recent_abs_ackno s = R -> O1 = []);
  fl_plain : Forall plain (sd_outstanding s);
  fl_recent : 0 <= sd_recent_abs_ackno s <= R;
  fl_window : 1 <= sd_window_size s <= rcap;
  fl_room : sd_next_seqno s <= R + rcap
}.

Lemma sender_chain s W rd pending :
  SInv s W rd -> W ++ pending = S -> (bs_input_ended (sd_stream s) = true -> pending = []) ->
  0 <= una s /\ chain (sd_isn s) S (una s) (sd_outstanding s) (sd_next_seqno s) /\
  sd_bytes_in_flight s = seq_total (sd_outstanding s).
Proof.
  intros HI EW Hend. destruct (si_chain _ _ _ HI) as (u & Hu & Hc & Hb).
  pose proof (chain_total _ _ _ _ _ Hc) as Ht. unfold una.
  replace (sd_next_seqno s - seq_total (sd_outstanding s)) with u by lia. split_and!; [done| |lia].
  rewrite <- EW. apply chain_app; [|done]. eapply Forall_impl; [apply (si_flight _ _ _ HI)|].
  intros x [_ Hx] E. apply Hend. by destruct (si_fin _ _ _ HI (Hx E)).
Qed.

Section Steps.
Context (s : TCPSender) (pending : list byte) (q : list TCPSegment) (r : TCPReceiver) (out : list byte) (R : Z).
Context (HF : Flow s pending q r out R).

Lemma flow_chain : 0 <= una s <= R /\ chain isn S (una s) (sd_outstanding s) (sd_next_seqno s) /\
  (sd_recent_abs_ackno s = R -> una s = R).
Proof using HF.
  destruct (fl_sender _ _ _ _ _ _ HF) as (W & rd & HI & EW).
  destruct (sender_chain s W rd pending HI EW (fl_ended _ _ _ _ _ _ HF)) as (Hu & Hc & _).
  rewrite (fl_isn _ _ _ _ _ _ HF) in Hc. destruct (fl_flight _ _ _ _ _ _ HF) as (O1 & O2 & Eo & _ & En & Hr).
  unfold una in *. rewrite Eo, seq_total_app in *. pose proof (seq_total_nonneg O1).
  split_and!; [done|lia|done|]. intros ->%Hr. cbn. lia.
Qed.

Lemma flow_bounds : 0 <= R <= sd_next_seqno s /\ sd_next_seqno s <= zlen S + 2.
Proof using HF.
  destruct (fl_sender _ _ _ _ _ _ HF) as (W & rd & HI & EW). pose proof (SInv_next_bound W s rd HI).
  assert (zlen W <= zlen S) by (rewrite <- EW, length_app; lia). pose proof (fl_recent _ _ _ _ _ _ HF).
  destruct (fl_flight _ _ _ _ _ _ HF) as (O1 & O2 & _ & _ & En & _). pose proof (seq_total_nonneg O2). lia.
Qed.

(** The window is filled and the new segments transmitted. *)
Lemma flow_fill rr :
  let s' := fill_window s in
  Flow (with_segments_out [] s') pending (q ++ map (stamp rr) (sd_segments_out s')) r out R /\
  filled s' /\ Forall plain (sd_segments_out s') /\
  sd_recent_abs_ackno s' = sd_recent_abs_ackno s /\ sd_consecutive s' = sd_consecutive s /\ una s' = una s /\
  sd_next_seqno s <= sd_next_seqno s' /\ (sd_next_seqno s = zlen S + 2 -> sd_segments_out s' = []).
Proof using HF HS Hrcap.
  cbv zeta. pose proof flow_bounds as Hb. pose proof HF as [(W & rd & HI & EW) Hi Hcap Hend Hsyn Ho HR
    (O1 & O2 & Eo & Hf & En & Hr) Hpl Hrec Hwin Hroom].
  assert (HlW : zlen W <= zlen S) by (rewrite <- EW, length_app; lia).
  destruct (fill_window_spec W ltac:(lia) s rd HI) as (rd' & HI' & Hfd).
  pose proof (fill_window_capacity s) as Ecap. pose proof (fill_window_plain s Hpl) as Hpl'.
  set (s' := fill_window s) in *. clearbody s'.
  destruct Hfd as [(segs & Es & Eout & En' & _) (Ei & _ & Ec & _) [Erec Ewin] Ee Hbd Hsyn' Hfull].
  rewrite Ho in Es. cbn [app] in Es. rewrite Hsyn in Hbd.
  destruct (sender_chain s' W rd' pending HI' EW ltac:(by rewrite Ee)) as (Hu & Hc & _).
  rewrite Ei, Hi in Hc. assert (Eu : una s' = una s).
  { unfold una. rewrite Eout, En', seq_total_app. lia. }
  assert (Hseg : Forall plain segs) by (rewrite Eout in Hpl'; by apply Forall_app in Hpl' as [_ ?]).
  pose proof (chain_drop _ _ _ (length (sd_outstanding s)) _ _ Hc) as Hcs.
  rewrite Eout, take_app_length, drop_app_length, Eu in Hcs. unfold una in Hcs at 1.
  replace (sd_next_seqno s - seq_total (sd_outstanding s) + seq_total (sd_outstanding s)) with (sd_next_seqno s) in Hcs by lia.
  assert (Eedge : window_edge s = sd_recent_abs_ackno s + sd_window_size s)
    by (unfold window_edge; rewrite u64_small; word_lia).
  assert (Hfill : filled s').
  { unfold filled. destruct Hfull as [?|?]; [left|by right]. unfold window_edge in *. by rewrite Erec, Ewin. }
  rewrite Es. split_and!; try done.
  - split; cbn [with_segments_out sd_isn sd_stream sd_is_syn_set sd_segments_out sd_outstanding sd_next_seqno
      sd_recent_abs_ackno sd_window_size]; rewrite ?Ei, ?Ee, ?Ecap, ?Erec, ?Ewin; try done.
    + exists W, rd'. split; [|done]. apply with_segments_out_inv; [done|]. intros x Hx. by apply elem_of_nil in Hx.
    + exists O1, (O2 ++ segs). rewrite Eout, Eo, app_assoc, seq_total_app. split_and!; [done| |lia|done].
      eapply feeds_send; [done| |done]. rewrite <- En. exact Hcs.
    + lia.
  - lia.
  - intros Hlast. apply (chain_empty _ _ _ _ _ Hcs).
    pose proof (SInv_next_bound W s' rd' HI'). lia.
Qed.

(** What an acknowledgment of [n], at most [R], leaves in flight. *)
Lemma drop_acked_prefix n b O2 : forall O1 u,
  chain isn S u (O1 ++ O2) b -> n <= u + seq_total O1 ->
  exists u' O1', drop_acked n u (O1 ++ O2) = (u', O1' ++ O2) /\ (n = u + seq_total O1 -> O1' = []).
Proof using Type.
  induction O1 as [|o O1 IH]; intros u Hc Hn.
  - exists u, []. split; [|done]. destruct O2 as [|o O2]; [done|]. cbn in Hc, Hn |- *. destruct Hc as (_ & Hl & _).
    rewrite (proj2 (Z.leb_gt _ _)) by lia. done.
  - cbn [app chain] in Hc. destruct Hc as (_ & Hl & Hc). rewrite seq_total_cons in *. cbn [app drop_acked].
    destruct (_ <=? n) eqn:E; bool_prop.
    + destruct (IH _ Hc ltac:(lia)) as (u' & O1' & -> & Hz). exists u', O1'. split; [done|]. intros ->. apply Hz. lia.
    + exists u, (o :: O1). split; [done|]. intros ->. pose proof (seq_total_nonneg O1). lia.
Qed.

(** An acknowledgment arrives: it is the most recent one; if it removes anything,
    the count of retransmissions is cleared. *)
Lemma flow_ack n w : 0 <= n <= R -> 0 <= w <= rcap -> is_u16 w ->
  let s' := ack_received (wrap n isn) w s in
  Flow s' pending q r out R /\ sd_recent_abs_ackno s' = n /\ sd_next_seqno s' = sd_next_seqno s /\
  (una s' = una s /\ sd_consecutive s' = sd_consecutive s \/ sd_consecutive s' = 0).
Proof using HF HS Hisn Hrcap.
  intros Hn Hw Hu. cbv zeta. pose proof flow_bounds as Hb. pose proof flow_chain as (Hu0 & Hc & _).
  pose proof HF as [(W & rd & HI & EW) Hi Hcap Hend Hsyn Ho HR (O1 & O2 & Eo & Hf & En & Hr) Hpl Hrec Hwin Hroom].
  assert (HlW : zlen W <= zlen S) by (rewrite <- EW, length_app; lia).
  pose proof (ack_received_inv W ltac:(lia) (wrap n isn) w s rd HI (winv_wrap _ _) Hu) as HI'.
  rewrite ack_received_eq, Hi in *. rewrite unwrap_wrap_near in * by (done || word_lia).
  rewrite <- Hi in Hc. pose proof (acked_count_exact s S n _ _ Hc (si_isn _ _ _ HI) (proj1 Hu0) ltac:(lia) ltac:(lia) ltac:(lia)) as Hk.
  rewrite Eo in Hk, Hc. rewrite Hi in Hc. assert (Eu : una s + seq_total O1 = R) by (unfold una; rewrite Eo, seq_total_app; lia).
  destruct (drop_acked_prefix n _ O2 O1 (una s) Hc ltac:(lia)) as (u' & O1' & Ed & Hz). rewrite Ed in Hk.
  rewrite Eo in *. set (k := acked_count n s (O1 ++ O2)) in *. injection Hk as _ Hk.
  assert (Eout : sd_outstanding (acked k s) = O1' ++ O2) by (rewrite Hk, <- Eo; by destruct k).
  split_and!; try done.
  - split; cbn [sd_isn sd_stream sd_is_syn_set sd_segments_out sd_outstanding sd_next_seqno
      sd_recent_abs_ackno sd_window_size]; rewrite ?Eout in *; try done.
    + by exists W, rd.
    + exists O1', O2. split_and!; try done. intros ->. apply Hz. lia.
    + rewrite Hk. by apply Forall_drop.
    + case_if; lia.
  - unfold una. cbn [sd_next_seqno sd_outstanding sd_consecutive]. rewrite Eout. destruct k; [|by right].
    left. rewrite drop_0 in Hk. by rewrite Hk, Eo.
Qed.

(** Senders that differ in timer, timeout, counter and flags alone. *)
Lemma flow_sender s' q' W rd :
  SInv s' W rd -> W ++ pending = S -> sd_isn s' = sd_isn s -> sd_stream s' = sd_stream s ->
  sd_is_syn_set s' = sd_is_syn_set s -> sd_segments_out s' = [] -> sd_outstanding s' = sd_outstanding s ->
  sd_next_seqno s' = sd_next_seqno s -> sd_recent_abs_ackno s' = sd_recent_abs_ackno s ->
  sd_window_size s' = sd_window_size s ->
  (forall O2, feeds isn S R q O2 -> sd_next_seqno s = R + seq_total O2 -> feeds isn S R q' O2) ->
  Flow s' pending q' r out R.
Proof using HF.
  intros HI EW E1 E2 E3 E4 E5 E6 E7 E8 Hq. destruct HF as [_ Hi Hcap Hend Hsyn Ho HR (O1 & O2 & Eo & Hf & En & Hr) Hpl Hrec Hwin Hroom].
  split; rewrite ?E1, ?E2, ?E3, ?E4, ?E5, ?E6, ?E7, ?E8; try done; [by exists W, rd|].
  exists O1, O2. split_and!; try done. by apply Hq.
Qed.

(** Empty segments are transmitted. *)
Definition empty_segment : TCPSegment :=
  mkTCPSegment (seg_header (wrap (sd_next_seqno s) (sd_isn s)) false false) Buffer_default.

Lemma flow_empties rr k : Flow s pending (q ++ map (stamp rr) (replicate k empty_segment)) r out R.
Proof using HF.
  destruct (fl_sender _ _ _ _ _ _ HF) as (W & rd & HI & EW).
  apply (flow_sender s _ W rd); try done; [apply (fl_out _ _ _ _ _ _ HF)|]. intros O2 Hf En.
  pose proof flow_bounds as Hb.
  assert (He : honest_at isn S empty_segment (sd_next_seqno s)).
  { unfold empty_segment. split; cbn; try done; [by rewrite (fl_isn _ _ _ _ _ _ HF)|lia]. }
  induction k as [|k IH]; [by rewrite app_nil_r|]. rewrite replicate_S_end, map_app, app_assoc.
  apply (feeds_old isn S rr empty_segment _ _ _ _ IH He); [done|]. by right.
Qed.

(** The oldest segment in flight is transmitted again. *)
Lemma flow_resend rr seg rest s' W rd :
  sd_outstanding s = seg :: rest ->
  SInv s' W rd -> W ++ pending = S -> sd_isn s' = sd_isn s -> sd_stream s' = sd_stream s ->
  sd_is_syn_set s' = sd_is_syn_set s -> sd_segments_out s' = [] -> sd_outstanding s' = sd_outstanding s ->
  sd_next_seqno s' = sd_next_seqno s -> sd_recent_abs_ackno s' = sd_recent_abs_ackno s ->
  sd_window_size s' = sd_window_size s ->
  Flow s' pending (q ++ [stamp rr seg]) r out R.
Proof using HF.
  intros Eo HI EW E1 E2 E3 E4 E5 E6 E7 E8. eapply flow_sender; try done. intros O2 Hf En.
  pose proof flow_chain as (_ & Hc & _). pose proof (fl_plain _ _ _ _ _ _ HF) as Hp. rewrite Eo in Hc, Hp.
  destruct Hc as (Hh & Hl & Hc%chain_le). apply Forall_inv in Hp as [Hr _].
  apply (feeds_old isn S rr seg (una s)); try done. left. lia.
Qed.

(** The other side receives the head of the queue. *)
Lemma flow_receive seg q' : q = seg :: q' -> sd_next_seqno s - 1 <= zlen out + rcap ->
  exists R', R <= R' /\ Flow s pending q' (segment_received seg r) out R' /\ rst (header seg) = false /\
    (0 < length_in_sequence_space seg \/
     length_in_sequence_space seg = 0 /\ R' = R /\ seqno (header seg) = wrap R isn).
Proof using HF HS Hisn Hrcap.
  intros Eq Hroom'. pose proof flow_chain as (_ & Hc & _). pose proof HF as [Hs Hi Hcap Hend Hsyn Ho HR (O1 & O2 & Eo & Hf & En & Hr) Hpl Hrec Hwin Hroom].
  rewrite Eq in Hf. pose proof Hf as [Hrst _].
  destruct (receive_feeds isn Hisn S HS rcap R r out seg q' O2 HR Hf ltac:(lia)) as (R' & O' & O2' & -> & ER & HR' & Hf' & Hcase).
  pose proof (seq_total_nonneg O'). exists R'. split_and!; [lia| |done|done].
  split; try done; [|lia..]. rewrite seq_total_app in En.
  exists (O1 ++ O'), O2'. rewrite Eo, app_assoc. split_and!; [done..|lia|]. intros Hrr.
  assert (E0 : R' = R) by lia. rewrite (Hr ltac:(lia)). cbn.
  rewrite Eo, (Hr ltac:(lia)) in Hc. cbn [app] in Hc. destruct O' as [|o O']; [done|].
  destruct Hc as (_ & Hl & _). rewrite seq_total_cons in ER. pose proof (seq_total_nonneg O'). lia.
Qed.

(** What is in flight fits, when everything received has been read. *)
Lemma flow_fits : out = take (Z.to_nat (sr_next_index (rc_reassembler r))) S -> sd_next_seqno s - 1 <= zlen out + rcap.
Proof using HF HS Hrcap.
  intros Eout. pose proof (fl_received _ _ _ _ _ _ HF) as HR. pose proof flow_bounds as Hb.
  pose proof (fl_room _ _ _ _ _ _ HF) as Hroom. pose proof (re_next _ _ _ _ _ _ HR) as Hn.
  destruct (re_good _ _ _ _ _ _ HR) as (h & w & Hg). pose proof (good_inv _ _ _ _ _ Hg) as HIr.
  pose proof (inv_nonneg _ _ _ _ HIr) as Hn0. pose proof (inv_next _ _ _ _ HIr) as Hn1.
  pose proof (re_end _ _ _ _ _ _ HR) as Hend. rewrite Eout, length_take.
  destruct (rc_if_fin_set r); [specialize (Hend eq_refl); lia|]. destruct (rc_if_syn_set r); lia.
Qed.

(** The application on the other side reads everything. *)
Lemma flow_read data o : read (buffer_size (rcv_stream_out r)) (rcv_stream_out r) = (data, o) ->
  let r' := with_stream_out o r in
  Flow s pending q r' (out ++ data) R /\ out ++ data = take (Z.to_nat (sr_next_index (rc_reassembler r))) S /\
  (R = zlen S + 2 -> eof o = true).
Proof using HF HS Hrcap.
  intros Er. cbv zeta. pose proof (fl_received _ _ _ _ _ _ HF) as HR.
  pose proof (read_everything isn S HS rcap Hrcap R r out HR) as Hread. rewrite Er in Hread.
  destruct Hread as (HR' & _ & Eout & Heof). split; [by destruct HF|]. split; [done|]. intros ->. apply Heof.
  pose proof (re_next _ _ _ _ _ _ HR) as Hn. destruct (re_good _ _ _ _ _ _ HR) as (h & w & Hg).
  pose proof (inv_next _ _ _ _ (good_inv _ _ _ _ _ Hg)). destruct (rc_if_fin_set r), (rc_if_syn_set r); (done || lia).
Qed.

(** The application on this side writes [d], or ends the stream. *)
Lemma flow_stream st d pending' :
  pending = d ++ pending' -> (forall W rd, Represents (sd_stream s) W rd -> Represents st (W ++ d) rd) ->
  bs_capacity st = bs_capacity (sd_stream s) ->
  (bs_input_ended (sd_stream s) = true -> bs_input_ended st = true) ->
  (bs_input_ended st = true -> pending' = []) ->
  Flow (with_stream_in st s) pending' q r out R.
Proof using HF.
  intros Ep HR Ec Hmono Hend'. destruct HF as [(W & rd & HI & EW) Hi Hcap Hend Hsyn Ho HRr Hfl Hpl Hrec Hwin Hroom].
  split; cbn [with_stream_in sd_isn sd_stream sd_is_syn_set sd_segments_out sd_outstanding sd_next_seqno
    sd_recent_abs_ackno sd_window_size]; rewrite ?Ec; try done.
  exists (W ++ d), rd. split; [|by rewrite <- app_assoc, <- Ep].
  apply with_stream_inv; [done|by apply HR, (si_rep _ _ _ HI)|]. intros E. split; [|auto].
  apply Hend in E. rewrite E in Ep. by destruct d.
Qed.

(** A sender with room in its window and nothing in flight has sent everything. *)
Lemma flow_progress :
  filled s -> sd_recent_abs_ackno s = R -> (bs_buffer (sd_stream s) = [] -> bs_input_ended (sd_stream s) = true) ->
  R < sd_next_seqno s \/ sd_next_seqno s = zlen S + 2 /\ R = zlen S + 2.
Proof using HF HS Hrcap.
  intros Hfill Hrec Hb. pose proof flow_bounds as Hbd. destruct (Z.eq_dec R (sd_next_seqno s)) as [E|]; [right|left; lia].
  destruct HF as [(W & rd & HI & EW) Hi Hcap Hend Hsyn Ho HRr Hfl Hpl Hrc Hwin Hroom].
  destruct Hfill as [Hedge|[Hbuf Hfin]].
  { unfold window_edge in Hedge. rewrite u64_small in Hedge by word_lia. lia. }
  specialize (Hb Hbuf). rewrite (Hend Hb), app_nil_r in EW. specialize (Hfin Hb).
  destruct (si_fin _ _ _ HI Hfin) as [_ Hrd]. pose proof (si_next _ _ _ HI) as Hn. rewrite Hsyn, Hfin, EW in *. lia.
Qed.
End Steps.
End Direction.
