(* ===== verification/Exchange.v ===== *)
(** * Two connections joined in order

    Both directions between two connections (src/libsponge/tcp_connection.cc) whose
    segments are handed over in order: [Way] is what holds of one direction at any
    moment; [hand_over] is the delivery of a whole queue to the other side, [way_send]
    a write or the end of a stream, [way_tick] the passing of time. *)

From S2P Require Import Prelude WrappingIntegers StdMap ByteStream StreamReassembler Buffers.
From S2P Require Import TCPSegment TCPReceiver TCPSender EndToEnd Transfer TCPState TCPConnection Flow.

(** ** The handlers of a connection in closed form *)

(** The sender after the acknowledgment of [seg]. *)
Definition answer (seg : TCPSegment) (s : TCPSender) : TCPSender :=
  if ack (header seg) then fill_window (ack_received (ackno (header seg)) (win (header seg)) s) else s.

Lemma conn_segment_received_eq seg c :
  let r := segment_received seg (cn_receiver c) in
  let s := answer seg (cn_sender c) in
  rst (header seg) = false -> sd_is_syn_set (cn_sender c) = true -> sd_is_syn_set s = true ->
  exists k l, conn_segment_received seg c =
    mkConnection (cn_cfg c) r (with_segments_out [] s)
      (cn_segments_out c ++ map (stamp r) (sd_segments_out s ++ replicate k (empty_segment s))) l (cn_active c) 0 /\
    (length_in_sequence_space seg <> 0 -> k <> 0%nat) /\
    (length_in_sequence_space seg = 0 -> (forall a, rcv_ackno r = Some a -> weqb (seqno (header seg)) (wsub a 1) = false) ->
     k = 0%nat).
Proof.
  cbv zeta. intros Hrst Hsyn Hsyn'. unfold conn_segment_received, rst_phase. rewrite Hrst.
  assert (E1 : ack_phase seg (set_receiver (segment_received seg (cn_receiver c)) c) =
    set_sender (answer seg (cn_sender c)) (set_receiver (segment_received seg (cn_receiver c)) c)).
  { unfold ack_phase, answer. cbn [set_receiver cn_sender]. destruct (ack (header seg)); [|by destruct c].
    rewrite ack_received_eq. unfold is_syn_sent. cbn [set_sender cn_sender sd_is_syn_set]. by rewrite Hsyn. }
  rewrite E1. set (s := answer seg (cn_sender c)) in *. set (r := segment_received seg (cn_receiver c)).
  set (k1 := if length_in_sequence_space seg =? 0 then 0%nat else 1%nat).
  set (c0 := set_receiver r c). assert (E2 : reply_phase seg (set_sender s c0) =
    set_sender (with_segments_out (sd_segments_out s ++ replicate k1 (empty_segment s)) s) c0).
  { unfold reply_phase, k1. destruct (_ =? 0); cbn [negb].
    - cbn [replicate]. rewrite app_nil_r. by destruct s.
    - unfold is_syn_sent. cbn [set_sender cn_sender]. rewrite Hsyn'. cbn [negb]. by rewrite andb_false_r. }
  rewrite E2. set (k2 := match rcv_ackno r with
    | Some a => if (length_in_sequence_space seg =? 0) && weqb (seqno (header seg)) (wsub a 1) then 1%nat else 0%nat
    | None => 0%nat end).
  assert (E3 : keepalive_phase seg (set_sender (with_segments_out (sd_segments_out s ++ replicate k1 (empty_segment s)) s) c0) =
    set_sender (with_segments_out (sd_segments_out s ++ replicate (k1 + k2) (empty_segment s)) s) c0).
  { unfold keepalive_phase, k2. cbn [set_sender cn_receiver c0 set_receiver]. destruct (rcv_ackno r); [|by rewrite Nat.add_0_r].
    destruct (_ && _); [|by rewrite Nat.add_0_r]. by rewrite Nat.add_1_r, replicate_S_end, app_assoc. }
  rewrite E3. exists (k1 + k2)%nat.
  enough (exists l, send_segments (set_time 0 (linger_phase (set_sender (with_segments_out
    (sd_segments_out s ++ replicate (k1 + k2) (empty_segment s)) s) c0))) = mkConnection (cn_cfg c) r (with_segments_out [] s)
      (cn_segments_out c ++ map (stamp r) (sd_segments_out s ++ replicate (k1 + k2) (empty_segment s))) l (cn_active c) 0) as [l E].
  { exists l. split_and!; [done|..].
    - intros Hl. unfold k1. rewrite (proj2 (Z.eqb_neq _ _) Hl). lia.
    - intros Hl Hk. unfold k1, k2. rewrite Hl. cbn. destruct (rcv_ackno r) as [a|]; [|done]. by rewrite (Hk a eq_refl). }
  rewrite send_segments_eq. unfold linger_phase. by case_if; eexists.
Qed.

Lemma conn_tick_eq ms c s : sender_tick ms (cn_sender c) = Ok s -> sd_consecutive s <= MAX_RETX_ATTEMPTS ->
  conn_tick ms c = Ok (mkConnection (cn_cfg c) (cn_receiver c) (with_segments_out [] s)
    (cn_segments_out c ++ map (stamp (cn_receiver c)) (sd_segments_out s)) (cn_linger c)
    (cn_active c && negb (streams_finished (set_sender s c) &&
       (negb (cn_linger c) || (10 * cfg_rt_timeout (cn_cfg c) <=? u64 (cn_time c + ms))))) (u64 (cn_time c + ms))).
Proof.
  intros Es Hc. unfold conn_tick. cbn [set_time cn_sender]. rewrite Es. cbn [mbind res_bind]. unfold consecutive_retransmissions.
  cbn [set_sender cn_sender]. rewrite (proj2 (Z.ltb_ge _ _) Hc), !send_segments_eq.
  change (streams_finished (set_sender s (set_time _ c))) with (streams_finished (set_sender s c)).
  destruct (streams_finished _); cbn [andb negb]; [|by rewrite andb_true_r].
  cbn [set_sender set_time cn_linger cn_cfg cn_time]. destruct (_ || _); cbn; [by rewrite andb_false_r|by rewrite andb_true_r].
Qed.

(** ** Both directions at any moment *)

(** The data of [s], which is still to be given [pending], on its way to [r]
    through the queue [q], and the acknowledgments on their way [back]. *)
Record Way (isn : WrappingInt32) (S : list byte) (cap : Z) (s : TCPSender) (r : TCPReceiver) (pending : list byte)
    (q back : list TCPSegment) (out : list byte) (R : Z) : Prop := {
  wy_flow : Flow isn S cap s pending q r out R;
  wy_acks : acks isn cap (sd_recent_abs_ackno s) back R;
  wy_filled : filled s
}.

(** At most [c] retransmissions in a row, none since the number [u] was acknowledged. *)
Definition calm (u c : Z) (s : TCPSender) : Prop :=
  0 <= sd_consecutive s <= c /\ (u < una s -> sd_consecutive s = 0).

Definition is_empty (seg : TCPSegment) : Prop := length_in_sequence_space seg = 0.

Section OneWay.
Context (isn : WrappingInt32) (Hisn : winv isn) (S : list byte) (HS : zlen S < 2 ^ 31 - 4).
Context (cap : Z) (Hcap : 0 < cap < 2 ^ 31).

(** The sender handles the acknowledgment in the next segment. *)
Lemma way_answer seg s rr r pending q back out R u c :
  Way isn S cap s r pending q (seg :: back) out R -> calm u c s ->
  let s' := answer seg s in
  Way isn S cap (with_segments_out [] s') r pending (q ++ map (stamp rr) (sd_segments_out s')) back out R /\
  calm u c s' /\ sd_is_syn_set s' = true /\ Forall plain (sd_segments_out s') /\
  (R = zlen S + 2 -> sd_segments_out s' = []).
Proof.
  intros [HF Ha Hfill] [Hc Hc0]. cbv zeta. unfold answer. cbn [acks] in Ha. destruct (ack (header seg)).
  - destruct Ha as (n & -> & Hn & Hw & Hu & Ha).
    destruct (flow_ack isn Hisn S HS cap Hcap s pending q r out R HF n _ Hn Hw Hu) as (HF1 & Er & En & Hcase).
    set (s1 := ack_received _ _ s) in *. clearbody s1.
    destruct (flow_fill isn S HS cap Hcap s1 pending q r out R HF1 rr) as (HF2 & Hfill2 & Hp & Er2 & Ec2 & Eu2 & _ & Hlast).
    pose proof (fl_syn _ _ _ _ _ _ _ _ _ HF2) as Hsyn. set (s2 := fill_window s1) in *. clearbody s2.
    split; [split; [done|cbn; by rewrite Er2, Er|done]|]. split; [|split_and!; try done].
    + unfold calm. rewrite Ec2, Eu2. destruct Hcase as [[-> ->]| ->]; [done|lia].
    + intros ->. apply Hlast. pose proof (flow_bounds _ _ _ _ _ _ _ _ _ HF1). lia.
  - pose proof (fl_out _ _ _ _ _ _ _ _ _ HF) as Ho. pose proof (fl_syn _ _ _ _ _ _ _ _ _ HF) as Hsyn.
    rewrite Ho. cbn [map]. rewrite app_nil_r. assert (E : with_segments_out [] s = s) by (destruct s; cbn in *; by subst).
    rewrite E. done.
Qed.

(** The receiver takes the next segment and transmits [segs]. *)
Lemma way_receive seg s r pending q back out R :
  Way isn S cap s r pending (seg :: q) back out R -> sd_next_seqno s - 1 <= zlen out + cap ->
  let r' := segment_received seg r in
  rst (header seg) = false /\
  (length_in_sequence_space seg = 0 -> forall a, rcv_ackno r' = Some a -> weqb (seqno (header seg)) (wsub a 1) = false) /\
  exists R', R <= R' /\ forall segs, Forall plain segs -> (length_in_sequence_space seg <> 0 -> segs <> []) ->
    Way isn S cap s r' pending q (back ++ map (stamp r') segs) out R'.
Proof.
  intros [HF Ha Hfill] Hroom. cbv zeta. pose proof (fl_recent _ _ _ _ _ _ _ _ _ HF) as Hr.
  destruct (flow_receive isn Hisn S HS cap Hcap s pending _ r out R HF seg q eq_refl Hroom) as (R' & HR' & HF' & Hrst & Hcase).
  pose proof (fl_received _ _ _ _ _ _ _ _ _ HF') as Hrec. split_and!; [done|..].
  - intros Hl a Hack. destruct Hcase as [?|(_ & -> & ->)]; [lia|].
    destruct (Z.eq_dec R 0) as [->|HR]; [|rewrite (received_ackno isn S HS cap R _ out Hrec HR) in Hack].
    + by rewrite (received_none _ _ _ _ _ Hrec) in Hack.
    + injection Hack as <-. rewrite wsub_1. pose proof (flow_bounds _ _ _ _ _ _ _ _ _ HF).
      destruct (weqb _ _) eqn:E; [exfalso|done]. unfold weqb in E. apply Z.eqb_eq in E.
      assert (Ew : wrap R isn = wrap (R - 1) isn) by (destruct (wrap R isn), (wrap (R - 1) isn); cbn in E; by subst).
      apply (f_equal (fun n => unwrap n isn 0)) in Ew. rewrite !unwrap_wrap_near in Ew; (done || word_lia).
  - exists R'. split; [done|]. intros segs Hp Hne. split; [done| |done].
    apply (acks_send isn S HS cap R' _ out segs Hrec Hp back _ R); [lia| |done]. intros HRR. apply Hne. destruct Hcase as [?|(_ & ? & _)]; lia.
Qed.
End OneWay.

(** [A] sends [S] to [B], and [B] sends [T] to [A]. *)
Section TwoWays.
Context (ia ib : WrappingInt32) (Hia : winv ia) (Hib : winv ib).
Context (S T : list byte) (HS : zlen S < 2 ^ 31 - 4) (HT : zlen T < 2 ^ 31 - 4).
Context (ca cb : Z) (Hca : 0 < ca < 2 ^ 31) (Hcb : 0 < cb < 2 ^ 31).

(** [B] receives a segment of [A], whose queue holds [q] behind it.  Once [A] has
    everything, [B] only transmits empty segments, and none for an empty one. *)
Lemma receive_one seg sa ra B pa q pb outb outa Rb Ra u c :
  Way ia S cb sa (cn_receiver B) pa (seg :: q) (cn_segments_out B) outb Rb ->
  Way ib T ca (cn_sender B) ra pb (cn_segments_out B) (seg :: q) outa Ra ->
  sd_next_seqno sa - 1 <= zlen outb + cb -> calm u c (cn_sender B) ->
  let B' := conn_segment_received seg B in
  exists Rb' E, Rb <= Rb' /\
    Way ia S cb sa (cn_receiver B') pa q (cn_segments_out B') outb Rb' /\
    Way ib T ca (cn_sender B') ra pb (cn_segments_out B') q outa Ra /\ calm u c (cn_sender B') /\
    cn_cfg B' = cn_cfg B /\ cn_active B' = cn_active B /\ cn_time B' = 0 /\ cn_segments_out B' = cn_segments_out B ++ E /\
    (Ra = zlen T + 2 -> Forall is_empty E /\ (is_empty seg -> E = [])).
Proof.
  intros HA HB Hroom Hcalm. cbv zeta.
  destruct (way_receive ia Hia S HS cb Hcb seg sa _ pa q _ outb Rb HA Hroom) as (Hrst & Hkeep & Rb' & HRb & HA').
  set (r := segment_received seg (cn_receiver B)) in *.
  destruct (way_answer ib Hib T HT ca Hca seg _ r ra pb _ q outa Ra u c HB Hcalm) as (HB' & Hcalm' & Hsyn' & Hp & Hlast).
  destruct (conn_segment_received_eq seg B Hrst (fl_syn _ _ _ _ _ _ _ _ _ (wy_flow _ _ _ _ _ _ _ _ _ _ HB)) Hsyn')
    as (k & l & -> & Hk1 & Hk0). fold r in Hk0 |- *.
  set (s := answer seg (cn_sender B)) in *. cbn [cn_receiver cn_sender cn_segments_out cn_cfg cn_active cn_time].
  exists Rb', (map (stamp r) (sd_segments_out s ++ replicate k (empty_segment s))).
  assert (Hpe : Forall plain (replicate k (empty_segment s))) by (by apply Forall_replicate).
  split; [done|]. split; [|split; [|split; [done|split_and!; try done]]].
  - apply HA'; [by apply Forall_app_2|]. intros Hl E. apply app_eq_nil in E as [_ E].
    destruct k; [by specialize (Hk1 Hl)|done].
  - destruct HB' as [HF Ha Hf]. rewrite map_app, app_assoc. split; [|done..].
    apply (flow_empties ib T ca _ _ _ _ _ _ HF r k).
  - intros HRa. rewrite (Hlast HRa). cbn [app]. split.
    + apply Forall_fmap, Forall_replicate. unfold compose, is_empty. by rewrite stamp_length.
    + intros He. by rewrite (Hk0 He (Hkeep He)).
Qed.

(** [B] receives everything in [A]'s queue: it has all that [A] has sent, and knows
    that all it had sent has arrived. *)
Lemma hand_over q : forall sa ra B pa pb outb outa Rb Ra u c,
  Way ia S cb sa (cn_receiver B) pa q (cn_segments_out B) outb Rb ->
  Way ib T ca (cn_sender B) ra pb (cn_segments_out B) q outa Ra ->
  sd_next_seqno sa - 1 <= zlen outb + cb -> calm u c (cn_sender B) ->
  let B' := fold_left (fun B seg => conn_segment_received seg B) q B in
  exists E, Rb <= sd_next_seqno sa /\
    Way ia S cb sa (cn_receiver B') pa [] (cn_segments_out B') outb (sd_next_seqno sa) /\
    Way ib T ca (cn_sender B') ra pb (cn_segments_out B') [] outa Ra /\ calm u c (cn_sender B') /\
    cn_cfg B' = cn_cfg B /\ cn_active B' = cn_active B /\ cn_segments_out B' = cn_segments_out B ++ E /\
    outbound_ended B' = outbound_ended B /\ (cn_time B' = cn_time B \/ cn_time B' = 0) /\
    (Ra = zlen T + 2 -> Forall is_empty E /\ (Forall is_empty q -> E = [])) /\
    sd_recent_abs_ackno (cn_sender B') = Ra.
Proof.
  induction q as [|seg q IH]; intros sa ra B pa pb outb outa Rb Ra u c HA HB Hroom Hcalm; cbn [fold_left].
  - exists []. rewrite app_nil_r. destruct HA as [HF Ha Hf].
    destruct (fl_flight _ _ _ _ _ _ _ _ _ HF) as (O1 & O2 & _ & Hfd & En & _). cbn in Hfd. subst O2.
    cbn in En. rewrite Z.add_0_r in En. subst Rb.
    do 9 (split; [done || lia || by left|]). split; [done|]. apply (wy_acks _ _ _ _ _ _ _ _ _ _ HB).
  - destruct (receive_one seg sa ra B pa q pb outb outa Rb Ra u c HA HB Hroom Hcalm)
      as (Rb' & E & HR & HA' & HB' & Hcalm' & Ecfg & Eact & Et & Eq & Hlast).
    pose proof (segment_received_ended seg B) as Hend.
    set (B1 := conn_segment_received seg B) in *. clearbody B1.
    destruct (IH _ _ _ _ _ _ _ _ _ _ _ HA' HB' Hroom Hcalm') as (E' & HR' & HA2 & HB2 & Hc2 & Ec2 & Ea2 & Eq2 & Eo2 & Et2 & Hl2 & Hr2).
    exists (E ++ E'). rewrite Eq, <- app_assoc in Eq2.
    split; [lia|]. do 3 (split; [done|]). split_and!; try congruence; [destruct Et2; right; congruence|].
    intros HRa. destruct (Hlast HRa) as [H1 H2], (Hl2 HRa) as [H3 H4]. split; [by apply Forall_app_2|].
    intros [Hs Hq]%Forall_cons. by rewrite (H2 Hs), (H4 Hq).
Qed.

(** Whatever [A] transmits bears its acknowledgment. *)
Lemma way_back sb ra pb q back outa Ra segs :
  Way ib T ca sb ra pb q back outa Ra -> Forall plain segs ->
  Way ib T ca sb ra pb q (back ++ map (stamp ra) segs) outa Ra.
Proof.
  intros [HF Ha Hf] Hp. split; [done| |done]. pose proof (fl_recent _ _ _ _ _ _ _ _ _ HF).
  apply (acks_send ib T HT ca Ra ra outa segs (fl_received _ _ _ _ _ _ _ _ _ HF) Hp back _ Ra); [lia|done|done].
Qed.

(** The application writes [d] to [A], or ends its stream. *)
Lemma way_send A rb sb pa pb qb outb outa Rb Ra st d pa' :
  Way ia S cb (cn_sender A) rb pa (cn_segments_out A) qb outb Rb ->
  Way ib T ca sb (cn_receiver A) pb qb (cn_segments_out A) outa Ra ->
  pa = d ++ pa' -> (forall W rd, Represents (sd_stream (cn_sender A)) W rd -> Represents st (W ++ d) rd) ->
  bs_capacity st = bs_capacity (sd_stream (cn_sender A)) ->
  (bs_input_ended (sd_stream (cn_sender A)) = true -> bs_input_ended st = true) ->
  (bs_input_ended st = true -> pa' = []) ->
  let A' := send_segments (set_sender (fill_window (with_stream_in st (cn_sender A))) A) in
  Way ia S cb (cn_sender A') rb pa' (cn_segments_out A') qb outb Rb /\
  Way ib T ca sb (cn_receiver A') pb qb (cn_segments_out A') outa Ra /\
  sd_recent_abs_ackno (cn_sender A') = sd_recent_abs_ackno (cn_sender A) /\
  sd_consecutive (cn_sender A') = sd_consecutive (cn_sender A) /\ una (cn_sender A') = una (cn_sender A) /\
  sd_next_seqno (cn_sender A) <= sd_next_seqno (cn_sender A') /\
  cn_cfg A' = cn_cfg A /\ cn_receiver A' = cn_receiver A /\ cn_time A' = cn_time A /\ cn_active A' = cn_active A.
Proof.
  intros [HF Ha Hf] HB Ep HR Ec Hmono Hend. cbv zeta. rewrite send_segments_eq.
  cbn [set_sender cn_sender cn_receiver cn_segments_out cn_cfg cn_time cn_active].
  pose proof (flow_stream ia S cb _ _ _ _ _ _ HF st d pa' Ep HR Ec Hmono Hend) as HF1.
  set (s1 := with_stream_in st (cn_sender A)) in *.
  destruct (flow_fill ia S HS cb Hcb s1 _ _ _ _ _ HF1 (cn_receiver A)) as (HF2 & Hf2 & Hp & Er & Ecs & Eu & Hn & _).
  split; [split; [done|cbn; by rewrite Er|done]|]. split; [by apply way_back|].
  split_and!; try done.
Qed.

(** A second passes at [A], which has not retransmitted more than once in a row. *)
Lemma way_tick A rb sb pa pb qb outb outa Rb Ra :
  Way ia S cb (cn_sender A) rb pa (cn_segments_out A) qb outb Rb ->
  Way ib T ca sb (cn_receiver A) pb qb (cn_segments_out A) outa Ra ->
  0 <= sd_consecutive (cn_sender A) <= 1 ->
  exists A', conn_tick 1000 A = Ok A' /\
    Way ia S cb (cn_sender A') rb pa (cn_segments_out A') qb outb Rb /\
    Way ib T ca sb (cn_receiver A') pb qb (cn_segments_out A') outa Ra /\
    sd_recent_abs_ackno (cn_sender A') = sd_recent_abs_ackno (cn_sender A) /\
    0 <= sd_consecutive (cn_sender A') <= sd_consecutive (cn_sender A) + 1 /\
    sd_outstanding (cn_sender A') = sd_outstanding (cn_sender A) /\ sd_next_seqno (cn_sender A') = sd_next_seqno (cn_sender A) /\
    sd_stream (cn_sender A') = sd_stream (cn_sender A) /\
    (sd_outstanding (cn_sender A) = [] -> cn_sender A' = cn_sender A /\ cn_segments_out A' = cn_segments_out A /\
       cn_active A' = cn_active A && negb (streams_finished A &&
         (negb (cn_linger A) || (10 * cfg_rt_timeout (cn_cfg A) <=? cn_time A')))) /\
    cn_receiver A' = cn_receiver A /\ cn_cfg A' = cn_cfg A /\ cn_linger A' = cn_linger A /\
    cn_time A' = u64 (cn_time A + 1000) /\ (cn_active A = false -> cn_active A' = false).
Proof.
  intros HA HB Hc. pose proof HA as [HF Ha Hf]. destruct (fl_sender _ _ _ _ _ _ _ _ _ HF) as (W & rd & HI & EW).
  pose proof (fl_out _ _ _ _ _ _ _ _ _ HF) as Ho.
  assert (E0 : with_segments_out [] (cn_sender A) = cn_sender A) by (destruct (cn_sender A); cbn in *; by subst).
  assert (Hcap : MAX_RETX_ATTEMPTS = 8) by done.
  destruct (tick_cases W 1000 (cn_sender A) rd HI) as [[Hrun Et]|(seg & rest & Eo & Hrun & Et)].
  - eexists. split; [apply (conn_tick_eq _ _ _ Et); lia|].
    cbn [cn_sender cn_receiver cn_segments_out cn_cfg cn_time cn_active cn_linger]. rewrite Ho. cbn [map].
    rewrite app_nil_r, E0. do 5 (split; [done || lia|]). do 2 (split; [done|]).
    split; [intros _; split_and!; try done; by destruct A|]. do 4 (split; [done|]). by intros ->.
  - destruct (tick_inv W 1000 (cn_sender A) rd HI) as (s' & Et' & HI'). rewrite Et' in Et. injection Et as Et.
    assert (Hs' : sd_isn s' = sd_isn (cn_sender A) /\ sd_stream s' = sd_stream (cn_sender A) /\
      sd_is_syn_set s' = sd_is_syn_set (cn_sender A) /\ sd_outstanding s' = sd_outstanding (cn_sender A) /\
      sd_next_seqno s' = sd_next_seqno (cn_sender A) /\ sd_recent_abs_ackno s' = sd_recent_abs_ackno (cn_sender A) /\
      sd_window_size s' = sd_window_size (cn_sender A) /\ sd_is_fin_set s' = sd_is_fin_set (cn_sender A) /\
      0 <= sd_consecutive s' <= sd_consecutive (cn_sender A) + 1 /\
      (sd_segments_out s' = [] \/ sd_segments_out s' = [seg])).
    { rewrite Et, Ho. case_if; cbn; split_and!; try done; try (destruct (sd_is_window_size_0 _); word_lia); auto. }
    destruct Hs' as (E1 & E2 & E3 & E4 & E5 & E6 & E7 & E8 & Hc' & Hout). clear Et.
    assert (HI2 : SInv (with_segments_out [] s') W rd).
    { apply with_segments_out_inv; [done|]. intros x Hx. by apply elem_of_nil in Hx. }
    eexists. split; [apply (conn_tick_eq _ _ _ Et'); lia|].
    cbn [cn_sender cn_receiver cn_segments_out cn_cfg cn_time cn_active cn_linger].
    assert (Hp : Forall plain (sd_segments_out s')).
    { pose proof (fl_plain _ _ _ _ _ _ _ _ _ HF) as Hp. rewrite Eo in Hp. apply Forall_inv in Hp.
      destruct Hout as [-> | ->]; repeat constructor; apply Hp. }
    split.
    { split; [|by cbn; rewrite E6|unfold filled, window_edge in *; cbn; by rewrite E2, E5, E6, E7, E8].
      destruct Hout as [-> | ->]; cbn [map]; rewrite ?app_nil_r.
      - by apply (flow_sender ia S cb _ _ _ _ _ _ HF _ _ W rd).
      - by apply (flow_resend ia S cb _ _ _ _ _ _ HF (cn_receiver A) seg rest _ W rd). }
    split; [by apply way_back|]. split; [done|]. split; [done|]. do 3 (split; [done|]).
    split; [intros E; by rewrite Eo in E|]. do 4 (split; [done|]). by intros ->.
Qed.
End TwoWays.
