(* ===== verification/Completion.v ===== *)
(** * The benchmark completes

    [Benchmark.v] shows that the loop of src/apps/tcp_benchmark.cc never fails.
    Here its two connections, with their acknowledgments, retransmissions and
    shutdown, are shown to make progress when the segments are handed over in
    order.  [Head] is the invariant of the loop: [Exchange.v] gives it for both
    directions, and each turn of the loop delivers more until both streams are
    through, then empties the queues, and then lets the lingering time pass. *)

From S2P Require Import Prelude WrappingIntegers StdMap ByteStream StreamReassembler Buffers.
From S2P Require Import TCPSegment TCPReceiver TCPSender EndToEnd Transfer TCPState TCPConnection Duplex.
From S2P Require Import Benchmark Flow Exchange.

Section Completion.
Context (config : TCPConfig) (Hcfg : cfg_ok config).
Context (Hrecv : 1 <= cfg_recv_capacity config) (Hsend : 1 <= cfg_send_capacity config).
Context (Hrt : is_u16 (cfg_rt_timeout config)).
Context (ix iy : WrappingInt32) (Hix : winv ix) (Hiy : winv iy).
Context (S : list byte) (HS : zlen S < 2 ^ 31 - 4).
Abbreviation cap := (cfg_recv_capacity config).
Abbreviation sx b := (cn_sender (bm_x b)).
Abbreviation sy b := (cn_sender (bm_y b)).
Abbreviation qx b := (cn_segments_out (bm_x b)).
Abbreviation qy b := (cn_segments_out (bm_y b)).

(** ** The head of the loop

    [y] expects [Ry] and [x] expects [Rx]; at most [k] turns are to come. *)
Record Head (k : nat) (b : bench) (Rx Ry : Z) : Prop := {
  hd_x : Way ix S cap (sx b) (cn_receiver (bm_y b)) (str (bm_to_send b)) (qx b) (qy b) (bm_received b) Ry;
  hd_y : Way iy [] cap (sy b) (cn_receiver (bm_x b)) [] (qy b) (qx b) [] Rx;
  hd_acked : sd_recent_abs_ackno (sx b) = Ry;
  hd_calm_x : 0 <= sd_consecutive (sx b) <= 1 /\ (sd_outstanding (sx b) = [] -> sd_consecutive (sx b) = 0);
  hd_calm_y : 0 <= sd_consecutive (sy b) <= 1 /\ (sd_consecutive (sy b) = 0 \/ una (sy b) < Rx);
  hd_ended : outbound_ended (bm_y b) = true;
  hd_buffer : buf_ok (bm_to_send b);
  hd_closed : bm_x_closed b = outbound_ended (bm_x b);
  hd_cfg : cn_cfg (bm_x b) = config /\ cn_cfg (bm_y b) = config;
  hd_time : 0 <= cn_time (bm_x b) <= 2 ^ 63 - 1000 * Z.of_nat k /\ 0 <= cn_time (bm_y b) <= 2 ^ 63 - 1000 * Z.of_nat k;
  hd_read : bm_received b = take (Z.to_nat (sr_next_index (rc_reassembler (cn_receiver (bm_y b))))) S;
  hd_eof : Ry = zlen S + 2 -> eof (inbound_stream (bm_y b)) = true
}.

Lemma Hcap : 0 < cap < 2 ^ 31.
Proof. destruct Hcfg. lia. Qed.

(** ** Writing *)

(** [x] after some writes: everything but the sender and its queue is as before. *)
Record Written (b : bench) (x : TCPConnection) (buf : Buffer) (Rx Ry : Z) : Prop := {
  wn_x : Way ix S cap (cn_sender x) (cn_receiver (bm_y b)) (str buf) (cn_segments_out x) (qy b) (bm_received b) Ry;
  wn_y : Way iy [] cap (sy b) (cn_receiver x) [] (qy b) (cn_segments_out x) [] Rx;
  wn_acked : sd_recent_abs_ackno (cn_sender x) = sd_recent_abs_ackno (sx b);
  wn_calm : sd_consecutive (cn_sender x) = sd_consecutive (sx b) /\ una (cn_sender x) = una (sx b);
  wn_next : sd_next_seqno (sx b) <= sd_next_seqno (cn_sender x);
  wn_keeps : cn_cfg x = cn_cfg (bm_x b) /\ cn_receiver x = cn_receiver (bm_x b) /\ cn_time x = cn_time (bm_x b) /\
             cn_active x = cn_active (bm_x b);
  wn_buffer : buf_ok buf
}.

Lemma write_step b x buf Rx Ry data :
  Written b x buf Rx Ry -> outbound_ended x = false -> data = take (length data) (str buf) -> data <> [] ->
  zlen data <= remaining_outbound_capacity x ->
  exists x', conn_write data x = (zlen data, x') /\ outbound_ended x' = false /\
    forall buf', str buf' = drop (length data) (str buf) -> buf_ok buf' -> Written b x' buf' Rx Ry.
Proof.
  intros [HX HY Ha [Hc Hu] Hmono (K1 & K2 & K3 & K4) Hb] He Hpre Hne Hroom.
  destruct (fl_sender _ _ _ _ _ _ _ _ _ (wy_flow _ _ _ _ _ _ _ _ _ _ HX)) as (W & rd & HI & EW).
  pose proof (conn_write_ended data x) as Hend. unfold conn_write in *. unfold remaining_outbound_capacity, stream_in in Hroom.
  rewrite (proj2 (Z.eqb_neq (zlen data) 0)) in * by (destruct data; [done|cbn; lia]).
  assert (Hacc : accepted (sd_stream (cn_sender x)) data = data).
  { unfold accepted. unfold outbound_ended, stream_in in He. rewrite He. apply take_ge. lia. }
  pose proof (fun W rd R => write_accepted (sd_stream (cn_sender x)) W rd data R) as Hw. rewrite Hacc in Hw.
  unfold stream_in in *. destruct (write data (sd_stream (cn_sender x))) as [n st]. cbn [fst snd] in Hw.
  destruct (Hw W rd (si_rep _ _ _ HI)) as (-> & _ & Ecap & Eend). 
  exists (send_segments (set_sender (fill_window (with_stream_in st (cn_sender x))) x)).
  split; [done|]. cbn [snd] in Hend. split; [by etransitivity; [exact Hend|]|].
  intros buf' Eb Hb'.
  destruct (way_send ix iy S [] HS ltac:(cbn; lia) cap cap Hcap x _ _ _ _ _ _ _ _ _ st data (str buf') HX HY)
    as (HX' & HY' & Er & Ec & Eu & En & E1 & E2 & E3 & E4).
  - rewrite Hpre at 1. rewrite Eb. by rewrite take_drop.
  - intros W' rd' R'. by apply Hw.
  - done.
  - by rewrite Eend.
  - unfold outbound_ended, stream_in in He. by rewrite Eend, He.
  - split; try done; [congruence|split; congruence|lia|split_and!; congruence].
Qed.

Lemma write_input_written b Rx Ry fuel : forall x buf,
  (length (str buf) < fuel)%nat -> Written b x buf Rx Ry -> (str buf <> [] -> outbound_ended x = false) ->
  exists x' buf', write_input fuel x buf = Some (Ok (x', buf')) /\ Written b x' buf' Rx Ry /\
    outbound_ended x' = outbound_ended x /\ (str buf' = [] \/ remaining_outbound_capacity x' = 0) /\
    (str buf = [] -> x' = x /\ buf' = buf).
Proof.
  induction fuel as [|fuel IH]; intros x buf Hf HW He; [lia|]. cbn [write_input].
  assert (Hempty : buf_size buf = 0 <-> str buf = []) by (unfold buf_size; destruct (str buf); cbn; split; (done || lia)).
  destruct (negb _ && negb _) eqn:E.
  - bool_prop. set (want := Z.min _ _). set (data := take (Z.to_nat want) (str buf)).
    assert (Hcap0 : 0 <= remaining_outbound_capacity x) by apply u64_range.
    assert (Hld : zlen data = want /\ 0 < want <= remaining_outbound_capacity x /\ want <= buf_size buf).
    { unfold data, want, buf_size in *. rewrite length_take. lia. }
    destruct Hld as (Hld & Hwant & Hle).
    assert (Hne : str buf <> []) by (rewrite <- Hempty; done).
    destruct (write_step b x buf Rx Ry data HW (He Hne)) as (x1 & -> & He1 & HW1); [|by intros ->; cbn in Hld; lia|lia|].
    { unfold data. rewrite length_take. f_equal. unfold buf_size in *. lia. }
    rewrite Hld, Z.eqb_refl. cbn [negb].
    destruct (remove_prefix_ok want buf (wn_buffer _ _ _ _ _ HW) ltac:(lia)) as (buf1 & -> & Es & Hb1).
    assert (El : Z.to_nat want = length data) by lia. rewrite El in Es.
    destruct (IH x1 buf1) as (x2 & buf2 & E2 & HW2 & He2 & Hend & _).
    + rewrite Es, length_drop. unfold buf_size in *. lia.
    + by apply HW1.
    + done.
    + exists x2, buf2. split_and!; try done. by rewrite He2, He1, (He Hne).
  - exists x, buf. split_and!; try done. apply andb_false_iff in E as [E|E]; apply negb_false_iff, Z.eqb_eq in E; [left|right]; [by apply Hempty|done].
Qed.

(** Closing [x] when everything is written: then it has something to send or its
    stream has ended. *)
Lemma close_written b x buf Rx Ry closed :
  Written b x buf Rx Ry -> closed = outbound_ended x -> (str buf = [] \/ remaining_outbound_capacity x = 0) ->
  let '(x', closed') := if (buf_size buf =? 0) && negb closed then (end_input_stream x, true) else (x, closed) in
  Written b x' buf Rx Ry /\ closed' = outbound_ended x' /\
  (bs_buffer (sd_stream (cn_sender x')) = [] -> bs_input_ended (sd_stream (cn_sender x')) = true).
Proof.
  intros HW -> Hend. pose proof HW as [HX HY Ha [Hc Hu] Hmono (K1 & K2 & K3 & K4) Hb].
  assert (Hempty : buf_size buf = 0 <-> str buf = []) by (unfold buf_size; destruct (str buf); cbn; split; (done || lia)).
  destruct (fl_sender _ _ _ _ _ _ _ _ _ (wy_flow _ _ _ _ _ _ _ _ _ _ HX)) as (W & rd & HI & EW).
  pose proof (fl_cap _ _ _ _ _ _ _ _ _ (wy_flow _ _ _ _ _ _ _ _ _ _ HX)) as Hcap1.
  destruct (_ && _) eqn:E; bool_prop.
  - assert (He : outbound_ended (end_input_stream x) = true).
    { unfold end_input_stream. rewrite send_segments_ended, fill_ended. done. }
    split; [|done]. unfold end_input_stream.
    destruct (way_send ix iy S [] HS ltac:(cbn; lia) cap cap Hcap x _ _ _ _ _ _ _ _ _ (end_input (sd_stream (cn_sender x))) [] (str buf) HX HY)
      as (HX' & HY' & Er & Ec & Eu & En & E1 & E2 & E3 & E4); try done.
    + intros W' rd' R'. rewrite app_nil_r. by apply end_input_represents.
    + intros _. by apply Hempty.
    + split; try done; [by etransitivity; [exact Er|]|split; by etransitivity; [first [exact Ec|exact Eu]|]|by etransitivity; [|exact En]|].
      split_and!; by etransitivity; [first [exact E1|exact E2|exact E3|exact E4]|].
  - split_and!; try done. intros Eb. apply andb_false_iff in E as [E|E].
    + apply Z.eqb_neq in E. destruct Hend as [Hz|Hz]; [by apply Hempty in Hz|].
      unfold remaining_outbound_capacity, stream_in in Hz. pose proof (si_rep _ _ _ HI) as R.
      rewrite (rep_remaining _ _ _ R) in Hz. rewrite (rep_buffer _ _ _ R) in Eb. apply (f_equal length) in Eb.
      rewrite length_drop in Eb. cbn in Eb. pose proof (rep_read _ _ _ R). lia.
    + by apply negb_false_iff in E.
Qed.

(** ** Exchanging *)

Lemma take_segments_eq queue : forall x segments, cn_segments_out x = queue ->
  take_segments queue x segments = (set_segments_out [] x, segments ++ queue).
Proof.
  induction queue as [|seg queue IH]; intros x segments E; cbn [take_segments].
  - rewrite app_nil_r. f_equal. destruct x; cbn in *. by subst.
  - rewrite IH by done. by rewrite <- app_assoc.
Qed.

Lemma move_segments_eq x y :
  move_segments x y [] false =
  (set_segments_out [] x, fold_left (fun y seg => conn_segment_received seg y) (cn_segments_out x) y, []).
Proof. unfold move_segments. by rewrite take_segments_eq. Qed.

(** Nothing in flight. *)
Lemma flow_idle isn T c s pending q r out R :
  Flow isn T c s pending q r out R -> sd_next_seqno s <= una s -> sd_outstanding s = [].
Proof.
  intros HF Hn. destruct (flow_chain _ _ _ _ _ _ _ _ _ HF) as (_ & Hc & _). by eapply chain_empty.
Qed.

(** [x] and [y] after the exchange of a turn that began with [b], [x0] being [x]
    after the writes. *)
Record Exchanged (b : bench) (x0 : TCPConnection) (buf : Buffer) (x y : TCPConnection) (Rx Ry Rx' Ry' : Z) : Prop := {
  ex_x : Way ix S cap (cn_sender x) (cn_receiver y) (str buf) (cn_segments_out x) (cn_segments_out y) (bm_received b) Ry';
  ex_y : Way iy [] cap (cn_sender y) (cn_receiver x) [] (cn_segments_out y) (cn_segments_out x) [] Rx';
  ex_sent : cn_segments_out y = [];
  ex_acked : sd_recent_abs_ackno (cn_sender x) = Ry';
  ex_arrived : sd_next_seqno (cn_sender y) = Rx';
  ex_calm : sd_consecutive (cn_sender x) = 0 /\ sd_consecutive (cn_sender y) = 0;
  ex_ended : outbound_ended x = outbound_ended x0 /\ outbound_ended y = true;
  ex_cfg : cn_cfg x = config /\ cn_cfg y = config;
  ex_time : (cn_time x = cn_time (bm_x b) \/ cn_time x = 0) /\ (cn_time y = cn_time (bm_y b) \/ cn_time y = 0);
  ex_active : cn_active x = cn_active (bm_x b) /\ cn_active y = cn_active (bm_y b);
  ex_progress : (Ry < Ry' \/ Ry' = zlen S + 2 /\ Ry = zlen S + 2) /\ (Rx < Rx' \/ Rx' = 2 /\ Rx = 2);
  ex_recent : sd_recent_abs_ackno (cn_sender y) = Rx;
  ex_quiet : Rx = 2 -> Ry = zlen S + 2 -> Forall is_empty (cn_segments_out x) /\
    (Forall is_empty (cn_segments_out x0) -> qy b = [] -> cn_segments_out x = []);
  ex_same : cn_segments_out x0 = [] -> qy b = [] -> x = x0 /\ y = bm_y b
}.

Lemma exchange k b Rx Ry x0 buf :
  Head k b Rx Ry -> Written b x0 buf Rx Ry ->
  (bs_buffer (sd_stream (cn_sender x0)) = [] -> bs_input_ended (sd_stream (cn_sender x0)) = true) ->
  let y1 := fold_left (fun y seg => conn_segment_received seg y) (cn_segments_out x0) (bm_y b) in
  let x1 := fold_left (fun x seg => conn_segment_received seg x) (cn_segments_out y1) (set_segments_out [] x0) in
  exists Rx' Ry', Exchanged b x0 buf x1 (set_segments_out [] y1) Rx Ry Rx' Ry'.
Proof.
  intros HH [HX HY Ha [Hc Hu] Hmono (K1 & K2 & K3 & K4) Hb] Hload. cbv zeta.
  pose proof (hd_acked _ _ _ _ HH) as Hacked. rewrite Hacked in Ha. pose proof (hd_calm_y _ _ _ _ HH) as [Hcy Hcy'].
  pose proof (hd_calm_x _ _ _ _ HH) as [Hcx Hcx']. pose proof (hd_cfg _ _ _ _ HH) as [Kx Ky].
  pose proof (flow_progress ix S HS cap Hcap _ _ _ _ _ _ (wy_flow _ _ _ _ _ _ _ _ _ _ HX) (wy_filled _ _ _ _ _ _ _ _ _ _ HX) Ha Hload) as Hpx.
  destruct (flow_chain _ _ _ _ _ _ _ _ _ (wy_flow _ _ _ _ _ _ _ _ _ _ (hd_x _ _ _ _ HH))) as (_ & _ & Hux). specialize (Hux Hacked).
  pose proof (flow_fits ix S HS cap Hcap _ _ _ _ _ _ (wy_flow _ _ _ _ _ _ _ _ _ _ HX) (hd_read _ _ _ _ HH)) as Hroom.
  (* from x to y *)
  destruct (hand_over ix iy Hix Hiy S [] HS ltac:(cbn; lia) cap cap Hcap Hcap (cn_segments_out x0) (cn_sender x0) (cn_receiver x0)
    (bm_y b) _ _ _ _ Ry Rx (una (sy b)) (sd_consecutive (sy b)) HX HY Hroom)
    as (E & HRy & HX1 & HY1 & [Hc1 Hc1'] & Ecfg1 & Eact1 & Eq1 & Eend1 & Et1 & Hlast1 & Hrec1).
  { split; [lia|lia]. }
  assert (Hsame1 : cn_segments_out x0 = [] -> fold_left (fun y seg => conn_segment_received seg y) (cn_segments_out x0) (bm_y b) = bm_y b)
    by (by intros ->).
  set (y1 := fold_left _ _ (bm_y b)) in *. clearbody y1.
  destruct (flow_chain _ _ _ _ _ _ _ _ _ (wy_flow _ _ _ _ _ _ _ _ _ _ HY1)) as (_ & _ & Huy). specialize (Huy Hrec1).
  assert (Hcy1 : sd_consecutive (cn_sender y1) = 0) by (destruct Hcy'; [lia|apply Hc1'; lia]).
  assert (Hey : bs_input_ended (sd_stream (cn_sender y1)) = true).
  { transitivity (outbound_ended (bm_y b)); [exact Eend1|apply (hd_ended _ _ _ _ HH)]. }
  pose proof (flow_progress iy [] ltac:(cbn; lia) cap Hcap _ _ _ _ _ _ (wy_flow _ _ _ _ _ _ _ _ _ _ HY1) (wy_filled _ _ _ _ _ _ _ _ _ _ HY1) Hrec1 ltac:(done)) as Hpy.
  pose proof (flow_bounds _ _ _ _ _ _ _ _ _ (wy_flow _ _ _ _ _ _ _ _ _ _ HY1)) as [_ Hby]. cbn in Hpy, Hby.
  (* from y to x *)
  set (x1 := set_segments_out [] x0). pose proof Hcap as HC.
  destruct (hand_over iy ix Hiy Hix [] S ltac:(cbn; lia) HS cap cap Hcap Hcap (cn_segments_out y1) (cn_sender y1) (cn_receiver y1)
    x1 _ _ _ _ Rx (sd_next_seqno (cn_sender x0)) (una (sx b)) (sd_consecutive (sx b)) HY1 HX1)
    as (E2 & HRx & HY2 & HX2 & [Hc2 Hc2'] & Ecfg2 & Eact2 & Eq2 & Eend2 & Et2 & Hlast2 & Hrec2).
  { cbn. lia. }
  { split; cbn; lia. }
  assert (Hsame2 : cn_segments_out y1 = [] -> fold_left (fun y seg => conn_segment_received seg y) (cn_segments_out y1) x1 = x1)
    by (by intros ->).
  set (x2 := fold_left _ _ x1) in *. clearbody x2.
  destruct (flow_chain _ _ _ _ _ _ _ _ _ (wy_flow _ _ _ _ _ _ _ _ _ _ HX2)) as (_ & _ & Hux2). specialize (Hux2 Hrec2).
  exists (sd_next_seqno (cn_sender y1)), (sd_next_seqno (cn_sender x0)).
  split; cbn [set_segments_out cn_sender cn_receiver cn_segments_out cn_cfg cn_time cn_active]; try done.
  - split; [|done]. destruct (Z.eq_dec (sd_next_seqno (cn_sender x0)) Ry) as [En|En].
    + assert (E0 : sd_consecutive (sx b) = 0); [|lia]. apply Hcx'.
      eapply flow_idle; [apply (wy_flow _ _ _ _ _ _ _ _ _ _ (hd_x _ _ _ _ HH))|lia].
    + apply Hc2'. lia.
  - split; [cbn in Ecfg2; congruence|congruence].
  - cbn in Et2. split; [|done]. by rewrite <- K3.
  - cbn in Eact2. split; congruence.
  - intros -> ->. destruct (Hlast1 eq_refl) as [_ H1]. assert (Ex : sd_next_seqno (cn_sender x0) = zlen S + 2).
    { destruct Hpx as [?|[? _]]; [|done]. pose proof (flow_bounds _ _ _ _ _ _ _ _ _ (wy_flow _ _ _ _ _ _ _ _ _ _ HX)). lia. }
    destruct (Hlast2 Ex) as [H2 H3]. cbn in Eq2. rewrite Eq2. split; [done|].
    intros He Hq. apply H3. rewrite Eq1, Hq, (H1 He). done.
  - intros Hq0 Hq. rewrite (Hsame1 Hq0) in *. rewrite (Hsame2 Hq). unfold x1. split; [destruct x0; cbn in *; by subst|].
    destruct (bm_y b); cbn in *. by subst.
Qed.

(** ** Reading *)

(** Reading only when there is something to read is reading always. *)
Lemma read_all_eq y received :
  (if 0 <? buffer_size (inbound_stream y) then
     let '(data, st) := read (buffer_size (inbound_stream y)) (inbound_stream y) in
     (received ++ data, set_receiver (with_stream_out st (cn_receiver y)) y)
   else (received, y)) =
  let '(data, st) := read (buffer_size (inbound_stream y)) (inbound_stream y) in
  (received ++ data, set_receiver (with_stream_out st (cn_receiver y)) y).
Proof.
  destruct (0 <? _) eqn:E; [done|]. bool_prop. unfold buffer_size in E.
  assert (Eb : bs_buffer (inbound_stream y) = []) by (destruct (bs_buffer _); [done|cbn in E; lia]).
  unfold read, pop_output, peek_output, buffer_size. rewrite Eb. cbn. rewrite app_nil_r. f_equal.
  destruct y as [? [[] ? ? ? ? ? ? ? ?] ? ? ? ? ?]. done.
Qed.

(** ** Shutting down *)

Lemma finished isn T c A pending q r out isn' T' c' out' :
  zlen T < 2 ^ 31 - 4 -> zlen T' < 2 ^ 31 - 4 ->
  Flow isn T c (cn_sender A) pending q r out (zlen T + 2) -> sd_recent_abs_ackno (cn_sender A) = zlen T + 2 ->
  Received isn' T' c' (zlen T' + 2) (cn_receiver A) out' ->
  sd_outstanding (cn_sender A) = [] /\ streams_finished A = true.
Proof.
  intros HT HT' HF Hrec HR. pose proof (flow_bounds _ _ _ _ _ _ _ _ _ HF) as Hb.
  assert (Hn : sd_next_seqno (cn_sender A) = zlen T + 2) by lia.
  destruct (flow_chain _ _ _ _ _ _ _ _ _ HF) as (_ & _ & Hu). specialize (Hu Hrec).
  pose proof (flow_idle _ _ _ _ _ _ _ _ _ HF ltac:(lia)) as Eo. split; [done|].
  destruct HF as [(W & rd & HI & EW) _ _ Hend Hsyn _ _ _ _ _ _ _].
  destruct (sender_chain T _ W rd pending HI EW Hend) as (_ & _ & Hbif). rewrite Eo in Hbif.
  pose proof (si_next _ _ _ HI) as Hnx. pose proof (rep_read _ _ _ (si_rep _ _ _ HI)) as Hrd.
  assert (HlW : zlen W + zlen pending = zlen T) by (rewrite <- EW, length_app; lia).
  rewrite Hsyn in Hnx. assert (Hf : sd_is_fin_set (cn_sender A) = true /\ rd = length W /\ length W = length T)
    by (destruct (sd_is_fin_set (cn_sender A)); split_and!; (done || lia)).
  destruct Hf as (Hf & -> & HlT). destruct (si_fin _ _ _ HI Hf) as [He _]. pose proof (si_rep _ _ _ HI) as R.
  pose proof (re_next _ _ _ _ _ _ HR) as Hr. destruct (re_good _ _ _ _ _ _ HR) as (h & w & Hg).
  pose proof (good_inv _ _ _ _ _ Hg) as HIr. pose proof (inv_next _ _ _ _ HIr) as Hr1.
  assert (Hrf : rc_if_fin_set (cn_receiver A) = true /\ sr_next_index (rc_reassembler (cn_receiver A)) = zlen T')
    by (destruct (rc_if_fin_set (cn_receiver A)), (rc_if_syn_set (cn_receiver A)); split; (done || lia)).
  destruct Hrf as [Hrf Hri]. unfold streams_finished. rewrite !andb_true_iff. split_and!.
  - unfold stream_in. rewrite (eof_rep W _ _ R). apply andb_true_iff. split; [exact He|apply Nat.eqb_refl].
  - apply (good_ended _ _ _ _ _ Hg). by rewrite (re_eof _ _ _ _ _ _ HR).
  - unfold cn_bytes_in_flight, bytes_in_flight. by rewrite Hbif.
  - unfold cn_unassembled_bytes, rcv_unassembled_bytes, unassembled_bytes. apply Z.eqb_eq.
    apply (assembled_iff T' _ w _ HIr); [by left|done].
  - unfold is_fin_acked. rewrite Hf, Hn, Hrec. apply Z.eqb_refl.
  - unfold next_seqno_absolute, bytes_written, stream_in. rewrite Hn, (rep_written _ _ _ R), HlT. apply Z.eqb_eq. word_lia.
Qed.

(** ** A turn of the loop *)

(** Both streams are through. *)
Definition through (Rx Ry : Z) : Prop := Rx = 2 /\ Ry = zlen S + 2.

Record Turned (b b' : bench) (Rx Ry Rx' Ry' : Z) : Prop := {
  tn_progress : (Ry < Ry' \/ Ry' = zlen S + 2 /\ Ry = zlen S + 2) /\ (Rx < Rx' \/ Rx' = 2 /\ Rx = 2);
  tn_empty : through Rx Ry -> Forall is_empty (qx b') /\ qy b' = [];
  tn_quiet : through Rx Ry -> Forall is_empty (qx b) -> qy b = [] -> qx b' = [];
  tn_time : through Rx Ry -> qx b = [] -> qy b = [] ->
    cn_time (bm_x b') = cn_time (bm_x b) + 1000 /\ cn_time (bm_y b') = cn_time (bm_y b) + 1000;
  tn_active : through Rx Ry ->
    (10 * cfg_rt_timeout config <= cn_time (bm_x b') -> active (bm_x b') = false) /\
    (10 * cfg_rt_timeout config <= cn_time (bm_y b') -> active (bm_y b') = false)
}.

(** The writes of a turn. *)
Definition writes (b : bench) : res (TCPConnection * Buffer * bool) :=
  k ← default Undefined (write_input (Datatypes.S (length (str (bm_to_send b)))) (bm_x b) (bm_to_send b));
  let '(x, bytes_to_send) := k in
  let '(x, x_closed) :=
    if (buf_size bytes_to_send =? 0) && negb (bm_x_closed b) then (end_input_stream x, true)
    else (x, bm_x_closed b) in
  Ok (x, bytes_to_send, x_closed).

(** The turn after its writes. *)
Definition turn_rest (b : bench) (x : TCPConnection) (buf : Buffer) (x_closed : bool) : res bench :=
  let y1 := fold_left (fun y seg => conn_segment_received seg y) (cn_segments_out x) (bm_y b) in
  let x1 := fold_left (fun x seg => conn_segment_received seg x) (cn_segments_out y1) (set_segments_out [] x) in
  let y1 := set_segments_out [] y1 in
  let '(data, st) := read (buffer_size (inbound_stream y1)) (inbound_stream y1) in
  let y1 := set_receiver (with_stream_out st (cn_receiver y1)) y1 in
  x2 ← conn_tick 1000 x1;
  y2 ← conn_tick 1000 y1;
  Ok (mkBench x2 y2 buf x_closed (bm_received b ++ data)).

Lemma bench_loop_eq b x buf x_closed :
  writes b = Ok (x, buf, x_closed) -> bench_loop false b = turn_rest b x buf x_closed.
Proof.
  unfold writes, bench_loop, turn_rest. destruct (default _ _) as [[x1 buf1]| |]; [|done..]. cbn [mbind res_bind].
  destruct (if (_ =? 0) && _ then _ else _) as [x2 closed2]. intros [= -> -> ->].
  rewrite !move_segments_eq. cbv zeta. rewrite read_all_eq. by destruct (read _ _).
Qed.

Lemma turn_writes k b Rx Ry :
  Head k b Rx Ry ->
  exists x buf x_closed, Written b x buf Rx Ry /\ x_closed = outbound_ended x /\
    writes b = Ok (x, buf, x_closed) /\
    (bs_buffer (sd_stream (cn_sender x)) = [] -> bs_input_ended (sd_stream (cn_sender x)) = true) /\
    (Ry = zlen S + 2 -> x = bm_x b).
Proof.
  intros HH. unfold writes. pose proof (hd_cfg _ _ _ _ HH) as [Kx Ky]. pose proof (hd_x _ _ _ _ HH) as HX.
  assert (Hend : str (bm_to_send b) <> [] -> outbound_ended (bm_x b) = false).
  { intros Hne. destruct (outbound_ended (bm_x b)) eqn:E; [|done].
    by apply (fl_ended _ _ _ _ _ _ _ _ _ (wy_flow _ _ _ _ _ _ _ _ _ _ HX)) in E. }
  assert (HW : Written b (bm_x b) (bm_to_send b) Rx Ry) by (by destruct HH).
  destruct (write_input_written b Rx Ry (Datatypes.S (length (str (bm_to_send b)))) (bm_x b) (bm_to_send b) ltac:(lia) HW Hend)
    as (x1 & buf & -> & HW1 & He1 & Hfull & Hsame). cbn [default id mbind res_bind].
  pose proof (close_written b x1 buf Rx Ry (bm_x_closed b) HW1 ltac:(by rewrite He1, (hd_closed _ _ _ _ HH)) Hfull) as Hcl.
  destruct (if (_ =? 0) && _ then _ else _) as [x2 closed2] eqn:Ecl. destruct Hcl as (HW2 & Hc2 & Hload).
  exists x2, buf, closed2. split_and!; try done. intros HRy.
  destruct (fl_sender _ _ _ _ _ _ _ _ _ (wy_flow _ _ _ _ _ _ _ _ _ _ HX)) as (W & rd & HI & EW).
  pose proof (flow_bounds _ _ _ _ _ _ _ _ _ (wy_flow _ _ _ _ _ _ _ _ _ _ HX)) as Hb.
  pose proof (si_next _ _ _ HI) as Hn. pose proof (rep_read _ _ _ (si_rep _ _ _ HI)) as Hrd.
  assert (HlW : zlen W + zlen (str (bm_to_send b)) = zlen S) by (rewrite <- EW, length_app; lia).
  assert (Hz : str (bm_to_send b) = []) by (apply length_zero_iff_nil; destruct (sd_is_fin_set (sx b)), (sd_is_syn_set (sx b)); lia).
  assert (Hf : sd_is_fin_set (sx b) = true) by (destruct (sd_is_fin_set (sx b)), (sd_is_syn_set (sx b)); (done || lia)).
  destruct (si_fin _ _ _ HI Hf) as [He _]. destruct (Hsame Hz) as [-> ->].
  assert (Ec : bm_x_closed b = true) by (rewrite (hd_closed _ _ _ _ HH); exact He).
  rewrite Ec, andb_false_r in Ecl. by injection Ecl as <- _.
Qed.

(** The rest of a turn: reading and the two ticks, from the state after the exchange. *)
Record Ticked (x y : TCPConnection) (b' : bench) (Rx Ry : Z) : Prop := {
  tk_head_x : Way ix S cap (sx b') (cn_receiver (bm_y b')) (str (bm_to_send b')) (qx b') (qy b') (bm_received b') Ry;
  tk_head_y : Way iy [] cap (sy b') (cn_receiver (bm_x b')) [] (qy b') (qx b') [] Rx;
  tk_x : sd_recent_abs_ackno (sx b') = sd_recent_abs_ackno (cn_sender x) /\
    0 <= sd_consecutive (sx b') <= 1 /\ (sd_outstanding (sx b') = [] -> sd_consecutive (sx b') = 0);
  tk_y : 0 <= sd_consecutive (sy b') <= 1 /\ (sd_consecutive (sy b') = 0 \/ una (sy b') < sd_next_seqno (cn_sender y));
  tk_ended : outbound_ended (bm_x b') = outbound_ended x /\ outbound_ended (bm_y b') = outbound_ended y;
  tk_cfg : cn_cfg (bm_x b') = cn_cfg x /\ cn_cfg (bm_y b') = cn_cfg y;
  tk_time : cn_time (bm_x b') = u64 (cn_time x + 1000) /\ cn_time (bm_y b') = u64 (cn_time y + 1000);
  tk_read : bm_received b' = take (Z.to_nat (sr_next_index (rc_reassembler (cn_receiver (bm_y b'))))) S;
  tk_eof : Ry = zlen S + 2 -> eof (inbound_stream (bm_y b')) = true;
  tk_through : through Rx Ry -> sd_recent_abs_ackno (cn_sender y) = 2 -> sd_recent_abs_ackno (cn_sender x) = Ry ->
    (qx b' = cn_segments_out x /\ qy b' = cn_segments_out y) /\
    (10 * cfg_rt_timeout (cn_cfg x) <= cn_time (bm_x b') -> active (bm_x b') = false) /\
    (10 * cfg_rt_timeout (cn_cfg y) <= cn_time (bm_y b') -> active (bm_y b') = false)
}.

Lemma ticks x y buf closed received Rx Ry :
  Way ix S cap (cn_sender x) (cn_receiver y) (str buf) (cn_segments_out x) (cn_segments_out y) received Ry ->
  Way iy [] cap (cn_sender y) (cn_receiver x) [] (cn_segments_out y) (cn_segments_out x) [] Rx ->
  sd_consecutive (cn_sender x) = 0 -> sd_consecutive (cn_sender y) = 0 ->
  received = take (Z.to_nat (sr_next_index (rc_reassembler (cn_receiver y)))) S ->
  (Ry = zlen S + 2 -> eof (inbound_stream y) = true) ->
  exists x' y', conn_tick 1000 x = Ok x' /\ conn_tick 1000 y = Ok y' /\
    Ticked x y (mkBench x' y' buf closed received) Rx Ry.
Proof.
  intros HX HY Hcx Hcy Hread Heof. assert (H0 : zlen (@nil byte) < 2 ^ 31 - 4) by (cbn; lia).
  destruct (way_tick ix iy S [] HS H0 cap cap x _ _ _ _ _ _ _ _ _ HX HY ltac:(lia))
    as (x' & Etx & HX1 & HY1 & Erx & Hcx' & Eox & Enx & Esx & Hix' & Ecx & Kx & _ & Tx & _).
  destruct (way_tick iy ix [] S H0 HS cap cap y _ _ _ _ _ _ _ _ _ HY1 HX1 ltac:(lia))
    as (y' & Ety & HY2 & HX2 & Ery & Hcy' & Eoy & Eny & Esy & Hiy' & Ecy & Ky & _ & Ty & _).
  exists x', y'. split; [done|]. split; [done|].
  split; cbn [bm_x bm_y bm_to_send bm_x_closed bm_received]; try done.
  - split; [done|]. split; [lia|]. rewrite Eox. intros E. destruct (Hix' E) as [-> _]. done.
  - split; [lia|]. destruct (sd_outstanding (cn_sender y)) as [|seg rest] eqn:Eo.
    + destruct (Hiy' eq_refl) as [-> _]. by left.
    + right. unfold una. rewrite Eny, Eoy, seq_total_cons. pose proof (seq_total_nonneg rest).
      destruct (flow_chain _ _ _ _ _ _ _ _ _ (wy_flow _ _ _ _ _ _ _ _ _ _ HY2)) as (_ & Hc & _).
      rewrite Eoy in Hc. destruct Hc as (_ & Hl & _). lia.
  - unfold outbound_ended, stream_in. by rewrite Esx, Esy.
  - by rewrite Ecy.
  - intros E. unfold inbound_stream. rewrite Ecy. by apply Heof.
  - intros [-> ->] Hry Hrx.
    destruct (finished ix S cap x _ _ _ _ iy [] cap [] HS H0 (wy_flow _ _ _ _ _ _ _ _ _ _ HX) Hrx
      (fl_received _ _ _ _ _ _ _ _ _ (wy_flow _ _ _ _ _ _ _ _ _ _ HY))) as [Fx Fx'].
    destruct (finished iy [] cap y _ _ _ _ ix S cap _ H0 HS (wy_flow _ _ _ _ _ _ _ _ _ _ HY) Hry
      (fl_received _ _ _ _ _ _ _ _ _ (wy_flow _ _ _ _ _ _ _ _ _ _ HX))) as [Fy Fy'].
    destruct (Hix' Fx) as (_ & Qx & Ax), (Hiy' Fy) as (_ & Qy & Ay). unfold active.
    rewrite Ax, Ay, Fx', Fy'. split; [done|].
    split; intros Ht; apply Z.leb_le in Ht; rewrite Ht, orb_true_r; apply andb_false_r.
Qed.

Lemma turn k b Rx Ry :
  Head (Datatypes.S k) b Rx Ry ->
  exists b' Rx' Ry', bench_loop false b = Ok b' /\ Head k b' Rx' Ry' /\ Turned b b' Rx Ry Rx' Ry'.
Proof.
  intros HH. destruct (turn_writes _ b Rx Ry HH) as (x0 & buf & closed & HW & Ec & Ew & Hload & Hsame).
  rewrite (bench_loop_eq _ _ _ _ Ew). unfold turn_rest.
  destruct (exchange _ b Rx Ry x0 buf HH HW Hload) as (Rx' & Ry' & HE).
  set (y1 := fold_left _ _ (bm_y b)) in *. set (x1 := fold_left _ _ (set_segments_out [] x0)) in *.
  destruct HE as [HX HY Hs Ha Harr [Hcx Hcy] [Hex Hey] [Kx Ky] [Tx Ty] _ Hprog Hrec Hquiet Hsame2].
  set (y2 := set_segments_out [] y1) in *. clearbody x1 y2. clear y1.
  destruct (read _ (inbound_stream y2)) as [data st] eqn:Er.
  destruct (flow_read ix S HS cap Hcap _ _ _ _ _ _ (wy_flow _ _ _ _ _ _ _ _ _ _ HX) data st Er) as (HF & Eout & Heof).
  set (y3 := set_receiver (with_stream_out st (cn_receiver y2)) y2).
  destruct (ticks x1 y3 buf closed (bm_received b ++ data) Rx' Ry') as (x4 & y4 & -> & -> & HT); try done.
  { destruct HX. by split. }
  cbn [mbind res_bind]. set (b' := mkBench _ _ _ _ _) in *. exists b', Rx', Ry'. split; [done|].
  pose proof (hd_time _ _ _ _ HH) as [Tb1 Tb2].
  destruct HT as [HX' HY' [Hrx Hcx'] Hcy' [Ex Ey] [Kx' Ky'] [Tx' Ty'] Hrd He Hthr]. cbn [y3 set_receiver cn_sender cn_time cn_segments_out] in *.
  assert (Tx2 : cn_time (bm_x b') = cn_time x1 + 1000) by (rewrite Tx'; apply u64_small; destruct Tx as [->| ->]; word_lia).
  assert (Ty2 : cn_time (bm_y b') = cn_time y2 + 1000) by (rewrite Ty'; apply u64_small; destruct Ty as [->| ->]; word_lia).
  split.
  - split; try done.
    + congruence.
    + destruct Hcy' as [? Hc]. split; [done|]. by rewrite Harr in Hc.
    + rewrite Ey. exact Hey.
    + apply (wn_buffer _ _ _ _ _ HW).
    + cbn [b' bm_x_closed]. congruence.
    + split; [congruence|]. rewrite Ky'. exact Ky.
    + rewrite Tx2, Ty2. destruct Tx as [->| ->], Ty as [->| ->]; lia.
  - assert (Hthr' : through Rx Ry -> through Rx' Ry').
    { intros [-> ->]. destruct (flow_bounds _ _ _ _ _ _ _ _ _ (wy_flow _ _ _ _ _ _ _ _ _ _ HX)) as [? ?],
        (flow_bounds _ _ _ _ _ _ _ _ _ (wy_flow _ _ _ _ _ _ _ _ _ _ HY)) as [? Hb]. cbn in Hb.
      destruct Hprog as [[?|[? _]] [?|[? _]]]; split; lia. }
    split; [done|..]; intros Ht; pose proof (Hthr' Ht) as Ht'; destruct Ht as [Hx2 Hy2];
      (destruct (Hthr Ht' ltac:(congruence) Ha) as ([Eqx Eqy] & Ax & Ay)); destruct (Hquiet Hx2 Hy2) as [He1 He2];
      rewrite ?Eqx, ?Eqy; pose proof (Hsame Hy2) as ->.
    + done.
    + done.
    + intros Q1 Q2. destruct (Hsame2 Q1 Q2) as [Ex1 Ey1]. by rewrite Tx2, Ty2, Ex1, Ey1.
    + change (cn_cfg y3) with (cn_cfg y2) in Ay. rewrite Kx in Ax. rewrite Ky in Ay. done.
Qed.

(** ** The two loops *)

Lemma head_bounds k b Rx Ry : Head k b Rx Ry -> 0 <= Rx <= 2 /\ 0 <= Ry <= zlen S + 2.
Proof.
  intros HH. pose proof (flow_bounds _ _ _ _ _ _ _ _ _ (wy_flow _ _ _ _ _ _ _ _ _ _ (hd_x _ _ _ _ HH))) as Hx.
  pose proof (flow_bounds _ _ _ _ _ _ _ _ _ (wy_flow _ _ _ _ _ _ _ _ _ _ (hd_y _ _ _ _ HH))) as Hy. cbn in Hy. lia.
Qed.

(** [y] sees the end of its stream exactly when it has everything, and then
    everything has been read. *)
Lemma head_end k b Rx Ry :
  Head k b Rx Ry ->
  (eof (inbound_stream (bm_y b)) = true <-> Ry = zlen S + 2) /\ (Ry = zlen S + 2 -> bm_received b = S).
Proof.
  intros HH. pose proof (fl_received _ _ _ _ _ _ _ _ _ (wy_flow _ _ _ _ _ _ _ _ _ _ (hd_x _ _ _ _ HH))) as HR.
  pose proof (re_next _ _ _ _ _ _ HR) as Hn. destruct (re_good _ _ _ _ _ _ HR) as (h & w & Hg).
  pose proof (inv_next _ _ _ _ (good_inv _ _ _ _ _ Hg)) as Hn1. split; [split|].
  - unfold eof. intros [He _]%andb_true_iff. apply (good_ended _ _ _ _ _ Hg) in He as [He Hi].
    rewrite (re_eof _ _ _ _ _ _ HR) in He. destruct (fk_set _ _ (re_fin _ _ _ _ _ _ HR) He) as [Es _].
    rewrite Es, He in Hn. lia.
  - apply (hd_eof _ _ _ _ HH).
  - intros ->. rewrite (hd_read _ _ _ _ HH). apply take_ge.
    destruct (rc_if_fin_set _), (rc_if_syn_set _); lia.
Qed.

Lemma transferring_ends n : forall k b Rx Ry,
  Head (n + k) b Rx Ry -> zlen S + 2 - Ry < Z.of_nat n ->
  exists k' b' Rx', bench_while n transferring false b = Ok (false, b') /\ (k <= k')%nat /\ Head k' b' Rx' (zlen S + 2).
Proof.
  induction n as [|n IH]; intros k b Rx Ry HH Hn; [pose proof (head_bounds _ _ _ _ HH); lia|].
  cbn [bench_while]. unfold transferring at 1. destruct (head_end _ _ _ _ HH) as [Hend _].
  destruct (eof (inbound_stream (bm_y b))); cbn [negb].
  - assert (E : Ry = zlen S + 2) by (by apply Hend). subst Ry. exists (Datatypes.S n + k)%nat, b, Rx.
    split; [done|]. split; [lia|done].
  - destruct (turn (n + k) b Rx Ry HH) as (b' & Rx' & Ry' & -> & HH' & HT). cbn [mbind res_bind].
    apply (IH k b' Rx' Ry' HH'). destruct (tn_progress _ _ _ _ _ _ HT) as [[?|[_ E]] _]; [lia|]. by apply Hend in E.
Qed.

(** Seconds of lingering, in turns. *)
Definition linger_turns : Z := cfg_rt_timeout config / 100 + 1.

(** At most [k] turns to go: until [y]'s FIN is through, until the queues are
    empty, until the time has passed. *)
Definition closes (k : nat) (b : bench) : Prop :=
  exists Rx, Head k b Rx (zlen S + 2) /\
  (2 - Rx + 3 + linger_turns <= Z.of_nat k \/
   Rx = 2 /\ Forall is_empty (qx b) /\ qy b = [] /\ 2 + linger_turns <= Z.of_nat k \/
   Rx = 2 /\ qx b = [] /\ qy b = [] /\
   (10 * cfg_rt_timeout config <= cn_time (bm_x b) -> active (bm_x b) = false) /\
   (10 * cfg_rt_timeout config <= cn_time (bm_y b) -> active (bm_y b) = false) /\
   (linger_turns - Z.of_nat k) * 1000 <= cn_time (bm_x b) /\ (linger_turns - Z.of_nat k) * 1000 <= cn_time (bm_y b)).

Lemma linger_enough : 0 < linger_turns /\ 10 * cfg_rt_timeout config <= linger_turns * 1000.
Proof.
  unfold linger_turns. assert (0 <= cfg_rt_timeout config) by (word_unfold; lia).
  pose proof (Z.div_mod (cfg_rt_timeout config) 100 ltac:(lia)). pose proof (Z.mod_pos_bound (cfg_rt_timeout config) 100 ltac:(lia)).
  pose proof (Z.div_pos (cfg_rt_timeout config) 100 ltac:(lia) ltac:(lia)). lia.
Qed.

Lemma closes_turn k b : closes (Datatypes.S k) b -> exists b', bench_loop false b = Ok b' /\ closes k b'.
Proof.
  intros (Rx & HH & Hst). destruct (turn k b Rx _ HH) as (b' & Rx' & Ry' & E & HH' & [[Hy Hx] Hem Hqu Hti Hac]).
  pose proof (head_bounds _ _ _ _ HH) as [HbR _]. pose proof (head_bounds _ _ _ _ HH') as [Hb1 Hb2]. pose proof (hd_time _ _ _ _ HH') as Htm.
  assert (Ey : Ry' = zlen S + 2) by lia. subst Ry'. exists b'. split; [done|]. exists Rx'. split; [done|].
  destruct Hst as [Hk|[(-> & He & Hq & Hk)|(-> & Hqx & Hqy & Ax & Ay & Tx & Ty)]].
  - destruct (Z.eq_dec Rx 2) as [->|]; [|left; lia]. assert (Rx' = 2) by lia. subst Rx'.
    right; left. destruct (Hem (conj eq_refl eq_refl)) as [? ?]. split_and!; try done. lia.
  - assert (Rx' = 2) by lia. subst Rx'. assert (Ht : through 2 (zlen S + 2)) by done.
    destruct (Hem Ht) as [_ Hq'], (Hac Ht) as [Ax' Ay']. right; right. split_and!; auto; lia.
  - assert (Rx' = 2) by lia. subst Rx'. assert (Ht : through 2 (zlen S + 2)) by done.
    destruct (Hem Ht) as [_ Hq'], (Hac Ht) as [Ax' Ay'], (Hti Ht Hqx Hqy) as [Ex' Ey']. right; right.
    split_and!; try done; [|lia..]. apply Hqu; [done| |done]. by rewrite Hqx.
Qed.

Lemma closing_ends n : forall k b, (k < n)%nat -> closes k b ->
  exists b', bench_while n closing false b = Ok (false, b') /\ bm_received b' = S /\ closing b' = false.
Proof.
  induction n as [|n IH]; intros k b Hk Hc; [lia|]. cbn [bench_while].
  assert (Hrec : bm_received b = S) by (destruct Hc as (Rx & HH & _); by apply (head_end _ _ _ _ HH)).
  destruct (closing b) eqn:Ec; [|by exists b]. destruct k as [|k].
  - destruct Hc as (Rx & HH & Hst). pose proof linger_enough. pose proof (head_bounds _ _ _ _ HH).
    destruct Hst as [?|[(_ & _ & _ & ?)|(_ & _ & _ & Ax & Ay & Tx & Ty)]]; [lia..|].
    unfold closing in Ec. by rewrite Ax, Ay in Ec by lia.
  - destruct (closes_turn k b Hc) as (b' & -> & Hc'). cbn [mbind res_bind]. apply (IH k b'); [lia|done].
Qed.
End Completion.

(** ** The start *)

(** The first call of [fill_window], with nothing written: the SYN. *)
Definition first_segment (isn : WrappingInt32) : TCPSegment := mkTCPSegment (seg_header isn true false) (Buffer_of []).

Lemma fill_first random scap rto fixed st :
  bs_buffer st = [] -> (forall isn, fixed = Some isn -> winv isn) ->
  let s := with_stream_in st (TCPSender_new random scap rto fixed) in
  fill_window s = mkSender (sd_isn s) [first_segment (sd_isn s)] rto st 1 [first_segment (sd_isn s)] 1 true false 0 0 1 false
    rto (mkTimer 0 true).
Proof.
  intros Eb Hfix. cbv zeta. set (isn := sd_isn (TCPSender_new random scap rto fixed)).
  assert (Hisn : winv isn) by (unfold isn; cbn; destruct fixed; cbn; [auto|apply u32_range]).
  assert (Er : read (Z.min (u64 (0 + 1 - 0)) MAX_PAYLOAD_SIZE) st = ([], st)).
  { unfold read, pop_output, peek_output, buffer_size. by rewrite Eb. }
  unfold fill_window, fill_fuel. cbn [with_stream_in sd_stream]. rewrite Eb. cbn [length Nat.add fill_loop].
  unfold fill_cond at 1, fill_segment at 1. cbn [with_stream_in TCPSender_new sd_is_syn_set negb orb sd_recent_abs_ackno
    sd_window_size sd_next_seqno sd_stream sd_isn sd_is_fin_set]. rewrite Er. cbn [fst snd]. change (default (mkWrappingInt32 (u32 random)) fixed) with isn.
  rewrite (wrap_0 isn Hisn).
  assert (El : length_in_sequence_space (first_segment isn) = 1) by done.
  assert (Ef : eof st && true && (length_in_sequence_space (mkTCPSegment (seg_header isn (0 =? 0) false) (Buffer_of [])) <? u64 (0 + 1 - 0)) = false).
  { by rewrite andb_false_r. }
  rewrite Ef. clearbody isn. reflexivity.
Qed.

Lemma way_start random scap rto fixed st isn S cap back :
  isn = default (mkWrappingInt32 (u32 random)) fixed -> (forall isn, fixed = Some isn -> winv isn) ->
  1 <= scap < 2 ^ 31 -> 1 <= cap < 2 ^ 31 -> zlen S < 2 ^ 31 - 4 ->
  Represents st [] 0 -> bs_capacity st = scap -> (bs_input_ended st = true -> S = []) -> Forall plain back ->
  let s := fill_window (with_stream_in st (TCPSender_new random scap rto fixed)) in
  sd_segments_out s = [first_segment isn] /\ sd_consecutive s = 0 /\ una s = 0 /\
  sd_recent_abs_ackno s = 0 /\ sd_stream s = st /\
  Way isn S cap (with_segments_out [] s) (TCPReceiver_new cap) S [first_segment isn] back [] 0.
Proof.
  intros -> Hfix Hsc Hcap HS R Ec Hend Hback. cbv zeta. set (isn := default _ fixed).
  assert (HI : SInv (with_stream_in st (TCPSender_new random scap rto fixed)) [] 0).
  { apply (with_stream_inv _ [] 0 st []); [apply SInv_new; [lia|done]|done|done]. }
  destruct (fill_window_spec [] ltac:(cbn; lia) _ 0 HI) as (rd & HI' & _).
  rewrite fill_first in * by (apply (rep_buffer _ _ _ R) || done). cbn [with_stream_in TCPSender_new sd_isn] in *. fold isn in HI' |- *.
  set (s := mkSender _ _ _ _ _ _ _ _ _ _ _ _ _ _ _) in *.
  split; [done|]. split; [done|]. split; [done|]. split; [done|]. split; [done|].
  destruct (sender_chain S s [] rd S HI' eq_refl Hend) as (_ & (Hh & Hl & _) & _).
  assert (Hisn : winv isn) by (unfold isn; destruct fixed; cbn; [auto|apply u32_range]).
  split; [split|by apply acks_plain|by left]; cbn [s with_segments_out sd_stream sd_isn sd_is_syn_set sd_segments_out sd_outstanding
    sd_next_seqno sd_recent_abs_ackno sd_window_size]; try done; try lia.
  - exists [], rd. split; [|done]. apply with_segments_out_inv; [done|]. intros x Hx. by apply elem_of_nil in Hx.
  - apply Received_new; lia.
  - exists [], [first_segment isn]. split_and!; try done. cbn [feeds]. split; [done|]. exists 0. split; [exact Hh|].
    left. by exists (first_segment isn), [].
  - by repeat constructor.
Qed.

Section Start.
Context (config : TCPConfig) (Hcfg : cfg_ok config).
Context (Hrecv : 1 <= cfg_recv_capacity config) (Hsend : 1 <= cfg_send_capacity config).
Context (rx ry : Z) (S : list byte) (HS : zlen S < 2 ^ 31 - 4).
Definition first_number (random : Z) : WrappingInt32 := default (mkWrappingInt32 (u32 random)) (cfg_fixed_isn config).

Lemma first_number_ok random : winv (first_number random).
Proof. unfold first_number. pose proof (ok_isn _ Hcfg) as H. destruct (cfg_fixed_isn config); cbn; [auto|apply u32_range]. Qed.

Lemma head_start k : 1000 * Z.of_nat k <= 2 ^ 63 ->
  Head config (first_number rx) (first_number ry) S k (bench_start rx ry config S) 0 0.
Proof.
  intros Hk. pose proof (ok_send _ Hcfg) as Hs. pose proof (ok_recv _ Hcfg) as Hr. pose proof (ok_isn _ Hcfg) as Hi.
  assert (HR : Represents (ByteStream_new (cfg_send_capacity config)) [] 0) by (apply new_represents; lia).
  destruct (way_start rx (cfg_send_capacity config) (cfg_rt_timeout config) (cfg_fixed_isn config) _ (first_number rx) S
    (cfg_recv_capacity config) [first_segment (first_number ry)] eq_refl Hi ltac:(lia) ltac:(lia) HS HR eq_refl ltac:(done)
    ltac:(by repeat constructor)) as (Qx & Cx & Ux & Rx & Sx & Wx).
  destruct (way_start ry (cfg_send_capacity config) (cfg_rt_timeout config) (cfg_fixed_isn config) (end_input (ByteStream_new (cfg_send_capacity config)))
    (first_number ry) [] (cfg_recv_capacity config) [first_segment (first_number rx)] eq_refl Hi ltac:(lia) ltac:(lia) ltac:(cbn; lia)
    (end_input_represents _ _ _ HR) eq_refl ltac:(done) ltac:(by repeat constructor)) as (Qy & Cy & Uy & Ry & Sy & Wy).
  set (s1 := fill_window _) in *. set (s2 := fill_window _) in Qy, Cy, Uy, Ry, Sy, Wy.
  assert (Ex : bm_x (bench_start rx ry config S) = mkConnection config (TCPReceiver_new (cfg_recv_capacity config))
    (with_segments_out [] s1) [first_segment (first_number rx)] true true 0).
  { unfold bench_start, connect. cbn [bm_x active TCPConnection_new cn_active negb]. rewrite send_segments_eq.
    cbn [set_sender cn_sender cn_receiver cn_segments_out cn_cfg cn_linger cn_active cn_time app].
    change (fill_window _) with s1. rewrite Qx. done. }
  assert (Ey : bm_y (bench_start rx ry config S) = mkConnection config (TCPReceiver_new (cfg_recv_capacity config))
    (with_segments_out [] s2) [first_segment (first_number ry)] true true 0).
  { unfold bench_start, end_input_stream. cbn [bm_y TCPConnection_new]. rewrite send_segments_eq.
    cbn [set_sender cn_sender cn_receiver cn_segments_out cn_cfg cn_linger cn_active cn_time app].
    change (fill_window _) with s2. rewrite Qy. done. }
  clearbody s1 s2.
  split; rewrite ?Ex, ?Ey; cbn [cn_sender cn_receiver cn_segments_out cn_cfg cn_time cn_active].
  - exact Wx.
  - exact Wy.
  - exact Rx.
  - split; [cbn; lia|intros _; exact Cx].
  - split; [cbn; lia|left; exact Cy].
  - unfold outbound_ended, stream_in. cbn. by rewrite Sy.
  - cbn. lia.
  - unfold outbound_ended, stream_in. cbn. by rewrite Sx.
  - done.
  - lia.
  - done.
  - lia.
Qed.
End Start.

Lemma bench_while_mono condition reorder b' n : forall n' b,
  bench_while n condition reorder b = Ok (false, b') -> (n <= n')%nat -> bench_while n' condition reorder b = Ok (false, b').
Proof.
  induction n as [|n IH]; intros [|n'] b; cbn [bench_while]; [done|done|lia|]. destruct (condition b); [|done].
  destruct (bench_loop reorder b) as [b1| |]; [|done..]. cbn [mbind res_bind]. intros E Hn. apply IH; [done|lia].
Qed.

(** [y] has read the string, and both connections have ended. *)
Definition accomplished (S : list byte) (b : bench) : Prop :=
  bm_received b = S /\ active (bm_x b) = false /\ active (bm_y b) = false.


(** Five bytes, through buffers of one byte on both sides. *)
Definition tiny_cfg : TCPConfig := mkTCPConfig 1000 1 1 (Some (mkWrappingInt32 4294967295)).


(** In reverse order the program may fail, though nothing is lost: with a send
    buffer of one byte the empty FIN overtakes both bytes, and [y]'s stream ends
    before it has begun (src/libsponge/stream_reassembler.cc, line 82). *)
Definition reordering_cfg : TCPConfig := mkTCPConfig 1000 20 1 (Some (mkWrappingInt32 7)).

Lemma reordering_truncates n m : (3 <= n)%nat ->
  bench_main_loop n m true 0 0 reordering_cfg (numbers 2) = Throw runtime_error.
Proof.
  intros Hn. assert (E : exists b, bench_while 3 transferring true (bench_start 0 0 reordering_cfg (numbers 2)) = Ok (false, b) /\
    bm_received b = []) by (eexists; split; vm_compute; reflexivity).
  destruct E as (b & E & Er). unfold bench_main_loop. rewrite (bench_while_mono _ _ _ _ n _ E Hn). cbn [mbind res_bind].
  rewrite Er. reflexivity.
Qed.
