(* ===== verification/Text.v ===== *)
(** * Text output

    What the sources use of [std::ostream], and [hexdump] of
    [src/libsponge/util/util.cc].  A stream is the text written so far with the
    formatting state the manipulators change; [put] writes one item of a chain of
    [<<]. *)

From Stdlib Require Import Strings.String HexadecimalString DecimalString NArith.
From Stdlib Require HexadecimalFacts HexadecimalN DecimalFacts DecimalN.
From S2P Require Import Prelude.

Open Scope Z_scope.

Definition txt (s : string) : list byte := String.list_byte_of_string s.
Definition nl : byte := x0a.
Definition space : byte := x20.

(** The digits of an unsigned number; [dec] is also [std::to_string]. *)
Definition dec (x : Z) : list byte := txt (DecimalString.NilZero.string_of_uint (N.to_uint (Z.to_N x))).
Definition hex (x : Z) : list byte := txt (HexadecimalString.NilZero.string_of_uint (N.to_hex_uint (Z.to_N x))).

(** ** Streams *)

Record ostream := mkOs {
  os_text : list byte;
  os_hex : bool;           (* the base: hexadecimal or decimal *)
  os_boolalpha : bool;
  os_fill : byte;
  os_width : Z             (* of the next item only *)
}.

(** A new [stringstream]. *)
Definition os_new : ostream := mkOs [] false false space 0.

Inductive item :=
| Str (s : string) | Bytes (l : list byte) | Num (x : Z) | Flag (b : bool) | Endl
| Hex | Dec | Boolalpha | Setw (n : Z) | Setfill (c : byte).

(** Text is padded on the left to the width, which is then reset. *)
Definition padded (width : Z) (fill : byte) (l : list byte) : list byte :=
  replicate (Z.to_nat (width - zlen l)) fill ++ l.
Definition emit (l : list byte) (o : ostream) : ostream :=
  mkOs (os_text o ++ padded (os_width o) (os_fill o) l) (os_hex o) (os_boolalpha o) (os_fill o) 0.

Definition put (o : ostream) (i : item) : ostream :=
  match i with
  | Str s => emit (txt s) o
  | Bytes l => emit l o
  | Num x => emit (if os_hex o then hex x else dec x) o
  | Flag b => emit (if os_boolalpha o then (if b then txt "true" else txt "false")
                    else if b then txt "1" else txt "0") o
  | Endl => emit [nl] o
  | Hex => mkOs (os_text o) true (os_boolalpha o) (os_fill o) (os_width o)
  | Dec => mkOs (os_text o) false (os_boolalpha o) (os_fill o) (os_width o)
  | Boolalpha => mkOs (os_text o) (os_hex o) true (os_fill o) (os_width o)
  | Setw n => mkOs (os_text o) (os_hex o) (os_boolalpha o) (os_fill o) n
  | Setfill c => mkOs (os_text o) (os_hex o) (os_boolalpha o) c (os_width o)
  end.

Notation "o << l" := (fold_left put l o) (at level 50, left associativity) : sponge_scope.

(** What a new [stringstream] holds after a chain of items. *)
Definition render (l : list item) : list byte := os_text (os_new << l).

(** [isprint] in the C locale. *)
Definition isprint (c : byte) : bool := (32 <=? byte_val c) && (byte_val c <=? 126).
Definition shown (c : byte) : byte := if isprint c then c else x2e.

(** ** [hexdump] *)

(** [pchars] is a stringstream made from a blank with the write position at its
    start: the first character replaces the blank. *)
Definition pchars_str (written : list byte) : list byte :=
  match written with [] => [space] | _ => written end.

(** The loop, from byte [printed] on. *)
Fixpoint hexdump_loop (indent_string data : list byte) (printed : Z) (pchars : list byte) (cout : ostream)
  : Z * list byte * ostream :=
  match data with
  | [] => (printed, pchars, cout)
  | d :: rest =>
      let '(pchars, cout) :=
        if Z.land printed 15 =? 0 then
          let '(pchars, cout) :=
            if negb (printed =? 0)
            then ([], cout << [Str "    "; Bytes (pchars_str pchars); Endl])
            else (pchars, cout) in
          (pchars, cout << [Bytes indent_string; Setw 8; Num printed; Str ":    "])
        else if Z.land printed 1 =? 0 then (pchars, cout << [Str " "])
        else (pchars, cout) in
      hexdump_loop indent_string rest (printed + 1) (pchars ++ [shown d])
        (cout << [Setw 2; Num (byte_val d)])
  end.

(** The [int] that counts the bytes overflows beyond [2^31 - 1]. *)
Definition hexdump (data : list byte) (indent : Z) (cout : ostream) : res ostream :=
  if 2 ^ 31 <=? zlen data then Undefined
  else
    let indent_string := replicate (Z.to_nat indent) space in
    let '(printed, pchars, o) := hexdump_loop indent_string data 0 [] (cout << [Hex; Setfill x30]) in
    let print_rem := (16 - Z.land printed 15) mod 16 in
    let o := o << [Bytes (replicate (Z.to_nat (2 * print_rem + print_rem / 2 + 4)) space);
                   Bytes (pchars_str pchars); Endl; Endl] in
    Ok (mkOs (os_text o) (os_hex cout) (os_boolalpha cout) (os_fill o) (os_width o)).

(** ** The layout of a dump *)

(** The bytes of a line: pairs of hexadecimal digits, with a blank after every
    second byte but the last of the line. *)
Definition hex2 (b : byte) : list byte := padded 2 x30 (hex (byte_val b)).
Fixpoint hex_column (odd : bool) (chunk : list byte) : list byte :=
  match chunk with
  | [] => []
  | b :: rest =>
      hex2 b ++ (if odd then match rest with [] => [] | _ => [space] end else []) ++ hex_column (negb odd) rest
  end.

(** A line: the offset, the bytes in a column of 39, and the characters. *)
Definition dump_line (indent : list byte) (offset : Z) (chunk : list byte) : list byte :=
  let column := hex_column false chunk in
  indent ++ padded 8 x30 (hex offset) ++ txt ":    " ++ column ++ replicate (39 - length column) space ++
  txt "    " ++ map shown chunk.

(** The lines for bytes from [offset] on, one for every sixteen. *)
Fixpoint dump_lines (n : nat) (indent : list byte) (offset : Z) (data : list byte) : list (list byte) :=
  match n, data with
  | S n', _ :: _ =>
      dump_line indent offset (take 16 data) :: dump_lines n' indent (offset + 16) (drop 16 data)
  | _, _ => []
  end.

Lemma length_hex2 b : length (hex2 b) = 2%nat.
Proof. destruct b; reflexivity. Qed.

Lemma put_width o l : os_width o = 0 -> emit l o = mkOs (os_text o ++ l) (os_hex o) (os_boolalpha o) (os_fill o) 0.
Proof.
  intros Hw. unfold emit, padded. rewrite Hw.
  replace (Z.to_nat (0 - zlen l)) with O by lia. done.
Qed.

(** The state inside the loop: hexadecimal, zero fill, no pending width. *)
Definition dumping (bo : bool) (t : list byte) : ostream := mkOs t true bo x30 0.

Lemma dumping_text bo t l : emit l (dumping bo t) = dumping bo (t ++ l).
Proof. by rewrite put_width. Qed.

Lemma dumping_bytes bo t l : (dumping bo t << [Bytes l]) = dumping bo (t ++ l).
Proof. apply dumping_text. Qed.

Lemma dumping_byte bo t b : (dumping bo t << [Setw 2; Num (byte_val b)]) = dumping bo (t ++ hex2 b).
Proof. done. Qed.

Lemma dumping_head bo t indent x :
  (dumping bo t << [Bytes indent; Setw 8; Num x; Str ":    "]) =
  dumping bo (t ++ indent ++ padded 8 x30 (hex x) ++ txt ":    ").
Proof.
  cbn [fold_left put]. rewrite dumping_text.
  change (emit (txt ":    ") (dumping bo ((t ++ indent) ++ padded 8 x30 (hex x))) =
          dumping bo (t ++ indent ++ padded 8 x30 (hex x) ++ txt ":    ")).
  by rewrite dumping_text, <- !(assoc_L (++)).
Qed.

Lemma hex_column_snoc p : forall odd b,
  hex_column odd (p ++ [b]) =
  hex_column odd p ++ (if bool_decide (p = []) || xorb odd (Nat.odd (length p)) then [] else [space]) ++ hex2 b.
Proof.
  induction p as [|c p IH]; intros odd b; cbn [hex_column app].
  { rewrite bool_decide_true by done. cbn. by destruct odd; rewrite ?app_nil_r. }
  rewrite IH. cbn [length]. rewrite Nat.odd_succ, <- Nat.negb_odd.
  rewrite (bool_decide_false (c :: p = [])) by done. cbn [orb].
  destruct p as [|d p]; cbn [app hex_column].
  - destruct odd; cbn; by rewrite app_nil_r.
  - rewrite (bool_decide_false (d :: p = [])) by done. cbn [orb].
    replace (xorb odd (negb (Nat.odd (length (d :: p))))) with (xorb (negb odd) (Nat.odd (length (d :: p))))
      by (by destruct odd, (Nat.odd _)).
    by rewrite <- !(assoc_L (++)).
Qed.

Lemma length_hex_column p : length (hex_column false p) = (2 * length p + (length p - 1) / 2)%nat.
Proof.
  induction p as [|b p IH] using rev_ind; [done|].
  rewrite hex_column_snoc, !length_app, IH, length_hex2. cbn [length].
  replace (length p + 1 - 1)%nat with (length p) by lia.
  destruct (decide (p = [])) as [->|Hp]; [done|]. rewrite bool_decide_false by done.
  assert (length p <> 0)%nat by (by intros ?%nil_length_inv). cbn [orb].
  rewrite xorb_false_l. destruct (Nat.odd (length p)) eqn:Eo; cbn [length].
  - apply Nat.odd_spec in Eo as [m ->]. replace (2 * m + 1 - 1)%nat with (m * 2)%nat by lia.
    replace (2 * m + 1)%nat with (1 + m * 2)%nat by lia. rewrite Nat.div_mul, Nat.div_add by lia. cbn. lia.
  - rewrite <- Nat.negb_even in Eo. apply negb_false_iff, Nat.even_spec in Eo as [m Em]. rewrite Em.
    destruct m as [|m]; [lia|]. replace (2 * S m - 1)%nat with (1 + m * 2)%nat by lia.
    replace (2 * S m)%nat with (S m * 2)%nat by lia. rewrite Nat.div_mul, Nat.div_add by lia. cbn. lia.
Qed.

Lemma land_15 x k : 0 <= k < 16 -> Z.land (16 * x + k) 15 = k.
Proof.
  intros Hk. change 15 with (Z.ones 4). rewrite Z.land_ones by lia. change (2 ^ 4) with 16.
  rewrite Z.add_comm, Z.mul_comm, Z.mod_add by lia. apply Z.mod_small. lia.
Qed.
Lemma land_1 x : Z.land x 1 = x mod 2.
Proof. change 1 with (Z.ones 1). by rewrite Z.land_ones. Qed.

(** Within a line: [p] is there, [q] follows. *)
Lemma hexdump_in_line indent bo x q : forall p t,
  p <> [] -> (length p + length q <= 16)%nat ->
  hexdump_loop indent q (16 * x + zlen p) (map shown p) (dumping bo (t ++ hex_column false p)) =
  (16 * x + zlen (p ++ q), map shown (p ++ q), dumping bo (t ++ hex_column false (p ++ q))).
Proof.
  induction q as [|d q IH]; intros p t Hp Hl; cbn [hexdump_loop]; [by rewrite app_nil_r|].
  cbn [length] in Hl. assert (length p <> 0)%nat by (by intros ?%nil_length_inv).
  rewrite land_15, (proj2 (Z.eqb_neq _ _)) by lia. rewrite land_1.
  assert (Ho : ((16 * x + zlen p) mod 2 =? 0) = negb (Nat.odd (length p))).
  { replace (16 * x + zlen p) with (zlen p + 8 * x * 2) by lia. rewrite Z.mod_add by lia.
    rewrite Nat.negb_odd. destruct (Nat.even (length p)) eqn:E.
    - apply Nat.even_spec in E as [m ->]. apply Z.eqb_eq. Z.div_mod_to_equations. lia.
    - rewrite <- Nat.negb_odd in E. apply negb_false_iff, Nat.odd_spec in E as [m ->].
      apply Z.eqb_neq. Z.div_mod_to_equations. lia. }
  specialize (IH (p ++ [d]) t). rewrite <- (assoc_L (++)) in IH. cbn [app] in IH. rewrite <- IH.
  - rewrite length_app, map_app, hex_column_snoc, bool_decide_false by done. cbn [orb length map].
    rewrite xorb_false_l, Ho. replace (16 * x + Z.of_nat (length p + 1)) with (16 * x + zlen p + 1) by lia.
    destruct (Nat.odd (length p)); cbn [negb]; rewrite ?dumping_byte, <- ?(assoc_L (++)); [done|].
    change (dumping bo (t ++ hex_column false p) << [Str " "])
      with (emit [space] (dumping bo (t ++ hex_column false p))).
    by rewrite dumping_text, dumping_byte, <- !(assoc_L (++)).
  - by destruct p.
  - rewrite length_app. cbn. lia.
Qed.

(** What a dump still owes when a line starts: the characters of the line
    before. *)
Definition line_break (x : Z) (prev : list byte) : list byte :=
  if x =? 0 then [] else txt "    " ++ pchars_str prev ++ [nl].

Lemma hexdump_line_start indent bo x d q prev t :
  (x = 0 -> prev = []) ->
  hexdump_loop indent (d :: q) (16 * x) prev (dumping bo t) =
  hexdump_loop indent q (16 * x + 1) (map shown [d])
    (dumping bo ((t ++ line_break x prev ++ indent ++ padded 8 x30 (hex (16 * x)) ++ txt ":    ") ++
       hex_column false [d])).
Proof.
  intros Hx. cbn [hexdump_loop hex_column map]. replace (Z.land (16 * x) 15) with 0
    by (rewrite <- (land_15 x 0) by lia; f_equal; lia).
  cbn [Z.eqb]. unfold line_break. destruct (x =? 0) eqn:E; bool_prop.
  - rewrite E, Hx by done. change (negb (16 * 0 =? 0)) with false. cbn iota.
    by rewrite dumping_head, dumping_byte, <- !(assoc_L (++)), app_nil_r.
  - rewrite (proj2 (Z.eqb_neq (16 * x) 0)) by lia. cbn [negb].
    change (dumping bo t << [Str "    "; Bytes (pchars_str prev); Endl])
      with (emit [nl] (emit (pchars_str prev) (emit (txt "    ") (dumping bo t)))).
    by rewrite !dumping_text, dumping_head, dumping_byte, <- !(assoc_L (++)), app_nil_r.
Qed.

Lemma hexdump_loop_app indent l1 l2 : forall printed pchars o,
  hexdump_loop indent (l1 ++ l2) printed pchars o =
  let '(printed, pchars, o) := hexdump_loop indent l1 printed pchars o in
  hexdump_loop indent l2 printed pchars o.
Proof.
  induction l1 as [|d l1 IH]; intros printed pchars o; [done|]. cbn [app hexdump_loop].
  destruct (if Z.land printed 15 =? 0 then _ else _) as [pchars' o']. apply IH.
Qed.

(** A line of up to sixteen bytes. *)
Lemma hexdump_line indent bo x chunk prev t :
  chunk <> [] -> (length chunk <= 16)%nat -> (x = 0 -> prev = []) ->
  hexdump_loop indent chunk (16 * x) prev (dumping bo t) =
  (16 * x + zlen chunk, map shown chunk,
   dumping bo ((t ++ line_break x prev ++ indent ++ padded 8 x30 (hex (16 * x)) ++ txt ":    ") ++
       hex_column false chunk)).
Proof.
  destruct chunk as [|d q]; [done|]. intros _ Hl Hx. cbn [length] in Hl. rewrite hexdump_line_start by done.
  rewrite (hexdump_in_line indent bo x q [d]) by (done || cbn; lia). done.
Qed.

Definition finish (st : Z * list byte * ostream) : list byte :=
  let '(printed, pchars, o) := st in
  let print_rem := (16 - Z.land printed 15) mod 16 in
  os_text (o << [Bytes (replicate (Z.to_nat (2 * print_rem + print_rem / 2 + 4)) space);
                 Bytes (pchars_str pchars); Endl; Endl]).

Lemma line_spaces k :
  (0 < k <= 16)%nat ->
  let print_rem := (16 - Z.of_nat k mod 16) mod 16 in
  replicate (Z.to_nat (2 * print_rem + print_rem / 2 + 4)) space =
  replicate (39 - (2 * k + (k - 1) / 2)) space ++ txt "    ".
Proof.
  intros Hk. do 17 (destruct k as [|k]; [first [lia|reflexivity]|]). lia.
Qed.

Lemma finish_line indent bo x chunk t :
  chunk <> [] -> (length chunk <= 16)%nat ->
  finish (16 * x + zlen chunk, map shown chunk,
          dumping bo ((t ++ indent ++ padded 8 x30 (hex (16 * x)) ++ txt ":    ") ++ hex_column false chunk)) =
  t ++ dump_line indent (16 * x) chunk ++ [nl; nl].
Proof.
  intros Hc Hl. unfold finish. cbv zeta.
  assert (0 < length chunk)%nat by (by destruct chunk; cbn; [|lia]).
  replace (Z.land (16 * x + zlen chunk) 15) with (zlen chunk mod 16).
  2: { change 15 with (Z.ones 4). rewrite Z.land_ones by lia. change (2 ^ 4) with 16.
       by rewrite Z.add_comm, Z.mul_comm, Z.mod_add by lia. }
  pose proof (line_spaces (length chunk) ltac:(lia)) as Hs. cbv zeta in Hs. rewrite Hs.
  rewrite <- length_hex_column.
  cbn [fold_left put]. rewrite !dumping_text. cbn [dumping os_text]. unfold dump_line.
  replace (pchars_str (map shown chunk)) with (map shown chunk) by (by destruct chunk).
  by rewrite <- !(assoc_L (++)).
Qed.

Lemma hexdump_lines indent bo n : forall x data prev t,
  data <> [] -> (length data <= n * 16)%nat -> 0 <= x -> (x = 0 -> prev = []) ->
  finish (hexdump_loop indent data (16 * x) prev (dumping bo t)) =
  t ++ line_break x prev ++ concat (map (fun l => l ++ [nl]) (dump_lines n indent (16 * x) data)) ++ [nl].
Proof.
  induction n as [|n IH]; intros x data prev t Hd Hl Hx0 Hx; [destruct data; [done|cbn in *; lia]|].
  rewrite <- (take_drop 16 data) at 1. rewrite hexdump_loop_app.
  assert (Ht : take 16 data <> []) by (by destruct data).
  rewrite hexdump_line by (done || rewrite length_take; lia).
  replace (dump_lines (S n) indent (16 * x) data) with
    (dump_line indent (16 * x) (take 16 data) :: dump_lines n indent (16 * (x + 1)) (drop 16 data))
    by (destruct data; [done|]; cbn [dump_lines]; do 2 f_equal; lia).
  cbn [map concat]. destruct (decide (drop 16 data = [])) as [E|E].
  - rewrite E. replace (dump_lines n indent (16 * (x + 1)) []) with (@nil (list byte)) by (by destruct n).
    cbn [hexdump_loop map concat app]. pose proof (finish_line indent bo x (take 16 data) (t ++ line_break x prev) Ht)
      as Hf. rewrite <- !(assoc_L (++)) in *. rewrite Hf by (rewrite length_take; lia). done.
  - assert (Hfull : length (take 16 data) = 16%nat).
    { rewrite length_take. destruct (Nat.le_gt_cases 16 (length data)); [lia|].
      by rewrite drop_ge in E by lia. }
    rewrite Hfull. replace (16 * x + Z.of_nat 16) with (16 * (x + 1)) by lia.
    rewrite IH by (done || rewrite ?length_drop; intros; lia). unfold line_break at 2.
    rewrite (proj2 (Z.eqb_neq _ _)) by lia. unfold dump_line at 1.
    rewrite length_hex_column, Hfull.
    replace (pchars_str (map shown (take 16 data))) with (map shown (take 16 data)) by (by destruct data).
    by rewrite <- !(assoc_L (++)).
Qed.

Definition dump_text (indent : Z) (data : list byte) : list byte :=
  concat (map (fun l => l ++ [nl]) (dump_lines (length data) (replicate (Z.to_nat indent) space) 0 data)) ++ [nl].

(** C20.  The layout of [hexdump]: for a non-empty buffer of fewer than [2^31] bytes,
    to a stream without a pending width, the text is one line for every sixteen
    bytes, with the offset, the bytes in a column of fixed width and the
    characters, and an empty line; the base and the other flags of the stream are
    as before, its fill character is left at '0'. *)
Theorem hexdump_layout data indent cout :
  data <> [] -> zlen data < 2 ^ 31 -> os_width cout = 0 ->
  hexdump data indent cout =
  Ok (mkOs (os_text cout ++ dump_text indent data) (os_hex cout) (os_boolalpha cout) x30 0).
Proof.
  intros Hd Hl Hw. unfold hexdump. rewrite (proj2 (Z.leb_gt _ _)) by done. cbv zeta.
  replace (cout << [Hex; Setfill x30]) with (dumping (os_boolalpha cout) (os_text cout))
    by (cbn; unfold dumping; by rewrite Hw).
  pose proof (hexdump_lines (replicate (Z.to_nat indent) space) (os_boolalpha cout) (length data) 0 data []
    (os_text cout) Hd ltac:(lia) ltac:(lia) ltac:(done)) as H.
  change (16 * 0) with 0 in H. cbn [line_break Z.eqb app] in H.
  destruct (hexdump_loop _ _ _ _ _) as [[printed pchars] o] eqn:E.
  assert (Ho : exists t, o = dumping (os_boolalpha cout) t).
  { clear H Hd Hl. revert E. generalize (os_text cout) as t, 0 as x, (@nil byte) as pc.
    induction data as [|d data IH]; intros t x pc; cbn [hexdump_loop]; [intros [= _ _ <-]; eauto|].
    destruct (_ =? 0); [destruct (negb _)|destruct (_ =? 0)];
      rewrite ?dumping_head, ?dumping_byte; cbn [fold_left put];
      rewrite ?dumping_text; apply IH. }
  destruct Ho as [t ->]. unfold finish in H. cbv zeta in H. revert H.
  cbn [fold_left put]. rewrite !dumping_text. cbn [dumping os_text os_fill os_width]. by intros ->.
Qed.

(** Twenty bytes: the second line is padded to the column of the characters. *)
Lemma hexdump_layout_witness :
  hexdump (map (fun i => byte_of (60 + Z.of_nat i)) (seq 0 20)) 2 os_new =
  Ok (mkOs (txt "  00000000:    3c3d 3e3f 4041 4243 4445 4647 4849 4a4b    <=>?@ABCDEFGHIJK" ++ [nl] ++
            txt "  00000010:    4c4d 4e4f                                  LMNO" ++ [nl; nl]) false false x30 0).
Proof.
  rewrite (hexdump_layout (map (fun i => byte_of (60 + Z.of_nat i)) (seq 0 20)) 2 os_new); [|done..].
  vm_compute. reflexivity.
Defined.

(** ** Reading numbers back

    A chain of items in which every number is followed by text that starts with
    no digit can be read back from what it printed. *)

Definition is_xdigit (c : byte) : bool :=
  (48 <=? byte_val c) && (byte_val c <=? 57) || (97 <=? byte_val c) && (byte_val c <=? 102).

Lemma hex_xdigits x : Forall (fun c => is_xdigit c = true) (hex x).
Proof.
  unfold hex, txt, HexadecimalString.NilZero.string_of_uint.
  assert (H : forall d, Forall (fun c => is_xdigit c = true)
                (String.list_byte_of_string (HexadecimalString.NilEmpty.string_of_uint d))).
  { induction d; [by constructor|..]; (constructor; [reflexivity|exact IHd]). }
  destruct (N.to_hex_uint _); try apply H. by repeat constructor.
Qed.

Lemma to_hex_nonnil n : N.to_hex_uint n <> Hexadecimal.Nil.
Proof. intros E. assert (n = 0%N) as -> by (by rewrite <- (HexadecimalN.Unsigned.of_to n), E). done. Qed.

Lemma hex_inj x y : 0 <= x -> 0 <= y -> hex x = hex y -> x = y.
Proof.
  intros Hx Hy E. unfold hex, txt in E. apply (f_equal String.string_of_list_byte) in E.
  rewrite !String.string_of_list_byte_of_string in E.
  apply (f_equal HexadecimalString.NilZero.uint_of_string) in E.
  rewrite !HexadecimalString.NilZero.usu in E by apply to_hex_nonnil.
  injection E as E. apply HexadecimalN.Unsigned.to_uint_inj in E. lia.
Qed.

(** A run of characters with a property, ended by one without it. *)
Lemma run_inj {A} (f : A -> bool) (l1 l2 r1 r2 : list A) :
  Forall (fun c => f c = true) l1 -> Forall (fun c => f c = true) l2 ->
  (forall c, head r1 = Some c -> f c = false) -> (forall c, head r2 = Some c -> f c = false) ->
  l1 ++ r1 = l2 ++ r2 -> l1 = l2 /\ r1 = r2.
Proof.
  intros H1. revert l2. induction H1 as [|a l1 Ha _ IH]; intros [|b l2] H2 Hr1 Hr2 E; cbn in E.
  - done.
  - apply Forall_cons in H2 as [Hb _]. subst r1. rewrite (Hr1 b) in Hb by done. done.
  - subst r2. rewrite (Hr2 a) in Ha by done. done.
  - apply Forall_cons in H2 as [_ H2]. injection E as -> E.
    by destruct (IH l2 H2 Hr1 Hr2 E) as [-> ->].
Qed.

(** The text of an item in a stream with [hex] and [boolalpha]. *)
Definition piece (i : item) : list byte :=
  match i with
  | Str s => txt s | Bytes l => l | Num x => hex x
  | Flag b => if b then txt "true" else txt "false" | Endl => [nl] | _ => []
  end.

(** Only text, numbers and flags, every number before text without digits. *)
Definition starts_text (l : list item) : bool :=
  match l with
  | [] | Endl :: _ => true
  | Str s :: _ => match txt s with [] => false | c :: _ => negb (is_xdigit c) end
  | _ => false
  end.
Fixpoint readable (l : list item) : bool :=
  match l with
  | [] => true
  | Str _ :: l' | Endl :: l' | Flag _ :: l' => readable l'
  | Num x :: l' => (0 <=? x) && starts_text l' && readable l'
  | _ => false
  end.

(** The same but for the values. *)
Definition same_item (i j : item) : Prop :=
  match i, j with
  | Num _, Num _ | Flag _, Flag _ => True
  | _, _ => i = j
  end.

Lemma render_pieces l : readable l = true -> render (Hex :: Boolalpha :: l) = concat (map piece l).
Proof.
  unfold render. cbn [fold_left put os_new os_text os_hex os_boolalpha os_fill os_width].
  assert (H : forall t, readable l = true ->
    os_text (mkOs t true true space 0 << l) = t ++ concat (map piece l)).
  { induction l as [|i l IH]; intros t Hl; cbn [fold_left map concat]; [by rewrite app_nil_r|].
    destruct i; cbn [readable] in Hl; try done; bool_prop;
      cbn [put piece os_hex os_boolalpha]; rewrite put_width by done; cbn [os_text os_hex os_boolalpha os_fill];
      rewrite IH by done; by rewrite <- (assoc_L (++)). }
  intros Hl. by rewrite H.
Qed.

Lemma starts_text_head l : starts_text l = true ->
  forall c, head (concat (map piece l)) = Some c -> is_xdigit c = false.
Proof.
  destruct l as [|[s| | | | | | | | |] l]; cbn [starts_text]; try done.
  - intros H c. cbn [map concat piece]. destruct (txt s) as [|d t]; [done|]. cbn. intros [= <-].
    by apply negb_true_iff.
  - intros _ c. cbn. by intros [= <-].
Qed.

Lemma pieces_inj l1 : forall l2,
  readable l1 = true -> readable l2 = true -> Forall2 same_item l1 l2 ->
  concat (map piece l1) = concat (map piece l2) -> l1 = l2.
Proof.
  induction l1 as [|i l1 IH]; intros l2 H1 H2 Hs E; inversion Hs as [|? j ? l2' Hij Hs']; subst; [done|].
  cbn [map concat] in E.
  assert (Hd : piece i ++ concat (map piece l1) = piece j ++ concat (map piece l2') ->
    (exists s, i = Str s) \/ i = Endl -> i = j /\ concat (map piece l1) = concat (map piece l2')).
  { intros E' [[s ->]| ->]; destruct j; cbn in Hij; try done; injection Hij as <- || idtac;
      (split; [done|]); by apply app_inv_head in E'. }
  destruct i as [s| |x|b| | | | | |]; cbn [readable] in H1; try done; destruct j as [s'| |x'|b'| | | | | |];
    cbn in Hij; try done; cbn [readable] in H2; bool_prop.
  - destruct (Hd E) as [-> E']; [by left; eexists|]. f_equal. by apply IH.
  - cbn [piece] in E. apply (run_inj is_xdigit) in E as [Ex E];
      [|apply hex_xdigits|apply hex_xdigits|by apply starts_text_head|by apply starts_text_head].
    apply hex_inj in Ex as ->; [|done..]. f_equal. by apply IH.
  - cbn [piece] in E. assert (b = b' /\ concat (map piece l1) = concat (map piece l2')) as [-> E'].
    { destruct b, b'; try discriminate; (split; [done|]); by apply app_inv_head in E. }
    f_equal. by apply IH.
  - destruct (Hd E) as [_ E']; [by right|]. f_equal. by apply IH.
Qed.

(** Chains of the same shape that print the same text are the same. *)
Lemma render_inj l1 l2 :
  readable l1 = true -> readable l2 = true -> Forall2 same_item l1 l2 ->
  render (Hex :: Boolalpha :: l1) = render (Hex :: Boolalpha :: l2) -> l1 = l2.
Proof. intros H1 H2 Hs E. rewrite !render_pieces in E by done. by apply pieces_inj. Qed.

(** ** Output only grows *)

Lemma put_prefix l : forall o, os_text o `prefix_of` os_text (o << l).
Proof.
  induction l as [|i l IH]; intros o; [done|]. etrans; [|apply IH]. destruct i; try done; by eexists.
Qed.
Lemma hexdump_prefix data indent o o' : hexdump data indent o = Ok o' -> os_text o `prefix_of` os_text o'.
Proof.
  unfold hexdump. destruct (_ <=? _); [done|]. cbv zeta.
  destruct (hexdump_loop _ _ _ _ _) as [[pr pc] o1] eqn:E. 
  match goal with |- Ok (mkOs (os_text ?x) _ _ _ _) = _ -> _ =>
    assert (Hf : os_text o1 `prefix_of` os_text x) by apply put_prefix; revert Hf; generalize x end.
  intros o2 Hf [= <-]. cbn [os_text]. etrans; [|exact Hf]. change (os_text o) with (os_text (o << [Hex; Setfill x30])).
  revert E. generalize (o << [Hex; Setfill x30]) as o0, 0 as x, (@nil byte) as p.
  induction data as [|d data IH]; intros o0 x p; cbn [hexdump_loop]; [by intros [= _ _ <-]|].
  destruct (_ =? 0); [destruct (negb _)|destruct (_ =? 0)]; intros E; apply IH in E;
    (etrans; [|exact E]); repeat (etrans; [|apply put_prefix]); done.
Qed.

Lemma hexdump_total data indent o : zlen data < 2 ^ 31 -> exists o', hexdump data indent o = Ok o'.
Proof.
  intros Hl. unfold hexdump. rewrite (proj2 (Z.leb_gt _ _)) by done. cbv zeta.
  destruct (hexdump_loop _ _ _ _ _) as [[pr pc] o1]. by eexists.
Qed.
