(* ===== verification/Address.v ===== *)
(** * Socket addresses

    Models the part of [src/libsponge/util/address.hh] and [.cc] that does not
    ask the resolver: an address is a size and the bytes of a
    [sockaddr_storage]; an IPv4 address has the layout of [sockaddr_in] on a
    little-endian Linux host (family in bytes 0-1, port in bytes 2-3 and address
    in bytes 4-7, the latter two in network order). *)

From S2P Require Import Prelude Buffers Parser.

Definition sizeof_sockaddr_storage : Z := 128.
Definition sizeof_sockaddr_in : Z := 16.
Definition AF_INET : Z := 2.

Record Address := mkAddress {
  ad_size : Z;               (* _size *)
  ad_storage : list byte     (* _address.storage *)
}.

#[export] Instance Address_eq_dec : EqDecision Address.
Proof. solve_decision. Defined.

(** [Address(const sockaddr *addr, size_t size)]: [addr] are the bytes pointed
    to; the rest of the storage is zero. *)
Definition Address_of_sockaddr (addr : list byte) (size : Z) : res Address :=
  if sizeof_sockaddr_storage <? size then Throw runtime_error
  else
    let copied := take (Z.to_nat size) addr in
    Ok (mkAddress size
          (copied ++ replicate (Z.to_nat (sizeof_sockaddr_storage - zlen copied)) x00)).

(** The field [ss_family], in host (little-endian) order. *)
Definition ss_family (storage : list byte) : Z := be_val (rev (take 2 storage)).

Definition ipv4_numeric (a : Address) : res Z :=
  if negb (ss_family (ad_storage a) =? AF_INET) || negb (ad_size a =? sizeof_sockaddr_in)
  then Throw runtime_error
  else Ok (be_val (take 4 (drop 4 (ad_storage a)))).

Definition from_ipv4_numeric (ip_address : Z) : res Address :=
  let ipv4_addr := rev (be_bytes 2 AF_INET) ++ [x00; x00] ++ be_bytes 4 ip_address ++ replicate 8 x00 in
  Address_of_sockaddr ipv4_addr sizeof_sockaddr_in.

(** The number of the dotted quad "a.b.c.d". *)
Definition quad (a b c d : Z) : Z := ((a * 256 + b) * 256 + c) * 256 + d.

(** [operator==]: sizes, then [memcmp]. *)
Definition Address_eqb (a b : Address) : bool :=
  (ad_size a =? ad_size b) &&
  bool_decide (take (Z.to_nat (ad_size a)) (ad_storage a) = take (Z.to_nat (ad_size a)) (ad_storage b)).

(** An address built from a number. *)
Definition ipv4_address (ip : Z) : Address :=
  mkAddress 16 ([x02; x00; x00; x00] ++ be_bytes 4 ip ++ replicate 120 x00).

Lemma from_ipv4_numeric_eq ip : from_ipv4_numeric ip = Ok (ipv4_address ip).
Proof. done. Qed.

Lemma ipv4_numeric_address ip : ipv4_numeric (ipv4_address ip) = Ok (u32 ip).
Proof.
  unfold ipv4_numeric. cbn [ipv4_address ad_storage ad_size].
  change (ss_family _ =? AF_INET) with true. cbn [negb orb]. change (16 =? sizeof_sockaddr_in) with true.
  cbn [negb]. f_equal. change (drop 4 _) with (be_bytes 4 ip ++ replicate 120 x00).
  rewrite take_app_le, take_ge by (rewrite length_be_bytes; lia). apply be_val_bytes.
Qed.

(** Round trip of numeric addresses: [from_ipv4_numeric] never throws and
    [ipv4_numeric] gives the number back. *)
Lemma ipv4_numeric_roundtrip ip :
  is_u32 ip -> (a ← from_ipv4_numeric ip; ipv4_numeric a) = Ok ip.
Proof.
  intros H. rewrite from_ipv4_numeric_eq. cbn [mbind res_bind].
  by rewrite ipv4_numeric_address, u32_small.
Qed.

Lemma ipv4_numeric_range a ip : ipv4_numeric a = Ok ip -> is_u32 ip.
Proof.
  unfold ipv4_numeric. destruct (_ || _); [done|]. intros [= <-].
  pose proof (be_val_range (take 4 (drop 4 (ad_storage a)))) as H.
  assert (zlen (take 4 (drop 4 (ad_storage a))) <= 4) by (rewrite length_take; lia).
  assert (256 ^ zlen (take 4 (drop 4 (ad_storage a))) <= 256 ^ 4) by (apply Z.pow_le_mono_r; lia).
  change (256 ^ 4) with 4294967296 in *. word_unfold. lia.
Qed.

(** ** The resolver

    [Address(ip, port)] asks [getaddrinfo] with [AI_NUMERICHOST] and
    [AI_NUMERICSERV], [port()] asks [getnameinfo] with [NI_NUMERICSERV].  The
    dotted quads of the sources all come from [inet_ntoa], so they are given by
    the number they print. *)
Class Resolver := {
  getaddrinfo_numeric : Z -> Z -> res (list byte * Z);
  getnameinfo_port : Address -> res Z
}.

Definition Address_of_ip_port `{Resolver} (ip port : Z) : res Address :=
  r ← getaddrinfo_numeric ip port;
  Address_of_sockaddr (fst r) (snd r).

(** The number is converted to [uint16_t]. *)
Definition port `{Resolver} (a : Address) : res Z :=
  p ← getnameinfo_port a;
  Ok (u16 p).

Lemma port_range `{Resolver} a p : port a = Ok p -> is_u16 p.
Proof.
  unfold port. intros (x & _ & [= <-])%res_bind_ok. apply Z.mod_pos_bound. done.
Qed.

(** The bytes of a [sockaddr_in]. *)
Definition sockaddr_in (ip port : Z) : list byte :=
  rev (be_bytes 2 AF_INET) ++ be_bytes 2 port ++ be_bytes 4 ip ++ replicate 8 x00.

(** What the manual pages say of the two calls on IPv4 addresses. *)
Class ResolverSpec `{Resolver} := {
  getaddrinfo_ipv4 ip port :
    is_u32 ip -> is_u16 port -> getaddrinfo_numeric ip port = Ok (sockaddr_in ip port, 16);
  getnameinfo_ipv4 a :
    ss_family (ad_storage a) = AF_INET -> ad_size a = 16 ->
    getnameinfo_port a = Ok (be_val (take 2 (drop 2 (ad_storage a))))
}.

(** [a] is the IPv4 address [ip] with port [p]. *)
Definition addresses `{Resolver} (a : Address) (ip p : Z) : Prop :=
  ipv4_numeric a = Ok ip /\ port a = Ok p.

Lemma Address_of_ip_port_ok `{ResolverSpec} ip p :
  is_u32 ip -> is_u16 p -> exists a, Address_of_ip_port ip p = Ok a /\ addresses a ip p.
Proof.
  intros Hip Hp. unfold Address_of_ip_port. rewrite getaddrinfo_ipv4 by done. cbn [mbind res_bind fst snd].
  eexists. split; [reflexivity|]. unfold addresses, ipv4_numeric, port.
  change (ss_family _) with AF_INET. cbn [ad_size]. cbn [negb orb Z.eqb AF_INET sizeof_sockaddr_in].
  split.
  - f_equal. etransitivity; [|by apply u32_small]. apply (be_val_bytes 4).
  - rewrite getnameinfo_ipv4 by done. cbn [mbind res_bind]. f_equal.
    assert (E : be_val (be_bytes 2 p) = p) by (etransitivity; [apply be_val_bytes|by apply u16_small]).
    transitivity (u16 p); [|by apply u16_small]. exact (f_equal u16 E).
Qed.

(** The resolver of a host that answers numeric queries only. *)
Definition numeric_Resolver : Resolver := {|
  getaddrinfo_numeric ip port := Ok (sockaddr_in ip port, 16);
  getnameinfo_port a :=
    if ss_family (ad_storage a) =? AF_INET then Ok (be_val (take 2 (drop 2 (ad_storage a))))
    else Throw runtime_error
|}.

Lemma numeric_ResolverSpec : @ResolverSpec numeric_Resolver.
Proof. split; [done|]. intros a Hf _. cbn. by rewrite Hf. Qed.
