(* ===== verification/FileDescriptor.v ===== *)
(** * File descriptors and sockets

    Models [src/libsponge/util/file_descriptor.hh], [.cc], the I/O of
    [src/libsponge/util/socket.cc] and [SystemCall] of [util.cc].  The operating
    system is the parameter: [Kernel] has one operation per system call, on the
    state of the object behind the descriptor, and [KernelSpec] what the manual
    pages promise.  A [FileDescriptor] shares its [FDWrapper]; a [File] is that
    wrapper with the kernel's side of it. *)

From S2P Require Import Prelude Buffers Parser Address.

(** What a system call returns: its value and [errno]. *)
Record sysret := mkSys { rv : Z; errno : Z }.

(** The argument is an [int]: the [ssize_t] of [read], [writev], [recvfrom] and
    [sendmsg] is converted. *)
Definition SystemCall (r : sysret) (errno_mask : Z) : res Z :=
  let return_value := s32 (rv r) in
  if (0 <=? return_value) || (errno r =? errno_mask) then Ok return_value else Throw (unix_error (errno r)).

(** What the manual pages say of every call: -1 and [errno] on an error, else a
    number that fits an [int] (Linux transfers at most 0x7ffff000 bytes in one
    call). *)
Definition returned (r : sysret) : Prop := -1 <= rv r <= 0x7fffffff /\ (rv r = -1 -> errno r <> 0).

(** ** The kernel *)

(** [sys_read] returns the bytes it stored; [sys_recvfrom] also the address
    bytes and their length.  The length [recvfrom] returns is that of the whole
    datagram (flag [MSG_TRUNC]). *)
Class Kernel (K : Type) := {
  sys_read : Z -> K -> sysret * list byte * K;
  sys_writev : BufferViewList -> K -> sysret * K;
  sys_recvfrom : Z -> K -> sysret * list byte * (list byte * Z) * K;
  sys_sendmsg : Address -> BufferViewList -> K -> sysret * K;
  sys_shutdown : Z -> K -> sysret * K;
  sys_close : K -> sysret * K;
  sys_getfl : K -> sysret * K;
  sys_setfl : Z -> K -> sysret * K
}.

(** The documented behaviour of reading and writing a stream or device, over the
    histories [taken] and [written] of the bytes that went each way: a read
    stores what it returns, a write takes the number of bytes it returns, none
    perhaps, from the front of the buffers, and is refused if the total does not
    fit [ssize_t]. *)
Class KernelSpec (K : Type) `{Kernel K} (taken written : K -> list byte) := {
  read_fills n k r l k' :
    0 <= n -> sys_read n k = (r, l, k') -> 0 <= rv r ->
    zlen l = rv r /\ rv r <= n /\ taken k' = taken k ++ l /\ written k' = written k;
  read_returns n k r l k' : sys_read n k = (r, l, k') -> returned r;
  writev_accepts bufs k r k' :
    sys_writev bufs k = (r, k') -> 0 <= rv r ->
    zlen (concat bufs) < 2 ^ 63 /\ rv r <= zlen (concat bufs) /\
    taken k' = taken k /\ written k' = written k ++ take (Z.to_nat (rv r)) (concat bufs);
  writev_returns bufs k r k' : sys_writev bufs k = (r, k') -> returned r;
  shutdown_quiet how k r k' :
    sys_shutdown how k = (r, k') ->
    taken k' = taken k /\ written k' = written k /\ returned r;
  close_quiet k r k' :
    sys_close k = (r, k') ->
    taken k' = taken k /\ written k' = written k /\ returned r;
  getfl_quiet k r k' :
    sys_getfl k = (r, k') ->
    taken k' = taken k /\ written k' = written k /\ returned r;
  setfl_quiet fl k r k' :
    sys_setfl fl k = (r, k') ->
    taken k' = taken k /\ written k' = written k /\ returned r
}.

(** ** [FDWrapper] *)

Record FDWrapper := mkFD {
  fd_num : Z;            (* _fd *)
  fd_eof : bool;         (* _eof *)
  fd_closed : bool;      (* _closed *)
  fd_read_count : Z;     (* _read_count *)
  fd_write_count : Z     (* _write_count *)
}.

Definition FDWrapper_new (fd : Z) : res FDWrapper :=
  if fd <? 0 then Throw runtime_error else Ok (mkFD fd false false 0 0).

Definition register_read (f : FDWrapper) : FDWrapper :=
  mkFD (fd_num f) (fd_eof f) (fd_closed f) (u32 (fd_read_count f + 1)) (fd_write_count f).
Definition register_write (f : FDWrapper) : FDWrapper :=
  mkFD (fd_num f) (fd_eof f) (fd_closed f) (fd_read_count f) (u32 (fd_write_count f + 1)).
Definition set_eof (f : FDWrapper) : FDWrapper :=
  mkFD (fd_num f) true (fd_closed f) (fd_read_count f) (fd_write_count f).

Record File (K : Type) := mkFile { f_fd : FDWrapper; f_kernel : K }.
Arguments mkFile {K} f_fd f_kernel.
Arguments f_fd {K} f.
Arguments f_kernel {K} f.

(** [numeric_limits<size_t>::max()], the default limit of [read]. *)
Definition SIZE_MAX : Z := 2 ^ 64 - 1.
Definition BUFFER_SIZE : Z := 1024 * 1024.
Definition SHUT_RD : Z := 0.
Definition SHUT_WR : Z := 1.
Definition SHUT_RDWR : Z := 2.
Definition O_NONBLOCK : Z := 0x800.

Section Operations.
Context {K : Type} `{Kernel K}.

Definition fd_close (f : File K) : res (File K) :=
  let '(r, k) := sys_close (f_kernel f) in
  _ ← SystemCall r 0;
  let w := f_fd f in
  Ok (mkFile (mkFD (fd_num w) true true (fd_read_count w) (fd_write_count w)) k).

Definition fd_read (limit : Z) (f : File K) : res (list byte * File K) :=
  let size_to_read := Z.min BUFFER_SIZE limit in
  let '(r, stored, k) := sys_read size_to_read (f_kernel f) in
  let str := resize size_to_read stored in
  bytes_read ← SystemCall r 0;
  let w := if (0 <? limit) && (bytes_read =? 0) then set_eof (f_fd f) else f_fd f in
  if size_to_read <? bytes_read then Throw runtime_error
  else Ok (resize bytes_read str, mkFile (register_read w) k).

(** The [do] loop of [write]; [None] when the fuel runs out. *)
Fixpoint write_rounds (fuel : nat) (buffer : BufferViewList) (write_all : bool)
    (total_bytes_written : Z) (f : File K) : option (res (Z * File K)) :=
  match fuel with
  | O => None
  | S fuel' =>
      let '(r, k) := sys_writev (map fst (as_iovecs buffer)) (f_kernel f) in
      match SystemCall r 0 with
      | Throw e => Some (Throw e)
      | Undefined => Some Undefined
      | Ok bytes_written =>
          if (bytes_written =? 0) && negb (bv_size buffer =? 0) then Some (Throw write_returned_0)
          else if s64 (bv_size buffer) <? bytes_written then Some (Throw runtime_error)
          else
            let f := mkFile (register_write (f_fd f)) k in
            match bv_remove_prefix (u64 bytes_written) buffer with
            | Throw e => Some (Throw e)
            | Undefined => Some Undefined
            | Ok buffer =>
                let total_bytes_written := u64 (total_bytes_written + bytes_written) in
                if write_all && negb (bv_size buffer =? 0)
                then write_rounds fuel' buffer write_all total_bytes_written f
                else Some (Ok (total_bytes_written, f))
            end
      end
  end.

(** Every round but the last writes a byte. *)
Definition fd_write (buffer : BufferViewList) (write_all : bool) (f : File K) : res (Z * File K) :=
  default Undefined (write_rounds (S (length (concat buffer))) buffer write_all 0 f).

Definition set_blocking (blocking_state : bool) (f : File K) : res (File K) :=
  let '(r, k) := sys_getfl (f_kernel f) in
  flags ← SystemCall r 0;
  let flags := if blocking_state then Z.lxor flags (Z.land flags O_NONBLOCK)
               else Z.lor flags O_NONBLOCK in
  let '(r, k) := sys_setfl flags k in
  _ ← SystemCall r 0;
  Ok (mkFile (f_fd f) k).

(** ** Sockets *)

Definition socket_shutdown (how : Z) (f : File K) : res (File K) :=
  let '(r, k) := sys_shutdown how (f_kernel f) in
  _ ← SystemCall r 0;
  if how =? SHUT_RD then Ok (mkFile (register_read (f_fd f)) k)
  else if how =? SHUT_WR then Ok (mkFile (register_write (f_fd f)) k)
  else if how =? SHUT_RDWR then Ok (mkFile (register_write (register_read (f_fd f))) k)
  else Throw runtime_error.

(** [UDPSocket::received_datagram]. *)
Record received_datagram := mkReceived { source_address : Address; rd_payload : list byte }.

Definition udp_recv (mtu : Z) (f : File K) : res (received_datagram * File K) :=
  let '(r, stored, (from, fromlen), k) := sys_recvfrom mtu (f_kernel f) in
  let payload := resize mtu stored in
  recv_len ← SystemCall r 0;
  if mtu <? recv_len then Throw runtime_error
  else
    let w := register_read (f_fd f) in
    source_address ← Address_of_sockaddr from fromlen;
    Ok (mkReceived source_address (resize recv_len payload), mkFile w k).

Definition sendmsg_helper (destination : Address) (payload : BufferViewList) (f : File K)
  : res (File K) :=
  let '(r, k) := sys_sendmsg destination (map fst (as_iovecs payload)) (f_kernel f) in
  bytes_sent ← SystemCall r 0;
  if negb (u64 bytes_sent =? bv_size payload) then Throw runtime_error
  else Ok (mkFile (f_fd f) k).

Definition udp_sendto (destination : Address) (payload : BufferViewList) (f : File K) : res (File K) :=
  f ← sendmsg_helper destination payload f;
  Ok (mkFile (register_write (f_fd f)) (f_kernel f)).
End Operations.

(** ** Writing *)

Lemma iovecs_bufs (l : BufferViewList) : map fst (as_iovecs l) = l.
Proof. unfold as_iovecs. rewrite map_map. apply map_id. Qed.

Lemma bv_size_eq (l : BufferViewList) : zlen (concat l) < 2 ^ 64 -> bv_size l = zlen (concat l).
Proof.
  intros Hl. unfold bv_size.
  assert (Hacc : forall acc, 0 <= acc -> acc + zlen (concat l) < 2 ^ 64 ->
    fold_left (fun ret v => u64 (ret + zlen v)) l acc = acc + zlen (concat l)).
  { clear Hl. induction l as [|v l IH]; intros acc Ha Hl; cbn in *; [lia|].
    rewrite length_app in *. rewrite u64_small by word_lia. rewrite IH by lia. lia. }
  rewrite Hacc; lia.
Qed.

(** The bookkeeping of the wrapper, for any kernel. *)
Lemma fd_read_fd {K} `{Kernel K} limit (f f' : File K) l :
  fd_read limit f = Ok (l, f') ->
  fd_read_count (f_fd f') = u32 (fd_read_count (f_fd f) + 1) /\
  fd_write_count (f_fd f') = fd_write_count (f_fd f) /\ fd_closed (f_fd f') = fd_closed (f_fd f).
Proof.
  unfold fd_read. destruct (sys_read _ _) as [[r st] k]. intros (n & _ & E)%res_bind_ok.
  destruct (_ <? n); [done|]. injection E as _ <-. cbn. by destruct (_ && _).
Qed.

Lemma write_rounds_fd {K} `{Kernel K} fuel : forall buffer wa total (f f' : File K) n,
  write_rounds fuel buffer wa total f = Some (Ok (n, f')) ->
  fd_read_count (f_fd f') = fd_read_count (f_fd f) /\
  fd_eof (f_fd f') = fd_eof (f_fd f) /\ fd_closed (f_fd f') = fd_closed (f_fd f).
Proof.
  induction fuel as [|fuel IH]; intros buffer wa total f f' n; [done|]. cbn [write_rounds].
  destruct (sys_writev _ _) as [r k]. destruct (SystemCall r 0) as [b|e|]; [|done..].
  destruct (_ && _); [done|]. destruct (_ <? b); [done|].
  destruct (bv_remove_prefix _ _) as [b'|e|]; [|done..].
  destruct (wa && _); [intros E%IH; exact E|intros [= _ <-]; done].
Qed.

Lemma fd_write_fd {K} `{Kernel K} buffer wa (f f' : File K) n :
  fd_write buffer wa f = Ok (n, f') ->
  fd_read_count (f_fd f') = fd_read_count (f_fd f) /\
  fd_eof (f_fd f') = fd_eof (f_fd f) /\ fd_closed (f_fd f') = fd_closed (f_fd f).
Proof.
  unfold fd_write. destruct (write_rounds _ _ _ _ _) as [r|] eqn:E; [|done]. cbn.
  intros Er. subst r. by eapply write_rounds_fd.
Qed.

Lemma fd_write_once {K} `{Kernel K} buffer (f f' : File K) n :
  fd_write buffer false f = Ok (n, f') ->
  fd_write_count (f_fd f') = u32 (fd_write_count (f_fd f) + 1).
Proof.
  unfold fd_write. cbn [write_rounds]. destruct (sys_writev _ _) as [r k].
  destruct (SystemCall r 0) as [b|e|]; [|done..]. destruct (_ && _); [done|].
  destruct (_ <? b); [done|]. destruct (bv_remove_prefix _ _) as [b'|e|]; [|done..].
  by intros [= _ <-].
Qed.

(** A counter that moves once or twice is different. *)
Lemma count_moves x : u32 (x + 1) <> x /\ u32 (u32 (x + 1) + 1) <> x.
Proof. word_lia. Qed.

(** A property of the object that every [writev] keeps. *)
Lemma write_rounds_keeps {K} `{Kernel K} (Q : K -> Prop) fuel :
  (forall bufs k, Q k -> Q (snd (sys_writev bufs k))) ->
  forall buffer wa total (f f' : File K) n,
  write_rounds fuel buffer wa total f = Some (Ok (n, f')) -> Q (f_kernel f) -> Q (f_kernel f').
Proof.
  intros HQ. induction fuel as [|fuel IH]; intros buffer wa total f f' n; [done|]. cbn [write_rounds].
  intros E Hk. pose proof (HQ (map fst (as_iovecs buffer)) _ Hk) as Hw. revert E.
  destruct (sys_writev _ _) as [r k]. destruct (SystemCall r 0) as [b|e|]; [|done..].
  destruct (_ && _); [done|]. destruct (_ <? b); [done|].
  destruct (bv_remove_prefix _ _) as [b'|e|]; [|done..].
  destruct (wa && _); [intros E; eapply IH; [exact E|done]|intros [= _ <-]; done].
Qed.

Lemma fd_write_keeps {K} `{Kernel K} (Q : K -> Prop) buffer wa (f f' : File K) n :
  (forall bufs k, Q k -> Q (snd (sys_writev bufs k))) ->
  fd_write buffer wa f = Ok (n, f') -> Q (f_kernel f) -> Q (f_kernel f').
Proof.
  intros HQ. unfold fd_write. destruct (write_rounds _ _ _ _ _) as [r|] eqn:E; [|done]. cbn.
  intros Er. subst r. by eapply write_rounds_keeps.
Qed.

Lemma udp_recv_fd {K} `{Kernel K} mtu (f f' : File K) d :
  udp_recv mtu f = Ok (d, f') ->
  fd_read_count (f_fd f') = u32 (fd_read_count (f_fd f) + 1) /\
  fd_eof (f_fd f') = fd_eof (f_fd f) /\ fd_closed (f_fd f') = fd_closed (f_fd f).
Proof.
  unfold udp_recv. destruct (sys_recvfrom _ _) as [[[r st] [fr fl]] k].
  intros (n & _ & E)%res_bind_ok. destruct (_ <? n); [done|].
  apply res_bind_ok in E as (a & _ & [= _ <-]). done.
Qed.

Lemma udp_sendto_fd {K} `{Kernel K} to l (f f' : File K) :
  udp_sendto to l f = Ok f' ->
  fd_read_count (f_fd f') = fd_read_count (f_fd f) /\
  fd_eof (f_fd f') = fd_eof (f_fd f) /\ fd_closed (f_fd f') = fd_closed (f_fd f).
Proof.
  unfold udp_sendto, sendmsg_helper. destruct (sys_sendmsg _ _ _) as [r k].
  intros (f1 & E & [= <-])%res_bind_ok. apply res_bind_ok in E as (n & _ & E).
  destruct (negb _); [done|]. by injection E as <-.
Qed.

(** The failures of system calls: an error, or a [writev] that took nothing of a
    non-empty buffer. *)
Definition call_failed (e : exn) : Prop := e = write_returned_0 \/ exists c, e = unix_error c.
Definition system_fails (f : option exn) : Prop := exists e, f = Some e /\ call_failed e.

Lemma unix_failed e : (exists c, e = unix_error c) -> call_failed e.
Proof. by right. Qed.
#[export] Hint Resolve unix_failed : sponge.

Lemma wp_system {B} (E : option exn -> Prop) (m : res B) (R Q : B -> Prop) :
  (forall f, system_fails f -> E f) ->
  match m with Ok b => R b | Throw e => call_failed e | Undefined => False end ->
  (forall b, m = Ok b -> R b -> Q b) -> wp E m Q.
Proof.
  intros HE. destruct m as [b|e|]; cbn; [auto| |done]. intros He _. apply HE. by exists e.
Qed.

Section Specified.
Context {K : Type} `{Kernel K} (taken written : K -> list byte) `{!KernelSpec K taken written}.

Lemma syscall_cases r :
  returned r ->
  (SystemCall r 0 = Ok (rv r) /\ 0 <= rv r) \/ exists c, SystemCall r 0 = Throw (unix_error c).
Proof.
  intros [Hr He]. unfold SystemCall. rewrite s32_small by word_lia.
  destruct (0 <=? rv r) eqn:E; bool_prop; cbn [orb]; [by left|right].
  rewrite (proj2 (Z.eqb_neq _ _)) by (apply He; lia). eauto.
Qed.

(** What [read] did. *)
Lemma fd_read_spec limit (f : File K) :
  0 <= limit ->
  match fd_read limit f with
  | Ok (l, f') =>
      zlen l <= Z.min BUFFER_SIZE limit /\ taken (f_kernel f') = taken (f_kernel f) ++ l /\
      written (f_kernel f') = written (f_kernel f) /\
      fd_eof (f_fd f') = fd_eof (f_fd f) || (0 <? limit) && (zlen l =? 0)
  | Throw e => call_failed e
  | Undefined => False
  end.
Proof.
  intros Hl. unfold fd_read. set (n := Z.min BUFFER_SIZE limit).
  assert (Hn : 0 <= n <= limit) by (unfold n, BUFFER_SIZE; lia).
  destruct (sys_read n (f_kernel f)) as [[r st] k] eqn:E.
  destruct (syscall_cases r) as [[-> Hr]|[c ->]]; [by eapply read_returns|cbn [mbind res_bind]|cbn; eauto with sponge].
  destruct (read_fills _ _ _ _ _ (proj1 Hn) E Hr) as (Hz & Hle & Ht & Hw).
  rewrite (proj2 (Z.ltb_ge _ _)) by lia. rewrite resize_resize by lia.
  rewrite <- Hz, resize_exact. cbn [f_kernel f_fd].
  split_and!; [lia|done..|]. destruct (_ && _); cbn; [by rewrite orb_true_r|by rewrite orb_false_r].
Qed.

Lemma shutdown_spec how (f : File K) :
  how = SHUT_RD \/ how = SHUT_WR \/ how = SHUT_RDWR ->
  match socket_shutdown how f with
  | Ok f' => taken (f_kernel f') = taken (f_kernel f) /\ written (f_kernel f') = written (f_kernel f) /\
             fd_eof (f_fd f') = fd_eof (f_fd f) /\
             (how = SHUT_WR -> fd_write_count (f_fd f') = u32 (fd_write_count (f_fd f) + 1))
  | Throw e => call_failed e
  | Undefined => False
  end.
Proof.
  intros Hh. unfold socket_shutdown. destruct (sys_shutdown _ _) as [r k] eqn:E.
  destruct (shutdown_quiet _ _ _ _ E) as (Ht & Hw & He).
  destruct (syscall_cases r He) as [[-> Hr]|[c ->]]; cbn [mbind res_bind]; [|eauto with sponge].
  destruct Hh as [->|[->| ->]]; cbn; split_and!; done.
Qed.

Lemma close_spec (f : File K) :
  match fd_close f with
  | Ok f' => taken (f_kernel f') = taken (f_kernel f) /\ written (f_kernel f') = written (f_kernel f) /\
             fd_closed (f_fd f') = true /\ fd_write_count (f_fd f') = fd_write_count (f_fd f)
  | Throw e => call_failed e
  | Undefined => False
  end.
Proof.
  unfold fd_close. destruct (sys_close _) as [r k] eqn:E. destruct (close_quiet _ _ _ E) as (Ht & Hw & He).
  destruct (syscall_cases r He) as [[-> Hr]|[c ->]]; cbn [mbind res_bind]; [done|eauto with sponge].
Qed.

Lemma set_blocking_spec b (f : File K) :
  match set_blocking b f with
  | Ok f' => taken (f_kernel f') = taken (f_kernel f) /\ written (f_kernel f') = written (f_kernel f) /\
             f_fd f' = f_fd f
  | Throw e => call_failed e
  | Undefined => False
  end.
Proof.
  unfold set_blocking. destruct (sys_getfl _) as [r k] eqn:E. destruct (getfl_quiet _ _ _ E) as (Ht & Hw & He).
  destruct (syscall_cases r He) as [[-> Hr]|[c ->]]; cbn [mbind res_bind]; [|eauto with sponge].
  destruct (sys_setfl _ _) as [r' k'] eqn:E'. destruct (setfl_quiet _ _ _ _ E') as (Ht' & Hw' & He').
  destruct (syscall_cases r' He') as [[-> Hr']|[c ->]]; cbn [mbind res_bind]; [|eauto with sponge].
  cbn. by rewrite Ht', Hw'.
Qed.

(** What [write] did: [n] bytes of [data] went to the kernel. *)
Definition wrote (data : list byte) (write_all : bool) (f : File K) (n : Z) (f' : File K) : Prop :=
  0 <= n <= zlen data /\ (write_all = true -> n = zlen data) /\
  taken (f_kernel f') = taken (f_kernel f) /\
  written (f_kernel f') = written (f_kernel f) ++ take (Z.to_nat n) data /\
  fd_eof (f_fd f') = fd_eof (f_fd f) /\ fd_closed (f_fd f') = fd_closed (f_fd f) /\
  fd_read_count (f_fd f') = fd_read_count (f_fd f).

(** One [writev] and the checks after it. *)
Lemma writev_cases buffer k r k' :
  sys_writev buffer k = (r, k') ->
  (exists c, SystemCall r 0 = Throw (unix_error c)) \/
  (zlen (concat buffer) < 2 ^ 63 /\ SystemCall r 0 = Ok (rv r) /\ 0 <= rv r <= zlen (concat buffer) /\
   taken k' = taken k /\
   written k' = written k ++ take (Z.to_nat (rv r)) (concat buffer) /\
   exists buffer', bv_remove_prefix (u64 (rv r)) buffer = Ok buffer' /\
     concat buffer' = drop (Z.to_nat (rv r)) (concat buffer)).
Proof.
  intros E. destruct (syscall_cases r) as [[Es E0]|]; [by eapply writev_returns| |by left].
  right. destruct (writev_accepts _ _ _ _ E E0) as (Hl & Hle & Ht & Hw). split_and!; try done.
  rewrite u64_small by word_lia. pose proof (bv_remove_concat buffer (rv r) ltac:(word_lia)) as Hb.
  destruct (bv_remove_prefix (rv r) buffer) as [b'|e|]; [|lia|done]. exists b'. tauto.
Qed.

(** How it fails: [writev] failed, or took nothing although there was something. *)
Definition write_failed (data : list byte) (e : exn) : Prop :=
  (exists c, e = unix_error c) \/ e = write_returned_0 /\ data <> [].

Lemma write_rounds_spec fuel : forall buffer wa total f,
  (length (concat buffer) < fuel)%nat -> 0 <= total -> (total = 0 \/ total + zlen (concat buffer) < 2 ^ 63) ->
  exists r, write_rounds fuel buffer wa total f = Some r /\
    match r with
    | Ok (n, f') => wrote (concat buffer) wa f (n - total) f'
    | Throw e => write_failed (concat buffer) e
    | Undefined => False
    end.
Proof.
  induction fuel as [|fuel IH]; intros buffer wa total f Hf Ht Hl; [lia|]. cbn [write_rounds].
  rewrite iovecs_bufs. destruct (sys_writev buffer (f_kernel f)) as [r k'] eqn:E.
  destruct (writev_cases buffer _ _ _ E)
    as [[c ->]|(Hfit & -> & Hrv & Htk & Hw & b' & Eb & Hb')].
  { exists (Throw (unix_error c)). split; [done|left; eauto]. }
  rewrite bv_size_eq by lia. destruct ((rv r =? 0) && negb _) eqn:E0.
  { eexists. split; [done|right]. bool_prop. split; [done|]. intros Hz. rewrite Hz in *. done. }
  rewrite s64_small, (proj2 (Z.ltb_ge _ _)) by word_lia. rewrite Eb. rewrite u64_small by word_lia.
  assert (Hlb : zlen (concat b') = zlen (concat buffer) - rv r) by (rewrite Hb', length_drop; lia).
  rewrite (bv_size_eq b') by lia. destruct (wa && negb (_ =? 0)) eqn:Ew.
  - bool_prop. subst wa.
    assert (0 < rv r) by (apply andb_false_iff in E0 as [?|?]; bool_prop; lia).
    destruct (IH b' true (total + rv r) (mkFile (register_write (f_fd f)) k')) as (res & -> & Hres);
      try lia.
    eexists. split; [done|]. destruct res as [[n f']|e|]; [| |done].
    2: { destruct Hres as [?|[-> Hne]]; [by left|right]. split; [done|]. intros Hz. rewrite Hz, drop_nil in Hb'. done. }
    destruct Hres as (Hn & Hall & Htk' & Hwr & Hrest). cbn [f_fd f_kernel] in *.
    assert (Hn' : n - total = rv r + (n - (total + rv r))) by lia.
    split_and!; [lia|lia|intros _; specialize (Hall eq_refl); lia|congruence| |apply Hrest..].
    rewrite Hwr, Hw, Hb', <- app_assoc, Hn', Z2Nat.inj_add, take_take_drop by lia. done.
  - eexists. split; [done|]. unfold wrote. replace (total + rv r - total) with (rv r) by lia.
    cbn [f_fd f_kernel]. split_and!; try done; [lia|lia|]. intros ->. cbn [andb] in Ew. bool_prop. lia.
Qed.

Lemma fd_write_spec buffer wa f :
  match fd_write buffer wa f with
  | Ok (n, f') => wrote (concat buffer) wa f n f'
  | Throw e => write_failed (concat buffer) e
  | Undefined => False
  end.
Proof.
  unfold fd_write.
  destruct (write_rounds_spec (S (length (concat buffer))) buffer wa 0 f) as (r & -> & Hr); try lia.
  cbn [default]. destruct r as [[n f']|e|]; [|done|done]. by rewrite Z.sub_0_r in Hr.
Qed.

Lemma fd_write_cases buffer wa f :
  match fd_write buffer wa f with
  | Ok (n, f') => wrote (concat buffer) wa f n f'
  | Throw e => call_failed e
  | Undefined => False
  end.
Proof.
  pose proof (fd_write_spec buffer wa f) as Hs. destruct (fd_write buffer wa f) as [?|e|]; [done| |done].
  destruct Hs as [?|[-> _]]; [by right|by left].
Qed.
End Specified.

(** ** Datagrams

    A datagram socket takes a message whole or not at all. *)
Class DatagramSpec (K : Type) `{Kernel K} := datagram_whole bufs (k : K) r k' :
  sys_writev bufs k = (r, k') -> 0 <= rv r -> rv r = zlen (concat bufs).

Lemma fd_write_datagram {K} `{Kernel K} (taken written : K -> list byte) `{!KernelSpec K taken written}
    `{!DatagramSpec K} buffer wa (f f' : File K) n :
  fd_write buffer wa f = Ok (n, f') ->
  n = zlen (concat buffer) /\ fd_write_count (f_fd f') = u32 (fd_write_count (f_fd f) + 1).
Proof.
  unfold fd_write. cbn [write_rounds]. rewrite iovecs_bufs.
  destruct (sys_writev buffer (f_kernel f)) as [r k'] eqn:E.
  destruct (writev_cases taken written buffer _ _ _ E) as [[c ->]|(Hfit & -> & Hrv & _ & _ & b' & Eb & Hb')]; [done|].
  pose proof (datagram_whole _ _ _ _ E ltac:(lia)) as Hw.
  destruct (_ && _); [done|]. rewrite bv_size_eq, s64_small, (proj2 (Z.ltb_ge _ _)) by word_lia. rewrite Eb.
  rewrite Hw, Nat2Z.id, drop_all in Hb'. rewrite bv_size_eq, Hb' by (rewrite Hb'; cbn; lia). cbn [length].
  rewrite andb_false_r. intros [= <- <-]. split; [|done]. rewrite Z.add_0_l, Hw. apply u64_small. word_lia.
Qed.

(** A datagram that is sent in part is a [runtime_error]. *)
Lemma udp_sendto_spec {K} `{Kernel K} to l (f : File K) :
  match udp_sendto to l f with
  | Ok f' => fd_write_count (f_fd f') = u32 (fd_write_count (f_fd f) + 1)
  | Throw e => e = runtime_error \/ call_failed e
  | Undefined => False
  end.
Proof.
  unfold udp_sendto, sendmsg_helper, SystemCall. destruct (sys_sendmsg _ _ _) as [r k].
  destruct (_ || _); cbn [mbind res_bind]; [|eauto with sponge]. destruct (negb _); [by left|done].
Qed.

(** ** Bounded histories

    [ok] says that an object will not pass 2^62 bytes to its reader. *)
Class KernelBounded (K : Type) `{Kernel K} (taken : K -> list byte) (ok : K -> Prop) := {
  bounded_taken k : ok k -> zlen (taken k) < 2 ^ 62;
  bounded_read n k : ok k -> ok (snd (sys_read n k));
  bounded_writev bufs k : ok k -> ok (snd (sys_writev bufs k));
  bounded_shutdown how k : ok k -> ok (snd (sys_shutdown how k))
}.

Section Bounded.
Context {K : Type} `{Kernel K} (taken : K -> list byte) (ok : K -> Prop) `{!KernelBounded K taken ok}.

Lemma fd_read_bounded limit (f f' : File K) l :
  fd_read limit f = Ok (l, f') -> ok (f_kernel f) -> ok (f_kernel f').
Proof.
  unfold fd_read. intros E Hk. pose proof (bounded_read (Z.min BUFFER_SIZE limit) _ Hk) as Hr.
  destruct (sys_read _ _) as [[r st] k]. apply res_bind_ok in E as (n & _ & E).
  destruct (_ <? n); [done|]. by injection E as _ <-.
Qed.

Lemma fd_write_bounded buffer wa (f f' : File K) n :
  fd_write buffer wa f = Ok (n, f') -> ok (f_kernel f) -> ok (f_kernel f').
Proof. apply fd_write_keeps. intros bufs k. apply bounded_writev. Qed.

Lemma shutdown_bounded how (f f' : File K) :
  socket_shutdown how f = Ok f' -> ok (f_kernel f) -> ok (f_kernel f').
Proof.
  unfold socket_shutdown. intros E Hk. pose proof (bounded_shutdown how _ Hk) as Hs.
  destruct (sys_shutdown _ _) as [r k]. apply res_bind_ok in E as (n & _ & E).
  repeat (destruct (how =? _); [by injection E as <-|]). done.
Qed.
End Bounded.

(** C30.  Writing to a descriptor: whatever the kernel does within its
    specification, the call ends; it returns the number of bytes the kernel took,
    which are the first bytes of the buffer in order, and all of them under
    [write_all]; it throws only the error of a failed [writev], or because a
    [writev] took nothing of a non-empty buffer. *)
Theorem fd_write_correct {K} `{Kernel K} (taken written : K -> list byte)
    `{!KernelSpec K taken written} (buffer : BufferViewList) (write_all : bool) (f : File K) :
  match fd_write buffer write_all f with
  | Ok (n, f') => wrote taken written (concat buffer) write_all f n f'
  | Throw e => write_failed (concat buffer) e
  | Undefined => False
  end.
Proof. by apply fd_write_spec. Qed.

Lemma take_min_len {A} n (l : list A) : take n l = take (n `min` length l) l.
Proof. destruct (Nat.le_gt_cases n (length l)); [f_equal; lia|rewrite !take_ge by lia; done]. Qed.

(** ** A concrete object: packets wait in [inbox], [writev] takes at most
    [chunk] bytes at a time, datagrams are sent whole. *)

Record Pipe := mkPipe {
  inbox : list (list byte * list byte);     (* address bytes, payload *)
  outbox : list (option Address * list byte);
  chunk : Z;
  pipe_taken : list byte
}.

Definition pipe_next (n : Z) (k : Pipe) : (list byte * list byte) * Pipe :=
  match inbox k with
  | [] => (([], []), k)
  | m :: rest => (m, mkPipe rest (outbox k) (chunk k) (pipe_taken k ++ take (Z.to_nat n) (snd m)))
  end.
Definition pipe_put (to : option Address) (l : list byte) (k : Pipe) : Pipe :=
  mkPipe (inbox k) (outbox k ++ [(to, l)]) (chunk k) (pipe_taken k).
Definition ok_ret (n : Z) : sysret := mkSys n 0.
Definition EINVAL : Z := 22.
Definition MAX_RW_COUNT : Z := 0x7ffff000.

#[export] Instance Pipe_Kernel : Kernel Pipe := {
  sys_read n k := let n := Z.min MAX_RW_COUNT n in
                  let '((_, l), k') := pipe_next n k in
                  let l := take (Z.to_nat n) l in (ok_ret (zlen l), l, k');
  sys_writev bufs k :=
    if 2 ^ 63 <=? zlen (concat bufs) then (mkSys (-1) EINVAL, k) else
    let l := take (Z.to_nat (Z.min MAX_RW_COUNT (chunk k))) (concat bufs) in (ok_ret (zlen l), pipe_put None l k);
  sys_recvfrom n k := let '((a, l), k') := pipe_next n k in
                      (ok_ret (zlen l), take (Z.to_nat n) l, (a, zlen a), k');
  sys_sendmsg d bufs k := (ok_ret (zlen (concat bufs)), pipe_put (Some d) (concat bufs) k);
  sys_shutdown how k := (ok_ret 0, k);
  sys_close k := (ok_ret 0, k);
  sys_getfl k := (ok_ret 0, k);
  sys_setfl fl k := (ok_ret 0, k)
}.

Definition pipe_written (k : Pipe) : list byte := concat (map snd (outbox k)).

Lemma returned_ok n : 0 <= n <= MAX_RW_COUNT -> returned (ok_ret n).
Proof. unfold returned, MAX_RW_COUNT. cbn. lia. Qed.

#[export] Instance Pipe_Spec : KernelSpec Pipe pipe_taken pipe_written.
Proof.
  split.
  - intros n k r l k' Hn. cbn. unfold pipe_next, pipe_written.
    destruct (inbox k) as [|[a m] rest]; intros [= <- <- <-] Hr; cbn in *;
      rewrite ?take_nil, ?app_nil_r; cbn; split_and!; try done; rewrite ?length_take; lia.
  - intros n k r l k'. cbn. destruct (pipe_next _ k) as [[a m] k1]. intros [= <- _ _]. apply returned_ok.
    rewrite length_take. unfold MAX_RW_COUNT. lia.
  - intros bufs k r k'. cbn -[Z.leb Z.pow]. destruct (2 ^ 63 <=? _) eqn:El; bool_prop;
      [intros [= <- <-]; cbn; lia|]. intros [= <- <-] _. cbn -[Z.pow]. rewrite Nat2Z.id. unfold pipe_written, pipe_put. cbn.
    rewrite map_app, concat_app. cbn. rewrite app_nil_r. split_and!; try done.
    + rewrite length_take. lia.
    + f_equal. rewrite length_take. apply take_min_len.
  - intros bufs k r k'. cbn -[Z.leb Z.pow]. destruct (2 ^ 63 <=? _); intros [= <- <-]; [by split|].
    apply returned_ok. rewrite length_take. unfold MAX_RW_COUNT. lia.
  - by intros how k r k' [= <- <-].
  - by intros k r k' [= <- <-].
  - by intros k r k' [= <- <-].
  - by intros fl k r k' [= <- <-].
Qed.

Definition pipe_ok (k : Pipe) : Prop :=
  zlen (pipe_taken k) + zlen (concat (map snd (inbox k))) < 2 ^ 62.

#[export] Instance Pipe_Bounded : KernelBounded Pipe pipe_taken pipe_ok.
Proof.
  unfold pipe_ok. split; cbn -[Z.leb Z.pow]; [intros; lia| |intros bufs k Hk; by destruct (_ <=? _)|done..].
  intros n k Hk. generalize (Z.min MAX_RW_COUNT n). clear n. intros n. unfold pipe_next. destruct (inbox k) as [|[a m] rest] eqn:E; cbn in *; [by rewrite E|].
  rewrite length_app in *. rewrite length_take. lia.
Qed.

Lemma pipe_writev_inbox bufs (k : Pipe) : inbox (snd (sys_writev bufs k)) = inbox k.
Proof. cbn -[Z.leb Z.pow]. by destruct (_ <=? _). Qed.

Lemma pipe_read limit (f f' : File Pipe) l :
  0 <= limit -> fd_read limit f = Ok (l, f') ->
  l = (match inbox (f_kernel f) with
       | [] => []
       | m :: _ => take (Z.to_nat (Z.min BUFFER_SIZE limit)) (snd m)
       end) /\ inbox (f_kernel f') = tail (inbox (f_kernel f)).
Proof.
  intros Hl E. pose proof (fd_read_spec pipe_taken pipe_written limit f Hl) as Hs. rewrite E in Hs.
  destruct Hs as (_ & Ht & _). unfold fd_read in E. cbn [sys_read Pipe_Kernel] in E.
  rewrite (Z.min_r MAX_RW_COUNT) in E by (unfold MAX_RW_COUNT, BUFFER_SIZE; lia).
  unfold pipe_next in E. destruct (inbox (f_kernel f)) as [|m rest] eqn:Ei.
  - apply res_bind_ok in E as (n & _ & E). destruct (_ <? n); [done|]. injection E as E <-. cbn in *.
    rewrite <- (app_nil_r (pipe_taken (f_kernel f))) in Ht at 1. apply app_inv_head in Ht.
    by rewrite Ht, Ei.
  - destruct m as [a d]. apply res_bind_ok in E as (n & _ & E). destruct (_ <? n); [done|].
    injection E as _ <-. cbn in *. by apply app_inv_head in Ht as <-.
Qed.

(** Five bytes through a pipe that takes two at a time, and one byte to a pipe that
    takes nothing. *)
Lemma fd_write_correct_witness :
  let f := mkFile (mkFD 3 false false 0 0) (mkPipe [] [] 2 []) in
  match fd_write [[x01; x02; x03]; []; [x04; x05]] true f with
  | Ok (n, f') => n = 5 /\ pipe_written (f_kernel f') = [x01; x02; x03; x04; x05] /\
                  fd_write_count (f_fd f') = 3
  | _ => False
  end /\
  fd_write [[x01]] false (mkFile (mkFD 3 false false 0 0) (mkPipe [] [] 0 [])) = Throw write_returned_0 /\
  write_failed [x01] write_returned_0.
Proof.
  pose proof (fd_write_correct pipe_taken pipe_written [[x01; x02; x03]; []; [x04; x05]] true
                (mkFile (mkFD 3 false false 0 0) (mkPipe [] [] 2 []))) as H.
  pose proof (fd_write_correct pipe_taken pipe_written [[x01]] false
                (mkFile (mkFD 3 false false 0 0) (mkPipe [] [] 0 []))) as H0.
  cbv zeta. split; [|split; [reflexivity|exact H0]].
  set (r := fd_write _ _ _) in *. vm_compute in r. subst r. destruct H as (_ & Hn & _ & Hw & _).
  rewrite (Hn eq_refl) in Hw. split_and!; [exact (Hn eq_refl)|exact Hw|reflexivity].
Defined.
