(* ===== verification/EventLoop.v ===== *)
(** * The event loop

    Models [src/libsponge/util/eventloop.hh] and [.cc].  The program's state [W]
    is what the callbacks share; a rule reads its descriptor's [FDWrapper] from
    it, since [duplicate] shares the wrapper, and its callbacks are functions on
    it.  They do not add rules.  [poll] is the kernel's. *)

From S2P Require Import Prelude Buffers Address FileDescriptor.

Definition POLLIN : Z := 1.
Definition POLLOUT : Z := 4.
Definition POLLERR : Z := 8.
Definition POLLHUP : Z := 16.
Definition POLLNVAL : Z := 32.
Definition EINTR : Z := 4.

Inductive Direction := In_ | Out_.

(** [static_cast<short>(direction)]. *)
Definition direction_events (d : Direction) : Z := match d with In_ => POLLIN | Out_ => POLLOUT end.

#[export] Instance Direction_eq_dec : EqDecision Direction.
Proof. solve_decision. Defined.

Record Rule (W : Type) := mkRule {
  ru_fd : W -> FDWrapper;
  ru_direction : Direction;
  ru_callback : W -> res W;
  ru_interest : W -> res bool;
  ru_cancel : W -> res W
}.
Arguments mkRule {W} ru_fd ru_direction ru_callback ru_interest ru_cancel.
Arguments ru_fd {W} r w.
Arguments ru_direction {W} r.
Arguments ru_callback {W} r w.
Arguments ru_interest {W} r w.
Arguments ru_cancel {W} r w.

Inductive Result := Success | Timeout_ | Exit_.

Record pollfd := mkPollfd { pf_fd : Z; pf_events : Z; pf_revents : Z }.

(** [poll]: its return value, the [revents] it stored, and the state after the
    wait (other parties act meanwhile). *)
Class Poller (W : Type) := sys_poll : list pollfd -> Z -> W -> sysret * list Z * W.

Section Loop.
Context {W : Type}.

Definition service_count (r : Rule W) (w : W) : Z :=
  match ru_direction r with
  | In_ => fd_read_count (ru_fd r w)
  | Out_ => fd_write_count (ru_fd r w)
  end.

Definition add_rule (r : Rule W) (rules : list (Rule W)) : list (Rule W) := rules ++ [r].

(** The first loop: cancels the rules that are over and sets up the rest. *)
Fixpoint setup_loop (rules : list (Rule W)) (w : W)
  : res (list (Rule W) * list pollfd * bool * W) :=
  match rules with
  | [] => Ok ([], [], false, w)
  | r :: rest =>
      if bool_decide (ru_direction r = In_) && fd_eof (ru_fd r w) || fd_closed (ru_fd r w) then
        w ← ru_cancel r w;
        setup_loop rest w
      else
        interested ← ru_interest r w;
        let p := mkPollfd (fd_num (ru_fd r w))
                   (if (interested : bool) then direction_events (ru_direction r) else 0) 0 in
        k ← setup_loop rest w;
        let '(rules', pollfds, something_to_poll, w) := k in
        Ok (r :: rules', p :: pollfds, interested || something_to_poll, w)
  end.

(** The second loop, from index [idx] on. *)
Fixpoint scan_loop (pollfds : list pollfd) (rules : list (Rule W)) (idx : nat) (w : W)
  : res (list (Rule W) * W) :=
  match rules with
  | [] => Ok ([], w)
  | r :: rest =>
      match pollfds !! idx with
      | None => Undefined
      | Some p =>
          if negb (Z.land (pf_revents p) (Z.lor POLLERR POLLNVAL) =? 0) then Throw polled_error
          else
            let poll_ready := negb (Z.land (pf_revents p) (pf_events p) =? 0) in
            let poll_hup := negb (Z.land (pf_revents p) POLLHUP =? 0) in
            if poll_hup && negb (pf_events p =? 0) && negb poll_ready then
              w ← ru_cancel r w;
              scan_loop pollfds rest (S idx) w
            else
              w ← (if poll_ready then
                     let count_before := service_count r w in
                     w ← ru_callback r w;
                     if count_before =? service_count r w then
                       still ← ru_interest r w;
                       if (still : bool) then Throw busy_wait else Ok w
                     else Ok w
                   else Ok w);
              k ← scan_loop pollfds rest (S idx) w;
              Ok (r :: fst k, snd k)
      end
  end.

(** The kernel stores [revents] into the array. *)
Fixpoint store_revents (pollfds : list pollfd) (revents : list Z) : list pollfd :=
  match pollfds, revents with
  | p :: ps, r :: rs => mkPollfd (pf_fd p) (pf_events p) r :: store_revents ps rs
  | _, _ => pollfds
  end.

Definition wait_next_event `{Poller W} (timeout_ms : Z) (rules : list (Rule W)) (w : W)
  : res (Result * list (Rule W) * W) :=
  k ← setup_loop rules w;
  let '(rules, pollfds, something_to_poll, w) := k in
  if negb something_to_poll then Ok (Exit_, rules, w)
  else
    let '(r, revents, w) := sys_poll pollfds timeout_ms w in
    let pollfds := store_revents pollfds revents in
    match SystemCall r 0 with
    | Ok n =>
        if n =? 0 then Ok (Timeout_, rules, w)
        else k ← scan_loop pollfds rules 0 w; Ok (Success, fst k, snd k)
    | Throw (unix_error code) =>
        if code =? EINTR then Ok (Exit_, rules, w)
        else k ← scan_loop pollfds rules 0 w; Ok (Success, fst k, snd k)
    | Throw e => Throw e
    | Undefined => Undefined
    end.
End Loop.

(** ** What a pass preserves

    [P] is an invariant of the program's state and [E] the failures the
    callbacks may have.  Each rule comes with a condition that its interest
    guarantees and that the other rules keep: the callback may rely on it,
    although other callbacks run between the question and the call.  A callback
    must serve its descriptor or lose interest unless [E] allows [busy_wait]. *)

Section Safe.
Context {W : Type} (P : W -> Prop) (E : option exn -> Prop).

Abbreviation armed_rule := (Rule W * (W -> Prop))%type.

Record rule_ok (x : armed_rule) : Prop := {
  ro_cancel w : P w -> wp E (ru_cancel (fst x) w) P;
  ro_interest w : P w -> exists b, ru_interest (fst x) w = Ok b /\ (b = true -> snd x w);
  ro_callback w : P w -> snd x w ->
    wp E (ru_callback (fst x) w) (fun w' =>
      P w' /\ (service_count (fst x) w' <> service_count (fst x) w \/
               ru_interest (fst x) w' = Ok false \/ E (Some busy_wait)))
}.

(** [f] keeps [T]. *)
Definition keeps (T : W -> Prop) (f : W -> res W) : Prop :=
  forall w w', P w -> T w -> f w = Ok w' -> T w'.

(** [x] comes before [y] in the list. *)
Record compatible (x y : armed_rule) : Prop := {
  co_callback : keeps (snd y) (ru_callback (fst x));
  co_cancel : keeps (snd y) (ru_cancel (fst x));
  co_cancel_back : keeps (snd x) (ru_cancel (fst y))
}.

(** An error that [poll] reports on a descriptor. *)
Definition is_error (revents : Z) : Prop := Z.land revents (Z.lor POLLERR POLLNVAL) <> 0.

(** The kernel waits without disturbing the program; it reports an error only if
    [E] allows [polled_error]. *)
Definition poll_ok `{Poller W} (spec : list armed_rule) : Prop :=
  forall pollfds t w r revents w', P w -> sys_poll pollfds t w = (r, revents, w') ->
    P w' /\ Forall (fun x => snd x w -> snd x w') spec /\
    (Exists is_error revents -> E (Some polled_error)) /\ returned r.

(** The entry [p] of the poll array belongs to the rule [x]. *)
Definition entry_ok (w : W) (x : armed_rule) (p : pollfd) : Prop :=
  (is_error (pf_revents p) -> E (Some polled_error)) /\ (pf_events p <> 0 -> snd x w).

Lemma setup_spec spec : forall w,
  Forall rule_ok spec -> ForallOrdPairs compatible spec -> P w ->
  wp E (setup_loop (map fst spec) w) (fun '(rules, pollfds, _, w') =>
    P w' /\ (forall T, Forall (fun y => keeps T (ru_cancel (fst y))) spec -> T w -> T w') /\
    exists spec', spec' `sublist_of` spec /\ rules = map fst spec' /\
      Forall2 (entry_ok w') spec' pollfds).
Proof.
  induction spec as [|x spec IH]; intros w HF HC HP; cbn [setup_loop map].
  { split_and!; [done..|]. exists []. by repeat constructor. }
  apply Forall_cons in HF as [Hx HF]. inversion HC as [|? ? Hxc HC']; subst.
  destruct (_ || _).
  - apply wp_bind. pose proof (ro_cancel _ Hx w HP) as Hcan.
    destruct (ru_cancel (fst x) w) as [w1|e|] eqn:Ec; cbn in *; [|done..].
    eapply wp_mono; [by apply IH|]. intros [[[rules ps] b] w'] (HP' & HT & spec' & Hs & Hr & H2).
    split_and!; [done| |exists spec'; split_and!; [by constructor|done..]].
    intros T HK Ht. apply Forall_cons in HK as [Hk HK].
    apply HT; [exact HK|]. by apply (Hk w w1).
  - destruct (ro_interest _ Hx w HP) as (b & -> & Hb). cbn [mbind res_bind]. apply wp_bind.
    eapply wp_mono; [by apply IH|]. intros [[[rules ps] b'] w'] (HP' & HT & spec' & Hs & Hr & H2).
    cbn. split_and!; [done| |].
    { intros T HK Ht. apply Forall_cons in HK as [_ HK]. by apply HT. }
    exists (x :: spec'). split_and!; [by constructor|by rewrite Hr|]. constructor; [|done].
    split; [done|]. cbn. destruct b; [|done]. intros _. apply HT; [|auto].
    eapply Forall_impl; [exact Hxc|]. by intros y [_ _ ?].
Qed.

Lemma entries_keep w w1 spec ps :
  Forall2 (entry_ok w) spec ps -> Forall (fun y => snd y w -> snd y w1) spec ->
  Forall2 (entry_ok w1) spec ps.
Proof.
  induction 1 as [|y q l l' [Hq Hy] _ IH]; [constructor|]. intros [Hk1 Hk]%Forall_cons.
  constructor; [split; [done|]|by apply IH]. intros H. by apply Hk1, Hy.
Qed.

Lemma scan_spec spec : forall pollfds idx w,
  Forall rule_ok spec -> ForallOrdPairs compatible spec -> P w ->
  Forall2 (entry_ok w) spec (drop idx pollfds) ->
  wp E (scan_loop pollfds (map fst spec) idx w) (fun '(rules, w') =>
    P w' /\ exists spec', spec' `sublist_of` spec /\ rules = map fst spec').
Proof.
  induction spec as [|x spec IH]; intros ps idx w HF HC HP H2; cbn [scan_loop map].
  { split; [done|]. exists []. by repeat constructor. }
  apply Forall_cons in HF as [Hx HF]. inversion HC as [|? ? Hxc HC']; subst.
  inversion H2 as [|? p ? rest [Hp Ht] H2' E1 E2]; subst.
  assert (Hlk : ps !! idx = Some p) by (rewrite <- (Nat.add_0_r idx), <- lookup_drop, <- E2; done).
  assert (Hrest : rest = drop (S idx) ps)
    by (replace (S idx) with (idx + 1)%nat by lia; by rewrite <- drop_drop, <- E2).
  subst rest. rewrite Hlk.
  destruct (negb (Z.land (pf_revents p) (Z.lor POLLERR POLLNVAL) =? 0)) eqn:Eerr; [bool_prop; by apply Hp|]. clear Eerr.
  assert (Hnext : forall w1, P w1 -> Forall (fun y => snd y w -> snd y w1) spec ->
            Forall2 (entry_ok w1) spec (drop (S idx) ps)).
  { intros w1 _ Hk. by eapply entries_keep. }
  destruct (_ && negb _) eqn:Eh.
  - apply wp_bind. pose proof (ro_cancel _ Hx w HP) as Hcan.
    destruct (ru_cancel (fst x) w) as [w1|e|] eqn:Ec; cbn in *; [|done..].
    eapply wp_mono; [apply IH; try done; apply Hnext; [done|]|].
    + eapply Forall_impl; [exact Hxc|]. intros y [_ Hk _] Hy. exact (Hk w w1 HP Hy Ec).
    + intros [rules w'] (HP' & spec' & Hs & ->). split; [done|]. exists spec'. by split; [constructor|].
  - apply wp_bind.
    assert (Hgo : forall w1, P w1 -> Forall (fun y => snd y w -> snd y w1) spec ->
              wp E (k ← scan_loop ps (map fst spec) (S idx) w1; Ok (fst x :: fst k, snd k))
                (fun '(rules, w') => P w' /\ exists spec', spec' `sublist_of` (x :: spec) /\ rules = map fst spec')).
    { intros w1 HP1 Hk. apply wp_bind. eapply wp_mono; [apply IH; try done; by apply Hnext|].
      intros [rules w'] (HP' & spec' & Hs & ->). cbn. split; [done|]. exists (x :: spec').
      by split; [constructor|]. }
    destruct (negb (Z.land (pf_revents p) (pf_events p) =? 0)) eqn:Er.
    2: { apply Hgo; [done|]. by apply Forall_true. }
    assert (Hev : snd x w).
    { apply Ht. intros Hz. rewrite Hz, Z.land_0_r in Er. done. }
    apply wp_bind. pose proof (ro_callback _ Hx w HP Hev) as Hcb.
    destruct (ru_callback (fst x) w) as [w1|e|] eqn:Ec; cbn in *; [|done..].
    destruct Hcb as [HP1 Hsv].
    assert (Hk : Forall (fun y => snd y w -> snd y w1) spec).
    { eapply Forall_impl; [exact Hxc|]. intros y [Hk _ _] Hy. exact (Hk w w1 HP Hy Ec). }
    destruct (service_count (fst x) w =? service_count (fst x) w1) eqn:Es; [|by apply Hgo]. bool_prop.
    destruct Hsv as [?|[Hi|Hbusy]]; [congruence|rewrite Hi; cbn; by apply Hgo|].
    destruct (ro_interest _ Hx w1 HP1) as (b & -> & _). cbn. destruct b; [done|by apply Hgo].
Qed.

Lemma store_revents_ok w spec : forall ps revents,
  Forall2 (entry_ok w) spec ps ->
  (Exists is_error revents -> E (Some polled_error)) ->
  Forall2 (entry_ok w) spec (store_revents ps revents).
Proof.
  intros ps revents H2. revert revents.
  induction H2 as [|x p l l' [Hp Ht] Hl IH]; intros revents Hr; [by destruct revents|].
  destruct revents as [|v revents]; cbn; [by constructor|].
  constructor; [split; [|done]|]; auto using Exists_cons_hd, Exists_cons_tl.
Qed.

Lemma Forall_sublist (Q : armed_rule -> Prop) l l' : l' `sublist_of` l -> Forall Q l -> Forall Q l'.
Proof.
  rewrite !Forall_forall. intros Hs HQ x Hx. by apply HQ, (sublist_subseteq l' l).
Qed.

Lemma sublist_pairs (R : armed_rule -> armed_rule -> Prop) l l' :
  l' `sublist_of` l -> ForallOrdPairs R l -> ForallOrdPairs R l'.
Proof.
  induction 1 as [|x l1 l2 Hs IH|x l1 l2 Hs IH]; intros HC; [done|..];
    inversion HC as [|? ? Hx HC']; subst; [|auto].
  constructor; [|auto]. by eapply Forall_sublist.
Qed.

Lemma wait_spec `{Poller W} spec t w :
  Forall rule_ok spec -> ForallOrdPairs compatible spec -> poll_ok spec -> P w ->
  wp E (wait_next_event t (map fst spec) w) (fun '(_, rules, w') =>
    P w' /\ exists spec', spec' `sublist_of` spec /\ rules = map fst spec').
Proof.
  intros HF HC Hpoll HP. unfold wait_next_event. apply wp_bind.
  eapply wp_mono; [by apply setup_spec|]. intros [[[rules ps] some] w1] (HP1 & _ & spec' & Hs & -> & H2).
  assert (HF' : Forall rule_ok spec') by by eapply Forall_sublist.
  assert (HC' : ForallOrdPairs compatible spec') by by eapply sublist_pairs.
  destruct some; cbn [negb]; [|by split; [|exists spec']].
  destruct (sys_poll ps t w1) as [[r revents] w2] eqn:Ep.
  destruct (Hpoll _ _ _ _ _ _ HP1 Ep) as (HP2 & Hk & Hclean & Herr).
  assert (Hscan : wp E (k ← scan_loop (store_revents ps revents) (map fst spec') 0 w2;
                        Ok (Success, fst k, snd k))
                    (fun '(_, rules, w') => P w' /\ exists spec', spec' `sublist_of` spec /\ rules = map fst spec')).
  { apply wp_bind. eapply wp_mono; [apply scan_spec; try done|].
    - rewrite drop_0. apply store_revents_ok; [|done]. eapply entries_keep; [exact H2|].
      by eapply Forall_sublist.
    - intros [rules w'] (HP' & spec'' & Hs' & ->). cbn. split; [done|]. exists spec''.
      split; [|done]. by etrans. }
  destruct (syscall_cases r Herr) as [[-> _]|[c ->]].
  - destruct (_ =? 0); [|done]. by split; [|exists spec'].
  - destruct (_ =? EINTR); [|done]. by split; [|exists spec'].
Qed.
End Safe.

(** What can go wrong in a loop whose callbacks make progress: a system call fails, or
    [poll] reports an error on a descriptor.  A busy wait is not among it. *)
Definition loop_fails (f : option exn) : Prop := system_fails f \/ f = Some polled_error.

Lemma system_loop f : system_fails f -> loop_fails f.
Proof. by left. Qed.
Lemma polled_loop : loop_fails (Some polled_error).
Proof. by right. Qed.

(** ** A pass, without assuming that callbacks serve their descriptors *)

Section Pass.
Context {W : Type} (P : W -> Prop) (E : option exn -> Prop) `{Poller W}.
Abbreviation armed_rule := (Rule W * (W -> Prop))%type.

(** The callbacks keep the invariant and fail only as [E] says. *)
Record rule_keeps (x : armed_rule) : Prop := {
  rk_cancel w : P w -> wp E (ru_cancel (fst x) w) P;
  rk_interest w : P w -> exists b, ru_interest (fst x) w = Ok b /\ (b = true -> snd x w);
  rk_callback w : P w -> snd x w -> wp E (ru_callback (fst x) w) P
}.

(** [poll] leaves the program's state alone. *)
Definition poll_keeps (spec : list armed_rule) : Prop :=
  forall pollfds t w r revents w', P w -> sys_poll pollfds t w = (r, revents, w') ->
    P w' /\ Forall (fun x => snd x w -> snd x w') spec /\ returned r.

(** A callback that neither reads or writes its descriptor nor loses interest. *)
Definition idles (x : armed_rule) : Prop :=
  exists w w', P w /\ snd x w /\ ru_callback (fst x) w = Ok w' /\
    service_count (fst x) w' = service_count (fst x) w /\ ru_interest (fst x) w' = Ok true.

(** [poll] reported an error. *)
Definition reported : Prop :=
  exists pollfds t w r revents w', P w /\ sys_poll pollfds t w = (r, revents, w') /\ Exists is_error revents.

Definition pass_fails (spec : list armed_rule) (f : option exn) : Prop :=
  E f \/ f = Some polled_error /\ reported \/ f = Some busy_wait /\ Exists idles spec.

Lemma wp_weaken {A} (E' : option exn -> Prop) (m : res A) Q :
  (forall f, E f -> E' f) -> wp E m Q -> wp E' m Q.
Proof. destruct m; cbn; auto. Qed.

Lemma keeps_ok spec x : x ∈ spec -> rule_keeps x -> rule_ok P (pass_fails spec) x.
Proof.
  intros Hin [Hc Hi Hb]. split; [| |].
  - intros w HP. eapply wp_weaken; [|by apply Hc]. by left.
  - exact Hi.
  - intros w HP Hx. specialize (Hb w HP Hx).
    destruct (ru_callback (fst x) w) as [w'|e|] eqn:Ec; cbn in *; [|by left..]. split; [done|].
    destruct (decide (service_count (fst x) w' = service_count (fst x) w)) as [Es|]; [right|by left].
    destruct (Hi w' Hb) as ([] & Ei & _); [|by left]. right. right. right. split; [done|].
    apply Exists_exists. exists x. split; [done|]. by exists w, w'.
Qed.
End Pass.

(** C16.  A pass of the event loop, for rules whose callbacks keep an invariant:
    [wait_next_event] keeps the invariant, indexes the poll array within its bounds
    and only drops rules, keeping their order.  It fails only if a callback fails,
    or with the error for a polled descriptor when [poll] has reported one, or with
    the error for a busy wait when one of the rules has a callback that neither
    serves its descriptor nor loses interest. *)
Theorem event_loop_safe {W} (P : W -> Prop) (E : option exn -> Prop) `{Poller W} spec t w :
  Forall (rule_keeps P E) spec -> ForallOrdPairs (compatible P) spec -> poll_keeps P spec -> P w ->
  wp (pass_fails P E spec) (wait_next_event t (map fst spec) w) (fun '(_, rules, w') =>
    P w' /\ exists spec', spec' `sublist_of` spec /\ rules = map fst spec').
Proof.
  intros HF HC Hp HP. apply wait_spec; [|done| |done].
  - apply Forall_forall. intros x Hx. apply keeps_ok; [done|]. by eapply Forall_forall in HF.
  - intros pollfds ms w1 r revents w' HP1 Es. destruct (Hp _ _ _ _ _ _ HP1 Es) as (? & ? & ?).
    split_and!; [done..| |done]. intros Hx. right. left. split; [done|]. by exists pollfds, ms, w1, r, revents, w'.
Qed.

Lemma scan_nothing {W} (rs : list (Rule W)) (w : W) : forall idx ps,
  length (drop idx ps) = length rs -> Forall (fun p => pf_revents p = 0) ps ->
  scan_loop ps rs idx w = Ok (rs, w).
Proof.
  induction rs as [|x rs IH]; intros idx ps Hl Hz; [done|]. cbn [scan_loop].
  destruct (ps !! idx) as [p|] eqn:Ep.
  2: { apply lookup_ge_None in Ep. rewrite drop_ge in Hl by done. done. }
  rewrite Forall_forall in Hz. rewrite (Hz p) by by eapply list_elem_of_lookup_2.
  rewrite !Z.land_0_l. cbn [Z.eqb negb andb mbind res_bind].
  rewrite IH; [done|rewrite length_drop in *; cbn in Hl; lia|by apply Forall_forall].
Qed.

Lemma setup_entries {W} (rs : list (Rule W)) : forall w rs' ps b w',
  setup_loop rs w = Ok (rs', ps, b, w') ->
  length ps = length rs' /\ Forall (fun p => pf_revents p = 0) ps.
Proof.
  induction rs as [|x rs IH]; intros w rs' ps b w' E; cbn [setup_loop] in E;
    [by injection E as <- <- _ _|]. destruct (_ || _).
  - apply res_bind_ok in E as (w1 & _ & E). eauto.
  - apply res_bind_ok in E as (i & _ & E).
    apply res_bind_ok in E as ([[[rs1 ps1] b1] w1] & E1 & [= <- <- _ _]).
    destruct (IH _ _ _ _ _ E1). cbn. split; [lia|by constructor].
Qed.

(** A failure of [poll] other than an interruption is not reported: when the
    kernel has stored no events, [wait_next_event] calls nothing and returns
    [Success]. *)
Theorem poll_failure_swallowed {W} `{Poller W} t (rules rules' : list (Rule W)) pollfds w w1 r w2 :
  setup_loop rules w = Ok (rules', pollfds, true, w1) ->
  sys_poll pollfds t w1 = (r, [], w2) -> rv r = -1 -> errno r <> 0 -> errno r <> EINTR ->
  wait_next_event t rules w = Ok (Success, rules', w2).
Proof.
  intros Hs Hp Hr He0 Hei. unfold wait_next_event. rewrite Hs. cbn [mbind res_bind negb]. rewrite Hp.
  unfold SystemCall. rewrite Hr. change (s32 (-1)) with (-1). cbn [Z.leb Z.compare orb].
  rewrite (proj2 (Z.eqb_neq (errno r) 0)) by done. rewrite (proj2 (Z.eqb_neq _ _)) by done.
  destruct (setup_entries _ _ _ _ _ _ Hs) as [Hlen Hz]. destruct pollfds; cbn [store_revents];
    (rewrite scan_nothing; [done|by rewrite drop_0|done]).
Qed.

(** ** A loop with one rule, which reads a pipe *)

Definition reading_rule : Rule (File Pipe) :=
  mkRule f_fd In_ (fun f => r ← fd_read 10 f; Ok (snd r)) (fun _ => Ok true) (fun f => Ok f).
Definition reading_file : File Pipe := mkFile (mkFD 3 false false 0 0) (mkPipe [([], [x61])] [] 2 []).

Definition readable_Poller : Poller (File Pipe) := fun pollfds _ f =>
  (ok_ret 1, map (fun _ => POLLIN) pollfds, f).
(** [ENOMEM]. *)
Definition failing_Poller : Poller (File Pipe) := fun _ _ f => (mkSys (-1) 12, [], f).

(** A rule that never touches its descriptor. *)
Definition idle_rule : Rule (File Pipe) := mkRule f_fd In_ (fun f => Ok f) (fun _ => Ok true) (fun f => Ok f).
Definition broken_Poller : Poller (File Pipe) := fun pollfds _ f => (ok_ret 1, map (fun _ => POLLERR) pollfds, f).
Abbreviation unarmed r := (r, fun _ : File Pipe => True).

Lemma reading_rules_keep : Forall (rule_keeps (fun _ => True) system_fails) [unarmed reading_rule; unarmed idle_rule].
Proof.
  repeat apply Forall_cons_2; [split|split|done]; cbn; try done; try (intros w _; by exists true).
  intros w _ _. apply wp_bind. eapply wp_system; [done|apply (fd_read_spec pipe_taken pipe_written); lia|done].
Qed.

(** The rule that reads is served; the one that does not is found out, unless
    [poll] reports an error first. *)
Lemma event_loop_safe_witness :
  wp (@pass_fails _ (fun _ => True) system_fails readable_Poller [unarmed reading_rule; unarmed idle_rule])
    (@wait_next_event _ readable_Poller 10 [reading_rule; idle_rule] reading_file)
    (fun '(_, rules, w') => True /\ exists spec',
       spec' `sublist_of` [unarmed reading_rule; unarmed idle_rule] /\ rules = map fst spec') /\
  match @wait_next_event _ readable_Poller 10 [reading_rule] reading_file with
  | Ok (Success, [_], f) => pipe_taken (f_kernel f) = [x61]
  | _ => False
  end /\
  @wait_next_event _ readable_Poller 10 [reading_rule; idle_rule] reading_file = Throw busy_wait /\
  @wait_next_event _ broken_Poller 10 [reading_rule; idle_rule] reading_file = Throw polled_error.
Proof.
  split; [|split_and!; vm_compute; reflexivity].
  apply (@event_loop_safe _ (fun _ => True) system_fails readable_Poller
           [unarmed reading_rule; unarmed idle_rule] 10 reading_file).
  - exact reading_rules_keep.
  - repeat constructor.
  - intros pollfds t w r revents w' _ [= <- <- <-]. split_and!; [exact I|repeat constructor|]. apply returned_ok.
    unfold MAX_RW_COUNT. lia.
  - exact I.
Defined.

Lemma poll_failure_swallowed_witness :
  @wait_next_event _ failing_Poller 10 [reading_rule] reading_file = Ok (Success, [reading_rule], reading_file).
Proof.
  apply (@poll_failure_swallowed _ failing_Poller 10 [reading_rule] [reading_rule] [mkPollfd 3 POLLIN 0]
           reading_file reading_file (mkSys (-1) 12) reading_file); [reflexivity..| |]; discriminate.
Defined.
