(* ===== verification/Sockets.v ===== *)
(** * Sockets and devices

    Models what [FileDescriptor.v] leaves of [src/libsponge/util/socket.hh], [.cc],
    [file_descriptor.cc] and [tun.hh], [.cc]: the constructors and destructors, and
    the calls that name, connect and configure a socket.  A constructor takes what
    the system call that made the descriptor returned, with the object behind it;
    the other system calls are those of [SocketKernel]. *)

From S2P Require Import Prelude Buffers Parser Address FileDescriptor.

(** The calls of [socket(7)] on an object.  [sys_getsockopt] returns the value and
    its size, [sys_getsockname] and [sys_getpeername] the bytes of an address and
    their number, [sys_accept] the result and the object of the new connection;
    [sys_send] is [sendmsg] without a destination. *)
Class SocketKernel (K : Type) `{Kernel K} := {
  sys_getsockopt : Z -> Z -> K -> sysret * Z * Z;
  sys_setsockopt : Z -> Z -> Z -> K -> sysret * K;
  sys_bind : Address -> K -> sysret * K;
  sys_connect : Address -> K -> sysret * K;
  sys_getsockname : K -> sysret * list byte * Z;
  sys_getpeername : K -> sysret * list byte * Z;
  sys_send : BufferViewList -> K -> sysret * K;
  sys_listen : Z -> K -> sysret * K;
  sys_accept : K -> sysret * K * K
}.

Definition SOL_SOCKET : Z := 1.
Definition SO_REUSEADDR : Z := 2.
Definition SO_TYPE : Z := 3.
Definition SO_DOMAIN : Z := 39.
Definition AF_UNIX : Z := 1.
Definition SOCK_STREAM : Z := 1.
Definition SOCK_DGRAM : Z := 2.
Definition sizeof_int : Z := 4.

Section Sockets.
Context {K : Type} `{SocketKernel K}.
Implicit Type f : File K.

(** ** Descriptors *)

(** [FileDescriptor(fd)] for the descriptor a system call returned. *)
Definition FileDescriptor_new (created : sysret * K) : res (File K) :=
  fd ← SystemCall (fst created) 0;
  w ← FDWrapper_new fd;
  Ok (mkFile w (snd created)).

(** [~FDWrapper]: an exception of [close] is caught. *)
Definition FDWrapper_destroy f : File K :=
  if fd_closed (f_fd f) then f
  else match fd_close f with Ok f' => f' | _ => mkFile (f_fd f) (snd (sys_close (f_kernel f))) end.

(** ** [Socket] *)

(** [Socket(domain, type)]: the arguments went into the system call. *)
Definition Socket_new (created : sysret * K) : res (File K) := FileDescriptor_new created.

(** [Socket(fd, domain, type)]. *)
Definition Socket_of_fd f (domain type : Z) : res (File K) :=
  let '(r, actual_value, len) := sys_getsockopt SOL_SOCKET SO_DOMAIN (f_kernel f) in
  _ ← SystemCall r 0;
  if negb (len =? sizeof_int) || negb (actual_value =? domain) then Throw runtime_error
  else
    let '(r, actual_value, len) := sys_getsockopt SOL_SOCKET SO_TYPE (f_kernel f) in
    _ ← SystemCall r 0;
    if negb (len =? sizeof_int) || negb (actual_value =? type) then Throw runtime_error
    else Ok f.

Definition UDPSocket_of_fd f : res (File K) := Socket_of_fd f AF_INET SOCK_DGRAM.
Definition TCPSocket_of_fd f : res (File K) := Socket_of_fd f AF_INET SOCK_STREAM.
Definition LocalStreamSocket_of_fd f : res (File K) := Socket_of_fd f AF_UNIX SOCK_STREAM.

Definition get_address (function : K -> sysret * list byte * Z) f : res Address :=
  let '(r, address, size) := function (f_kernel f) in
  _ ← SystemCall r 0;
  Address_of_sockaddr address size.
Definition local_address f : res Address := get_address sys_getsockname f.
Definition peer_address f : res Address := get_address sys_getpeername f.

(** A call that changes only the object. *)
Definition on_object (call : K -> sysret * K) f : res (File K) :=
  let '(r, k) := call (f_kernel f) in
  _ ← SystemCall r 0;
  Ok (mkFile (f_fd f) k).

Definition socket_bind (address : Address) f : res (File K) := on_object (sys_bind address) f.
Definition kernel_connect (address : Address) f : res (File K) := on_object (sys_connect address) f.
Definition setsockopt (level option option_value : Z) f : res (File K) :=
  on_object (sys_setsockopt level option option_value) f.
Definition set_reuseaddr f : res (File K) := setsockopt SOL_SOCKET SO_REUSEADDR 1 f.

(** ** [UDPSocket] and [TCPSocket] *)

Definition udp_send (payload : BufferViewList) f : res (File K) :=
  let '(r, k) := sys_send (map fst (as_iovecs payload)) (f_kernel f) in
  bytes_sent ← SystemCall r 0;
  if negb (u64 bytes_sent =? bv_size payload) then Throw runtime_error
  else Ok (mkFile (register_write (f_fd f)) k).

Definition tcp_listen (backlog : Z) f : res (File K) := on_object (sys_listen backlog) f.

(** [accept]: the new socket and the listening one. *)
Definition tcp_accept f : res (File K * File K) :=
  let f := mkFile (register_read (f_fd f)) (f_kernel f) in
  let '(r, connection, k) := sys_accept (f_kernel f) in
  s ← FileDescriptor_new (r, connection);
  s ← TCPSocket_of_fd s;
  Ok (s, mkFile (f_fd f) k).

(** The socket of [tcp_native.cc]: a connection accepted on the address, or one
    made to it. *)
Definition native_socket (server_mode : bool) (address : Address) (created : sysret * K) : res (File K) :=
  s ← Socket_new created;
  if server_mode then
    s ← set_reuseaddr s;
    s ← socket_bind address s;
    s ← tcp_listen 16 s;
    r ← tcp_accept s;
    Ok (fst r)
  else kernel_connect address s.
End Sockets.

(** ** TUN and TAP devices *)

Definition IFF_TUN : Z := 0x0001.
Definition IFF_TAP : Z := 0x0002.
Definition IFF_NO_PI : Z := 0x1000.
Definition IFNAMSIZ : Z := 16.

(** [strncpy(dst, src, n)]: the characters before a NUL, then NULs. *)
Fixpoint before_nul (s : list byte) : list byte :=
  match s with [] => [] | c :: s' => if bool_decide (c = x00) then [] else c :: before_nul s' end.
Definition strncpy (s : list byte) (n : Z) : list byte := resize n (take (Z.to_nat n) (before_nul s)).

(** [ioctl(TUNSETIFF)] with the flags and the name of the request. *)
Class TunKernel (K : Type) := sys_tunsetiff : Z -> list byte -> K -> sysret * K.

Definition ifr_name (devname : list byte) : list byte := strncpy devname (IFNAMSIZ - 1) ++ [x00].
Definition ifr_flags (is_tun : bool) : Z := Z.lor (if is_tun then IFF_TUN else IFF_TAP) IFF_NO_PI.

Definition TunTapFD_new {K} `{TunKernel K} (devname : list byte) (is_tun : bool) (opened : sysret * K)
  : res (File K) :=
  fd ← SystemCall (fst opened) 0;
  w ← FDWrapper_new fd;
  let '(r, k) := sys_tunsetiff (ifr_flags is_tun) (ifr_name devname) (snd opened) in
  _ ← SystemCall r 0;
  Ok (mkFile w k).

Lemma before_nul_whole s : Forall (fun c => c <> x00) s -> before_nul s = s.
Proof. induction 1 as [|c s Hc _ IH]; [done|]. cbn. rewrite bool_decide_false by done. by rewrite IH. Qed.

Lemma length_strncpy s n : 0 <= n -> zlen (strncpy s n) = n.
Proof. intros Hn. unfold strncpy, resize. rewrite length_app, length_replicate, !length_take. lia. Qed.

(** The name passed to the kernel always fits its array of sixteen bytes and ends
    in a NUL; names of up to fifteen characters arrive whole. *)
Lemma ifr_name_fits devname :
  zlen (ifr_name devname) = IFNAMSIZ /\ (exists l, ifr_name devname = l ++ [x00]) /\
  (Forall (fun c => c <> x00) devname -> zlen devname <= 15 -> devname `prefix_of` ifr_name devname).
Proof.
  unfold ifr_name. split_and!.
  - rewrite length_app. pose proof (length_strncpy devname (IFNAMSIZ - 1) ltac:(done)). cbn in *. lia.
  - by eexists.
  - intros Hn Hl. unfold strncpy, resize. rewrite before_nul_whole, !(take_ge devname) by (done || (unfold IFNAMSIZ; lia)).
    rewrite <- app_assoc. by apply prefix_app_r.
Qed.
