(* ===== verification/StreamCopy.v ===== *)
(** * Copying between a socket and the terminal

    Models [src/apps/bidirectional_stream_copy.cc]: an event loop with four rules
    that copies standard input to a socket and the socket to standard output,
    through two byte streams.  Every client program of the repository runs it
    once its socket is connected. *)

From S2P Require Import Prelude ByteStream Buffers Address FileDescriptor EventLoop.

Record CopyState (K : Type) := mkCopy {
  cp_input : File K;               (* _input *)
  cp_output : File K;              (* _output *)
  cp_socket : File K;              (* socket *)
  cp_outbound : ByteStream;        (* _outbound *)
  cp_inbound : ByteStream;         (* _inbound *)
  cp_outbound_shutdown : bool;     (* _outbound_shutdown *)
  cp_inbound_shutdown : bool       (* _inbound_shutdown *)
}.
Arguments mkCopy {K}.
Arguments cp_input {K} c.
Arguments cp_output {K} c.
Arguments cp_socket {K} c.
Arguments cp_outbound {K} c.
Arguments cp_inbound {K} c.
Arguments cp_outbound_shutdown {K} c.
Arguments cp_inbound_shutdown {K} c.

Definition max_copy_length : Z := 65536.
Definition copy_buffer_size : Z := 1048576.

Section Rules.
Context {K : Type} `{Kernel K}.
Implicit Type c : CopyState K.

(** The callback of rules 1 and 3: read as much as fits into the stream. *)
Definition pull (f : File K) (s : ByteStream) : res (File K * ByteStream) :=
  r ← fd_read (remaining_capacity s) f;
  let '(data, f) := r in
  let s := snd (write data s) in
  Ok (f, if fd_eof (f_fd f) then end_input s else s).

(** The callback of rules 2 and 4, up to the test for the end. *)
Definition drain (f : File K) (s : ByteStream) : res (File K * ByteStream) :=
  let bytes_to_write := Z.min max_copy_length (buffer_size s) in
  w ← fd_write [peek_output bytes_to_write s] false f;
  let '(bytes_written, f) := w in
  Ok (f, pop_output bytes_written s).

Definition set_outbound (input socket : File K) (s : ByteStream) (shut : bool) c : CopyState K :=
  mkCopy input (cp_output c) socket s (cp_inbound c) shut (cp_inbound_shutdown c).
Definition set_inbound (socket output : File K) (s : ByteStream) (shut : bool) c : CopyState K :=
  mkCopy (cp_input c) output socket (cp_outbound c) s (cp_outbound_shutdown c) shut.

Definition end_outbound c : res (CopyState K) :=
  Ok (set_outbound (cp_input c) (cp_socket c) (end_input (cp_outbound c)) (cp_outbound_shutdown c) c).
Definition end_inbound c : res (CopyState K) :=
  Ok (set_inbound (cp_socket c) (cp_output c) (end_input (cp_inbound c)) (cp_inbound_shutdown c) c).

Definition copy_rule1 : Rule (CopyState K) :=
  mkRule (fun c => f_fd (cp_input c)) In_
    (fun c =>
       r ← pull (cp_input c) (cp_outbound c);
       Ok (set_outbound (fst r) (cp_socket c) (snd r) (cp_outbound_shutdown c) c))
    (fun c => Ok (negb (error (cp_outbound c)) && (0 <? remaining_capacity (cp_outbound c)) &&
                  negb (error (cp_inbound c))))
    end_outbound.

Definition copy_rule2 : Rule (CopyState K) :=
  mkRule (fun c => f_fd (cp_socket c)) Out_
    (fun c =>
       r ← drain (cp_socket c) (cp_outbound c);
       if eof (snd r) then
         f ← socket_shutdown SHUT_WR (fst r);
         Ok (set_outbound (cp_input c) f (snd r) true c)
       else Ok (set_outbound (cp_input c) (fst r) (snd r) (cp_outbound_shutdown c) c))
    (fun c => Ok (negb (buffer_empty (cp_outbound c)) ||
                  eof (cp_outbound c) && negb (cp_outbound_shutdown c)))
    end_outbound.

Definition copy_rule3 : Rule (CopyState K) :=
  mkRule (fun c => f_fd (cp_socket c)) In_
    (fun c =>
       r ← pull (cp_socket c) (cp_inbound c);
       Ok (set_inbound (fst r) (cp_output c) (snd r) (cp_inbound_shutdown c) c))
    (fun c => Ok (negb (error (cp_inbound c)) && (0 <? remaining_capacity (cp_inbound c)) &&
                  negb (error (cp_outbound c))))
    end_inbound.

Definition copy_rule4 : Rule (CopyState K) :=
  mkRule (fun c => f_fd (cp_output c)) Out_
    (fun c =>
       r ← drain (cp_output c) (cp_inbound c);
       if eof (snd r) then
         f ← fd_close (fst r);
         Ok (set_inbound (cp_socket c) f (snd r) true c)
       else Ok (set_inbound (cp_socket c) (fst r) (snd r) (cp_inbound_shutdown c) c))
    (fun c => Ok (negb (buffer_empty (cp_inbound c)) ||
                  eof (cp_inbound c) && negb (cp_inbound_shutdown c)))
    end_inbound.

Definition copy_rules : list (Rule (CopyState K)) :=
  add_rule copy_rule4 (add_rule copy_rule3 (add_rule copy_rule2 (add_rule copy_rule1 []))).

(** The set-up before the loop. *)
Definition copy_start (socket input output : File K) : res (CopyState K) :=
  socket ← set_blocking false socket;
  input ← set_blocking false input;
  output ← set_blocking false output;
  Ok (mkCopy input output socket (ByteStream_new copy_buffer_size) (ByteStream_new copy_buffer_size)
        false false).

Context `{Poller (CopyState K)}.

(** [n] passes of the loop, fewer when it is left; [false] when it was. *)
Fixpoint copy_loop (n : nat) (rules : list (Rule (CopyState K))) c
  : res (bool * list (Rule (CopyState K)) * CopyState K) :=
  match n with
  | O => Ok (true, rules, c)
  | S n' =>
      k ← wait_next_event (-1) rules c;
      let '(result, rules, c) := k in
      match result with
      | Exit_ => Ok (false, rules, c)
      | _ => copy_loop n' rules c
      end
  end.

Definition bidirectional_stream_copy (n : nat) (socket input output : File K)
  : res (bool * list (Rule (CopyState K)) * CopyState K) :=
  c ← copy_start socket input output;
  copy_loop n copy_rules c.
End Rules.

(** ** What flows through one stream *)

(** [from] are the bytes read from the source, [to] those written to the sink. *)
Record flow (from to : list byte) (s : ByteStream) (shut : bool) : Prop := {
  fl_rep : exists w rd rest, Represents s w rd /\ bs_capacity s = copy_buffer_size /\
    from = w ++ rest /\ (input_ended s = false -> rest = []) /\ to = take rd w;
  fl_shut : shut = true -> eof s = true
}.

Lemma flow_prefix from to s shut :
  flow from to s shut -> (to ++ bs_buffer s) `prefix_of` from /\
  (input_ended s = false -> to ++ bs_buffer s = from).
Proof.
  intros [(w & rd & rest & HR & _ & -> & Hr & ->) _]. rewrite (rep_buffer _ _ _ HR), take_drop.
  split; [by eexists|]. intros E. by rewrite (Hr E), app_nil_r.
Qed.

Lemma flow_end from to s shut : flow from to s shut -> flow from to (end_input s) shut.
Proof.
  intros [(w & rd & rest & HR & Hc & Hf & Hr & Ht) Hs]. split.
  - exists w, rd, rest. split_and!; [by apply end_input_represents|done..].
  - intros E. specialize (Hs E). unfold eof in *. apply andb_prop in Hs as [_ Hs]. by cbn.
Qed.

Lemma flow_eof from to s shut : flow from to s shut -> eof s = true -> flow from to s true.
Proof. intros [Hr _] E. by split. Qed.

Lemma flow_start : flow [] [] (ByteStream_new copy_buffer_size) false.
Proof. split; [|done]. exists [], 0%nat, []. by split_and!. Qed.

Lemma flow_write from to s shut data :
  flow from to s shut -> zlen data <= remaining_capacity s ->
  flow (from ++ data) to (snd (write data s)) shut.
Proof.
  intros [(w & rd & rest & HR & Hc & -> & Hr & ->) Hs] Hl.
  destruct (write_represents _ _ _ HR data) as (_ & HR' & Hc' & He' & _). split.
  - exists (w ++ accepted s data), rd.
    pose proof (rep_read _ _ _ HR). rewrite take_app_le by lia.
    unfold accepted in *. unfold input_ended in *. rewrite He'. destruct (bs_input_ended s).
    + exists (rest ++ data). rewrite app_nil_r in *. rewrite app_assoc. split_and!; try done. congruence.
    + rewrite (Hr eq_refl), app_nil_r. rewrite take_ge in * by lia. exists []. rewrite app_nil_r.
      split_and!; try done. congruence.
  - intros E. specialize (Hs E). unfold eof, input_ended in *. rewrite He'. apply andb_prop in Hs as [H1 H2].
    rewrite H1. cbn. unfold buffer_empty, buffer_size in *. rewrite (rep_buffer _ _ _ HR').
    unfold accepted. rewrite H1, app_nil_r. by rewrite <- (rep_buffer _ _ _ HR).
Qed.

Lemma flow_pop from to s shut n :
  flow from to s shut -> 0 <= n <= buffer_size s ->
  flow from (to ++ take (Z.to_nat n) (bs_buffer s)) (pop_output n s) shut.
Proof.
  intros [(w & rd & rest & HR & Hc & -> & Hr & ->) Hs] Hn.
  destruct (pop_represents _ _ _ HR n ltac:(lia)) as (HR' & Hc' & He' & _). unfold popped in HR'.
  rewrite Z.min_l in HR' by lia. split.
  - exists w, (rd + Z.to_nat n)%nat, rest. unfold input_ended in *.
    rewrite (rep_buffer _ _ _ HR), take_take_drop, He'. split_and!; try done. congruence.
  - intros E. specialize (Hs E). unfold eof in *. apply andb_prop in Hs as [H1 H2].
    unfold input_ended in *. rewrite He', H1. cbn.
    unfold buffer_empty in *. apply Z.eqb_eq in H2. apply Z.eqb_eq.
    rewrite (rep_buffer_size _ _ _ HR'), (rep_buffer_size _ _ _ HR) in *. lia.
Qed.

(** ** The rules keep both flows *)

Section Copy.
Context {K : Type} `{Kernel K} (taken written : K -> list byte) `{!KernelSpec K taken written}.
Implicit Type c : CopyState K.

Abbreviation taken_of f := (taken (f_kernel f)).
Abbreviation written_of f := (written (f_kernel f)).

Record CopyInv c : Prop := {
  ci_outbound : flow (taken_of (cp_input c)) (written_of (cp_socket c)) (cp_outbound c) (cp_outbound_shutdown c);
  ci_inbound : flow (taken_of (cp_socket c)) (written_of (cp_output c)) (cp_inbound c) (cp_inbound_shutdown c)
}.

Lemma pull_spec f s to shut :
  flow (taken_of f) to s shut ->
  wp loop_fails (pull f s) (fun '(f', s') =>
    flow (taken_of f') to s' shut /\ written_of f' = written_of f /\
    fd_read_count (f_fd f') <> fd_read_count (f_fd f)).
Proof.
  intros Hf. unfold pull. apply wp_bind.
  assert (Hcap : 0 <= remaining_capacity s) by apply u64_range.
  eapply wp_system; [exact system_loop|apply (fd_read_spec taken written), Hcap|].
  intros [data f'] E (Hl & Ht & Hw & _). cbn. destruct (fd_read_fd _ _ _ _ E) as [-> _].
  split_and!; [|done|apply count_moves]. rewrite Ht.
  pose proof (flow_write _ _ _ _ data Hf ltac:(lia)) as Hf'. destruct (fd_eof _); [by apply flow_end|done].
Qed.

Lemma drain_spec f s from shut :
  flow from (written_of f) s shut ->
  wp loop_fails (drain f s) (fun '(f', s') =>
    flow from (written_of f') s' shut /\ taken_of f' = taken_of f /\
    fd_write_count (f_fd f') = u32 (fd_write_count (f_fd f) + 1)).
Proof.
  intros Hf. unfold drain. apply wp_bind.
  assert (Hpk : exists n, n = Z.min max_copy_length (buffer_size s) /\ 0 <= n <= 65536 /\
            peek_output n s = take (Z.to_nat n) (bs_buffer s)).
  { eexists. split; [done|]. destruct Hf as [(w & rd & rest & HR & _) _].
    assert (Hn : 0 <= Z.min max_copy_length (buffer_size s) <= 65536)
      by (unfold max_copy_length, buffer_size; lia).
    split; [done|]. rewrite (peek_represents _ _ _ HR), (rep_buffer _ _ _ HR) by lia. done. }
  destruct Hpk as (n & <- & Hn & Epk). rewrite Epk.
  assert (Hld : zlen (take (Z.to_nat n) (bs_buffer s)) <= n) by (rewrite length_take; lia).
  eapply wp_system; [exact system_loop|apply (fd_write_cases taken written)|].
  cbn [concat]. rewrite app_nil_r. intros [m f'] Hwr (Hm & _ & Ht & Hw & _). cbn.
  split_and!; [|done|by eapply fd_write_once]. rewrite Hw.
  replace (take (Z.to_nat m) (take (Z.to_nat n) (bs_buffer s))) with (take (Z.to_nat m) (bs_buffer s)).
  { apply flow_pop; [done|]. rewrite length_take in Hm. unfold buffer_size. lia. }
  rewrite take_take. f_equal. lia.
Qed.

Lemma copy_rule1_ok : rule_ok CopyInv loop_fails (copy_rule1, fun _ => True).
Proof.
  split; cbn [fst snd copy_rule1 ru_cancel ru_interest ru_callback].
  - intros c [Ho Hi]. split; cbn; [by apply flow_end|done].
  - intros c _. by eexists.
  - intros c [Ho Hi] _. apply wp_bind. eapply wp_mono; [by apply pull_spec|].
    intros [f s] (Hf & Hw & Hc). split; [by split|by left].
Qed.

Lemma copy_rule3_ok : rule_ok CopyInv loop_fails (copy_rule3, fun _ => True).
Proof.
  split; cbn [fst snd copy_rule3 ru_cancel ru_interest ru_callback].
  - intros c [Ho Hi]. split; cbn; [done|by apply flow_end].
  - intros c _. by eexists.
  - intros c [Ho Hi] _. apply wp_bind. eapply wp_mono; [by apply pull_spec|].
    intros [f s] (Hf & Hw & Hc). split; [split; cbn; [by rewrite Hw|done]|by left].
Qed.

Lemma copy_rule2_ok : rule_ok CopyInv loop_fails (copy_rule2, fun _ => True).
Proof.
  split; cbn [fst snd copy_rule2 ru_cancel ru_interest ru_callback].
  - intros c [Ho Hi]. split; cbn; [by apply flow_end|done].
  - intros c _. by eexists.
  - intros c [Ho Hi] _. apply wp_bind. eapply wp_mono; [by apply drain_spec|].
    intros [f s] (Hf & Ht & Hc). cbn [fst snd]. destruct (eof s) eqn:Ee.
    + apply wp_bind. eapply wp_system; [exact system_loop|apply (shutdown_spec taken written); auto|].
      intros f' _ (Ht' & Hw' & _ & Hc'). cbn. split.
      * split; cbn; [rewrite Hw'; by eapply flow_eof|by rewrite Ht', Ht].
      * left. cbn. rewrite Hc', Hc by done. apply count_moves.
    + split; [split; cbn; [done|by rewrite Ht]|left]. cbn. rewrite Hc. apply count_moves.
Qed.

Lemma copy_rule4_ok : rule_ok CopyInv loop_fails (copy_rule4, fun _ => True).
Proof.
  split; cbn [fst snd copy_rule4 ru_cancel ru_interest ru_callback].
  - intros c [Ho Hi]. split; cbn; [done|by apply flow_end].
  - intros c _. by eexists.
  - intros c [Ho Hi] _. apply wp_bind. eapply wp_mono; [by apply drain_spec|].
    intros [f s] (Hf & Ht & Hc). cbn [fst snd]. destruct (eof s) eqn:Ee.
    + apply wp_bind. eapply wp_system; [exact system_loop|apply (close_spec taken written)|].
      intros f' _ (Ht' & Hw' & _ & Hc'). cbn. split.
      * split; cbn; [done|rewrite Hw'; by eapply flow_eof].
      * left. cbn. rewrite Hc', Hc. apply count_moves.
    + split; [by split|left]. cbn. rewrite Hc. apply count_moves.
Qed.

Definition copy_spec : list (Rule (CopyState K) * (CopyState K -> Prop)) :=
  [(copy_rule1, fun _ => True); (copy_rule2, fun _ => True);
   (copy_rule3, fun _ => True); (copy_rule4, fun _ => True)].

Lemma copy_spec_ok : Forall (rule_ok CopyInv loop_fails) copy_spec.
Proof.
  repeat (apply Forall_cons; split); [apply copy_rule1_ok|apply copy_rule2_ok|apply copy_rule3_ok
    |apply copy_rule4_ok|done].
Qed.

Lemma copy_spec_compatible : ForallOrdPairs (compatible CopyInv) copy_spec.
Proof. repeat constructor. Qed.

(** The kernel: waiting does not read or write for the program. *)
Definition copy_quiet c c' : Prop :=
  cp_outbound c' = cp_outbound c /\ cp_inbound c' = cp_inbound c /\
  cp_outbound_shutdown c' = cp_outbound_shutdown c /\ cp_inbound_shutdown c' = cp_inbound_shutdown c /\
  taken_of (cp_input c') = taken_of (cp_input c) /\ taken_of (cp_socket c') = taken_of (cp_socket c) /\
  written_of (cp_socket c') = written_of (cp_socket c) /\ written_of (cp_output c') = written_of (cp_output c).

Lemma copy_quiet_inv c c' : copy_quiet c c' -> CopyInv c -> CopyInv c'.
Proof. intros (E1 & E2 & E3 & E4 & E5 & E6 & E7 & E8) [Ho Hi]. split; congruence. Qed.

Class CopyEnvironment `{Poller (CopyState K)} := copy_poll pollfds t c r revents c' :
  sys_poll pollfds t c = (r, revents, c') ->
  copy_quiet c c' /\ returned r.

Context `{CopyEnvironment}.

Lemma copy_loop_spec n : forall spec c,
  spec `sublist_of` copy_spec -> CopyInv c ->
  wp loop_fails (copy_loop n (map fst spec) c) (fun '(_, _, c') => CopyInv c').
Proof.
  induction n as [|n IH]; intros spec c Hs HI; cbn [copy_loop]; [done|]. apply wp_bind. eapply wp_mono.
  { apply (wait_spec CopyInv loop_fails); [| | |exact HI].
    - eapply Forall_sublist; [exact Hs|apply copy_spec_ok].
    - eapply sublist_pairs; [exact Hs|apply copy_spec_compatible].
    - intros pollfds t c0 r revents c' HI0 E. destruct (copy_poll _ _ _ _ _ _ E) as (HI' & He).
      split_and!; [by eapply copy_quiet_inv| |intros _; exact polled_loop|done].
      eapply Forall_sublist; [exact Hs|by repeat constructor]. }
  intros [[result rules'] c'] (HI' & spec' & Hs' & ->).
  destruct result; [apply IH; [by etrans|done]..|done].
Qed.

Lemma copy_start_spec socket input output :
  (forall f, f = socket \/ f = input \/ f = output -> taken_of f = [] /\ written_of f = []) ->
  wp loop_fails (copy_start socket input output) CopyInv.
Proof.
  intros Hnew. unfold copy_start.
  apply wp_bind. eapply wp_system; [exact system_loop|apply (set_blocking_spec taken written)|].
  intros so _ (Hts & Hws & _).
  apply wp_bind. eapply wp_system; [exact system_loop|apply (set_blocking_spec taken written)|].
  intros i _ (Hti & Hwi & _).
  apply wp_bind. eapply wp_system; [exact system_loop|apply (set_blocking_spec taken written)|].
  intros o _ (Hto & Hwo & _).
  destruct (Hnew socket ltac:(auto)) as [E1 E2], (Hnew input ltac:(auto)) as [E3 E4],
    (Hnew output ltac:(auto)) as [E5 E6].
  split; cbn; rewrite ?Hts, ?Hws, ?Hti, ?Hwo, ?E1, ?E2, ?E3, ?E6; apply flow_start.
Qed.
End Copy.

(** C13.  The copy is faithful: after any number of passes of its loop, what has
    been written to the socket, followed by what the outbound stream still holds,
    is a prefix of what was read from the input, and all of it until the stream
    is ended; the same holds from the socket to the output.  The write side of
    the socket is only shut down, and the output only closed, when its stream is
    empty and ended.  The program only fails when a system call fails or [poll]
    reports an error on a descriptor: the event loop detects no busy wait, and
    nothing else is thrown. *)
Theorem copy_faithful {K} `{Kernel K} (taken written : K -> list byte) `{!KernelSpec K taken written}
    `{Poller (CopyState K)} `{!CopyEnvironment taken written} n (socket input output : File K) :
  (forall f, f = socket \/ f = input \/ f = output ->
     taken (f_kernel f) = [] /\ written (f_kernel f) = []) ->
  wp loop_fails (bidirectional_stream_copy n socket input output) (fun '(_, _, c) =>
    let sent := written (f_kernel (cp_socket c)) ++ bs_buffer (cp_outbound c) in
    let shown := written (f_kernel (cp_output c)) ++ bs_buffer (cp_inbound c) in
    sent `prefix_of` taken (f_kernel (cp_input c)) /\
    (input_ended (cp_outbound c) = false -> sent = taken (f_kernel (cp_input c))) /\
    (cp_outbound_shutdown c = true -> eof (cp_outbound c) = true) /\
    shown `prefix_of` taken (f_kernel (cp_socket c)) /\
    (input_ended (cp_inbound c) = false -> shown = taken (f_kernel (cp_socket c))) /\
    (cp_inbound_shutdown c = true -> eof (cp_inbound c) = true)).
Proof.
  intros Hnew. unfold bidirectional_stream_copy. apply wp_bind.
  eapply wp_mono; [by apply (copy_start_spec taken written)|]. intros c HI.
  eapply wp_mono; [by apply (copy_loop_spec taken written n (copy_spec (K := K)) c)|].
  intros [[b rules] c'] [Ho Hi].
  destruct (flow_prefix _ _ _ _ Ho), (flow_prefix _ _ _ _ Hi). cbv zeta.
  split_and!; [done|done|apply (fl_shut _ _ _ _ Ho)|done|done|apply (fl_shut _ _ _ _ Hi)].
Qed.

(** "ab" is typed, "xyz" arrives; every descriptor is always ready. *)
#[local] Instance copy_Poller : Poller (CopyState Pipe) := fun pollfds _ c =>
  (ok_ret 1, map (fun p => Z.land (pf_events p) (Z.lor POLLIN POLLOUT)) pollfds, c).
#[local] Instance copy_Environment : CopyEnvironment pipe_taken pipe_written.
Proof.
  intros pollfds t c r revents c' [= <- <- <-]. by split; [split_and!|].
Qed.

Definition pipe_file (fd : Z) (bytes : list (list byte)) : File Pipe :=
  mkFile (mkFD fd false false 0 0) (mkPipe (map (fun l => ([], l)) bytes) [] 2 []).

Lemma copy_faithful_witness :
  wp loop_fails
    (bidirectional_stream_copy 3 (pipe_file 3 [[x78; x79; x7a]]) (pipe_file 0 [[x61; x62]]) (pipe_file 1 []))
    (fun '(_, _, c) =>
      (pipe_written (f_kernel (cp_output c)) ++ bs_buffer (cp_inbound c))
        `prefix_of` pipe_taken (f_kernel (cp_socket c))).
Proof.
  eapply wp_mono.
  - apply (copy_faithful pipe_taken pipe_written 3 (pipe_file 3 [[x78; x79; x7a]]) (pipe_file 0 [[x61; x62]])
             (pipe_file 1 [])).
    intros f [->|[->| ->]]; split; reflexivity.
  - intros [[b rules] c] (_ & _ & _ & H & _). exact H.
Defined.

(** The same passes, run: everything is copied and the loop ends. *)
Example copy_runs :
  match bidirectional_stream_copy 5 (pipe_file 3 [[x78; x79; x7a]]) (pipe_file 0 [[x61; x62]]) (pipe_file 1 []) with
  | Ok (false, [_], c) => pipe_written (f_kernel (cp_socket c)) = [x61; x62] /\
                         pipe_written (f_kernel (cp_output c)) = [x78; x79; x7a] /\
                         cp_outbound_shutdown c = true /\ fd_closed (f_fd (cp_output c)) = true
  | _ => False
  end.
Proof. vm_compute. split_and!; reflexivity. Qed.
