(* ===== verification/Webget.v ===== *)
(** * Fetching a page

    Models [src/apps/webget.cc].  [get_URL] uses the owner's end of a connected
    [FullStackSocket], a stream socket: it sends the request, prints what arrives
    until the end of the stream, closes the descriptor and calls
    [wait_until_closed], which shuts the same descriptor down. *)

From Stdlib Require Import Strings.String.
From stdpp Require Import strings.
From S2P Require Import Prelude Buffers Parser Address FileDescriptor.

Definition EBADF : Z := 9.

(** A carriage return and a line feed. *)
Definition crlf : list byte := [x0d; x0a].

Definition request (host path : string) : list byte :=
  String.list_byte_of_string ("GET " +:+ path +:+ " HTTP/1.1") ++ crlf ++
  String.list_byte_of_string ("Host: " +:+ host) ++ crlf ++
  String.list_byte_of_string "Connection: close" ++ crlf ++ crlf.

Section Webget.
Context {K : Type} `{Kernel K}.

(** What the body of the [try] has printed, the socket, and the exception that
    ended it, if one did. *)
Definition outcome : Type := list byte * option (File K) * option exn.

(** The loop that reads; [None] when the fuel runs out.  An undefined operation
    would be [None] too; no path has one. *)
Fixpoint read_all (fuel : nat) (out : list byte) (f : File K) : option outcome :=
  match fuel with
  | O => None
  | S fuel' =>
      if fd_eof (f_fd f) then Some (out, Some f, None)
      else
        match fd_read SIZE_MAX f with
        | Ok (recvd, f) => read_all fuel' (out ++ recvd) f
        | Throw e => Some (out, Some f, Some e)
        | Undefined => None
        end
  end.

(** The body of the [try]; [socket] is the result of the construction and of
    [connect]. *)
Definition get_URL_body (fuel : nat) (host path : string) (socket : res (File K)) : option outcome :=
  match socket with
  | Throw e => Some ([], None, Some e)
  | Undefined => None
  | Ok f =>
      match fd_write [request host path] true f with
      | Throw e => Some ([], Some f, Some e)
      | Undefined => None
      | Ok (_, f) =>
          match read_all fuel [] f with
          | Some (recvd, Some f, None) =>
              match fd_close f with
              | Throw e => Some (recvd, Some f, Some e)
              | Undefined => None
              | Ok f =>
                  (* wait_until_closed() *)
                  match socket_shutdown SHUT_RDWR f with
                  | Throw e => Some (recvd, Some f, Some e)
                  | Undefined => None
                  | Ok f => Some (recvd, Some f, None)
                  end
              end
          | r => r
          end
      end
  end.

(** [get_URL]: what it printed, and whether it printed the warning that it is
    not implemented. *)
Definition get_URL (fuel : nat) (host path : string) (socket : res (File K)) : option (list byte * bool) :=
  match get_URL_body fuel host path socket with
  | Some (out, _, None) => Some (out, false)
  | Some (out, _, Some _) => Some (out, true)
  | None => None
  end.
End Webget.

(** The manual page of [shutdown]: on a closed descriptor it fails with [EBADF]. *)
Class KernelClosed (K : Type) `{Kernel K} := closed_shutdown how (k : K) r k' :
  sys_close k = (r, k') -> 0 <= rv r -> fst (sys_shutdown how k') = mkSys (-1) EBADF.

Section Correct.
Context {K : Type} `{Kernel K} (taken written : K -> list byte) `{!KernelSpec K taken written}.

Lemma read_all_spec fuel : forall out f out' f' e,
  read_all fuel out f = Some (out', Some f', e) ->
  taken (f_kernel f) = out -> taken (f_kernel f') = out' /\
  written (f_kernel f') = written (f_kernel f) /\ (e = None -> fd_eof (f_fd f') = true).
Proof.
  induction fuel as [|fuel IH]; intros out f out' f' e E Ht; [done|]. cbn [read_all] in E.
  destruct (fd_eof (f_fd f)) eqn:Ee; [by injection E as <- <- <-|].
  pose proof (fd_read_spec taken written SIZE_MAX f ltac:(done)) as Hs.
  destruct (fd_read SIZE_MAX f) as [[l f1]|x|]; [| |done].
  - destruct Hs as (_ & Ht1 & Hw1 & _). destruct (IH _ _ _ _ _ E) as (H1 & H2 & H3); [by rewrite Ht1, Ht|].
    split_and!; [done|by rewrite H2, Hw1|done].
  - injection E as <- <- <-. done.
Qed.

(** The loop keeps its socket. *)
Lemma read_all_file fuel : forall out f r,
  read_all fuel out f = Some r -> exists f', r.1.2 = Some f'.
Proof.
  induction fuel as [|fuel IH]; intros out f r E; [done|]. cbn [read_all] in E.
  destruct (fd_eof _); [injection E as <-; by eexists|].
  destruct (fd_read _ _) as [[l f1]|x|]; [by eapply IH|injection E as <-; by eexists|done].
Qed.
End Correct.

(** What a run that ends has done. *)
Lemma get_URL_body_spec {K} `{Kernel K} (taken written : K -> list byte)
    `{!KernelSpec K taken written} `{!KernelClosed K} fuel host path (f : File K) out s e :
  taken (f_kernel f) = [] -> written (f_kernel f) = [] ->
  get_URL_body fuel host path (Ok f) = Some (out, s, e) ->
  (exists f', s = Some f' /\ taken (f_kernel f') = out /\
     (out <> [] -> written (f_kernel f') = request host path)) /\
  get_URL fuel host path (Ok f) = Some (out, true).
Proof.
  intros Ht Hw E. unfold get_URL. rewrite E. unfold get_URL_body in E.
  pose proof (fd_write_cases taken written [request host path] true f) as Hs. cbn [concat] in Hs.
  rewrite app_nil_r in Hs.
  destruct (fd_write _ _ _) as [[n f1]|x|]; [| |done].
  2: { injection E as <- <- <-. split; [|done]. exists f. by rewrite Ht. }
  destruct Hs as (_ & Hall & Ht1 & Hw1 & _). rewrite Hall, Nat2Z.id, firstn_all, Hw in Hw1 by done.
  destruct (read_all fuel [] f1) as [[[o s1] e1]|] eqn:Er; [|done].
  destruct (read_all_file _ _ _ _ Er) as [f2 E2]. cbn in E2. subst s1.
  destruct (read_all_spec taken written _ _ _ _ _ _ Er) as (Ht2 & Hw2 & _); [congruence|].
  assert (Hend : forall f' : File K, taken (f_kernel f') = taken (f_kernel f2) ->
            written (f_kernel f') = written (f_kernel f2) ->
            exists f0, Some f' = Some f0 /\ taken (f_kernel f0) = o /\
              (o <> [] -> written (f_kernel f0) = request host path)).
  { intros f' H1 H2. exists f'. split_and!; [done|congruence|]. intros _. by rewrite H2, Hw2, Hw1. }
  destruct e1 as [x|]; [by injection E as <- <- <-; auto|].
  destruct (fd_close f2) as [f3|x|] eqn:Ec; [|by injection E as <- <- <-; auto|done].
  pose proof (close_spec taken written f2) as Hc. rewrite Ec in Hc. destruct Hc as (Hct & Hcw & _).
  assert (Hshut : exists c, socket_shutdown SHUT_RDWR f3 = Throw (unix_error c)).
  { unfold fd_close in Ec. destruct (sys_close (f_kernel f2)) as [r k] eqn:Ek.
    apply res_bind_ok in Ec as (m & Es & [= <-]).
    assert (Hr : 0 <= rv r).
    { destruct (close_quiet _ _ _ Ek) as (_ & _ & He). destruct (syscall_cases r He) as [[_ ?]|[c Ec]]; [done|congruence]. }
    pose proof (closed_shutdown SHUT_RDWR _ _ _ Ek Hr) as Hcs. unfold socket_shutdown. cbn [f_kernel].
    destruct (sys_shutdown _ k) as [r' k']. cbn in Hcs. subst r'. by eexists. }
  destruct Hshut as [c Hsh]. rewrite Hsh in E. injection E as <- <- <-. auto.
Qed.

(** The peer ends its stream, or reading fails, at one of the next [n] reads. *)
Fixpoint stream_ends {K} `{Kernel K} (n : nat) (k : K) : Prop :=
  match n with
  | O => False
  | S n' => let '(r, _, k') := sys_read BUFFER_SIZE k in rv r <= 0 \/ stream_ends n' k'
  end.

Lemma read_all_ends {K} `{Kernel K} (taken written : K -> list byte) `{!KernelSpec K taken written} n : forall fuel out (f : File K),
  stream_ends n (f_kernel f) -> (n < fuel)%nat -> exists r, read_all fuel out f = Some r.
Proof.
  induction n as [|n IH]; intros [|fuel] out f He Hf; [done|done|lia|]. cbn [read_all].
  destruct (fd_eof (f_fd f)) eqn:Ee; [by eexists|].
  pose proof (fd_read_spec taken written SIZE_MAX f ltac:(done)) as Hs.
  destruct (fd_read SIZE_MAX f) as [[l f1]|x|] eqn:Er; [|by eexists|done]. destruct Hs as (_ & Ht & _ & Heof).
  unfold fd_read in Er. change (Z.min BUFFER_SIZE SIZE_MAX) with BUFFER_SIZE in Er. cbn [stream_ends] in He.
  destruct (sys_read BUFFER_SIZE (f_kernel f)) as [[r st] k'] eqn:Ek.
  apply res_bind_ok in Er as (m & Es & Er). destruct (_ <? m); [done|]. injection Er as Hl <-.
  destruct He as [Hr|He]; [|apply IH; [done|lia]].
  destruct (syscall_cases r (read_returns _ _ _ _ _ Ek)) as [[Es' Hr0]|[c Es']]; [|congruence].
  assert (m = 0) by (rewrite Es in Es'; injection Es'; lia). subst m.
  destruct fuel as [|fuel]; [lia|]. cbn [read_all f_fd]. unfold register_read. cbn. by eexists.
Qed.


(** ** A socket that can be closed *)

Record Stream := mkStream { st_pipe : Pipe; st_closed : bool }.
Definition on_pipe {A} (r : A * Pipe) (s : Stream) : A * Stream := (r.1, mkStream r.2 (st_closed s)).

#[export] Instance Stream_Kernel : Kernel Stream := {
  sys_read n s := on_pipe (sys_read n (st_pipe s)) s;
  sys_writev bufs s := on_pipe (sys_writev bufs (st_pipe s)) s;
  sys_recvfrom n s := on_pipe (sys_recvfrom n (st_pipe s)) s;
  sys_sendmsg d bufs s := on_pipe (sys_sendmsg d bufs (st_pipe s)) s;
  sys_shutdown how s := (if st_closed s then mkSys (-1) EBADF else ok_ret 0, s);
  sys_close s := if st_closed s then (mkSys (-1) EBADF, s) else (ok_ret 0, mkStream (st_pipe s) true);
  sys_getfl s := on_pipe (sys_getfl (st_pipe s)) s;
  sys_setfl fl s := on_pipe (sys_setfl fl (st_pipe s)) s
}.

Definition stream_taken (s : Stream) : list byte := pipe_taken (st_pipe s).
Definition stream_written (s : Stream) : list byte := pipe_written (st_pipe s).

#[export] Instance Stream_Spec : KernelSpec Stream stream_taken stream_written.
Proof.
  destruct Pipe_Spec as [H1 H2 H3 H4 H5 H6 H7 H8]. unfold stream_taken, stream_written.
  split; cbn [Stream_Kernel FileDescriptor.sys_read FileDescriptor.sys_writev FileDescriptor.sys_shutdown
    FileDescriptor.sys_close FileDescriptor.sys_getfl FileDescriptor.sys_setfl]; unfold on_pipe.
  - intros n s r l s' Hn E Hr. destruct (sys_read n (st_pipe s)) as [[r0 l0] k0] eqn:E0.
    injection E as <- <- <-. by apply (H1 n _ _ _ _ Hn E0).
  - intros n s r l s' E. destruct (sys_read n (st_pipe s)) as [[r0 l0] k0] eqn:E0.
    injection E as <- <- <-. by apply (H2 _ _ _ _ _ E0).
  - intros bufs s r s' E. destruct (sys_writev bufs (st_pipe s)) as [r0 k0] eqn:E0.
    injection E as <- <-. by apply (H3 _ _ _ _ E0).
  - intros bufs s r s' E. destruct (sys_writev bufs (st_pipe s)) as [r0 k0] eqn:E0.
    injection E as <- <-. by apply (H4 _ _ _ _ E0).
  - intros how s r s' [= <- <-]. split_and!; [done..|]. by destruct (st_closed s).
  - intros s r s'. destruct (st_closed s); intros [= <- <-]; by split_and!.
  - intros s r s' [= <- <-]. by split_and!.
  - intros fl s r s' [= <- <-]. by split_and!.
Qed.

#[export] Instance Stream_Closed : KernelClosed Stream.
Proof.
  intros how s r s'. cbn. destruct (st_closed s); intros [= <- <-]; cbn; [lia|done].
Qed.

Definition example_stream : File Stream :=
  mkFile (mkFD 3 false false 0 0) (mkStream (mkPipe [([], [x68; x69]); ([], [x21])] [] 10 []) false).

