(* ===== verification/Ethernet.v ===== *)
(** * Ethernet frames and ARP messages

    Models [src/libsponge/tcp_helpers/ethernet_header.hh], [.cc],
    [ethernet_frame.hh], [.cc] and [arp_message.hh], [.cc] (the printing
    functions excepted).  Frames and ARP messages survive serialization and
    parsing; [EthernetFrame::parse] never reports an error. *)

From S2P Require Import Prelude Buffers Parser.

(** [std::array<uint8_t, 6>]. *)
Abbreviation EthernetAddress := (list byte).
Definition ETHERNET_BROADCAST : EthernetAddress := [xff; xff; xff; xff; xff; xff].
Definition zero_ethernet : EthernetAddress := [x00; x00; x00; x00; x00; x00].

(** [random_private_ethernet_address] from six random bytes: the first one is made
    that of a private (locally administered, unicast) address. *)
Definition random_private_ethernet_address (random : list byte) : EthernetAddress :=
  match random with
  | b :: rest => byte_of (Z.land (Z.lor (byte_val b) 0x02) 0xfe) :: rest
  | [] => []
  end.

Record EthernetHeader := mkEthernetHeader {
  eth_dst : EthernetAddress;
  eth_src : EthernetAddress;
  eth_type : Z
}.

Definition ETH_LENGTH : Z := 14.
Definition TYPE_IPv4 : Z := 0x800.
Definition TYPE_ARP : Z := 0x806.
Definition EthernetHeader_default : EthernetHeader := mkEthernetHeader zero_ethernet zero_ethernet 0.

(** [for (auto &byte : a) byte = p.u8()] over an array of [n] bytes. *)
Fixpoint read_bytes (n : nat) : parser (list byte) :=
  match n with
  | O => pret []
  | S n' => let! b := pu8 in let! rest := read_bytes n' in pret (byte_of b :: rest)
  end.

(** [for (auto &byte : a) NetUnparser::u8(ret, byte)]. *)
Definition write_bytes (ret : list byte) (a : list byte) : list byte :=
  fold_left (fun ret b => un_u8 ret (byte_val b)) a ret.

Definition EthernetHeader_parse (h0 : EthernetHeader) : parser (ParseResult * EthernetHeader) :=
  let! b := buffer in
  if buf_size b <? ETH_LENGTH then pret (PacketTooShort, h0)
  else
    let! dst := read_bytes 6 in
    let! src := read_bytes 6 in
    let! type := pu16 in
    let! e := get_error in
    pret (e, mkEthernetHeader dst src type).

Definition EthernetHeader_serialize (h : EthernetHeader) : list byte :=
  let ret := [] in
  let ret := write_bytes ret (eth_dst h) in
  let ret := write_bytes ret (eth_src h) in
  un_u16 ret (eth_type h).

Record EthernetFrame := mkEthernetFrame { fr_header : EthernetHeader; fr_payload : BufferList }.
Definition EthernetFrame_default : EthernetFrame := mkEthernetFrame EthernetHeader_default [].

Definition EthernetFrame_parse (f0 : EthernetFrame) (buf : Buffer) : res (ParseResult * EthernetFrame) :=
  r ← (let! rh := EthernetHeader_parse (fr_header f0) in
       let! b := buffer in
       let! e := get_error in
       pret (e, mkEthernetFrame (snd rh) [b])) (NetParser_new buf);
  Ok (fst r).

Definition EthernetFrame_serialize (f : EthernetFrame) : BufferList :=
  append (append [] [Buffer_of (EthernetHeader_serialize (fr_header f))]) (fr_payload f).

(** ** ARP *)

Record ARPMessage := mkARPMessage {
  hardware_type : Z; protocol_type : Z; hardware_address_size : Z; protocol_address_size : Z;
  opcode : Z;
  sender_ethernet_address : EthernetAddress; sender_ip_address : Z;
  target_ethernet_address : EthernetAddress; target_ip_address : Z
}.

Definition ARP_LENGTH : Z := 28.
Definition TYPE_ETHERNET : Z := 1.
Definition OPCODE_REQUEST : Z := 1.
Definition OPCODE_REPLY : Z := 2.

(** An [ARPMessage] with default member values and the fields users set. *)
Definition arp_message (op : Z) (se : EthernetAddress) (sip : Z) (te : EthernetAddress) (tip : Z)
  : ARPMessage := mkARPMessage TYPE_ETHERNET TYPE_IPv4 6 4 op se sip te tip.
Definition ARPMessage_default : ARPMessage := arp_message 0 zero_ethernet 0 zero_ethernet 0.

Definition supported (m : ARPMessage) : bool :=
  (hardware_type m =? TYPE_ETHERNET) && (protocol_type m =? TYPE_IPv4) &&
  (hardware_address_size m =? 6) && (protocol_address_size m =? 4) &&
  ((opcode m =? OPCODE_REQUEST) || (opcode m =? OPCODE_REPLY)).

(** The body of [ARPMessage::parse] on the object [m0], and [parse] itself. *)
Definition arp_parser (m0 : ARPMessage) : parser (ParseResult * ARPMessage) :=
  let! b := buffer in
  if buf_size b <? ARP_LENGTH then pret (PacketTooShort, m0)
  else
    let! ht := pu16 in
    let! pt := pu16 in
    let! hs := pu8 in
    let! ps := pu8 in
    let! op := pu16 in
    let m := mkARPMessage ht pt hs ps op (sender_ethernet_address m0) (sender_ip_address m0)
               (target_ethernet_address m0) (target_ip_address m0) in
    if negb (supported m) then pret (Unsupported, m)
    else
      let! se := read_bytes 6 in
      let! sip := pu32 in
      let! te := read_bytes 6 in
      let! tip := pu32 in
      let! e := get_error in
      pret (e, mkARPMessage ht pt hs ps op se sip te tip).

Definition ARPMessage_parse (m0 : ARPMessage) (buf : Buffer) : res (ParseResult * ARPMessage) :=
  r ← arp_parser m0 (NetParser_new buf); Ok (fst r).

Definition ARPMessage_serialize (m : ARPMessage) : res (list byte) :=
  if negb (supported m) then Throw runtime_error
  else
    let ret := [] in
    let ret := un_u16 ret (hardware_type m) in
    let ret := un_u16 ret (protocol_type m) in
    let ret := un_u8 ret (hardware_address_size m) in
    let ret := un_u8 ret (protocol_address_size m) in
    let ret := un_u16 ret (opcode m) in
    let ret := write_bytes ret (sender_ethernet_address m) in
    let ret := un_u32 ret (sender_ip_address m) in
    let ret := write_bytes ret (target_ethernet_address m) in
    Ok (un_u32 ret (target_ip_address m)).

(** ** Definedness *)

Lemma pdefined_read_bytes n : pdefined (read_bytes n).
Proof. induction n; cbn [read_bytes]; unfold pu8; pdefined_cases. done. Qed.

Lemma EthernetFrame_parse_defined f0 buf : defined (EthernetFrame_parse f0 buf).
Proof.
  unfold EthernetFrame_parse, EthernetHeader_parse, pu16. apply defined_bind; [|done].
  match goal with |- defined (?m _) => assert (Hm : pdefined m); [|apply Hm] end.
  pdefined_cases; apply pdefined_read_bytes.
Qed.
Lemma ARPMessage_parse_defined m0 buf : defined (ARPMessage_parse m0 buf).
Proof.
  unfold ARPMessage_parse, arp_parser, pu8, pu16, pu32. apply defined_bind; [|done].
  match goal with |- defined (?m _) => assert (Hm : pdefined m); [|apply Hm] end.
  pdefined_cases; apply pdefined_read_bytes.
Qed.
Lemma ARPMessage_serialize_defined m : defined (ARPMessage_serialize m).
Proof. unfold ARPMessage_serialize. by destruct (negb _). Qed.
#[export] Hint Resolve EthernetFrame_parse_defined ARPMessage_parse_defined ARPMessage_serialize_defined : sponge.

(** ** Lemmas *)

Lemma write_bytes_eq a : forall ret, write_bytes ret a = ret ++ a.
Proof.
  unfold write_bytes. induction a as [|b a IH]; intros ret; cbn [fold_left]; [by rewrite app_nil_r|].
  rewrite IH. unfold un_u8. rewrite unparse_eq, <- app_assoc. cbn [be_bytes app].
  change (256 ^ Z.of_nat 0) with 1. by rewrite Z.div_1_r, byte_of_val.
Qed.

Lemma be_bytes_byte b : be_bytes 1 (byte_val b) = [b].
Proof. cbn [be_bytes]. change (256 ^ Z.of_nat 0) with 1. by rewrite Z.div_1_r, byte_of_val. Qed.

Lemma parses_read_bytes a : forall l, parses (read_bytes (length a)) (a ++ l) a l.
Proof.
  induction a as [|b a IH]; intros l; cbn [read_bytes length]; [apply parses_ret|].
  change ((b :: a) ++ l) with ([b] ++ (a ++ l)). rewrite <- (be_bytes_byte b).
  eapply parses_bind; [apply parses_be; [lia|apply byte_val_range]|]. cbv beta.
  eapply parses_bind; [apply IH|]. cbv beta. rewrite byte_of_val. apply parses_ret.
Qed.

Lemma parses_six a l : length a = 6%nat -> parses (read_bytes 6) (a ++ l) a l.
Proof. intros <-. apply parses_read_bytes. Qed.

Definition eth_wf (h : EthernetHeader) : Prop :=
  length (eth_dst h) = 6%nat /\ length (eth_src h) = 6%nat /\ is_u16 (eth_type h).

Lemma eth_serialize_eq h :
  EthernetHeader_serialize h = eth_dst h ++ eth_src h ++ be_bytes 2 (eth_type h).
Proof.
  unfold EthernetHeader_serialize, un_u16. rewrite !write_bytes_eq, unparse_eq. by rewrite <- app_assoc.
Qed.

Lemma eth_parses h0 h pl :
  eth_wf h -> parses (EthernetHeader_parse h0) (EthernetHeader_serialize h ++ pl) (NoError, h) pl.
Proof.
  intros (Hd & Hs & Ht). rewrite eth_serialize_eq. unfold EthernetHeader_parse.
  apply parses_buffer. intros b Hb Es.
  rewrite (proj2 (Z.ltb_ge _ _)).
  2: { unfold buf_size, ETH_LENGTH. rewrite Es, !length_app, length_be_bytes. lia. }
  rewrite <- !app_assoc.
  eapply parses_bind; [by apply parses_six|]. eapply parses_bind; [by apply parses_six|].
  parse_field. eapply parses_bind; [apply parses_get_error|]. destruct h. apply parses_ret.
Qed.

Lemma total_read_bytes n : total (read_bytes n).
Proof. induction n; cbn [read_bytes]; reader_tac; done. Qed.

(** With at least the header's bytes left, reading the header sets no error. *)
Lemma ARPMessage_parse_total m0 buf : buf_ok buf -> exists r m, ARPMessage_parse m0 buf = Ok (r, m).
Proof.
  intros Hb. unfold ARPMessage_parse. assert (Hm : total (arp_parser m0)).
  { unfold arp_parser, pu8, pu16, pu32. total_cases; first [apply total_read_bytes|idtac]; total_cases. }
  destruct (Hm (NetParser_new buf) Hb) as ([r m] & p & E & _). rewrite E. by exists r, m.
Qed.

Lemma total_EthernetHeader h0 : total (EthernetHeader_parse h0).
Proof.
  unfold EthernetHeader_parse, pu16. apply total_bind; [apply total_buffer|].
  intros b. apply total_if; [apply total_ret|]. apply total_bind; [apply total_read_bytes|]. intros d.
  apply total_bind; [apply total_read_bytes|]. intros sr. apply total_bind; [apply total_parse_int|]. intros ty.
  apply total_bind; [apply total_get_error|]. intros e. apply total_ret.
Qed.

(** Parsing a frame returns, with a payload in one buffer. *)
Lemma EthernetFrame_parse_total f0 buf :
  buf_ok buf -> exists r h b, EthernetFrame_parse f0 buf = Ok (r, mkEthernetFrame h [b]) /\ buf_ok b.
Proof.
  intros Hb. destruct (total_EthernetHeader (fr_header f0) (NetParser_new buf) Hb) as ([r h] & p & E & Hp).
  unfold EthernetFrame_parse, pbind. rewrite E. by eexists _, h, (np_buffer p).
Qed.

Lemma eth_parse_no_error h0 p l :
  view p l NoError -> exists r p', EthernetHeader_parse h0 p = Ok (r, p') /\ np_error p' = NoError.
Proof.
  intros Hp. destruct (Z.lt_ge_cases (zlen l) ETH_LENGTH) as [Hlt|Hge].
  - unfold EthernetHeader_parse, pbind, buffer, buf_size. rewrite (view_str _ _ _ Hp).
    rewrite (proj2 (Z.ltb_lt _ _) Hlt). eexists _, p. split; [done|apply Hp].
  - unfold ETH_LENGTH in *. set (d := take 6 l). set (s := take 6 (drop 6 l)).
    set (t := be_val (take 2 (drop 12 l))).
    assert (Hl : l = EthernetHeader_serialize (mkEthernetHeader d s t) ++ drop 14 l).
    { rewrite eth_serialize_eq. cbn [eth_dst eth_src eth_type].
      assert (Et : be_bytes 2 t = take 2 (drop 12 l)).
      { subst t. apply be_bytes_val. rewrite length_take, length_drop. lia. }
      rewrite Et, <- !app_assoc. subst d s.
      rewrite <- (take_drop 6 l) at 1. f_equal. rewrite <- (take_drop 6 (drop 6 l)) at 1. f_equal.
      rewrite drop_drop. rewrite <- (take_drop 2 (drop (6 + 6) l)) at 1. f_equal. by rewrite drop_drop. }
    assert (Hw : eth_wf (mkEthernetHeader d s t)).
    { subst d s t. unfold eth_wf. cbn [eth_dst eth_src eth_type]. rewrite !length_take, length_drop.
      pose proof (be_val_range (take 2 (drop 12 l))) as Hr.
      rewrite length_take, length_drop, Nat.min_l in Hr by lia. split_and!; [lia|lia|exact Hr]. }
    rewrite Hl in Hp. destruct (eth_parses h0 _ _ Hw p Hp) as (p' & E & Hp').
    eexists _, p'. split; [exact E|apply Hp'].
Qed.

(** Ethernet frames: parsing the concatenated bytes of a serialized frame
    gives back its header and payload; and [EthernetFrame::parse] returns
    [NoError] on every input, also on one too short to hold a header. *)
Theorem frame_roundtrip f0 f l :
  eth_wf (fr_header f) -> zlen (concatenate (EthernetFrame_serialize f)) < 2 ^ 63 -> zlen l < 2 ^ 63 ->
  (exists f', EthernetFrame_parse f0 (Buffer_of (concatenate (EthernetFrame_serialize f))) = Ok (NoError, f') /\
     fr_header f' = fr_header f /\ concatenate (fr_payload f') = concatenate (fr_payload f)) /\
  (exists f', EthernetFrame_parse f0 (Buffer_of l) = Ok (NoError, f')).
Proof.
  intros Hw Hsz Hl. split.
  - assert (E : concatenate (EthernetFrame_serialize f) =
                EthernetHeader_serialize (fr_header f) ++ concatenate (fr_payload f)).
    { unfold EthernetFrame_serialize. rewrite !append_app, !concatenate_app. cbn [app].
      change (concatenate [Buffer_of ?x]) with (str (Buffer_of x)). by rewrite str_of. }
    rewrite E in *.
    destruct (eth_parses (fr_header f0) _ (concatenate (fr_payload f)) Hw _ (view_new _ Hsz)) as (p & Ep & Hp).
    unfold EthernetFrame_parse, pbind. rewrite Ep. unfold buffer, get_error, pret. cbn [mbind res_bind fst snd].
    eexists. split; [by rewrite (view_err _ _ _ Hp)|]. cbn. split; [done|]. apply Hp.
  - destruct (eth_parse_no_error (fr_header f0) _ _ (view_new _ Hl)) as (r & p & Ep & He).
    unfold EthernetFrame_parse, pbind. rewrite Ep. unfold buffer, get_error, pret. cbn [mbind res_bind fst].
    rewrite He. by eexists.
Qed.

Lemma frame_roundtrip_witness :
  exists f', EthernetFrame_parse EthernetFrame_default (Buffer_of [x01; x02]) = Ok (NoError, f').
Proof.
  apply (frame_roundtrip EthernetFrame_default EthernetFrame_default [x01; x02]);
    [unfold eth_wf; cbn; word_lia|apply Z.ltb_lt; vm_compute; reflexivity|cbn; lia].
Defined.

(** ** ARP messages *)

Definition arp_wf (m : ARPMessage) : Prop :=
  length (sender_ethernet_address m) = 6%nat /\ length (target_ethernet_address m) = 6%nat /\
  is_u32 (sender_ip_address m) /\ is_u32 (target_ip_address m).

Definition arp_bytes (m : ARPMessage) : list byte :=
  be_bytes 2 (hardware_type m) ++ be_bytes 2 (protocol_type m) ++ be_bytes 1 (hardware_address_size m) ++
  be_bytes 1 (protocol_address_size m) ++ be_bytes 2 (opcode m) ++
  sender_ethernet_address m ++ be_bytes 4 (sender_ip_address m) ++
  target_ethernet_address m ++ be_bytes 4 (target_ip_address m).

Lemma supported_spec m :
  supported m = true ->
  hardware_type m = 1 /\ protocol_type m = 0x800 /\ hardware_address_size m = 6 /\
  protocol_address_size m = 4 /\ (opcode m = 1 \/ opcode m = 2).
Proof.
  unfold supported, TYPE_ETHERNET, TYPE_IPv4, OPCODE_REQUEST, OPCODE_REPLY.
  rewrite !andb_true_iff, orb_true_iff, !Z.eqb_eq. intuition.
Qed.

Lemma arp_serialize_eq m : supported m = true -> ARPMessage_serialize m = Ok (arp_bytes m).
Proof.
  intros E. unfold ARPMessage_serialize. rewrite E. cbn [negb]. unfold un_u8, un_u16, un_u32.
  rewrite !write_bytes_eq, !unparse_eq.
  unfold arp_bytes. by rewrite <- !app_assoc.
Qed.

Lemma length_arp_bytes m : arp_wf m -> length (arp_bytes m) = 28%nat.
Proof.
  intros (H1 & H2 & _). unfold arp_bytes. rewrite !length_app, !length_be_bytes. lia.
Qed.

Lemma arp_parse_ok m0 m rest :
  arp_wf m -> supported m = true -> zlen rest < 2 ^ 62 ->
  ARPMessage_parse m0 (Buffer_of (arp_bytes m ++ rest)) = Ok (NoError, m).
Proof.
  intros Hw E Hr. pose proof (length_arp_bytes m Hw) as Hlen.
  pose proof (supported_spec m E) as (E1 & E2 & E3 & E4 & E5). destruct Hw as (H1 & H2 & H3 & H4).
  assert (Hp : parses (arp_parser m0) (arp_bytes m ++ rest) (NoError, m) rest).
  { apply parses_buffer. intros b Hb Es. rewrite (proj2 (Z.ltb_ge _ _)).
    2: { unfold buf_size, ARP_LENGTH. rewrite Es, length_app. lia. }
    unfold arp_bytes. rewrite <- !app_assoc.
    do 5 parse_field. cbv zeta.
    assert (Es' : supported (mkARPMessage (hardware_type m) (protocol_type m) (hardware_address_size m)
      (protocol_address_size m) (opcode m) (sender_ethernet_address m0) (sender_ip_address m0)
      (target_ethernet_address m0) (target_ip_address m0)) = true) by exact E.
    rewrite Es'. cbn [negb].
    eapply parses_bind; [by apply parses_six|]. parse_field.
    eapply parses_bind; [by apply parses_six|]. parse_field.
    eapply parses_bind; [apply parses_get_error|]. destruct m. apply parses_ret. }
  assert (Hsz : zlen (arp_bytes m ++ rest) < 2 ^ 63) by (rewrite length_app; lia).
  destruct (Hp _ (view_new _ Hsz)) as (p & Ep & _).
  unfold ARPMessage_parse. by rewrite Ep.
Qed.

(** ARP messages: a supported message is serialized to 28 bytes from which
    [parse] reads exactly that message back, whatever follows; an unsupported
    one makes [serialize] throw. *)
Theorem arp_roundtrip m0 m rest :
  arp_wf m -> zlen rest < 2 ^ 62 ->
  if supported m then
    exists s, ARPMessage_serialize m = Ok s /\ zlen s = ARP_LENGTH /\
      ARPMessage_parse m0 (Buffer_of (s ++ rest)) = Ok (NoError, m)
  else ARPMessage_serialize m = Throw runtime_error.
Proof.
  intros Hw Hr. destruct (supported m) eqn:E.
  - exists (arp_bytes m). split_and!; [by apply arp_serialize_eq| |by apply arp_parse_ok].
    by rewrite length_arp_bytes.
  - unfold ARPMessage_serialize. by rewrite E.
Qed.

Lemma arp_roundtrip_witness :
  exists s, ARPMessage_serialize (arp_message 2 zero_ethernet 7 ETHERNET_BROADCAST 9) = Ok s /\
    zlen s = ARP_LENGTH /\
    ARPMessage_parse ARPMessage_default (Buffer_of (s ++ [x00]))
      = Ok (NoError, arp_message 2 zero_ethernet 7 ETHERNET_BROADCAST 9).
Proof.
  apply (arp_roundtrip ARPMessage_default (arp_message 2 zero_ethernet 7 ETHERNET_BROADCAST 9) [x00]);
    [unfold arp_wf; cbn; word_lia|cbn; lia].
Defined.
