(* ===== verification/Summaries.v ===== *)
(** * Textual summaries

    Models the functions that print: [to_string] and [summary] of [TCPHeader]
    ([src/libsponge/tcp_helpers/tcp_header.cc]) and [IPv4Header]
    ([ipv4_header.cc]), [to_string] of Ethernet addresses, [EthernetHeader]
    ([ethernet_header.cc]) and [ARPMessage] ([arp_message.cc]), the frame summaries
    of [src/apps/network_simulator.cc] and [lab7.cc], and the packet monitor
    [src/apps/tun.cc].  The text of a header determines the header. *)

From Stdlib Require Import Strings.String.
From S2P Require Import Prelude WrappingIntegers Buffers Parser Checksum TCPSegment IPv4 Text Address FileDescriptor.
From S2P Require Import Ethernet.

Open Scope Z_scope.

(** [inet_ntoa] of the address with number [ip]. *)
Definition inet_ntoa (ip : Z) : list byte :=
  dec (u8 (Z.shiftr ip 24)) ++ txt "." ++ dec (u8 (Z.shiftr ip 16)) ++ txt "." ++
  dec (u8 (Z.shiftr ip 8)) ++ txt "." ++ dec (u8 ip).

(** ** Socket addresses *)

(** The name [getnameinfo] prints under [NI_NUMERICHOST]. *)
Class NameInfo := getnameinfo_host : Address -> res (list byte).

Definition ip_port `{Resolver} `{NameInfo} (a : Address) : res (list byte * Z) :=
  ip ← getnameinfo_host a;
  p ← port a;
  Ok (ip, p).

Definition Address_to_string `{Resolver} `{NameInfo} (a : Address) : res (list byte) :=
  ip_and_port ← ip_port a;
  Ok (fst ip_and_port ++ txt ":" ++ dec (snd ip_and_port)).

(** ** TCP and IPv4 headers *)

Definition TCPHeader_items (h : TCPHeader) : list item :=
  [Str "TCP source port: "; Num (sport h); Endl;
   Str "TCP dest port: "; Num (dport h); Endl;
   Str "TCP seqno: "; Num (raw_value (seqno h)); Endl;
   Str "TCP ackno: "; Num (raw_value (ackno h)); Endl;
   Str "TCP doff: "; Num (doff h); Endl;
   Str "Flags: urg: "; Flag (urg h); Str " ack: "; Flag (ack h); Str " psh: "; Flag (psh h);
   Str " rst: "; Flag (rst h); Str " syn: "; Flag (syn h); Str " fin: "; Flag (fin h); Endl;
   Str "TCP winsize: "; Num (win h); Endl;
   Str "TCP cksum: "; Num (cksum h); Endl;
   Str "TCP uptr: "; Num (uptr h); Endl].
Definition TCPHeader_to_string (h : TCPHeader) : list byte := render (Hex :: Boolalpha :: TCPHeader_items h).

Definition TCPHeader_summary (h : TCPHeader) : list byte :=
  render [Str "Header(flags="; Str (if syn h then "S" else ""); Str (if ack h then "A" else "");
          Str (if rst h then "R" else ""); Str (if fin h then "F" else "");
          Str ",seqno="; Num (raw_value (seqno h)); Str ",ack="; Num (raw_value (ackno h));
          Str ",win="; Num (win h); Str ")"].

Definition IPv4Header_items (h : IPv4Header) : list item :=
  [Str "IP version: "; Num (ip_ver h); Endl;
   Str "IP hdr len: "; Num (ip_hlen h); Endl;
   Str "IP tos: "; Num (ip_tos h); Endl;
   Str "IP dgram len: "; Num (ip_len h); Endl;
   Str "IP id: "; Num (ip_id h); Endl;
   Str "Flags: df: "; Flag (ip_df h); Str " mf: "; Flag (ip_mf h); Endl;
   Str "Offset: "; Num (ip_offset h); Endl;
   Str "TTL: "; Num (ip_ttl h); Endl;
   Str "Protocol: "; Num (ip_proto h); Endl;
   Str "Checksum: "; Num (ip_cksum h); Endl;
   Str "Src addr: "; Num (ip_src h); Endl;
   Str "Dst addr: "; Num (ip_dst h); Endl].
Definition IPv4Header_to_string (h : IPv4Header) : list byte := render (Hex :: Boolalpha :: IPv4Header_items h).

Definition IPv4Header_summary (h : IPv4Header) : list byte :=
  render [Hex; Boolalpha; Str "IPv"; Num (ip_ver h); Str ", "; Str "len="; Num (ip_len h); Str ", ";
          Str "protocol="; Num (ip_proto h); Str ", ";
          Bytes (if 10 <=? ip_ttl h then [] else txt "ttl=" ++ dec (ip_ttl h) ++ txt ", ");
          Str "src="; Bytes (inet_ntoa (ip_src h)); Str ", "; Str "dst="; Bytes (inet_ntoa (ip_dst h))].

(** ** Ethernet and ARP *)

Fixpoint EthernetAddress_loop (address : list byte) (ss : ostream) : ostream :=
  match address with
  | [] => ss
  | b :: rest =>
      let ss := ss << [Setw 2; Setfill x30; Hex; Num (byte_val b)] in
      let ss := match rest with [] => ss | _ => ss << [Str ":"] end in
      EthernetAddress_loop rest ss
  end.
Definition EthernetAddress_to_string (address : EthernetAddress) : list byte :=
  os_text (EthernetAddress_loop address os_new).

Definition EthernetHeader_to_string (h : EthernetHeader) : list byte :=
  let ss := os_new << [Str "dst="; Bytes (EthernetAddress_to_string (eth_dst h))] in
  let ss := ss << [Str ", src="; Bytes (EthernetAddress_to_string (eth_src h))] in
  let ss := ss << [Str ", type="] in
  os_text (if eth_type h =? TYPE_IPv4 then ss << [Str "IPv4"]
           else if eth_type h =? TYPE_ARP then ss << [Str "ARP"]
           else ss << [Str "[unknown type "; Hex; Num (eth_type h); Str "!]"]).

Definition ARPMessage_to_string (m : ARPMessage) : list byte :=
  let opcode_str := "(unknown type)"%string in
  let opcode_str := if opcode m =? OPCODE_REQUEST then "REQUEST"%string else opcode_str in
  let opcode_str := if opcode m =? OPCODE_REPLY then "REPLY"%string else opcode_str in
  render [Str "opcode="; Str opcode_str; Str ", sender=";
          Bytes (EthernetAddress_to_string (sender_ethernet_address m)); Str "/";
          Bytes (inet_ntoa (sender_ip_address m)); Str ", target=";
          Bytes (EthernetAddress_to_string (target_ethernet_address m)); Str "/";
          Bytes (inet_ntoa (target_ip_address m))].

(** ** Frames *)

(** The part both summaries share. *)
Definition arp_summary (frame : EthernetFrame) : res (list byte) :=
  b ← to_Buffer (fr_payload frame);
  r ← ARPMessage_parse ARPMessage_default b;
  Ok (if bool_decide (fst r = NoError) then txt " " ++ ARPMessage_to_string (snd r) else txt " (bad ARP)").

(** [summary] of the network simulator. *)
Definition simulator_summary (frame : EthernetFrame) : res (list byte) :=
  let ret := EthernetHeader_to_string (fr_header frame) in
  if eth_type (fr_header frame) =? TYPE_IPv4 then
    b ← to_Buffer (fr_payload frame);
    r ← IPv4Datagram_parse IPv4Datagram_default b;
    let dgram := snd r in
    if bool_decide (fst r = NoError) then
      let ret := ret ++ txt " " ++ IPv4Header_summary (ip_header dgram) in
      Ok (ret ++ txt " payload=" ++ [x22] ++ concatenate (ip_payload dgram) ++ [x22])
    else Ok (ret ++ txt " (bad IPv4)")
  else if eth_type (fr_header frame) =? TYPE_ARP then
    s ← arp_summary frame; Ok (ret ++ s)
  else Ok ret.

(** [summary] of lab7. *)
Definition lab7_summary (frame : EthernetFrame) : res (list byte) :=
  let ret := EthernetHeader_to_string (fr_header frame) in
  if eth_type (fr_header frame) =? TYPE_IPv4 then
    r ← IPv4Datagram_parse IPv4Datagram_default (Buffer_of (concatenate (fr_payload frame)));
    let dgram := snd r in
    if bool_decide (fst r = NoError) then
      let ret := ret ++ txt " " ++ IPv4Header_summary (ip_header dgram) in
      if ip_proto (ip_header dgram) =? PROTO_TCP then
        t ← TCPSegment_parse TCPSegment_default (Buffer_of (concatenate (ip_payload dgram)))
              (pseudo_cksum (ip_header dgram));
        Ok (if bool_decide (fst t = NoError) then ret ++ txt " " ++ TCPHeader_summary (header (snd t)) else ret)
      else Ok ret
    else Ok (ret ++ txt " (bad IPv4)")
  else if eth_type (fr_header frame) =? TYPE_ARP then
    s ← arp_summary frame; Ok (ret ++ s)
  else Ok ret.

(** ** The packet monitor *)

Section Monitor.
Context {K : Type} `{Kernel K}.

(** One round of the loop of [main]. *)
Definition monitor_round (tun : File K) (cout : ostream) : res (File K * ostream) :=
  r ← fd_read SIZE_MAX tun;
  let '(buffer, tun) := r in
  let cout := cout << [Endl; Endl; Str "***"; Endl; Str "*** Got packet:"; Endl; Str "***"; Endl] in
  cout ← hexdump buffer 0 cout;
  let cout := cout << [Str "attempting to parse as ipv4 datagram... "] in
  r ← IPv4Datagram_parse IPv4Datagram_default (Buffer_of buffer);
  let '(result, ip_dgram) := r in
  if negb (bool_decide (result = NoError)) then Ok (tun, cout << [Str "failed."; Endl])
  else
    let h := ip_header ip_dgram in
    let cout := cout << [Str "success! totlen="; Num (ip_len h); Str ", IPv4 header contents:"; Endl;
                         Bytes (IPv4Header_to_string h)] in
    if negb (ip_proto h =? PROTO_TCP) then Ok (tun, cout << [Endl; Str "Not TCP, skipping."; Endl])
    else
      let cout := cout << [Endl; Str "Attempting to parse as a TCP segment... "] in
      b ← to_Buffer (ip_payload ip_dgram);
      r ← TCPSegment_parse TCPSegment_default b (pseudo_cksum h);
      let '(result, tcp_seg) := r in
      if negb (bool_decide (result = NoError)) then Ok (tun, cout << [Str "failed."; Endl])
      else
        Ok (tun, cout << [Str "success! payload len="; Num (buf_size (payload tcp_seg));
                          Str ", TCP header contents:"; Endl;
                          Bytes (TCPHeader_to_string (header tcp_seg)); Endl]).

Fixpoint monitor (n : nat) (tun : File K) (cout : ostream) : res (File K * ostream) :=
  match n with
  | O => Ok (tun, cout)
  | S n' => r ← monitor_round tun cout; let '(tun, cout) := r in monitor n' tun cout
  end.
End Monitor.

(** ** The text of a header determines it *)

Lemma TCPHeader_items_readable h : header_typed h -> readable (TCPHeader_items h) = true.
Proof.
  unfold header_typed, winv. intros H. destruct h as [? ? [?] [?] ? ? ? ? ? ? ? ? ? ?]. cbn in H |- *.
  by rewrite !(proj2 (Z.leb_le 0 _)) by word_lia.
Qed.

Lemma TCPHeader_items_inj h1 h2 : TCPHeader_items h1 = TCPHeader_items h2 -> h1 = h2.
Proof.
  destruct h1 as [a1 a2 [a3] [a4] a5 a6 a7 a8 a9 a10 a11 a12 a13 a14],
    h2 as [b1 b2 [b3] [b4] b5 b6 b7 b8 b9 b10 b11 b12 b13 b14].
  unfold TCPHeader_items. cbn [sport dport seqno ackno doff urg ack psh rst syn fin win cksum uptr raw_value].
  intros [=]. by subst.
Qed.

Lemma IPv4Header_items_readable h : ip_fields h -> is_u16 (ip_cksum h) -> readable (IPv4Header_items h) = true.
Proof.
  unfold ip_fields. intros H Hc. destruct h. cbn in H, Hc |- *. by rewrite !(proj2 (Z.leb_le 0 _)) by word_lia.
Qed.

Lemma IPv4Header_items_inj h1 h2 : IPv4Header_items h1 = IPv4Header_items h2 -> h1 = h2.
Proof.
  destruct h1 as [a1 a2 a3 a4 a5 a6 a7 a8 a9 a10 a11 a12 a13],
    h2 as [b1 b2 b3 b4 b5 b6 b7 b8 b9 b10 b11 b12 b13]. unfold IPv4Header_items.
  cbn [ip_ver ip_hlen ip_tos ip_len ip_id ip_df ip_mf ip_offset ip_ttl ip_proto ip_cksum ip_src ip_dst].
  intros [=]. by subst.
Qed.

Lemma TCPHeader_items_shape h1 h2 : Forall2 same_item (TCPHeader_items h1) (TCPHeader_items h2).
Proof. unfold TCPHeader_items. repeat (constructor; [done|]). constructor. Qed.
Lemma IPv4Header_items_shape h1 h2 : Forall2 same_item (IPv4Header_items h1) (IPv4Header_items h2).
Proof. unfold IPv4Header_items. repeat (constructor; [done|]). constructor. Qed.

(** ** Every frame and every packet can be shown *)

Lemma TCPHeader_to_string_eq h : TCPHeader_to_string h = render (Hex :: Boolalpha :: TCPHeader_items h).
Proof. reflexivity. Qed.
Lemma IPv4Header_to_string_eq h : IPv4Header_to_string h = render (Hex :: Boolalpha :: IPv4Header_items h).
Proof. reflexivity. Qed.

(** C21.  Headers can be read back from what [to_string] prints: two TCP headers with
    fields of their widths, or two such IPv4 headers, that print the same text
    are the same header. *)
Theorem header_text_determines :
  (forall h1 h2, header_typed h1 -> header_typed h2 ->
     TCPHeader_to_string h1 = TCPHeader_to_string h2 -> h1 = h2) /\
  (forall h1 h2, ip_fields h1 -> ip_fields h2 -> is_u16 (ip_cksum h1) -> is_u16 (ip_cksum h2) ->
     IPv4Header_to_string h1 = IPv4Header_to_string h2 -> h1 = h2).
Proof.
  split.
  - intros h1 h2 H1%TCPHeader_items_readable H2%TCPHeader_items_readable E. rewrite !TCPHeader_to_string_eq in E.
    exact (TCPHeader_items_inj _ _ (render_inj _ _ H1 H2 (TCPHeader_items_shape h1 h2) E)).
  - intros h1 h2 H1 H2 Hc1 Hc2 E. rewrite !IPv4Header_to_string_eq in E. apply IPv4Header_items_readable in H1, H2; [|done..].
    exact (IPv4Header_items_inj _ _ (render_inj _ _ H1 H2 (IPv4Header_items_shape h1 h2) E)).
Qed.

Definition example_tcp_header : TCPHeader :=
  mkTCPHeader 1440 80 (mkWrappingInt32 48879) (mkWrappingInt32 0) 5 false true false false true false 1000 255 0.

(** Another acknowledgment number makes another text. *)
Lemma header_text_determines_witness :
  TCPHeader_to_string example_tcp_header <>
  TCPHeader_to_string (mkTCPHeader 1440 80 (mkWrappingInt32 48879) (mkWrappingInt32 1) 5 false true false false true false 1000 255 0).
Proof.
  intros E. apply (proj1 header_text_determines) in E; [discriminate E| |];
    (repeat split; cbn; unfold winv; cbn; word_lia).
Defined.

(** The text of a header, and its reading. *)
Example example_header_text :
  TCPHeader_to_string example_tcp_header =
  txt "TCP source port: 5a0" ++ [nl] ++ txt "TCP dest port: 50" ++ [nl] ++ txt "TCP seqno: beef" ++ [nl] ++
  txt "TCP ackno: 0" ++ [nl] ++ txt "TCP doff: 5" ++ [nl] ++
  txt "Flags: urg: false ack: true psh: false rst: false syn: true fin: false" ++ [nl] ++
  txt "TCP winsize: 3e8" ++ [nl] ++ txt "TCP cksum: ff" ++ [nl] ++ txt "TCP uptr: 0" ++ [nl].
Proof. vm_compute. reflexivity. Qed.

(** [summary] never throws on a frame whose payload is in one buffer, and lab7's
    does not need that unless the frame carries ARP. *)
Lemma arp_summary_total b frame :
  fr_payload frame = [b] -> buf_ok b -> is_ok (arp_summary frame) = true.
Proof.
  intros E Hb. unfold arp_summary. rewrite E. cbn [to_Buffer mbind res_bind].
  by destruct (ARPMessage_parse_total ARPMessage_default b Hb) as (r & m & ->).
Qed.

Lemma simulator_summary_total b frame :
  fr_payload frame = [b] -> buf_ok b -> is_ok (simulator_summary frame) = true.
Proof.
  intros E Hb. unfold simulator_summary. cbv zeta. destruct (_ =? TYPE_IPv4).
  - rewrite E. cbn [to_Buffer mbind res_bind].
    destruct (IPv4Datagram_parse_total IPv4Datagram_default b Hb) as (r & h & b' & -> & _). cbn. by destruct (bool_decide _).
  - destruct (_ =? TYPE_ARP); [|done]. pose proof (arp_summary_total b frame E Hb) as Ha.
    by destruct (arp_summary frame).
Qed.

(** The monitor survives every packet: whatever bytes the device delivers, a
    round ends in the failure of a system call or goes on, having only added to
    its output. *)
Section Safe.
Context {K : Type} `{Kernel K} (taken written : K -> list byte) `{!KernelSpec K taken written}.

Lemma monitor_round_safe (tun : File K) cout :
  wp system_fails (monitor_round tun cout) (fun '(_, cout') => os_text cout `prefix_of` os_text cout').
Proof.
  unfold monitor_round. apply wp_bind.
  pose proof (fd_read_spec taken written SIZE_MAX tun ltac:(done)) as Hr.
  destruct (fd_read SIZE_MAX tun) as [[l f]|e|]; [|by exists e|done].
  destruct Hr as (Hl & _). cbn [wp]. assert (Hz : zlen l < 2 ^ 31) by (unfold BUFFER_SIZE in Hl; lia).
  assert (Hput : forall o o' i, os_text cout `prefix_of` os_text o -> o' = o << i ->
    os_text cout `prefix_of` os_text o') by (intros o o' i Ho ->; etrans; [exact Ho|apply put_prefix]).
  set (c1 := cout << _). assert (H1 : os_text cout `prefix_of` os_text c1) by apply put_prefix. clearbody c1.
  destruct (hexdump_total l 0 c1 Hz) as [c2 Eh]. rewrite Eh. apply hexdump_prefix in Eh. cbn [mbind res_bind].
  assert (H2 : os_text cout `prefix_of` os_text c2) by (by etrans). clear H1 Eh.
  set (c3 := c2 << _). assert (H3 : os_text cout `prefix_of` os_text c3) by (by eapply Hput). clearbody c3. clear H2.
  destruct (IPv4Datagram_parse_total IPv4Datagram_default (Buffer_of l)) as (r & h & b & E & Hb);
    [by apply buf_ok_of; lia|]. rewrite E. cbn [mbind res_bind ip_header ip_payload to_Buffer].
  destruct (negb _); [by eapply Hput|]. set (c4 := c3 << _).
  assert (H4 : os_text cout `prefix_of` os_text c4) by (by eapply Hput). clearbody c4. clear H3.
  destruct (negb _); [by eapply Hput|]. set (c5 := c4 << _).
  assert (H5 : os_text cout `prefix_of` os_text c5) by (by eapply Hput). clearbody c5. clear H4.
  destruct (TCPSegment_parse_total TCPSegment_default b (pseudo_cksum h) Hb) as (r' & seg & Es).
  rewrite Es. cbn [mbind res_bind]. destruct (negb _); exact (Hput c5 _ _ H5 eq_refl).
Qed.

Lemma monitor_safe n : forall (tun : File K) cout,
  wp system_fails (monitor n tun cout) (fun '(_, cout') => os_text cout `prefix_of` os_text cout').
Proof.
  induction n as [|n IH]; intros tun cout; [exact (reflexivity (R := prefix) _)|]. cbn [monitor]. apply wp_bind.
  eapply wp_mono; [apply monitor_round_safe|]. intros [tun' c'] Hc.
  eapply wp_mono; [apply IH|]. intros [tun2 c2] Hc2. by etrans.
Qed.
End Safe.
