(* ===== verification/NetworkInterface.v ===== *)
(** * The network interface

    Models [src/libsponge/network_interface.hh] and [.cc]: the cache from IP to
    Ethernet addresses with the age of each entry, the datagrams that wait for
    an ARP reply, and the frames to be sent.  An entry whose Ethernet address is
    the broadcast address marks a pending request. *)

From S2P Require Import Prelude Buffers Parser Checksum StdMap IPv4 Address Ethernet.

Record NetworkInterface := mkInterface {
  ni_ethernet_address : EthernetAddress;                 (* _ethernet_address *)
  ni_ip_address : Address;                               (* _ip_address *)
  ni_frames_out : list EthernetFrame;                    (* _frames_out, front first *)
  ni_mapping_cache : zmap (EthernetAddress * Z);         (* _mapping_cache *)
  ni_ARP_queue : list (InternetDatagram * Address)       (* _ARP_queue *)
}.

Definition NetworkInterface_new (ethernet_address : EthernetAddress) (ip_address : Address)
  : NetworkInterface := mkInterface ethernet_address ip_address [] [] [].

Definition push_frame (f : EthernetFrame) (ni : NetworkInterface) : NetworkInterface :=
  mkInterface (ni_ethernet_address ni) (ni_ip_address ni) (ni_frames_out ni ++ [f])
    (ni_mapping_cache ni) (ni_ARP_queue ni).
Definition set_cache (m : zmap (EthernetAddress * Z)) (ni : NetworkInterface) : NetworkInterface :=
  mkInterface (ni_ethernet_address ni) (ni_ip_address ni) (ni_frames_out ni) m (ni_ARP_queue ni).
Definition set_queue (q : list (InternetDatagram * Address)) (ni : NetworkInterface) : NetworkInterface :=
  mkInterface (ni_ethernet_address ni) (ni_ip_address ni) (ni_frames_out ni) (ni_mapping_cache ni) q.

(** A frame with the given header and a payload made of [payload]. *)
Definition make_frame (src dst : EthernetAddress) (type : Z) (payload : BufferList) : EthernetFrame :=
  mkEthernetFrame (mkEthernetHeader dst src type) (append [] payload).

Definition send_datagram (dgram : InternetDatagram) (next_hop : Address) (ni : NetworkInterface)
  : res NetworkInterface :=
  next_hop_ip ← ipv4_numeric next_hop;
  match zmap_find next_hop_ip (ni_mapping_cache ni) with
  | Some (eth, _) =>
      if bool_decide (eth = ETHERNET_BROADCAST) then Ok ni
      else
        payload ← IPv4Datagram_serialize dgram;
        Ok (push_frame (make_frame (ni_ethernet_address ni) eth TYPE_IPv4 payload) ni)
  | None =>
      src_ip ← ipv4_numeric (ni_ip_address ni);
      payload ← ARPMessage_serialize
        (arp_message OPCODE_REQUEST (ni_ethernet_address ni) src_ip zero_ethernet next_hop_ip);
      let ni := push_frame (make_frame (ni_ethernet_address ni) ETHERNET_BROADCAST TYPE_ARP
                              [Buffer_of payload]) ni in
      let ni := set_queue (ni_ARP_queue ni ++ [(dgram, next_hop)]) ni in
      Ok (set_cache (zmap_set next_hop_ip (ETHERNET_BROADCAST, 0) (ni_mapping_cache ni)) ni)
  end.

(** The loop over [_ARP_queue] on an ARP reply from [ip]: the first datagram
    that waits for it is sent and erased; [seen] are the elements before the
    iterator. *)
Fixpoint flush_loop (ip : Z) (seen rest : list (InternetDatagram * Address)) (ni : NetworkInterface)
  : res NetworkInterface :=
  match rest with
  | [] => Ok ni
  | (dgram, hop) :: rest' =>
      hop_ip ← ipv4_numeric hop;
      if hop_ip =? ip then
        ni' ← send_datagram dgram hop ni;
        Ok (set_queue (seen ++ rest') ni')
      else flush_loop ip (seen ++ [(dgram, hop)]) rest' ni
  end.

(** The handling of a parsed ARP message. *)
Definition recv_arp (m : ARPMessage) (ni : NetworkInterface) : res NetworkInterface :=
  let ni := set_cache (zmap_set (sender_ip_address m) (sender_ethernet_address m, 0)
                         (ni_mapping_cache ni)) ni in
  if opcode m =? OPCODE_REQUEST then
    own_ip ← ipv4_numeric (ni_ip_address ni);
    if own_ip =? target_ip_address m then
      payload ← ARPMessage_serialize
        (arp_message OPCODE_REPLY (ni_ethernet_address ni) own_ip
           (sender_ethernet_address m) (sender_ip_address m));
      Ok (push_frame (make_frame (ni_ethernet_address ni) (sender_ethernet_address m) TYPE_ARP
                        [Buffer_of payload]) ni)
    else Ok ni
  else if opcode m =? OPCODE_REPLY then
    flush_loop (sender_ip_address m) [] (ni_ARP_queue ni) ni
  else Ok ni.

(** [recv_frame]; the conversion of the payload to a [Buffer] may throw. *)
Definition recv_frame (frame : EthernetFrame) (ni : NetworkInterface)
  : res (option InternetDatagram * NetworkInterface) :=
  if negb (bool_decide (eth_dst (fr_header frame) = ETHERNET_BROADCAST)) &&
     negb (bool_decide (eth_dst (fr_header frame) = ni_ethernet_address ni))
  then Ok (None, ni)
  else if eth_type (fr_header frame) =? TYPE_IPv4 then
    buf ← to_Buffer (fr_payload frame);
    r ← IPv4Datagram_parse IPv4Datagram_default buf;
    let '(result, datagram) := r in
    Ok (if bool_decide (result = NoError) then Some datagram else None, ni)
  else if eth_type (fr_header frame) =? TYPE_ARP then
    buf ← to_Buffer (fr_payload frame);
    r ← ARPMessage_parse ARPMessage_default buf;
    let '(result, m) := r in
    if bool_decide (result = NoError) then
      ni' ← recv_arp m ni;
      Ok (None, ni')
    else Ok (None, ni)
  else Ok (None, ni).

(** The loop of [tick]: each entry ages, pending ones expire after 5 s, learned
    ones after 30 s. *)
Fixpoint tick_loop (ms : Z) (m : zmap (EthernetAddress * Z)) : zmap (EthernetAddress * Z) :=
  match m with
  | [] => []
  | (ip, (eth, t)) :: m' =>
      let t := u64 (t + ms) in
      if bool_decide (eth = ETHERNET_BROADCAST) then
        if 5000 <=? t then tick_loop ms m' else (ip, (eth, t)) :: tick_loop ms m'
      else
        if 30000 <=? t then tick_loop ms m' else (ip, (eth, t)) :: tick_loop ms m'
  end.

Definition ni_tick (ms_since_last_tick : Z) (ni : NetworkInterface) : NetworkInterface :=
  set_cache (tick_loop ms_since_last_tick (ni_mapping_cache ni)) ni.

(** ** Definedness: any frame is handled, by a return or an exception *)

Lemma ipv4_numeric_defined a : defined (ipv4_numeric a).
Proof. unfold ipv4_numeric. defined_cases. Qed.
#[export] Hint Resolve ipv4_numeric_defined : sponge.

Lemma send_datagram_defined d hop ni : defined (send_datagram d hop ni).
Proof. unfold send_datagram. defined_cases. Qed.
#[export] Hint Resolve send_datagram_defined : sponge.

Lemma flush_loop_defined ip rest : forall seen ni, defined (flush_loop ip seen rest ni).
Proof. induction rest as [|[d hop] rest IH]; intros seen ni; cbn [flush_loop]; defined_cases. Qed.
#[export] Hint Resolve flush_loop_defined : sponge.

Lemma recv_frame_defined frame ni : defined (recv_frame frame ni).
Proof. unfold recv_frame, recv_arp, to_Buffer. defined_cases. Qed.
#[export] Hint Resolve recv_frame_defined : sponge.

(** The exceptions are [runtime_error]s: an address that is not IPv4, or a datagram
    or message that cannot be serialized. *)
Lemma ipv4_numeric_runtime a : runtime_only (ipv4_numeric a).
Proof. unfold ipv4_numeric. runtime_cases. Qed.
Lemma datagram_serialize_runtime d : runtime_only (IPv4Datagram_serialize d).
Proof. unfold IPv4Datagram_serialize, IPv4Header_serialize. runtime_cases. Qed.
Lemma arp_serialize_runtime m : runtime_only (ARPMessage_serialize m).
Proof. unfold ARPMessage_serialize. runtime_cases. Qed.
#[export] Hint Resolve ipv4_numeric_runtime datagram_serialize_runtime arp_serialize_runtime : sponge.

Lemma send_datagram_runtime d hop ni : runtime_only (send_datagram d hop ni).
Proof. unfold send_datagram. runtime_cases. Qed.
#[export] Hint Resolve send_datagram_runtime : sponge.

Lemma flush_loop_runtime ip rest : forall seen ni, runtime_only (flush_loop ip seen rest ni).
Proof. induction rest as [|[d hop] rest IH]; intros seen ni; cbn [flush_loop]; runtime_cases. Qed.
#[export] Hint Resolve flush_loop_runtime : sponge.

Lemma recv_frame_runtime h b ni : buf_ok b -> runtime_only (recv_frame (mkEthernetFrame h [b]) ni).
Proof.
  intros Hb. unfold recv_frame. cbn [fr_payload to_Buffer mbind res_bind].
  destruct (IPv4Datagram_parse_total IPv4Datagram_default b Hb) as (r & h' & b' & -> & _).
  destruct (ARPMessage_parse_total ARPMessage_default b Hb) as (r' & m & ->).
  cbn [mbind res_bind]. unfold recv_arp. runtime_cases.
Qed.

(** ** Ageing of the cache *)

(** How long an entry is kept. *)
Definition lifetime (eth : EthernetAddress) : Z :=
  if bool_decide (eth = ETHERNET_BROADCAST) then 5000 else 30000.

Definition ticks (l : list Z) (ni : NetworkInterface) : NetworkInterface :=
  fold_left (fun ni ms => ni_tick ms ni) l ni.

Definition total_ms (l : list Z) : Z := foldr Z.add 0 l.

Lemma tick_loop_cons ms ip eth t m :
  tick_loop ms ((ip, (eth, t)) :: m) =
    if lifetime eth <=? u64 (t + ms) then tick_loop ms m
    else (ip, (eth, u64 (t + ms))) :: tick_loop ms m.
Proof. cbn [tick_loop]. unfold lifetime. by destruct (bool_decide _). Qed.

Lemma tick_loop_sorted ms lo m : sorted_from lo m -> sorted_from lo (tick_loop ms m).
Proof.
  induction 1 as [|lo ip [eth t] m Hle Hs IH]; [constructor|]. rewrite tick_loop_cons.
  case_if; [|by constructor]. eapply sorted_from_weaken; [|exact IH]. lia.
Qed.

Lemma tick_loop_find ms lo m ip :
  sorted_from lo m ->
  zmap_find ip (tick_loop ms m) =
    match zmap_find ip m with
    | Some (eth, t) => if lifetime eth <=? u64 (t + ms) then None else Some (eth, u64 (t + ms))
    | None => None
    end.
Proof.
  induction 1 as [|lo ip' [eth t] m Hle Hs IH]; [done|]. rewrite tick_loop_cons.
  cbn [zmap_find]. destruct (ip =? ip') eqn:E; bool_prop.
  - subst ip'. destruct (lifetime eth <=? _).
    + eapply find_below; [apply tick_loop_sorted, Hs|lia].
    + cbn [zmap_find]. by rewrite Z.eqb_refl.
  - rewrite <- IH. case_if; [done|]. cbn [zmap_find]. by rewrite (proj2 (Z.eqb_neq _ _) E).
Qed.

Lemma total_ms_nonneg l : Forall (fun ms => 0 <= ms) l -> 0 <= total_ms l.
Proof. induction 1; cbn; [lia|]. unfold total_ms in *. lia. Qed.

(** The invariant of the cache: a map, whose entries have not expired. *)
Definition fresh (e : Z * (EthernetAddress * Z)) : Prop := 0 <= e.2.2 < lifetime e.2.1.
Definition cache_ok (m : zmap (EthernetAddress * Z)) : Prop :=
  (exists lo, sorted_from lo m) /\ Forall fresh m.

Lemma lifetime_range e : 5000 <= lifetime e <= 30000.
Proof. unfold lifetime. case_match; lia. Qed.

Lemma cache_ok_set ip eth m : cache_ok m -> cache_ok (zmap_set ip (eth, 0) m).
Proof.
  intros [[lo Hs] HF]. split.
  - exists (Z.min lo ip). apply sorted_set; [|lia]. eapply sorted_from_weaken; [|exact Hs]. lia.
  - apply Forall_set; [|done]. unfold fresh. cbn. pose proof (lifetime_range eth). lia.
Qed.

Lemma cache_ok_tick ms m : cache_ok m -> cache_ok (tick_loop ms m).
Proof.
  intros [[lo Hs] HF]. split; [exists lo; by apply tick_loop_sorted|].
  clear Hs. induction HF as [|[ip [eth t]] m _ _ IH]; [constructor|]. rewrite tick_loop_cons.
  case_if; [done|]. constructor; [|done]. split; [apply u64_range|done].
Qed.

Lemma cache_ok_find m ip eth t : cache_ok m -> zmap_find ip m = Some (eth, t) -> 0 <= t < lifetime eth.
Proof.
  intros [[lo Hs] HF] E. apply (find_In _ _ _ _ Hs) in E. rewrite Forall_forall in HF. exact (HF _ E).
Qed.

(** The calls the owner of an interface makes. *)
Inductive ni_step : NetworkInterface -> NetworkInterface -> Prop :=
| ni_send ni dgram hop ni' : send_datagram dgram hop ni = Ok ni' -> ni_step ni ni'
| ni_recv ni frame d ni' : recv_frame frame ni = Ok (d, ni') -> ni_step ni ni'
| ni_time ni ms : ni_step ni (ni_tick ms ni)
| ni_dequeue ni :
    ni_step ni (mkInterface (ni_ethernet_address ni) (ni_ip_address ni) (tail (ni_frames_out ni))
                  (ni_mapping_cache ni) (ni_ARP_queue ni)).

Lemma send_datagram_cache dgram hop ni ni' :
  send_datagram dgram hop ni = Ok ni' -> cache_ok (ni_mapping_cache ni) -> cache_ok (ni_mapping_cache ni').
Proof.
  unfold send_datagram. intros (ip & _ & H)%res_bind_ok Hc.
  destruct (zmap_find ip (ni_mapping_cache ni)) as [[eth t]|].
  - destruct (bool_decide _); [by simplify_eq|]. apply res_bind_ok in H as (pl & _ & H). by simplify_eq.
  - apply res_bind_ok in H as (src & _ & H). apply res_bind_ok in H as (pl & _ & H). simplify_eq.
    by apply cache_ok_set.
Qed.

Lemma flush_loop_cache ip rest : forall seen ni ni',
  flush_loop ip seen rest ni = Ok ni' -> cache_ok (ni_mapping_cache ni) -> cache_ok (ni_mapping_cache ni').
Proof.
  induction rest as [|[d hop] rest IH]; intros seen ni ni'; cbn [flush_loop]; [by intros [= <-]|].
  intros (n & _ & H)%res_bind_ok Hc. destruct (n =? ip); [|by eapply IH].
  apply res_bind_ok in H as (ni1 & E & H). simplify_eq. cbn. by eapply send_datagram_cache.
Qed.

Lemma recv_arp_cache m ni ni' :
  recv_arp m ni = Ok ni' -> cache_ok (ni_mapping_cache ni) -> cache_ok (ni_mapping_cache ni').
Proof.
  unfold recv_arp. intros H Hc. apply (cache_ok_set (sender_ip_address m) (sender_ethernet_address m)) in Hc.
  destruct (opcode m =? OPCODE_REQUEST).
  - apply res_bind_ok in H as (own & _ & H). destruct (own =? _); [|by simplify_eq].
    apply res_bind_ok in H as (pl & _ & H). by simplify_eq.
  - destruct (opcode m =? OPCODE_REPLY); [|by simplify_eq]. by eapply flush_loop_cache.
Qed.

Lemma recv_frame_cache f ni d ni' :
  recv_frame f ni = Ok (d, ni') -> cache_ok (ni_mapping_cache ni) -> cache_ok (ni_mapping_cache ni').
Proof.
  unfold recv_frame. intros H Hc. destruct (_ && _); [by simplify_eq|].
  destruct (_ =? TYPE_IPv4).
  { apply res_bind_ok in H as (b & _ & H). apply res_bind_ok in H as ([r dg] & _ & H). by simplify_eq. }
  destruct (_ =? TYPE_ARP); [|by simplify_eq].
  apply res_bind_ok in H as (b & _ & H). apply res_bind_ok in H as ([r m] & _ & H).
  destruct (bool_decide _); [|by simplify_eq].
  apply res_bind_ok in H as (ni1 & E & H). simplify_eq. by eapply recv_arp_cache.
Qed.

Lemma ni_reachable eth ip ni :
  rtc ni_step (NetworkInterface_new eth ip) ni -> cache_ok (ni_mapping_cache ni).
Proof.
  revert ni. apply (rtc_ind_r (fun ni => cache_ok (ni_mapping_cache ni))).
  - split; [|constructor]. exists 0. constructor.
  - intros n1 n2 _ Hstep Hc. destruct Hstep.
    + by eapply send_datagram_cache.
    + by eapply recv_frame_cache.
    + by apply cache_ok_tick.
    + done.
Qed.

(** Ageing: after any sequence of ticks, a cached mapping of age [t] is
    still there, with its age advanced by the time that passed, exactly if
    that age is below 30 s, or 5 s for a pending request; nothing else about
    the interface changes. *)
Theorem cache_expiry eth_addr ip_addr l ni ip :
  rtc ni_step (NetworkInterface_new eth_addr ip_addr) ni ->
  Forall (fun ms => 0 <= ms) l -> total_ms l < 2 ^ 63 ->
  zmap_find ip (ni_mapping_cache (ticks l ni)) =
    match zmap_find ip (ni_mapping_cache ni) with
    | Some (eth, t) => if t + total_ms l <? lifetime eth then Some (eth, t + total_ms l) else None
    | None => None
    end /\
  ni_frames_out (ticks l ni) = ni_frames_out ni /\ ni_ARP_queue (ticks l ni) = ni_ARP_queue ni.
Proof.
  intros Hr. apply ni_reachable in Hr. revert ni Hr.
  induction l as [|ms l IH]; intros ni Hc HF Hb.
  { cbn. split; [|done]. destruct (zmap_find ip (ni_mapping_cache ni)) as [[eth t]|] eqn:E; [|done].
    rewrite Z.add_0_r. by rewrite (proj2 (Z.ltb_lt _ _)) by (by eapply cache_ok_find). }
  inversion HF as [|? ? Hms HF']; subst. pose proof (total_ms_nonneg _ HF').
  change (total_ms (ms :: l)) with (ms + total_ms l) in *. cbn [ticks fold_left]. fold (ticks l (ni_tick ms ni)).
  pose proof Hc as [[lo Hs] _]. pose proof (tick_loop_find ms lo _ ip Hs) as Hf.
  destruct (IH (ni_tick ms ni)) as (E & Ef & Eq); [by apply cache_ok_tick|done|lia|].
  rewrite E, Ef, Eq. split; [|done]. cbn [ni_tick set_cache ni_mapping_cache]. rewrite Hf.
  destruct (zmap_find ip (ni_mapping_cache ni)) as [[eth t]|] eqn:Ei; [|done].
  pose proof (cache_ok_find _ _ _ _ Hc Ei). pose proof (lifetime_range eth).
  rewrite u64_small by word_lia.
  destruct (lifetime eth <=? t + ms) eqn:El; bool_prop.
  - by rewrite (proj2 (Z.ltb_ge _ _)) by lia.
  - by rewrite !Z.add_assoc.
Qed.

(** ** Address resolution *)

(** The frame that carries ARP message [m] from [src] to [dst]. *)
Definition arp_frame (src dst : EthernetAddress) (m : ARPMessage) : EthernetFrame :=
  make_frame src dst TYPE_ARP [Buffer_of (arp_bytes m)].

Lemma recv_arp_frame ni src dst m :
  arp_wf m -> supported m = true -> dst = ETHERNET_BROADCAST \/ dst = ni_ethernet_address ni ->
  recv_frame (arp_frame src dst m) ni = (ni' ← recv_arp m ni; Ok (None, ni')).
Proof.
  intros Hw Hsup Hdst. unfold recv_frame, arp_frame, make_frame.
  cbn [fr_header eth_dst eth_type fr_payload].
  assert (E : negb (bool_decide (dst = ETHERNET_BROADCAST)) &&
              negb (bool_decide (dst = ni_ethernet_address ni)) = false).
  { destruct Hdst as [Hd|Hd].
    - by rewrite (bool_decide_eq_true_2 _ Hd).
    - rewrite (bool_decide_eq_true_2 _ Hd). apply andb_false_r. }
  rewrite E. change (TYPE_ARP =? TYPE_IPv4) with false. change (TYPE_ARP =? TYPE_ARP) with true.
  cbv iota. rewrite append_app. cbn [app to_Buffer mbind res_bind].
  pose proof (arp_parse_ok ARPMessage_default m [] Hw Hsup ltac:(cbn; lia)) as Hp.
  rewrite app_nil_r in Hp. by rewrite Hp.
Qed.

Lemma flush_loop_skip ip seen rest k n :
  Forall (fun e => exists i, ipv4_numeric e.2 = Ok i /\ i <> ip) rest ->
  flush_loop ip seen (rest ++ k) n = flush_loop ip (seen ++ rest) k n.
Proof.
  intros HF. revert seen. induction HF as [|[d hop] rest (i & Ei & Hi) _ IH]; intros seen; cbn [app flush_loop].
  - by rewrite app_nil_r.
  - cbn in Ei. rewrite Ei. cbn [mbind res_bind]. rewrite (proj2 (Z.eqb_neq _ _) Hi), IH.
    by rewrite <- app_assoc.
Qed.

Lemma send_known ni dgram hop ip mac t bl :
  ipv4_numeric hop = Ok ip -> zmap_find ip (ni_mapping_cache ni) = Some (mac, t) ->
  mac <> ETHERNET_BROADCAST -> IPv4Datagram_serialize dgram = Ok bl ->
  send_datagram dgram hop ni =
    Ok (push_frame (make_frame (ni_ethernet_address ni) mac TYPE_IPv4 bl) ni).
Proof.
  intros Hip Hf Hne Hs. unfold send_datagram. rewrite Hip. cbn [mbind res_bind].
  by rewrite Hf, bool_decide_eq_false_2, Hs by done.
Qed.

Section Resolution.
Context (ni : NetworkInterface) (own_ip : Z)
  (Heth : length (ni_ethernet_address ni) = 6%nat)
  (Hown : ipv4_numeric (ni_ip_address ni) = Ok own_ip).

Definition request (ip : Z) : ARPMessage :=
  arp_message OPCODE_REQUEST (ni_ethernet_address ni) own_ip zero_ethernet ip.
Definition reply_from (ip : Z) (mac : EthernetAddress) : ARPMessage :=
  arp_message OPCODE_REPLY mac ip (ni_ethernet_address ni) own_ip.

Lemma own_ip_u32 : is_u32 own_ip.
Proof. exact (ipv4_numeric_range _ _ Hown). Qed.

Lemma send_unknown dgram hop ip :
  ipv4_numeric hop = Ok ip -> zmap_find ip (ni_mapping_cache ni) = None ->
  send_datagram dgram hop ni =
    Ok (mkInterface (ni_ethernet_address ni) (ni_ip_address ni)
          (ni_frames_out ni ++ [arp_frame (ni_ethernet_address ni) ETHERNET_BROADCAST (request ip)])
          (zmap_set ip (ETHERNET_BROADCAST, 0) (ni_mapping_cache ni))
          (ni_ARP_queue ni ++ [(dgram, hop)])).
Proof.
  intros Hip Hnone. unfold send_datagram. rewrite Hip. cbn [mbind res_bind]. rewrite Hnone, Hown.
  cbn [mbind res_bind]. fold (request ip). rewrite arp_serialize_eq by done. done.
Qed.

(** C33.  Address resolution: a datagram for a next hop whose Ethernet address
    is unknown is kept and a request broadcast; datagrams for the same hop in
    the meantime vanish without a trace; when the reply of the hop arrives, the
    first datagram goes out to the learned address, and the queue is as before. *)
Theorem arp_resolution dgram hop ip mac bl :
  ipv4_numeric hop = Ok ip -> zmap_find ip (ni_mapping_cache ni) = None ->
  Forall (fun e => exists i, ipv4_numeric e.2 = Ok i /\ i <> ip) (ni_ARP_queue ni) ->
  length mac = 6%nat -> mac <> ETHERNET_BROADCAST -> IPv4Datagram_serialize dgram = Ok bl ->
  exists ni1 ni2,
    send_datagram dgram hop ni = Ok ni1 /\
    ni_frames_out ni1 = ni_frames_out ni ++ [arp_frame (ni_ethernet_address ni) ETHERNET_BROADCAST (request ip)] /\
    (forall dgram2, send_datagram dgram2 hop ni1 = Ok ni1) /\
    recv_frame (arp_frame mac (ni_ethernet_address ni) (reply_from ip mac)) ni1 = Ok (None, ni2) /\
    ni_frames_out ni2 = ni_frames_out ni1 ++ [make_frame (ni_ethernet_address ni) mac TYPE_IPv4 bl] /\
    ni_ARP_queue ni2 = ni_ARP_queue ni /\ zmap_find ip (ni_mapping_cache ni2) = Some (mac, 0).
Proof.
  intros Hip Hnone Hq Hmac Hne Hser. rewrite (send_unknown _ _ _ Hip Hnone).
  eexists _, _. split; [reflexivity|]. split; [reflexivity|]. split_and!.
  - intros d2. unfold send_datagram. rewrite Hip. cbn [mbind res_bind ni_mapping_cache].
    rewrite find_set, Z.eqb_refl. by rewrite bool_decide_eq_true_2.
  - rewrite recv_arp_frame; [|split_and!; cbn; auto using own_ip_u32; by eapply ipv4_numeric_range|done|by right].
    unfold recv_arp. cbn [reply_from arp_message opcode sender_ip_address sender_ethernet_address].
    change (OPCODE_REPLY =? OPCODE_REQUEST) with false. change (OPCODE_REPLY =? OPCODE_REPLY) with true.
    cbn [set_cache ni_ARP_queue ni_ethernet_address ni_ip_address ni_frames_out ni_mapping_cache].
    rewrite flush_loop_skip by done. cbn [flush_loop app]. rewrite Hip. cbn [mbind res_bind].
    rewrite Z.eqb_refl, (send_known _ dgram hop ip mac 0 bl); [reflexivity|done| |done|done].
    cbn [set_cache ni_mapping_cache]. by rewrite find_set, Z.eqb_refl.
  - done.
  - cbn. by rewrite app_nil_r.
  - cbn [set_queue push_frame set_cache ni_mapping_cache]. by rewrite find_set, Z.eqb_refl.
Qed.

(** A request for the interface's own address is answered with a reply
    that carries its Ethernet address back to the requester, whose mapping is
    learned; datagrams that wait for that very address stay in the queue. *)
Theorem arp_request_answered src dst ip mac te :
  dst = ETHERNET_BROADCAST \/ dst = ni_ethernet_address ni ->
  length mac = 6%nat -> length te = 6%nat -> is_u32 ip ->
  exists ni',
    recv_frame (arp_frame src dst (arp_message OPCODE_REQUEST mac ip te own_ip)) ni = Ok (None, ni') /\
    ni_frames_out ni' = ni_frames_out ni ++
      [arp_frame (ni_ethernet_address ni) mac (arp_message OPCODE_REPLY (ni_ethernet_address ni) own_ip mac ip)] /\
    zmap_find ip (ni_mapping_cache ni') = Some (mac, 0) /\ ni_ARP_queue ni' = ni_ARP_queue ni.
Proof.
  intros Hdst Hmac Hte Hip. eexists. split_and!.
  - rewrite recv_arp_frame; [|split_and!; cbn; auto using own_ip_u32|done|done].
    unfold recv_arp. cbn [arp_message opcode sender_ip_address sender_ethernet_address target_ip_address].
    change (OPCODE_REQUEST =? OPCODE_REQUEST) with true. cbv iota. cbn [set_cache ni_ip_address].
    rewrite Hown. cbn [mbind res_bind]. rewrite Z.eqb_refl.
    rewrite (arp_serialize_eq (arp_message _ _ _ _ _)) by done. cbn [mbind res_bind]. reflexivity.
  - done.
  - cbn [push_frame set_cache ni_mapping_cache]. by rewrite find_set, Z.eqb_refl.
  - done.
Qed.
End Resolution.

(** An interface 02:00:00:00:00:01 with address 10.0.0.1, and a datagram. *)
Definition example_ni : NetworkInterface :=
  NetworkInterface_new [x02; x00; x00; x00; x00; x01] (ipv4_address 167772161).
Definition example_dgram : InternetDatagram :=
  mkIPv4Datagram (mkIPv4Header 4 5 0 22 1 true false 0 64 6 0 167772161 167772162) [Buffer_of [x68; x69]].
Definition example_mac : EthernetAddress := [x02; x00; x00; x00; x00; x07].

Lemma cache_expiry_witness :
  zmap_find 167772162 (ni_mapping_cache (ticks [3000; 1999]
    (match send_datagram example_dgram (ipv4_address 167772162) example_ni with Ok n => n | _ => example_ni end)))
  = Some (ETHERNET_BROADCAST, 4999).
Proof.
  destruct (send_datagram example_dgram (ipv4_address 167772162) example_ni) as [n| |] eqn:E;
    [|vm_compute in E; discriminate..].
  destruct (cache_expiry [x02; x00; x00; x00; x00; x01] (ipv4_address 167772161) [3000; 1999] n 167772162)
    as [H _]; [by eapply rtc_once, ni_send|repeat constructor; lia|cbn; lia|].
  rewrite H. vm_compute in E. injection E as <-. reflexivity.
Defined.

Lemma arp_resolution_witness :
  exists ni1 ni2, send_datagram example_dgram (ipv4_address 167772162) example_ni = Ok ni1 /\
    (forall dgram2, send_datagram dgram2 (ipv4_address 167772162) ni1 = Ok ni1) /\
    ni_ARP_queue ni2 = [] /\ length (ni_frames_out ni2) = 2%nat.
Proof.
  destruct (IPv4Datagram_serialize example_dgram) as [bl| |] eqn:E; [|vm_compute in E; discriminate..].
  destruct (arp_resolution example_ni 167772161 eq_refl eq_refl example_dgram (ipv4_address 167772162)
    167772162 example_mac bl eq_refl eq_refl (Forall_nil_2 _) eq_refl ltac:(discriminate) E)
    as (ni1 & ni2 & H1 & F1 & H2 & _ & F2 & Q & _).
  exists ni1, ni2. split; [exact H1|]. split; [exact H2|]. split; [exact Q|]. by rewrite F2, F1.
Defined.

Lemma arp_request_answered_witness :
  exists ni', recv_frame (arp_frame example_mac ETHERNET_BROADCAST
      (arp_message OPCODE_REQUEST example_mac 9 zero_ethernet 167772161)) example_ni = Ok (None, ni') /\
    zmap_find 9 (ni_mapping_cache ni') = Some (example_mac, 0).
Proof.
  destruct (arp_request_answered example_ni 167772161 eq_refl example_mac ETHERNET_BROADCAST 9
    example_mac zero_ethernet (or_introl eq_refl) eq_refl eq_refl ltac:(word_lia)) as (ni' & H & _ & F & _).
  exists ni'. split; [exact H|exact F].
Defined.
