(* ===== verification/Router.v ===== *)
(** * The router

    Models [src/libsponge/router.hh] and [.cc]: asynchronous interfaces, the
    routing table, longest-prefix match, the TTL and the forwarding loop. *)

From S2P Require Import Prelude Buffers Parser Checksum StdMap IPv4 Address Ethernet NetworkInterface.

Record AsyncNetworkInterface := mkAsync {
  an_interface : NetworkInterface;
  an_datagrams_out : list InternetDatagram     (* _datagrams_out, front first *)
}.

Definition AsyncNetworkInterface_of (ni : NetworkInterface) : AsyncNetworkInterface := mkAsync ni [].

Definition async_recv_frame (frame : EthernetFrame) (an : AsyncNetworkInterface) : res AsyncNetworkInterface :=
  r ← recv_frame frame (an_interface an);
  let '(optional_dgram, ni) := r in
  Ok (mkAsync ni (match optional_dgram with
                  | Some d => an_datagrams_out an ++ [d]
                  | None => an_datagrams_out an
                  end)).

(** An entry of the routing table. *)
Record route_entry := mkRoute {
  rt_prefix : Z; rt_length : Z; rt_next_hop : option Address; rt_interface : Z
}.

Record Router := mkRouter {
  ro_interfaces : list AsyncNetworkInterface;   (* _interfaces *)
  ro_routing_table : list route_entry           (* _routing_table *)
}.

Definition Router_new : Router := mkRouter [] [].

Definition add_interface (an : AsyncNetworkInterface) (r : Router) : Z * Router :=
  let l := ro_interfaces r ++ [an] in (u64 (zlen l - 1), mkRouter l (ro_routing_table r)).

(** [_interfaces.at(N)]. *)
Definition interface (N : Z) (r : Router) : res AsyncNetworkInterface :=
  match ro_interfaces r !! Z.to_nat N with
  | Some an => Ok an
  | None => Throw out_of_range
  end.

Definition set_interface (N : Z) (an : AsyncNetworkInterface) (r : Router) : Router :=
  mkRouter (<[Z.to_nat N := an]> (ro_interfaces r)) (ro_routing_table r).

(** [add_route], apart from the line it prints. *)
Definition add_route (route_prefix prefix_length : Z) (next_hop : option Address) (interface_num : Z)
  (r : Router) : Router :=
  mkRouter (ro_interfaces r)
    (ro_routing_table r ++ [mkRoute route_prefix prefix_length next_hop interface_num]).

(** The mask of a route.  The shift and the subtraction are done in [int]: for a
    length of 1 the subtraction overflows, beyond 32 the shift count is
    negative; both are undefined. *)
Definition mask (prefix_length : Z) : res Z :=
  if prefix_length =? 0 then Ok 0
  else if 32 <? prefix_length then Undefined
  else if prefix_length =? 1 then Undefined
  else Ok (u32 (Z.lnot (Z.shiftl 1 (32 - prefix_length) - 1))).

(** The loop over the routing table: the best route so far and the value of
    [longest_prefix_len]. *)
Fixpoint match_loop (dst : Z) (table : list route_entry) (best : option route_entry) (longest : Z)
  : res (option route_entry * Z) :=
  match table with
  | [] => Ok (best, longest)
  | i :: table' =>
      m ← mask (rt_length i);
      if Z.land dst m =? rt_prefix i then
        if longest <? rt_length i then match_loop dst table' (Some i) (rt_length i)
        else match_loop dst table' best longest
      else match_loop dst table' best longest
  end.

Definition with_ttl (ttl : Z) (d : InternetDatagram) : InternetDatagram :=
  let h := ip_header d in
  mkIPv4Datagram
    (mkIPv4Header (ip_ver h) (ip_hlen h) (ip_tos h) (ip_len h) (ip_id h) (ip_df h) (ip_mf h)
       (ip_offset h) ttl (ip_proto h) (ip_cksum h) (ip_src h) (ip_dst h))
    (ip_payload d).

Definition route_one_datagram (dgram : InternetDatagram) (r : Router) : res Router :=
  if ip_ttl (ip_header dgram) <=? 1 then Ok r
  else
    let dgram := with_ttl (u8 (ip_ttl (ip_header dgram) - 1)) dgram in
    let dgram_dst_addr := ip_dst (ip_header dgram) in
    best ← match_loop dgram_dst_addr (ro_routing_table r) None (-1);
    let '(longest_prefix_match, longest_prefix_len) := best in
    match longest_prefix_match with
    | None => Ok r
    | Some route =>
        hop ← match rt_next_hop route with
              | Some next_hop => Ok next_hop
              | None => from_ipv4_numeric dgram_dst_addr
              end;
        an ← interface (rt_interface route) r;
        ni ← send_datagram dgram hop (an_interface an);
        Ok (set_interface (rt_interface route) (mkAsync ni (an_datagrams_out an)) r)
    end.

(** The inner loop of [route]: the queue of interface [i] until it is empty. *)
Fixpoint drain_loop (i : nat) (queue : list InternetDatagram) (r : Router) : res Router :=
  match queue with
  | [] => Ok r
  | front :: rest =>
      r1 ← route_one_datagram front r;
      match ro_interfaces r1 !! i with
      | Some an => drain_loop i rest (set_interface (Z.of_nat i) (mkAsync (an_interface an) rest) r1)
      | None => Undefined
      end
  end.

Fixpoint route_loop (indices : list nat) (r : Router) : res Router :=
  match indices with
  | [] => Ok r
  | i :: rest =>
      match ro_interfaces r !! i with
      | Some an => r1 ← drain_loop i (an_datagrams_out an) r; route_loop rest r1
      | None => Undefined
      end
  end.

Definition route (r : Router) : res Router := route_loop (seq 0 (length (ro_interfaces r))) r.

(** ** Longest-prefix match *)

(** The specification: the top [rt_length] bits of the destination are the
    route's prefix, and the route's prefix has no bits below them. *)
Definition route_matches (dst : Z) (e : route_entry) : Prop :=
  dst / 2 ^ (32 - rt_length e) = rt_prefix e / 2 ^ (32 - rt_length e) /\
  rt_prefix e mod 2 ^ (32 - rt_length e) = 0.

Definition route_ok (e : route_entry) : Prop :=
  is_u32 (rt_prefix e) /\ (rt_length e = 0 \/ 2 <= rt_length e <= 32).

Lemma land_high_bits x k : 0 <= k -> Z.land x (Z.lnot (2 ^ k - 1)) = x / 2 ^ k * 2 ^ k.
Proof.
  intros Hk. replace (2 ^ k - 1) with (Z.ones k) by (rewrite Z.ones_equiv; lia).
  rewrite <- Z.ldiff_land, Z.ldiff_ones_r, Z.shiftl_mul_pow2, Z.shiftr_div_pow2 by done. done.
Qed.

Lemma mask_spec dst e :
  route_ok e -> is_u32 dst ->
  exists m, mask (rt_length e) = Ok m /\ ((Z.land dst m =? rt_prefix e) = true <-> route_matches dst e).
Proof.
  intros [Hp Hl] Hd. unfold mask, route_matches. destruct Hl as [E|Hl].
  - rewrite E. exists 0. split; [done|]. rewrite Z.land_0_r, Z.eqb_eq. change (2 ^ (32 - 0)) with 4294967296.
    word_lia.
  - rewrite (proj2 (Z.eqb_neq _ _)), (proj2 (Z.ltb_ge _ _)), (proj2 (Z.eqb_neq _ _)) by lia.
    eexists. split; [done|]. rewrite Z.shiftl_mul_pow2, Z.mul_1_l by lia. rewrite Z.eqb_eq.
    set (k := 32 - rt_length e). assert (Hk : 0 <= k <= 30) by lia.
    assert (E : Z.land dst (u32 (Z.lnot (2 ^ k - 1))) = dst / 2 ^ k * 2 ^ k).
    { unfold u32. rewrite <- Z.land_ones, (Z.land_comm _ (Z.ones 32)), Z.land_assoc, Z.land_ones by lia.
      rewrite (Z.mod_small dst) by done. apply land_high_bits. lia. }
    rewrite E. assert (0 < 2 ^ k) by lia. pose proof (Z.div_mod (rt_prefix e) (2 ^ k)). split.
    + intros <-. rewrite Z.div_mul, Z.mod_mul by lia. done.
    + intros [-> E0]. lia.
Qed.

(** [best] is the first of the longest matching routes of [l]. *)
Definition lpm (dst : Z) (l : list route_entry) (best : option route_entry) : Prop :=
  match best with
  | None => Forall (fun e => ~ route_matches dst e) l
  | Some b =>
      exists l1 l2, l = l1 ++ b :: l2 /\ route_matches dst b /\
        Forall (fun e => route_matches dst e -> rt_length e < rt_length b) l1 /\
        Forall (fun e => route_matches dst e -> rt_length e <= rt_length b) l2
  end.

Lemma match_loop_spec dst table : forall seen best longest,
  is_u32 dst -> Forall route_ok table -> Forall route_ok seen -> lpm dst seen best ->
  longest = match best with Some b => rt_length b | None => -1 end ->
  exists best' longest', match_loop dst table best longest = Ok (best', longest') /\
    lpm dst (seen ++ table) best'.
Proof.
  induction table as [|e table IH]; intros seen best longest Hd HF HS Hb Hl.
  { exists best, longest. by rewrite app_nil_r. }
  inversion HF as [|? ? He HF']; subst. cbn [match_loop].
  destruct (mask_spec dst e He Hd) as (m & -> & Hm). cbn [mbind res_bind].
  assert (HS' : Forall route_ok (seen ++ [e])) by (apply Forall_app_2; [done|by constructor]).
  replace (seen ++ e :: table) with ((seen ++ [e]) ++ table) by (by rewrite <- app_assoc).
  destruct (Z.land dst m =? rt_prefix e) eqn:Em.
  - pose proof (proj1 Hm eq_refl) as Hmatch. destruct (_ <? rt_length e) eqn:El; bool_prop; (apply IH; [done..| |done]).
    + exists seen, []. split_and!; [done|done| |constructor]. destruct best as [b|].
      * destruct Hb as (l1 & l2 & -> & Hbm & H1 & H2). apply Forall_app_2; [|constructor].
        -- eapply Forall_impl; [exact H1|]. cbn. intros x Hx Hxm. specialize (Hx Hxm). lia.
        -- intros _. done.
        -- eapply Forall_impl; [exact H2|]. cbn. intros x Hx Hxm. specialize (Hx Hxm). lia.
      * eapply Forall_impl; [exact Hb|]. by intros x Hx Hxm.
    + destruct best as [b|]; [|destruct He; lia].
      destruct Hb as (l1 & l2 & -> & Hbm & H1 & H2). exists l1, (l2 ++ [e]).
      rewrite <- app_assoc. split_and!; [done..|]. apply Forall_app_2; [done|]. by constructor; [intros _; lia|].
  - assert (Hno : ~ route_matches dst e) by (intros H; apply Hm in H; congruence).
    apply IH; [done..| |done]. destruct best as [b|].
    + destruct Hb as (l1 & l2 & -> & Hbm & H1 & H2). exists l1, (l2 ++ [e]).
      rewrite <- app_assoc. split_and!; [done..|]. apply Forall_app_2; [done|]. by constructor.
    + apply Forall_app_2; [done|]. by constructor.
Qed.

Lemma interface_lookup N r an : ro_interfaces r !! Z.to_nat N = Some an -> interface N r = Ok an.
Proof. unfold interface. by intros ->. Qed.

(** C32.  Forwarding: with valid routes, a datagram whose TTL is 0 or 1 is
    dropped; otherwise it is dropped when no route matches, and else handed,
    with its TTL decremented, to the interface of the first of the longest
    matching routes, addressed to the route's next hop or, on a directly
    attached network, to its destination.  A route matches when the leading
    bits of the destination are its prefix and its prefix has no further bits. *)
Theorem forwarding d r :
  Forall route_ok (ro_routing_table r) -> is_u32 (ip_dst (ip_header d)) -> is_u8 (ip_ttl (ip_header d)) ->
  if ip_ttl (ip_header d) <=? 1 then route_one_datagram d r = Ok r
  else exists best, lpm (ip_dst (ip_header d)) (ro_routing_table r) best /\
    match best with
    | None => route_one_datagram d r = Ok r
    | Some b =>
        match ro_interfaces r !! Z.to_nat (rt_interface b) with
        | None => route_one_datagram d r = Throw out_of_range
        | Some an =>
            route_one_datagram d r =
              (ni ← send_datagram (with_ttl (ip_ttl (ip_header d) - 1) d)
                      (default (ipv4_address (ip_dst (ip_header d))) (rt_next_hop b)) (an_interface an);
               Ok (set_interface (rt_interface b) (mkAsync ni (an_datagrams_out an)) r))
        end
    end.
Proof.
  intros Hok Hdst Httl. unfold route_one_datagram.
  destruct (ip_ttl (ip_header d) <=? 1) eqn:Et; bool_prop; [done|].
  rewrite u8_small by word_lia. cbn [with_ttl ip_header ip_dst].
  destruct (match_loop_spec (ip_dst (ip_header d)) (ro_routing_table r) [] None (-1) Hdst Hok)
    as (best & longest & E & Hl); [constructor|constructor|done|].
  exists best. split; [exact Hl|]. rewrite E. cbn [mbind res_bind].
  destruct best as [b|]; [|done]. unfold interface.
  destruct (rt_next_hop b) as [hop|]; cbn [from_option default];
    rewrite ?from_ipv4_numeric_eq; cbn [mbind res_bind];
    by destruct (ro_interfaces r !! Z.to_nat (rt_interface b)).
Qed.

(** ** Draining the queues *)

Definition queues (r : Router) : list (list InternetDatagram) := an_datagrams_out <$> ro_interfaces r.

Lemma queues_set N an r :
  queues (set_interface N an r) = <[Z.to_nat N := an_datagrams_out an]> (queues r).
Proof. unfold queues. cbn. apply list_fmap_insert. Qed.

Lemma route_one_queues d r r' : route_one_datagram d r = Ok r' -> queues r' = queues r.
Proof.
  unfold route_one_datagram. destruct (_ <=? 1); [by intros [= <-]|].
  intros ([[b|] l] & _ & H)%res_bind_ok; [|by simplify_eq].
  apply res_bind_ok in H as (hop & _ & H). apply res_bind_ok in H as (an & Ea & H).
  apply res_bind_ok in H as (ni & _ & H). simplify_eq. rewrite queues_set. cbn [an_datagrams_out].
  apply list_insert_id. unfold queues.
  unfold interface in Ea. rewrite list_lookup_fmap. case_match; [|done]. by simplify_eq.
Qed.

Lemma drain_loop_queues i q : forall r r',
  queues r !! i = Some q -> drain_loop i q r = Ok r' -> queues r' = <[i := []]> (queues r).
Proof.
  induction q as [|d q IH]; intros r r' Hq; cbn [drain_loop].
  { intros [= <-]. symmetry. by apply list_insert_id. }
  intros (r1 & E1%route_one_queues & H)%res_bind_ok.
  destruct (ro_interfaces r1 !! i) as [an|] eqn:Ean; [|done].
  set (r2 := set_interface _ _ r1) in H.
  assert (E2 : queues r2 = <[i := q]> (queues r)).
  { subst r2. rewrite queues_set, Nat2Z.id, E1. done. }
  apply IH in H.
  - by rewrite H, E2, list_insert_insert_eq.
  - rewrite E2. apply list_lookup_insert_eq. by eapply lookup_lt_Some.
Qed.

Lemma route_loop_queues l : forall r r',
  route_loop l r = Ok r' ->
  length (queues r') = length (queues r) /\
  forall i, queues r' !! i = if bool_decide (i ∈ l) then (fun _ => []) <$> (queues r !! i) else queues r !! i.
Proof.
  induction l as [|j l IH]; intros r r'; cbn [route_loop].
  { intros [= <-]. split; [done|]. intros i. by rewrite bool_decide_eq_false_2 by set_solver. }
  destruct (ro_interfaces r !! j) as [an|] eqn:Ej; [|done].
  intros (r1 & Ed & H)%res_bind_ok.
  assert (Hj : queues r !! j = Some (an_datagrams_out an)).
  { unfold queues.
    by rewrite list_lookup_fmap, Ej. }
  apply (drain_loop_queues _ _ _ _ Hj) in Ed. apply IH in H as [HL H].
  split; [by rewrite HL, Ed, length_insert|]. intros i. rewrite H, Ed.
  destruct (decide (i = j)) as [->|Hne].
  - rewrite list_lookup_insert_eq by (by eapply lookup_lt_Some).
    rewrite (bool_decide_eq_true_2 (j ∈ j :: l)) by (by left). rewrite Hj. cbn. by case_bool_decide.
  - rewrite list_lookup_insert_ne by done.
    assert (Hi : i ∈ j :: l <-> i ∈ l) by (rewrite elem_of_cons; tauto).
    by rewrite (bool_decide_ext _ _ Hi).
Qed.

Lemma route_empties r r' :
  route r = Ok r' ->
  length (ro_interfaces r') = length (ro_interfaces r) /\
  Forall (fun an => an_datagrams_out an = []) (ro_interfaces r').
Proof.
  intros H. apply route_loop_queues in H as [HL H]. unfold queues in HL. rewrite !length_fmap in HL.
  split; [done|]. apply Forall_lookup. intros i an Han.
  assert (Hq : queues r' !! i = Some (an_datagrams_out an)).
  { unfold queues.
    by rewrite list_lookup_fmap, Han. }
  rewrite H, bool_decide_eq_true_2 in Hq.
  - destruct (queues r !! i); cbn in Hq; by simplify_eq.
  - apply elem_of_seq. apply lookup_lt_Some in Han. lia.
Qed.

(** [route] returns with the queue of every interface empty: each received
    datagram has been forwarded or dropped. *)
Theorem route_drains r r' :
  route r = Ok r' ->
  length (ro_interfaces r') = length (ro_interfaces r) /\
  Forall (fun an => an_datagrams_out an = []) (ro_interfaces r').
Proof. apply route_empties. Qed.

(** ** Definedness *)

(** The lengths whose mask is computed without overflow. *)
Definition length_ok (e : route_entry) : Prop := rt_length e = 0 \/ 2 <= rt_length e <= 32.

(** A router whose routes lead to its interfaces throws only the exceptions of
    sending a datagram. *)
Definition leads_ok (r : Router) (e : route_entry) : Prop :=
  length_ok e /\ (Z.to_nat (rt_interface e) < length (ro_interfaces r))%nat.

Lemma leads_ok_same r r' l :
  length (ro_interfaces r') = length (ro_interfaces r) -> Forall (leads_ok r) l -> Forall (leads_ok r') l.
Proof. intros E Hl. eapply Forall_impl; [exact Hl|]. intros e [He Hi]. split; [done|by rewrite E]. Qed.

Lemma mask_ok e : length_ok e -> exists m, mask (rt_length e) = Ok m.
Proof.
  unfold mask. intros [->|He]; [by eexists|].
  rewrite (proj2 (Z.eqb_neq _ _)), (proj2 (Z.ltb_ge _ _)), (proj2 (Z.eqb_neq _ _)) by lia. by eexists.
Qed.

Lemma match_loop_ok (P : route_entry -> Prop) dst table : forall best longest,
  Forall (fun e => length_ok e /\ P e) table -> (forall e, best = Some e -> P e) ->
  exists b l, match_loop dst table best longest = Ok (b, l) /\ forall e, b = Some e -> P e.
Proof.
  induction table as [|e table IH]; intros best longest Ht Hb; cbn [match_loop]; [by eexists _, _|].
  apply Forall_cons in Ht as [[He Hp] Ht]. destruct (mask_ok e He) as [m ->]. cbn [mbind res_bind].
  destruct (_ =? _); [|by apply IH]. destruct (_ <? _); [|by apply IH]. apply IH; [done|]. by intros ? [= <-].
Qed.

Lemma from_ipv4_numeric_runtime ip : runtime_only (from_ipv4_numeric ip).
Proof. done. Qed.
#[export] Hint Resolve from_ipv4_numeric_runtime : sponge.

Lemma route_one_runtime d r :
  Forall (leads_ok r) (ro_routing_table r) -> runtime_only (route_one_datagram d r).
Proof.
  intros Ht. unfold route_one_datagram. destruct (_ <=? 1); [done|].
  destruct (match_loop_ok _ (ip_dst (ip_header d)) _ None (-1) Ht) as (b & l & E & Hb); [done|].
  cbn [with_ttl ip_header ip_dst]. rewrite E. cbn [mbind res_bind]. destruct b as [e|]; [|done].
  apply wp_seq; [runtime_cases|]. intros hop _.
  destruct (lookup_lt_is_Some_2 _ _ (Hb e eq_refl)) as [an Ean].
  rewrite (interface_lookup _ _ _ Ean). cbn [mbind res_bind]. runtime_cases.
Qed.

Lemma route_one_table d r r' : route_one_datagram d r = Ok r' -> ro_routing_table r' = ro_routing_table r.
Proof.
  unfold route_one_datagram. destruct (_ <=? 1); [by intros [= <-]|].
  intros ([[b|] l] & _ & H)%res_bind_ok; [|by simplify_eq].
  apply res_bind_ok in H as (hop & _ & H). apply res_bind_ok in H as (an & _ & H).
  by apply res_bind_ok in H as (ni & _ & [= <-]).
Qed.

Lemma route_one_length d r r' :
  route_one_datagram d r = Ok r' -> length (ro_interfaces r') = length (ro_interfaces r).
Proof.
  intros E%route_one_queues. apply (f_equal length) in E. unfold queues in E. by rewrite !length_fmap in E.
Qed.

Lemma drain_loop_runtime i q : forall r,
  Forall (leads_ok r) (ro_routing_table r) -> (i < length (ro_interfaces r))%nat -> runtime_only (drain_loop i q r).
Proof.
  induction q as [|d q IH]; intros r Ht Hi; cbn [drain_loop]; [done|].
  apply wp_seq; [by apply route_one_runtime|]. intros r1 E.
  pose proof (route_one_table _ _ _ E) as Et. pose proof (route_one_length _ _ _ E) as Hl.
  destruct (ro_interfaces r1 !! i) as [an|] eqn:Ei; [|apply lookup_ge_None in Ei; lia].
  apply IH; cbn; [|rewrite length_insert; lia]. rewrite Et. eapply leads_ok_same; [|exact Ht].
  cbn. by rewrite length_insert.
Qed.

Lemma drain_loop_table i q : forall r r', drain_loop i q r = Ok r' -> ro_routing_table r' = ro_routing_table r.
Proof.
  induction q as [|d q IH]; intros r r' E; cbn [drain_loop] in E; [by injection E as <-|].
  apply res_bind_ok in E as (r1 & E1%route_one_table & E). destruct (_ !! i); [|done].
  apply IH in E. cbn in E. congruence.
Qed.

Lemma drain_loop_length i q r r' :
  queues r !! i = Some q -> drain_loop i q r = Ok r' -> length (ro_interfaces r') = length (ro_interfaces r).
Proof.
  intros Hq E. apply (drain_loop_queues _ _ _ _ Hq) in E. apply (f_equal length) in E.
  unfold queues in E. by rewrite length_insert, !length_fmap in E.
Qed.

Lemma route_loop_runtime l : forall r,
  Forall (leads_ok r) (ro_routing_table r) -> Forall (fun i => (i < length (ro_interfaces r))%nat) l ->
  runtime_only (route_loop l r).
Proof.
  induction l as [|i l IH]; intros r Ht Hl; cbn [route_loop]; [done|]. apply Forall_cons in Hl as [Hi Hl].
  destruct (ro_interfaces r !! i) as [an|] eqn:Ei; [|apply lookup_ge_None in Ei; lia].
  apply wp_seq; [by apply drain_loop_runtime|]. intros r1 E.
  assert (El : length (ro_interfaces r1) = length (ro_interfaces r)).
  { apply (drain_loop_length i (an_datagrams_out an)); [|exact E]. unfold queues. by rewrite list_lookup_fmap, Ei. }
  apply IH; [|by rewrite El]. rewrite (drain_loop_table _ _ _ _ E). by eapply leads_ok_same.
Qed.

Lemma route_loop_table l : forall r r', route_loop l r = Ok r' -> ro_routing_table r' = ro_routing_table r.
Proof.
  induction l as [|i l IH]; intros r r' E; cbn [route_loop] in E; [by injection E as <-|].
  destruct (_ !! i) as [an|]; [|done]. apply res_bind_ok in E as (r1 & E1%drain_loop_table & E%IH). congruence.
Qed.

Lemma route_runtime r : Forall (leads_ok r) (ro_routing_table r) -> runtime_only (route r).
Proof.
  intros Ht. apply route_loop_runtime; [done|]. apply Forall_forall. intros i Hi. apply elem_of_seq in Hi. lia.
Qed.

Lemma async_recv_frame_runtime h b an : buf_ok b -> runtime_only (async_recv_frame (mkEthernetFrame h [b]) an).
Proof.
  intros Hb. unfold async_recv_frame. apply wp_seq; [by apply recv_frame_runtime|]. by intros [o ni] _.
Qed.

(** ** A datagram that stops the router *)

Lemma serialize_bad_version d :
  ip_ver (ip_header d) <> 4 -> bl_size (ip_payload d) = payload_length (ip_header d) ->
  IPv4Datagram_serialize d = Throw runtime_error.
Proof.
  intros Hv Hs. unfold IPv4Datagram_serialize. rewrite Hs, Z.eqb_refl. cbn [negb].
  unfold IPv4Header_serialize. cbn [with_ip_cksum ip_ver].
  by rewrite (proj2 (Z.eqb_neq _ _) Hv).
Qed.

Lemma lpm_single dst e best : route_matches dst e -> lpm dst [e] best -> best = Some e.
Proof.
  intros Hm. destruct best as [b|]; cbn.
  - intros (l1 & l2 & E & _). destruct l1 as [|x l1]; [by simplify_eq/=|].
    simplify_eq/=. by destruct l1.
  - intros HF. by inversion HF.
Qed.

(** A frame whose IP header has a version other than 4 is accepted by an
    interface of the router and queued; when the route of its destination leads
    to a neighbour whose Ethernet address is known, forwarding it throws out of
    [route_one_datagram], so that no datagram behind it is routed. *)
Theorem bad_version_stops_router h c pl src an r e hop ip mac t out :
  ip_fields h -> ip_ver h <> 4 -> ip_hlen h = 5 -> is_u16 c -> payload_length h = zlen pl ->
  1 < ip_ttl h ->
  ro_routing_table r = [e] -> route_ok e -> route_matches (ip_dst h) e -> rt_next_hop e = Some hop ->
  ipv4_numeric hop = Ok ip -> ro_interfaces r !! Z.to_nat (rt_interface e) = Some out ->
  zmap_find ip (ni_mapping_cache (an_interface out)) = Some (mac, t) -> mac <> ETHERNET_BROADCAST ->
  let frame := make_frame src (ni_ethernet_address (an_interface an)) TYPE_IPv4
                 [Buffer_of (ip_bytes h c ++ pl)] in
  exists d,
    async_recv_frame frame an = Ok (mkAsync (an_interface an) (an_datagrams_out an ++ [d])) /\
    route_one_datagram d r = Throw runtime_error.
Proof.
  intros Hf Hv H5 Hc Hpl Httl Htab Hok Hm Hhop Hip Hout Hmac Hne frame.
  destruct (datagram_accepted IPv4Datagram_default h c pl Hf H5 Hc Hpl) as (b & Hb & Hp).
  exists (mkIPv4Datagram (with_ip_cksum c h) [b]). split.
  - unfold async_recv_frame, recv_frame, frame, make_frame. cbn [fr_header eth_dst eth_type fr_payload].
    rewrite (bool_decide_eq_true_2 (ni_ethernet_address (an_interface an) = ni_ethernet_address (an_interface an))) by done.
    rewrite andb_false_r. change (TYPE_IPv4 =? TYPE_IPv4) with true. cbv iota.
    rewrite append_app. cbn [app to_Buffer mbind res_bind]. rewrite Hp. done.
  - assert (Hd : is_u32 (ip_dst h)) by (destruct Hf as (_ & _ & _ & _ & _ & _ & _ & _ & _ & Hd); exact Hd).
    unfold route_one_datagram. cbn [ip_header with_ip_cksum ip_ttl with_ttl ip_dst].
    rewrite (proj2 (Z.leb_gt _ _) Httl), Htab.
    destruct (match_loop_spec (ip_dst h) [e] [] None (-1) Hd) as (best & longest & E & Hl);
      [by apply Forall_singleton|constructor|constructor|done|].
    apply (lpm_single _ _ _ Hm) in Hl as ->. rewrite E. cbn [mbind res_bind]. rewrite Hhop.
    cbn [mbind res_bind]. rewrite (interface_lookup _ _ _ Hout). cbn [mbind res_bind].
    unfold send_datagram. rewrite Hip. cbn [mbind res_bind]. rewrite Hmac, bool_decide_eq_false_2 by done.
    rewrite serialize_bad_version; [done|done|].
    cbn [with_ttl ip_payload ip_header]. unfold bl_size, buf_size. cbn [fold_left].
    change (payload_length _) with (payload_length h). rewrite Hb, Hpl. apply u64_small.
    assert (zlen pl < 2 ^ 16) by (rewrite <- Hpl; apply u16_range). word_lia.
Qed.

(** One interface, one route 10.0.0.0/8 via 10.0.0.2, whose address is known. *)
Definition example_neighbour : AsyncNetworkInterface :=
  AsyncNetworkInterface_of (set_cache [(167772162, (example_mac, 0))] example_ni).
Definition example_route : route_entry := mkRoute 167772160 8 (Some (ipv4_address 167772162)) 0.
Definition example_router : Router := mkRouter [example_neighbour] [example_route].

Lemma example_route_ok : route_ok example_route.
Proof. split; cbn; word_lia. Qed.

Lemma forwarding_witness :
  exists best, lpm 167772162 [example_route] best /\ is_ok (route_one_datagram example_dgram example_router) = true.
Proof.
  pose proof (forwarding example_dgram example_router
    (proj2 (Forall_singleton _ _) example_route_ok) ltac:(cbn; word_lia) ltac:(cbn; word_lia)) as H.
  change (ip_ttl (ip_header example_dgram) <=? 1) with false in H. cbv iota in H.
  destruct H as (best & Hl & _). exists best. split; [exact Hl|vm_compute; reflexivity].
Defined.

Lemma route_drains_witness :
  exists r', route (mkRouter [mkAsync (an_interface example_neighbour) [example_dgram]] [example_route]) = Ok r' /\
    Forall (fun an => an_datagrams_out an = []) (ro_interfaces r').
Proof.
  destruct (route (mkRouter [mkAsync (an_interface example_neighbour) [example_dgram]] [example_route]))
    as [r'| |] eqn:E; [|vm_compute in E; discriminate..].
  exists r'. split; [reflexivity|]. apply (route_drains _ r' E).
Defined.

Lemma bad_version_stops_router_witness :
  exists d, route_one_datagram d example_router = Throw runtime_error.
Proof.
  destruct (bad_version_stops_router (mkIPv4Header 6 5 0 21 0 false false 0 64 6 0 1 167772165) 0 [x07]
    example_mac example_neighbour example_router example_route (ipv4_address 167772162) 167772162
    example_mac 0 example_neighbour) as (d & _ & H); try reflexivity.
  - unfold ip_fields. cbn. word_lia.
  - discriminate.
  - word_lia.
  - apply example_route_ok.
  - split; reflexivity.
  - discriminate.
  - exists d. exact H.
Defined.
