(* ===== verification/NetworkSimulator.v ===== *)
(** * The network simulator

    Models [src/apps/network_simulator.cc]: hosts and a router joined by simulated
    links, the expectations of the hosts, and the scenarios the program runs
    ([random_host_ethernet_address] and its like included; the printed summaries
    left out).  Numbers come from the generator [rd], a stream of 32-bit values.
    The hosts are kept in a list: the program looks them up by name, and the order
    in which it checks them does not matter to the outcome. *)

From Stdlib Require Import Strings.String DecimalString.
From stdpp Require Import strings.
From S2P Require Import Prelude Buffers Parser Checksum StdMap IPv4 Address Ethernet NetworkInterface Router.

Record Host := mkHost {
  ho_name : string;                            (* _name *)
  ho_my_address : Address;                     (* _my_address *)
  ho_interface : AsyncNetworkInterface;        (* _interface *)
  ho_next_hop : Address;                       (* _next_hop *)
  ho_expecting : list InternetDatagram         (* _expecting_to_receive *)
}.

Definition set_host_interface (i : AsyncNetworkInterface) (h : Host) : Host :=
  mkHost (ho_name h) (ho_my_address h) i (ho_next_hop h) (ho_expecting h).
Definition set_expecting (l : list InternetDatagram) (h : Host) : Host :=
  mkHost (ho_name h) (ho_my_address h) (ho_interface h) (ho_next_hop h) l.

(** [dgram.serialize().concatenate()]. *)
Definition wire_of (d : InternetDatagram) : res (list byte) :=
  bl ← IPv4Datagram_serialize d; Ok (concatenate bl).

(** [x.serialize().concatenate() == expected.serialize().concatenate()]. *)
Definition same_wire (x expected : InternetDatagram) : res bool :=
  a ← wire_of x;
  b ← wire_of expected;
  Ok (bool_decide (a = b)).

Fixpoint expecting (expected : InternetDatagram) (l : list InternetDatagram) : res bool :=
  match l with
  | [] => Ok false
  | x :: l' => same ← same_wire x expected; if (same : bool) then Ok true else expecting expected l'
  end.

Fixpoint remove_expectation (expected : InternetDatagram) (l : list InternetDatagram)
  : res (list InternetDatagram) :=
  match l with
  | [] => Ok []
  | x :: l' =>
      same ← same_wire x expected;
      if (same : bool) then Ok l' else l'' ← remove_expectation expected l'; Ok (x :: l'')
  end.

Definition expect (expected : InternetDatagram) (h : Host) : Host :=
  set_expecting (ho_expecting h ++ [expected]) h.

(** The loop of [check] over the received datagrams. *)
Fixpoint check_loop (received expected : list InternetDatagram) : res (list InternetDatagram) :=
  match received with
  | [] => Ok expected
  | dgram_received :: rest =>
      ok ← expecting dgram_received expected;
      if negb ok then Throw runtime_error
      else expected ← remove_expectation dgram_received expected; check_loop rest expected
  end.

Definition check (h : Host) : res Host :=
  expected ← check_loop (an_datagrams_out (ho_interface h)) (ho_expecting h);
  match expected with
  | [] => Ok (set_expecting [] (set_host_interface (mkAsync (an_interface (ho_interface h)) []) h))
  | _ :: _ => Throw runtime_error
  end.

(** ** The network *)

Definition frames_out (an : AsyncNetworkInterface) : list EthernetFrame := ni_frames_out (an_interface an).
Definition set_frames_out (q : list EthernetFrame) (an : AsyncNetworkInterface) : AsyncNetworkInterface :=
  let ni := an_interface an in
  mkAsync (mkInterface (ni_ethernet_address ni) (ni_ip_address ni) q (ni_mapping_cache ni) (ni_ARP_queue ni))
    (an_datagrams_out an).

(** [clear]: pops both queues until the first is empty. *)
Fixpoint clear_queue (queue1 queue2 : list EthernetFrame) : res (list EthernetFrame) :=
  match queue1, queue2 with
  | [], _ => Ok queue2
  | _ :: q1, _ :: q2 => clear_queue q1 q2
  | _ :: _, [] => Undefined
  end.

(** [deliver]: every frame, its payload in one buffer. *)
Fixpoint deliver (src : list EthernetFrame) (dst : AsyncNetworkInterface) : res AsyncNetworkInterface :=
  match src with
  | [] => Ok dst
  | frame :: rest =>
      dst ← async_recv_frame
        (mkEthernetFrame (fr_header frame) [Buffer_of (concatenate (fr_payload frame))]) dst;
      deliver rest dst
  end.

Definition clear_frames (frames : list EthernetFrame) (an : AsyncNetworkInterface) : res AsyncNetworkInterface :=
  q ← clear_queue frames (frames_out an); Ok (set_frames_out q an).

Definition exchange_frames (x y : AsyncNetworkInterface) : res (AsyncNetworkInterface * AsyncNetworkInterface) :=
  let x_frames := frames_out x in
  let y_frames := frames_out y in
  y ← deliver x_frames y;
  x ← deliver y_frames x;
  x ← clear_frames x_frames x;
  y ← clear_frames y_frames y;
  Ok (x, y).

Definition exchange_frames3 (x y z : AsyncNetworkInterface)
  : res (AsyncNetworkInterface * AsyncNetworkInterface * AsyncNetworkInterface) :=
  let x_frames := frames_out x in
  let y_frames := frames_out y in
  let z_frames := frames_out z in
  y ← deliver x_frames y;
  z ← deliver x_frames z;
  x ← deliver y_frames x;
  z ← deliver y_frames z;
  x ← deliver z_frames x;
  y ← deliver z_frames y;
  x ← clear_frames x_frames x;
  y ← clear_frames y_frames y;
  z ← clear_frames z_frames z;
  Ok (x, y, z).

Record Network := mkNetwork {
  nw_router : Router;                          (* _router *)
  default_id : Z; eth0_id : Z; eth1_id : Z; eth2_id : Z; uun3_id : Z; hs4_id : Z; mit5_id : Z;
  nw_hosts : list (string * Host)              (* _hosts *)
}.

Definition set_router (r : Router) (n : Network) : Network :=
  mkNetwork r (default_id n) (eth0_id n) (eth1_id n) (eth2_id n) (uun3_id n) (hs4_id n) (mit5_id n) (nw_hosts n).
Definition set_hosts (l : list (string * Host)) (n : Network) : Network :=
  mkNetwork (nw_router n) (default_id n) (eth0_id n) (eth1_id n) (eth2_id n) (uun3_id n) (hs4_id n) (mit5_id n) l.

Fixpoint find_host (name : string) (l : list (string * Host)) : option Host :=
  match l with
  | [] => None
  | (key, h) :: l' => if bool_decide (key = name) then Some h else find_host name l'
  end.

Definition host (name : string) (n : Network) : res Host :=
  match find_host name (nw_hosts n) with
  | None => Throw runtime_error
  | Some h => if negb (bool_decide (ho_name h = name)) then Throw runtime_error else Ok h
  end.

(** Writing through the reference [host(name)]. *)
Definition update_host (name : string) (h : Host) (n : Network) : Network :=
  set_hosts (map (fun kh => if bool_decide (kh.1 = name) then (kh.1, h) else kh) (nw_hosts n)) n.

(** A cable between the interface [id] of the router and a host. *)
Definition connect_host (id : Z) (name : string) (n : Network) : res Network :=
  x ← interface id (nw_router n);
  h ← host name n;
  xy ← exchange_frames x (ho_interface h);
  let n := set_router (set_interface id (fst xy) (nw_router n)) n in
  Ok (update_host name (set_host_interface (snd xy) h) n).

Definition simulate_physical_connections (n : Network) : res Network :=
  n ← connect_host (default_id n) "default_router" n;
  n ← connect_host (eth0_id n) "applesauce" n;
  n ← connect_host (eth2_id n) "cherrypie" n;
  n ← connect_host (hs4_id n) "hs_router" n;
  x ← interface (uun3_id n) (nw_router n);
  y ← host "dm42" n;
  z ← host "dm43" n;
  xyz ← exchange_frames3 x (ho_interface y) (ho_interface z);
  let '(x', y', z') := xyz in
  let n := set_router (set_interface (uun3_id n) x' (nw_router n)) n in
  let n := update_host "dm42" (set_host_interface y' y) n in
  Ok (update_host "dm43" (set_host_interface z' z) n).

Fixpoint simulate_rounds (rounds : nat) (n : Network) : res Network :=
  match rounds with
  | O => Ok n
  | S rounds' =>
      r ← route (nw_router n);
      n ← simulate_physical_connections (set_router r n);
      simulate_rounds rounds' n
  end.

Fixpoint check_hosts (l : list (string * Host)) : res (list (string * Host)) :=
  match l with
  | [] => Ok []
  | (key, h) :: l' => h ← check h; l' ← check_hosts l'; Ok ((key, h) :: l')
  end.

Definition simulate (n : Network) : res Network :=
  n ← simulate_rounds 256 n;
  l ← check_hosts (nw_hosts n);
  Ok (set_hosts l n).

(** ** Random values *)

(** [rd n] is the value of the [n]-th call. *)
Section Simulator.
Context (rd : nat -> Z) `{Resolver}.

Definition random_bytes (k : nat) : EthernetAddress := map (fun i => byte_of (rd (k + i))) (seq 0 6).

(** The bits [random_private_ethernet_address] sets too. *)
Definition random_host_ethernet_address (k : nat) : EthernetAddress * nat :=
  (random_private_ethernet_address (random_bytes k), (k + 6)%nat).

Definition random_router_ethernet_address (k : nat) : EthernetAddress * nat :=
  match random_bytes k with
  | _ :: _ :: _ :: rest => (x02 :: x00 :: x00 :: rest, (k + 6)%nat)
  | l => (l, (k + 6)%nat)
  end.

(** The address made from a dotted quad. *)
Definition address (ip : Z) : res Address := Address_of_ip_port ip 0.
Definition ip (q : Z) : res Z := a ← address q; ipv4_numeric a.

(** [std::to_string]. *)
Definition to_string (x : Z) : string := DecimalString.NilZero.string_of_uint (N.to_uint (Z.to_N x)).

Definition Host_new (name : string) (my_address next_hop : Address) (k : nat) : Host * nat :=
  let '(eth, k) := random_host_ethernet_address k in
  (mkHost name my_address (AsyncNetworkInterface_of (NetworkInterface_new eth my_address)) next_hop [], k).

Definition send_to (destination : Address) (ttl : Z) (h : Host) (k : nat)
  : res (InternetDatagram * Host * nat) :=
  src ← ipv4_numeric (ho_my_address h);
  dst ← ipv4_numeric destination;
  let payload := [Buffer_of (String.list_byte_of_string ("random payload: {" +:+ to_string (rd k) +:+ "}"))] in
  let d := IPv4Header_default in
  let len := u16 (ip_hlen d * 4 + bl_size payload) in
  let dgram := mkIPv4Datagram
    (mkIPv4Header (ip_ver d) (ip_hlen d) (ip_tos d) len (ip_id d) (ip_df d) (ip_mf d) (ip_offset d) ttl
       (ip_proto d) (ip_cksum d) src dst) payload in
  ni ← send_datagram dgram (ho_next_hop h) (an_interface (ho_interface h));
  Ok (dgram, set_host_interface (mkAsync ni (an_datagrams_out (ho_interface h))) h, S k).

(** ** [Network()] *)

Definition add_router_interface (q : Z) (r : Router) (k : nat) : res (Z * Router * nat) :=
  let '(eth, k) := random_router_ethernet_address k in
  a ← address q;
  let '(id, r) := add_interface (AsyncNetworkInterface_of (NetworkInterface_new eth a)) r in
  Ok (id, r, k).

(** [_hosts.insert]. *)
Definition insert_host (name : string) (my_address next_hop : Z) (l : list (string * Host)) (k : nat)
  : res (list (string * Host) * nat) :=
  a ← address my_address;
  hop ← address next_hop;
  let '(h, k) := Host_new name a hop k in
  Ok (match find_host name l with Some _ => l | None => l ++ [(name, h)] end, k).

Definition build_router (k : nat) : res (Router * (Z * Z * Z * Z * Z * Z * Z) * nat) :=
  r ← add_router_interface (quad 171 67 76 46) Router_new k; let '(i0, r, k) := r in
  r ← add_router_interface (quad 10 0 0 1) r k; let '(i1, r, k) := r in
  r ← add_router_interface (quad 172 16 0 1) r k; let '(i2, r, k) := r in
  r ← add_router_interface (quad 192 168 0 1) r k; let '(i3, r, k) := r in
  r ← add_router_interface (quad 198 178 229 1) r k; let '(i4, r, k) := r in
  r ← add_router_interface (quad 143 195 0 2) r k; let '(i5, r, k) := r in
  r ← add_router_interface (quad 128 30 76 255) r k; let '(i6, r, k) := r in
  Ok (r, (i0, i1, i2, i3, i4, i5, i6), k).

Definition build_hosts (k : nat) : res (list (string * Host) * nat) :=
  l ← insert_host "applesauce" (quad 10 0 0 2) (quad 10 0 0 1) [] k; let '(l, k) := l in
  l ← insert_host "default_router" (quad 171 67 76 1) 0 l k; let '(l, k) := l in
  l ← insert_host "cherrypie" (quad 192 168 0 2) (quad 192 168 0 1) l k; let '(l, k) := l in
  l ← insert_host "hs_router" (quad 143 195 0 1) 0 l k; let '(l, k) := l in
  l ← insert_host "dm42" (quad 198 178 229 42) (quad 198 178 229 1) l k; let '(l, k) := l in
  insert_host "dm43" (quad 198 178 229 43) (quad 198 178 229 1) l k.

Definition route_via (q prefix_length : Z) (next_hop : option Address) (id : Z) (n : Network) : res Network :=
  prefix ← ip q;
  Ok (set_router (add_route prefix prefix_length next_hop id (nw_router n)) n).

Definition Network_new (k : nat) : res (Network * nat) :=
  r ← build_router k;
  let '(router, (i0, i1, i2, i3, i4, i5, i6), k) := r in
  l ← build_hosts k;
  let '(hosts, k) := l in
  let n := mkNetwork router i0 i1 i2 i3 i4 i5 i6 hosts in
  default_router ← host "default_router" n;
  n ← route_via (quad 0 0 0 0) 0 (Some (ho_my_address default_router)) (default_id n) n;
  n ← route_via (quad 10 0 0 0) 8 None (eth0_id n) n;
  n ← route_via (quad 172 16 0 0) 16 None (eth1_id n) n;
  n ← route_via (quad 192 168 0 0) 24 None (eth2_id n) n;
  n ← route_via (quad 198 178 229 0) 24 None (uun3_id n) n;
  hs ← host "hs_router" n;
  n ← route_via (quad 143 195 0 0) 17 (Some (ho_my_address hs)) (hs4_id n) n;
  n ← route_via (quad 143 195 128 0) 18 (Some (ho_my_address hs)) (hs4_id n) n;
  n ← route_via (quad 143 195 192 0) 19 (Some (ho_my_address hs)) (hs4_id n) n;
  mit ← address (quad 128 30 0 1);
  n ← route_via (quad 128 30 76 255) 16 (Some mit) (mit5_id n) n;
  Ok (n, k).

(** ** The scenarios *)

(** [network.host(from).send_to(destination, ttl)]. *)
Definition host_send (from : string) (destination : Address) (ttl : Z) (nk : Network * nat)
  : res (InternetDatagram * (Network * nat)) :=
  let '(n, k) := nk in
  h ← host from n;
  r ← send_to destination ttl h k;
  let '(dgram_sent, h, k) := r in
  Ok (dgram_sent, (update_host from h n, k)).

(** Send, count down the TTL, expect at [receiver], simulate. *)
Definition send_expect (from : string) (destination : Address) (receiver : string) (nk : Network * nat)
  : res (Network * nat) :=
  r ← host_send from destination 64 nk;
  let '(dgram_sent, (n, k)) := r in
  let dgram_sent := with_ttl (u8 (ip_ttl (ip_header dgram_sent) - 1)) dgram_sent in
  h ← host receiver n;
  n ← simulate (update_host receiver (expect dgram_sent h) n);
  Ok (n, k).

Definition send_to_host (from to : string) (nk : Network * nat) : res (Network * nat) :=
  h ← host to nk.1;
  send_expect from (ho_my_address h) to nk.

Definition send_to_quad (from : string) (q : Z) (receiver : string) (nk : Network * nat) : res (Network * nat) :=
  a ← address q;
  send_expect from a receiver nk.

(** A datagram whose TTL runs out: nothing is expected. *)
Definition send_expiring (q ttl : Z) (nk : Network * nat) : res (Network * nat) :=
  a ← address q;
  r ← host_send "applesauce" a ttl nk;
  n ← simulate (r.2).1;
  Ok (n, (r.2).2).

Definition network_simulator (k : nat) : res (Network * nat) :=
  nk ← Network_new k;
  nk ← send_to_host "applesauce" "cherrypie" nk;
  nk ← send_to_host "cherrypie" "applesauce" nk;
  nk ← send_to_quad "applesauce" (quad 1 2 3 4) "default_router" nk;
  nk ← send_to_quad "applesauce" (quad 143 195 131 17) "hs_router" nk;
  nk ← send_to_quad "cherrypie" (quad 143 195 193 52) "hs_router" nk;
  nk ← send_to_quad "cherrypie" (quad 143 195 223 255) "hs_router" nk;
  nk ← send_to_quad "cherrypie" (quad 143 195 224 0) "default_router" nk;
  nk ← send_to_host "dm42" "dm43" nk;
  nk ← send_expiring (quad 1 2 3 4) 1 nk;
  send_expiring (quad 1 2 3 4) 0 nk.
End Simulator.

(** ** What [check] checks *)

Definition wire (d : InternetDatagram) : list byte := match wire_of d with Ok w => w | _ => [] end.
Definition serializes (d : InternetDatagram) : Prop := is_ok (wire_of d) = true.

Lemma wire_of_ok d : serializes d -> wire_of d = Ok (wire d).
Proof. unfold serializes, wire. by destruct (wire_of d). Qed.

Lemma same_wire_ok x d :
  serializes x -> serializes d -> same_wire x d = Ok (bool_decide (wire x = wire d)).
Proof. intros Hx Hd. unfold same_wire. by rewrite !wire_of_ok. Qed.

Lemma expecting_ok d l :
  serializes d -> Forall serializes l ->
  expecting d l = Ok (bool_decide (wire d ∈ map wire l)).
Proof.
  intros Hd. induction 1 as [|x l Hx Hl IH]; cbn [expecting map]; [done|].
  rewrite same_wire_ok by done. cbn [mbind res_bind]. destruct (bool_decide (wire x = wire d)) eqn:E.
  - apply bool_decide_eq_true_1 in E. rewrite (bool_decide_true (wire d ∈ _)); [done|]. rewrite E. left.
  - apply bool_decide_eq_false_1 in E. rewrite IH. f_equal. apply bool_decide_ext.
    rewrite elem_of_cons. split; [by right|]. intros [?|?]; [congruence|done].
Qed.

Lemma remove_expectation_ok d l :
  serializes d -> Forall serializes l -> wire d ∈ map wire l ->
  exists l', remove_expectation d l = Ok l' /\ map wire l ≡ₚ wire d :: map wire l' /\ Forall serializes l'.
Proof.
  intros Hd Hl. induction Hl as [|x l Hx Hl IH]; cbn [remove_expectation map]; [by intros ?%not_elem_of_nil|].
  rewrite same_wire_ok by done. cbn [mbind res_bind]. intros Hin. destruct (bool_decide _) eqn:E.
  - apply bool_decide_eq_true_1 in E. exists l. rewrite E. by split_and!.
  - apply bool_decide_eq_false_1 in E. apply elem_of_cons in Hin as [?|Hin]; [congruence|].
    destruct (IH Hin) as (l' & -> & Hp & Hl'). exists (x :: l'). cbn [mbind res_bind map].
    split_and!; [done|by rewrite Hp, Permutation_swap|by constructor].
Qed.

Lemma check_loop_ok received : forall expected,
  Forall serializes received -> Forall serializes expected ->
  (exists rest, check_loop received expected = Ok rest /\ map wire expected ≡ₚ map wire received ++ map wire rest) \/
  (check_loop received expected = Throw runtime_error /\
   ~ exists l, map wire expected ≡ₚ map wire received ++ l).
Proof.
  induction received as [|d received IH]; intros expected Hr He; cbn [check_loop map app].
  { left. by exists expected. }
  apply Forall_cons in Hr as [Hd Hr]. rewrite expecting_ok by done. cbn [mbind res_bind].
  destruct (bool_decide _) eqn:E; cbn [negb].
  - apply bool_decide_eq_true_1 in E. destruct (remove_expectation_ok d expected Hd He E) as (l' & -> & Hp & Hl').
    cbn [mbind res_bind]. destruct (IH l' Hr Hl') as [(rest & -> & Hp')|[-> Hn]].
    + left. exists rest. split; [done|]. by rewrite Hp, Hp'.
    + right. split; [done|]. intros [l Hl]. apply Hn. exists l. rewrite Hp in Hl. by apply Permutation_cons_inv in Hl.
  - apply bool_decide_eq_false_1 in E. right. split; [done|]. intros [l Hl]. apply E. rewrite Hl. left.
Qed.

(** C37.  The check of a host is exact: it passes if and only if the datagrams the
    host received are, as bytes on the wire and up to their order, those it
    expected, each as often as expected; otherwise it throws. *)
Theorem check_exact h :
  Forall serializes (an_datagrams_out (ho_interface h)) -> Forall serializes (ho_expecting h) ->
  if bool_decide (map wire (an_datagrams_out (ho_interface h)) ≡ₚ map wire (ho_expecting h))
  then exists h', check h = Ok h' /\ an_datagrams_out (ho_interface h') = [] /\ ho_expecting h' = []
  else check h = Throw runtime_error.
Proof.
  intros Hr He. unfold check. destruct (bool_decide _) eqn:E.
  - apply bool_decide_eq_true_1 in E. destruct (check_loop_ok _ _ Hr He) as [(rest & -> & Hp)|[_ Hn]].
    + rewrite E in Hp. rewrite <- (app_nil_r (map wire (ho_expecting h))) in Hp at 1.
      apply Permutation_app_inv_l, Permutation_nil in Hp. destruct rest; [|done]. by eexists.
    + exfalso. apply Hn. exists []. by rewrite app_nil_r, E.
  - apply bool_decide_eq_false_1 in E. destruct (check_loop_ok _ _ Hr He) as [(rest & -> & Hp)|[-> _]]; [|done].
    destruct rest; [|done]. cbn in Hp. rewrite app_nil_r in Hp. by rewrite Hp in E.
Qed.

(** ** A run of the program *)

Definition example_rd (n : nat) : Z := u32 (Z.of_nat n * 1103515245 + 12345).

(** The whole program succeeds with the generator [example_rd]: every
    datagram of its ten scenarios reaches the host that expects it through the
    router, ARP included, those whose TTL runs out reach nobody, and nothing is
    left undelivered. *)
Theorem network_simulator_succeeds :
  match @network_simulator example_rd numeric_Resolver 0 with
  | Ok (n, _) => Forall (fun kh => an_datagrams_out (ho_interface kh.2) = [] /\ ho_expecting kh.2 = []) (nw_hosts n) /\
                 Forall (fun an => an_datagrams_out an = [] /\ frames_out an = []) (ro_interfaces (nw_router n))
  | _ => False
  end.
Proof. vm_compute. repeat constructor. Qed.

Definition example_reply : InternetDatagram := with_ttl 3 example_dgram.
Definition example_host : Host :=
  mkHost "cherrypie" (ipv4_address (quad 192 168 0 2))
    (mkAsync (NetworkInterface_new example_mac (ipv4_address (quad 192 168 0 2))) [example_dgram; example_reply])
    (ipv4_address (quad 192 168 0 1)) [example_reply; example_dgram].

(** Two datagrams, received in the other order. *)
Lemma check_exact_witness : exists h', check example_host = Ok h' /\
  an_datagrams_out (ho_interface h') = [] /\ ho_expecting h' = [].
Proof.
  pose proof (check_exact example_host) as H. rewrite bool_decide_true in H.
  - apply H; repeat constructor; vm_compute; reflexivity.
  - apply Permutation_swap.
Defined.
