(* ===== verification/Adapters.v ===== *)
(** * Adapters between TCP segments and datagrams

    Models [src/libsponge/tcp_helpers/fd_adapter.hh], [.cc], [tcp_over_ip.hh],
    [.cc], [tuntap_adapter.hh], [.cc], [lossy_fd_adapter.hh] and class
    [FdAdapterConfig] of [tcp_config.hh].  [AdaptT] is the interface a socket
    uses, with an instance per adapter; [AdapterSpec] what it relies on. *)

From S2P Require Import Prelude WrappingIntegers Buffers Parser Checksum TCPSegment IPv4 Address.
From S2P Require Import FileDescriptor Ethernet StdMap NetworkInterface.

Record FdAdapterConfig := mkFdAdapterConfig {
  cf_source : Address;          (* source *)
  cf_destination : Address;     (* destination *)
  loss_rate_dn : Z;
  loss_rate_up : Z
}.

Record FdAdapterBase := mkAdapterBase {
  fa_cfg : FdAdapterConfig;     (* _cfg *)
  fa_listen : bool              (* _listen *)
}.

Definition set_listening (l : bool) (a : FdAdapterBase) : FdAdapterBase := mkAdapterBase (fa_cfg a) l.
Definition listening (a : FdAdapterBase) : bool := fa_listen a.
Definition config (a : FdAdapterBase) : FdAdapterConfig := fa_cfg a.

(** Assignments through [config_mutable()] and [config_mut()]. *)
Definition set_config (c : FdAdapterConfig) (a : FdAdapterBase) : FdAdapterBase :=
  mkAdapterBase c (fa_listen a).
Definition set_source (s : Address) (a : FdAdapterBase) : FdAdapterBase :=
  let c := fa_cfg a in set_config (mkFdAdapterConfig s (cf_destination c) (loss_rate_dn c) (loss_rate_up c)) a.
Definition set_destination (d : Address) (a : FdAdapterBase) : FdAdapterBase :=
  let c := fa_cfg a in set_config (mkFdAdapterConfig (cf_source c) d (loss_rate_dn c) (loss_rate_up c)) a.

Definition with_ports (sp dp : Z) (seg : TCPSegment) : TCPSegment :=
  let h := header seg in
  mkTCPSegment
    (mkTCPHeader sp dp (seqno h) (ackno h) (doff h) (urg h) (ack h) (psh h) (rst h) (syn h) (fin h)
       (win h) (cksum h) (uptr h)) (payload seg).

(** ** TCP in IPv4 *)

Section TCPOverIPv4.
Context `{Resolver}.

(** The default [FdAdapterConfig]: address "0" and port 0 twice. *)
Definition FdAdapterConfig_default : res FdAdapterConfig :=
  source ← Address_of_ip_port 0 0;
  destination ← Address_of_ip_port 0 0;
  Ok (mkFdAdapterConfig source destination 0 0).

(** The checks on the IP header, in order. *)
Definition dgram_for_us (ip_dgram : InternetDatagram) (a : FdAdapterBase) : res bool :=
  if listening a then Ok (ip_proto (ip_header ip_dgram) =? PROTO_TCP)
  else
    src ← ipv4_numeric (cf_source (config a));
    if negb (ip_dst (ip_header ip_dgram) =? src) then Ok false
    else
      dst ← ipv4_numeric (cf_destination (config a));
      if negb (ip_src (ip_header ip_dgram) =? dst) then Ok false
      else Ok (ip_proto (ip_header ip_dgram) =? PROTO_TCP).

(** The listening adapter takes the addresses of the segment with the SYN. *)
Definition accept_peer (ip_dgram : InternetDatagram) (tcp_seg : TCPSegment) (a : FdAdapterBase)
  : res FdAdapterBase :=
  p ← port (cf_source (config a));
  source ← Address_of_ip_port (ip_dst (ip_header ip_dgram)) p;
  let a := set_source source a in
  destination ← Address_of_ip_port (ip_src (ip_header ip_dgram)) (sport (header tcp_seg));
  let a := set_destination destination a in
  Ok (set_listening false a).

Definition unwrap_tcp_in_ip (ip_dgram : InternetDatagram) (a : FdAdapterBase)
  : res (option TCPSegment * FdAdapterBase) :=
  ok ← dgram_for_us ip_dgram a;
  if negb ok then Ok (None, a)
  else
    buf ← to_Buffer (ip_payload ip_dgram);
    r ← TCPSegment_parse TCPSegment_default buf (pseudo_cksum (ip_header ip_dgram));
    let '(result, tcp_seg) := r in
    if negb (bool_decide (result = NoError)) then Ok (None, a)
    else
      p ← port (cf_source (config a));
      if negb (dport (header tcp_seg) =? p) then Ok (None, a)
      else if listening a && negb (syn (header tcp_seg) && negb (rst (header tcp_seg))) then Ok (None, a)
      else
        a ← (if listening a then accept_peer ip_dgram tcp_seg a else Ok a);
        p' ← port (cf_destination (config a));
        if negb (sport (header tcp_seg) =? p') then Ok (None, a)
        else Ok (Some tcp_seg, a).

(** [wrap_tcp_in_ip]: the datagram, and the segment with its ports set. *)
Definition wrap_tcp_in_ip (seg : TCPSegment) (a : FdAdapterBase) : res (InternetDatagram * TCPSegment) :=
  sp ← port (cf_source (config a));
  dp ← port (cf_destination (config a));
  let seg := with_ports sp dp seg in
  src ← ipv4_numeric (cf_source (config a));
  dst ← ipv4_numeric (cf_destination (config a));
  let h := IPv4Header_default in
  let len := u16 (ip_hlen h * 4 + doff (header seg) * 4 + buf_size (payload seg)) in
  let h := mkIPv4Header (ip_ver h) (ip_hlen h) (ip_tos h) len (ip_id h) (ip_df h) (ip_mf h)
             (ip_offset h) (ip_ttl h) (ip_proto h) (ip_cksum h) src dst in
  payload ← TCPSegment_serialize seg (pseudo_cksum h);
  Ok (mkIPv4Datagram h payload, seg).
End TCPOverIPv4.

(** ** The adapters *)

(** What [TCPSpongeSocket] uses of its adapter: the reading, the writing (which
    fills in the ports of the segment), the configuration, the clock and the
    descriptor it converts to. *)
Class AdaptT (A : Type) := {
  adapter_read : A -> res (option TCPSegment * A);
  adapter_write : TCPSegment -> A -> res (TCPSegment * A);
  adapter_base : A -> FdAdapterBase;
  adapter_set_base : FdAdapterBase -> A -> A;
  adapter_tick : Z -> A -> res A;
  adapter_fd : A -> FDWrapper
}.

Record TCPOverUDPSocketAdapter (K : Type) := mkUDPAdapter {
  udp_base : FdAdapterBase;
  udp_sock : File K             (* _sock *)
}.
Arguments mkUDPAdapter {K} udp_base udp_sock.
Arguments udp_base {K} t.
Arguments udp_sock {K} t.

Record TCPOverIPv4OverTunFdAdapter (K : Type) := mkTunAdapter {
  tun_base : FdAdapterBase;
  tun_tun : File K              (* _tun *)
}.
Arguments mkTunAdapter {K} tun_base tun_tun.
Arguments tun_base {K} t.
Arguments tun_tun {K} t.

Record TCPOverIPv4OverEthernetAdapter (K : Type) := mkEthAdapter {
  eth_base : FdAdapterBase;
  eth_tap : File K;                    (* _tap *)
  eth_interface : NetworkInterface;    (* _interface *)
  eth_next_hop : Address               (* _next_hop *)
}.
Arguments mkEthAdapter {K} eth_base eth_tap eth_interface eth_next_hop.
Arguments eth_base {K} t.
Arguments eth_tap {K} t.
Arguments eth_interface {K} t.
Arguments eth_next_hop {K} t.

(** [mtu] of the default [recv()]. *)
Definition DEFAULT_MTU : Z := 65536.

Section Adapters.
Context `{Resolver} {K : Type} `{Kernel K}.

Definition udp_read (a : TCPOverUDPSocketAdapter K) : res (option TCPSegment * TCPOverUDPSocketAdapter K) :=
  r ← udp_recv DEFAULT_MTU (udp_sock a);
  let '(datagram, sock) := r in
  let b := udp_base a in
  if negb (listening b) && negb (Address_eqb (source_address datagram) (cf_destination (config b)))
  then Ok (None, mkUDPAdapter b sock)
  else
    r ← TCPSegment_parse TCPSegment_default (Buffer_of (rd_payload datagram)) 0;
    let '(result, seg) := r in
    if negb (bool_decide (result = NoError)) then Ok (None, mkUDPAdapter b sock)
    else if listening b then
      if syn (header seg) && negb (rst (header seg)) then
        Ok (Some seg, mkUDPAdapter (set_listening false (set_destination (source_address datagram) b)) sock)
      else Ok (None, mkUDPAdapter b sock)
    else Ok (Some seg, mkUDPAdapter b sock).

Definition udp_write (seg : TCPSegment) (a : TCPOverUDPSocketAdapter K)
  : res (TCPSegment * TCPOverUDPSocketAdapter K) :=
  sp ← port (cf_source (config (udp_base a)));
  dp ← port (cf_destination (config (udp_base a)));
  let seg := with_ports sp dp seg in
  bl ← TCPSegment_serialize seg 0;
  sock ← udp_sendto (cf_destination (config (udp_base a))) (views_of bl) (udp_sock a);
  Ok (seg, mkUDPAdapter (udp_base a) sock).

Definition tun_read (a : TCPOverIPv4OverTunFdAdapter K)
  : res (option TCPSegment * TCPOverIPv4OverTunFdAdapter K) :=
  r ← fd_read SIZE_MAX (tun_tun a);
  let '(s, tun) := r in
  r ← IPv4Datagram_parse IPv4Datagram_default (Buffer_of s);
  let '(result, ip_dgram) := r in
  if negb (bool_decide (result = NoError)) then Ok (None, mkTunAdapter (tun_base a) tun)
  else
    r ← unwrap_tcp_in_ip ip_dgram (tun_base a);
    Ok (fst r, mkTunAdapter (snd r) tun).

Definition tun_write (seg : TCPSegment) (a : TCPOverIPv4OverTunFdAdapter K)
  : res (TCPSegment * TCPOverIPv4OverTunFdAdapter K) :=
  r ← wrap_tcp_in_ip seg (tun_base a);
  let '(ip_dgram, seg) := r in
  bl ← IPv4Datagram_serialize ip_dgram;
  w ← fd_write (views_of bl) true (tun_tun a);
  Ok (seg, mkTunAdapter (tun_base a) (snd w)).

(** ** Ethernet *)

Definition pop_frames (rest : list EthernetFrame) (ni : NetworkInterface) : NetworkInterface :=
  mkInterface (ni_ethernet_address ni) (ni_ip_address ni) rest (ni_mapping_cache ni) (ni_ARP_queue ni).

(** The loop of [send_pending] over the frames of the interface. *)
Fixpoint send_frames (frames : list EthernetFrame) (tap : File K) (ni : NetworkInterface)
  : res (File K * NetworkInterface) :=
  match frames with
  | [] => Ok (tap, ni)
  | f :: rest =>
      w ← fd_write (views_of (EthernetFrame_serialize f)) true tap;
      send_frames rest (snd w) (pop_frames rest ni)
  end.

Definition send_pending (a : TCPOverIPv4OverEthernetAdapter K) : res (TCPOverIPv4OverEthernetAdapter K) :=
  r ← send_frames (ni_frames_out (eth_interface a)) (eth_tap a) (eth_interface a);
  Ok (mkEthAdapter (eth_base a) (fst r) (snd r) (eth_next_hop a)).

(** The constructor, which sends a dummy frame. *)
Definition EthernetAdapter_new (b : FdAdapterBase) (tap : File K) (eth_address : EthernetAddress)
    (ip_address next_hop : Address) : res (TCPOverIPv4OverEthernetAdapter K) :=
  w ← fd_write (views_of (EthernetFrame_serialize EthernetFrame_default)) true tap;
  Ok (mkEthAdapter b (snd w) (NetworkInterface_new eth_address ip_address) next_hop).

Definition eth_read (a : TCPOverIPv4OverEthernetAdapter K)
  : res (option TCPSegment * TCPOverIPv4OverEthernetAdapter K) :=
  r ← fd_read SIZE_MAX (eth_tap a);
  let '(s, tap) := r in
  let a := mkEthAdapter (eth_base a) tap (eth_interface a) (eth_next_hop a) in
  r ← EthernetFrame_parse EthernetFrame_default (Buffer_of s);
  let '(result, frame) := r in
  if negb (bool_decide (result = NoError)) then Ok (None, a)
  else
    r ← recv_frame frame (eth_interface a);
    let '(ip_dgram, ni) := r in
    a ← send_pending (mkEthAdapter (eth_base a) (eth_tap a) ni (eth_next_hop a));
    match ip_dgram with
    | Some d =>
        r ← unwrap_tcp_in_ip d (eth_base a);
        Ok (fst r, mkEthAdapter (snd r) (eth_tap a) (eth_interface a) (eth_next_hop a))
    | None => Ok (None, a)
    end.

Definition eth_tick (ms_since_last_tick : Z) (a : TCPOverIPv4OverEthernetAdapter K)
  : res (TCPOverIPv4OverEthernetAdapter K) :=
  send_pending (mkEthAdapter (eth_base a) (eth_tap a) (ni_tick ms_since_last_tick (eth_interface a))
                  (eth_next_hop a)).

Definition eth_write (seg : TCPSegment) (a : TCPOverIPv4OverEthernetAdapter K)
  : res (TCPSegment * TCPOverIPv4OverEthernetAdapter K) :=
  r ← wrap_tcp_in_ip seg (eth_base a);
  let '(ip_dgram, seg) := r in
  ni ← send_datagram ip_dgram (eth_next_hop a) (eth_interface a);
  a ← send_pending (mkEthAdapter (eth_base a) (eth_tap a) ni (eth_next_hop a));
  Ok (seg, a).

#[export] Instance UDP_AdaptT : AdaptT (TCPOverUDPSocketAdapter K) := {
  adapter_read := udp_read;
  adapter_write := udp_write;
  adapter_base := udp_base;
  adapter_set_base b a := mkUDPAdapter b (udp_sock a);
  adapter_tick _ a := Ok a;
  adapter_fd a := f_fd (udp_sock a)
}.

#[export] Instance Tun_AdaptT : AdaptT (TCPOverIPv4OverTunFdAdapter K) := {
  adapter_read := tun_read;
  adapter_write := tun_write;
  adapter_base := tun_base;
  adapter_set_base b a := mkTunAdapter b (tun_tun a);
  adapter_tick _ a := Ok a;
  adapter_fd a := f_fd (tun_tun a)
}.

#[export] Instance Eth_AdaptT : AdaptT (TCPOverIPv4OverEthernetAdapter K) := {
  adapter_read := eth_read;
  adapter_write := eth_write;
  adapter_base := eth_base;
  adapter_set_base b a := mkEthAdapter b (eth_tap a) (eth_interface a) (eth_next_hop a);
  adapter_tick := eth_tick;
  adapter_fd a := f_fd (eth_tap a)
}.
End Adapters.

(** ** The lossy adapter *)

(** The random generator [_rand]: a draw and the next state. *)
Class Generator (G : Type) := draw : G -> Z * G.

Record LossyFdAdapter (G A : Type) := mkLossy { lossy_rand : G; lossy_adapter : A }.
Arguments mkLossy {G A} lossy_rand lossy_adapter.
Arguments lossy_rand {G A} l.
Arguments lossy_adapter {G A} l.

Section Lossy.
Context {G A : Type} `{Generator G} `{AdaptT A}.

(** The draw only happens when the rate is not zero. *)
Definition should_drop (uplink : bool) (a : LossyFdAdapter G A) : bool * LossyFdAdapter G A :=
  let cfg := config (adapter_base (lossy_adapter a)) in
  let loss := if uplink then loss_rate_up cfg else loss_rate_dn cfg in
  if negb (loss =? 0) then
    let '(x, g) := draw (lossy_rand a) in (u16 x <? loss, mkLossy g (lossy_adapter a))
  else (false, a).

Definition lossy_read (a : LossyFdAdapter G A) : res (option TCPSegment * LossyFdAdapter G A) :=
  r ← adapter_read (lossy_adapter a);
  let '(ret, ad) := r in
  let '(drop, a) := should_drop false (mkLossy (lossy_rand a) ad) in
  Ok (if drop then None else ret, a).

Definition lossy_write (seg : TCPSegment) (a : LossyFdAdapter G A) : res (TCPSegment * LossyFdAdapter G A) :=
  let '(drop, a) := should_drop true a in
  if drop then Ok (seg, a)
  else
    r ← adapter_write seg (lossy_adapter a);
    Ok (fst r, mkLossy (lossy_rand a) (snd r)).

#[export] Instance Lossy_AdaptT : AdaptT (LossyFdAdapter G A) := {
  adapter_read := lossy_read;
  adapter_write := lossy_write;
  adapter_base a := adapter_base (lossy_adapter a);
  adapter_set_base b a := mkLossy (lossy_rand a) (adapter_set_base b (lossy_adapter a));
  adapter_tick ms a := ad ← adapter_tick ms (lossy_adapter a); Ok (mkLossy (lossy_rand a) ad);
  adapter_fd a := adapter_fd (lossy_adapter a)
}.
End Lossy.

(** ** What passes the filter *)

(** [unwrap_tcp_in_ip] returned the segment [seg] and left the adapter [a']. *)
Record unwrapped `{Resolver} (d : InternetDatagram) (a : FdAdapterBase) (seg : TCPSegment)
    (a' : FdAdapterBase) : Prop := {
  uw_proto : ip_proto (ip_header d) = PROTO_TCP;
  uw_parsed : exists buf, to_Buffer (ip_payload d) = Ok buf /\
    TCPSegment_parse TCPSegment_default buf (pseudo_cksum (ip_header d)) = Ok (NoError, seg);
  uw_dport : port (cf_source (config a)) = Ok (dport (header seg));
  uw_sport : port (cf_destination (config a')) = Ok (sport (header seg));
  uw_connected : listening a = false ->
    a' = a /\ ipv4_numeric (cf_source (config a)) = Ok (ip_dst (ip_header d)) /\
    ipv4_numeric (cf_destination (config a)) = Ok (ip_src (ip_header d));
  uw_listening : listening a = true ->
    syn (header seg) = true /\ rst (header seg) = false /\ accept_peer d seg a = Ok a';
  uw_silent : listening a' = false
}.

Ltac res_inv :=
  repeat match goal with
  | H : _ ≫= _ = Ok _ |- _ => apply res_bind_ok in H as (? & ? & H)
  | H : (let '(_, _) := ?x in _) = Ok _ |- _ => destruct x
  | H : Ok _ = Ok _ |- _ => injection H as H; subst
  | H : Throw _ = Ok _ |- _ => discriminate H
  | H : Undefined = Ok _ |- _ => discriminate H
  | H : (if ?b then _ else _) = Ok _ |- _ => destruct b eqn:?
  end; simplify_eq; bool_prop.

Section Filter.
Context `{Resolver}.

Lemma dgram_for_us_true d a :
  dgram_for_us d a = Ok true ->
  ip_proto (ip_header d) = PROTO_TCP /\
  (listening a = false ->
   ipv4_numeric (cf_source (config a)) = Ok (ip_dst (ip_header d)) /\
   ipv4_numeric (cf_destination (config a)) = Ok (ip_src (ip_header d))).
Proof. unfold dgram_for_us. intros E. res_inv; split; try done; intros; split; congruence. Qed.

Lemma accept_peer_listening d seg a a' : accept_peer d seg a = Ok a' -> listening a' = false.
Proof. unfold accept_peer. intros E. by res_inv. Qed.

Lemma ip_unwrap_cases d a o a' :
  unwrap_tcp_in_ip d a = Ok (o, a') ->
  (listening a = false -> a' = a) /\ (forall seg, o = Some seg -> unwrapped d a seg a').
Proof.
  unfold unwrap_tcp_in_ip. intros E. apply res_bind_ok in E as (ok & Hok & E).
  destruct ok; cbn [negb] in E; [|by res_inv]. apply dgram_for_us_true in Hok as [Hpr Hok].
  apply res_bind_ok in E as (buf & Hbuf & E). apply res_bind_ok in E as ([result sg] & Hp & E).
  destruct (bool_decide (result = NoError)) eqn:Er; cbn [negb] in E; [|by res_inv].
  apply bool_decide_eq_true in Er as ->. apply res_bind_ok in E as (p & Hport & E).
  destruct (dport (header sg) =? p) eqn:Ed; cbn [negb] in E; [|by res_inv]. bool_prop. subst p.
  destruct (listening a && _) eqn:El; [by res_inv|].
  apply res_bind_ok in E as (a1 & Ha & E). apply res_bind_ok in E as (p' & Hp' & E).
  assert (Ha' : a' = a1) by (res_inv; done). subst a1. destruct (listening a) eqn:Ela.
  - split; [done|]. intros seg ->. cbn [andb] in El. bool_prop. destruct (_ =? p') eqn:Es; [|res_inv].
    bool_prop. injection E as ->. split; eauto using accept_peer_listening; congruence.
  - injection Ha as ->. split; [done|]. intros seg ->. destruct (_ =? p') eqn:Es; [|res_inv].
    bool_prop. injection E as ->. split; eauto; congruence.
Qed.
End Filter.

(** ** What a socket relies on *)

Definition same_but_ports (seg seg' : TCPSegment) : Prop := exists sp dp, seg' = with_ports sp dp seg.

Lemma same_but_ports_refl seg : same_but_ports seg seg.
Proof. exists (sport (header seg)), (dport (header seg)). by destruct seg as [[] ?]. Qed.

Class AdapterSpec (A : Type) `{AdaptT A} := {
  (** Every read counts, so that the event loop sees no busy wait. *)
  read_registers a o a' : adapter_read a = Ok (o, a') ->
    fd_read_count (adapter_fd a') = u32 (fd_read_count (adapter_fd a) + 1) /\
    fd_closed (adapter_fd a') = fd_closed (adapter_fd a);
  (** A connected adapter keeps its peer. *)
  read_keeps a o a' : adapter_read a = Ok (o, a') ->
    listening (adapter_base a) = false -> adapter_base a' = adapter_base a;
  (** A segment is only returned by a connected adapter, and makes a listening
      one connected only if it opens a connection. *)
  read_accepts a seg a' : adapter_read a = Ok (Some seg, a') ->
    listening (adapter_base a') = false /\
    (listening (adapter_base a) = true -> syn (header seg) = true /\ rst (header seg) = false);
  (** What is returned was parsed. *)
  read_typed a seg a' : adapter_read a = Ok (Some seg, a') -> header_typed (header seg);
  write_keeps seg a seg' a' : adapter_write seg a = Ok (seg', a') ->
    same_but_ports seg seg' /\ adapter_base a' = adapter_base a /\
    fd_read_count (adapter_fd a') = fd_read_count (adapter_fd a) /\
    fd_eof (adapter_fd a') = fd_eof (adapter_fd a) /\ fd_closed (adapter_fd a') = fd_closed (adapter_fd a);
  tick_keeps ms a a' : adapter_tick ms a = Ok a' ->
    adapter_base a' = adapter_base a /\
    fd_read_count (adapter_fd a') = fd_read_count (adapter_fd a) /\
    fd_eof (adapter_fd a') = fd_eof (adapter_fd a) /\ fd_closed (adapter_fd a') = fd_closed (adapter_fd a)
}.

Section Specs.
Context `{Resolver} {K : Type} `{Kernel K}.

Lemma wrap_ports seg a d seg' : wrap_tcp_in_ip seg a = Ok (d, seg') -> same_but_ports seg seg'.
Proof. unfold wrap_tcp_in_ip. intros E. res_inv. by eexists _, _. Qed.

Lemma unwrapped_accepts d a seg a' :
  unwrapped d a seg a' ->
  listening a' = false /\ (listening a = true -> syn (header seg) = true /\ rst (header seg) = false).
Proof. intros [_ _ _ _ _ Hl Hs]. split; [done|]. intros E. destruct (Hl E) as (? & ? & _). done. Qed.

Lemma unwrapped_typed d a seg a' : unwrapped d a seg a' -> header_typed (header seg).
Proof. intros [_ (b & _ & E) _ _ _ _ _]. eapply segment_parsed_typed; [apply default_typed|exact E]. Qed.

#[export] Instance UDP_Spec : AdapterSpec (TCPOverUDPSocketAdapter K).
Proof.
  split; cbn.
  - intros a o a' E. unfold udp_read in E. apply res_bind_ok in E as ([d s] & Hr & E).
    apply udp_recv_fd in Hr as (? & _ & ?). res_inv; cbn; auto.
  - intros a o a' E Hl. unfold udp_read in E. rewrite Hl in E. by res_inv.
  - intros a seg a' E. unfold udp_read in E. by res_inv.
  - intros a seg a' E. unfold udp_read in E.
    res_inv; (eapply segment_parsed_typed; [apply default_typed|eassumption]).
  - intros seg a seg' a' E. unfold udp_write in E. res_inv. cbn.
    split_and!; [by eexists _, _|done|..]; eapply udp_sendto_fd; eauto.
  - intros ms a a' [= <-]. done.
Qed.

#[export] Instance Tun_Spec : AdapterSpec (TCPOverIPv4OverTunFdAdapter K).
Proof.
  split; cbn.
  - intros a o a' E. unfold tun_read in E. apply res_bind_ok in E as ([d s] & Hr & E).
    apply fd_read_fd in Hr as (? & _ & ?). res_inv; cbn; auto.
  - intros a o a' E Hl. unfold tun_read in E. res_inv; [done|]. cbn.
    match goal with H : unwrap_tcp_in_ip _ _ = Ok ?x |- _ =>
      destruct x; apply ip_unwrap_cases in H as [Hu _] end. auto.
  - intros a seg a' E. unfold tun_read in E. res_inv.
    match goal with H : unwrap_tcp_in_ip _ _ = Ok ?x |- _ =>
      destruct x; cbn in *; apply ip_unwrap_cases in H as [_ Hu] end.
    simplify_eq. by eapply unwrapped_accepts, Hu.
  - intros a seg a' E. unfold tun_read in E. res_inv.
    match goal with H : unwrap_tcp_in_ip _ _ = Ok ?x |- _ =>
      destruct x; cbn in *; apply ip_unwrap_cases in H as [_ Hu] end.
    simplify_eq. by eapply unwrapped_typed, Hu.
  - intros seg a seg' a' E. unfold tun_write in E. res_inv. cbn.
    match goal with H : fd_write _ _ _ = Ok ?x |- _ => destruct x; apply fd_write_fd in H as (? & ? & ?) end.
    split_and!; try done. eapply wrap_ports; eauto.
  - intros ms a a' [= <-]. done.
Qed.

Lemma send_frames_fd frames : forall (tap tap' : File K) ni ni',
  send_frames frames tap ni = Ok (tap', ni') ->
  fd_read_count (f_fd tap') = fd_read_count (f_fd tap) /\
  fd_eof (f_fd tap') = fd_eof (f_fd tap) /\ fd_closed (f_fd tap') = fd_closed (f_fd tap).
Proof.
  induction frames as [|f rest IH]; cbn [send_frames]; intros tap tap' ni ni' E; [by res_inv|].
  apply res_bind_ok in E as ([n t1] & Hw & E). apply fd_write_fd in Hw as (<- & <- & <-). by eapply IH.
Qed.

Lemma send_pending_keeps (a a' : TCPOverIPv4OverEthernetAdapter K) :
  send_pending a = Ok a' ->
  eth_base a' = eth_base a /\ fd_read_count (f_fd (eth_tap a')) = fd_read_count (f_fd (eth_tap a)) /\
  fd_eof (f_fd (eth_tap a')) = fd_eof (f_fd (eth_tap a)) /\
  fd_closed (f_fd (eth_tap a')) = fd_closed (f_fd (eth_tap a)).
Proof.
  unfold send_pending. intros ([t n] & Hs & [= <-])%res_bind_ok. cbn. split; [done|].
  by eapply send_frames_fd.
Qed.

Lemma eth_read_cases (a : TCPOverIPv4OverEthernetAdapter K) o a' :
  eth_read a = Ok (o, a') ->
  (fd_read_count (f_fd (eth_tap a')) = u32 (fd_read_count (f_fd (eth_tap a)) + 1) /\
   fd_closed (f_fd (eth_tap a')) = fd_closed (f_fd (eth_tap a))) /\
  (o = None /\ eth_base a' = eth_base a \/
   exists d, unwrap_tcp_in_ip d (eth_base a) = Ok (o, eth_base a')).
Proof.
  unfold eth_read. intros E. apply res_bind_ok in E as ([s tap] & Hr & E).
  apply fd_read_fd in Hr as (Hc & _ & Hcl). apply res_bind_ok in E as ([rs fr] & _ & E).
  destruct (negb _); [res_inv; cbn; auto|]. apply res_bind_ok in E as ([od ni] & _ & E).
  apply res_bind_ok in E as (a1 & Hs%send_pending_keeps & E). cbn in Hs.
  destruct Hs as (Hb & Hrc & _ & Hcc). rewrite <- Hrc in Hc. rewrite <- Hcc in Hcl.
  destruct od as [d|]; [|res_inv; auto]. apply res_bind_ok in E as ([o1 b1] & Hu & [= <- <-]).
  cbn. rewrite Hb in Hu. eauto.
Qed.

#[export] Instance Eth_Spec : AdapterSpec (TCPOverIPv4OverEthernetAdapter K).
Proof.
  split; cbn.
  - intros a o a' E%eth_read_cases. apply E.
  - intros a o a' [_ [[_ ?]|[d [Hu _]%ip_unwrap_cases]]]%eth_read_cases; auto.
  - intros a seg a' [_ [[? _]|[d [_ Hu]%ip_unwrap_cases]]]%eth_read_cases; [done|].
    by eapply unwrapped_accepts, Hu.
  - intros a seg a' [_ [[? _]|[d [_ Hu]%ip_unwrap_cases]]]%eth_read_cases; [done|].
    by eapply unwrapped_typed, Hu.
  - intros seg a seg' a' E. unfold eth_write in E. apply res_bind_ok in E as ([d s] & Hw & E).
    apply wrap_ports in Hw. res_inv.
    match goal with H : send_pending _ = _ |- _ => apply send_pending_keeps in H as (? & ? & ? & ?) end.
    by split_and!.
  - intros ms a a' E. exact (send_pending_keeps (mkEthAdapter (eth_base a) (eth_tap a)
      (ni_tick ms (eth_interface a)) (eth_next_hop a)) _ E).
Qed.
End Specs.

#[export] Instance Lossy_Spec {G A} `{Generator G} `{AdapterSpec A} : AdapterSpec (LossyFdAdapter G A).
Proof.
  assert (Hd : forall up (a : LossyFdAdapter G A) b a',
            should_drop up a = (b, a') -> lossy_adapter a' = lossy_adapter a).
  { intros up a b a'. unfold should_drop. destruct (negb _); [destruct (draw _)|];
      by intros [= _ <-]. }
  split; cbn; unfold lossy_read, lossy_write.
  - intros a o a' E. apply res_bind_ok in E as ([r ad] & Hr & E).
    destruct (should_drop _ _) as [b l] eqn:Es. apply Hd in Es. injection E as _ <-. rewrite Es. cbn.
    by eapply read_registers.
  - intros a o a' E Hl. apply res_bind_ok in E as ([r ad] & Hr & E).
    destruct (should_drop _ _) as [b l] eqn:Es. apply Hd in Es. injection E as _ <-. rewrite Es. cbn.
    by eapply read_keeps.
  - intros a seg a' E. apply res_bind_ok in E as ([r ad] & Hr & E).
    destruct (should_drop _ _) as [b l] eqn:Es. apply Hd in Es. injection E as E <-. rewrite Es. cbn.
    destruct b; [done|]. subst r. by eapply read_accepts.
  - intros a seg a' E. apply res_bind_ok in E as ([r ad] & Hr & E).
    destruct (should_drop _ _) as [b l] eqn:Es. injection E as E _.
    destruct b; [done|]. subst r. by eapply read_typed.
  - intros seg a seg' a' E. destruct (should_drop _ _) as [b l] eqn:Es. apply Hd in Es. destruct b.
    + injection E as <- <-. rewrite Es. split_and!; try done. apply same_but_ports_refl.
    + apply res_bind_ok in E as ([s ad] & Hw & [= <- <-]). cbn. rewrite <- Es. by eapply write_keeps.
  - intros ms a a' (ad & Ht & [= <-])%res_bind_ok. cbn. by eapply tick_keeps.
Qed.

(** ** Across the wire *)

Section Wire.
Context `{ResolverSpec}.

(** [b] takes the segment [seg] from ([ip1], [p1]) to ([ip2], [p2]): it is
    connected to that peer, or it listens on that port and [seg] opens a
    connection. *)
Definition expects (b : FdAdapterBase) (ip1 p1 ip2 p2 : Z) (seg : TCPSegment) : Prop :=
  if listening b
  then port (cf_source (config b)) = Ok p2 /\ syn (header seg) = true /\ rst (header seg) = false
  else addresses (cf_source (config b)) ip2 p2 /\ addresses (cf_destination (config b)) ip1 p1.

(** The adapter is connected: ([ip1], [p1]) is its own address. *)
Definition linked (a : FdAdapterBase) (ip1 p1 ip2 p2 : Z) : Prop :=
  listening a = false /\ addresses (cf_source (config a)) ip1 p1 /\
  addresses (cf_destination (config a)) ip2 p2.

Lemma accept_peer_linked b d seg p :
  port (cf_source (config b)) = Ok p ->
  is_u32 (ip_dst (ip_header d)) -> is_u32 (ip_src (ip_header d)) -> is_u16 (sport (header seg)) ->
  exists b', accept_peer d seg b = Ok b' /\
    linked b' (ip_dst (ip_header d)) p (ip_src (ip_header d)) (sport (header seg)).
Proof.
  intros Hp Hd Hs Hsp. unfold accept_peer. rewrite Hp. cbn [mbind res_bind].
  destruct (Address_of_ip_port_ok (ip_dst (ip_header d)) p Hd (port_range _ _ Hp)) as (a1 & -> & H1).
  cbn [mbind res_bind].
  destruct (Address_of_ip_port_ok (ip_src (ip_header d)) _ Hs Hsp) as (a2 & -> & H2).
  cbn [mbind res_bind]. eexists. split; [done|]. by split.
Qed.

(** A datagram whose payload parses to a segment from the expected peer. *)
Lemma unwrap_expected b h buf seg ip1 p1 ip2 p2 :
  ip_proto h = PROTO_TCP -> ip_src h = ip1 -> ip_dst h = ip2 -> is_u32 ip1 -> is_u32 ip2 ->
  TCPSegment_parse TCPSegment_default buf (pseudo_cksum h) = Ok (NoError, seg) ->
  sport (header seg) = p1 -> dport (header seg) = p2 -> is_u16 p1 ->
  expects b ip1 p1 ip2 p2 seg ->
  exists b', unwrap_tcp_in_ip (mkIPv4Datagram h [buf]) b = Ok (Some seg, b') /\
    linked b' ip2 p2 ip1 p1 /\ (listening b = false -> b' = b).
Proof.
  intros Hpr Hs Hd Hu1 Hu2 Hp Hsp Hdp Hr He.
  assert (Hf : dgram_for_us (mkIPv4Datagram h [buf]) b = Ok true).
  { unfold dgram_for_us, expects in *. cbn [ip_header]. rewrite Hpr, Hs, Hd.
    destruct (listening b); [done|]. destruct He as ([Hs1 _] & [Hd1 _]).
    rewrite Hs1, Hd1. cbn [mbind res_bind]. by rewrite !Z.eqb_refl. }
  assert (Hps : port (cf_source (config b)) = Ok p2).
  { unfold expects in He. destruct (listening b); [apply He|apply (proj1 He)]. }
  assert (Ha : exists b', (if listening b then accept_peer (mkIPv4Datagram h [buf]) seg b else Ok b) = Ok b' /\
            linked b' ip2 p2 ip1 p1 /\ (listening b = false -> b' = b)).
  { unfold expects in He. destruct (listening b) eqn:El; [|by exists b].
    destruct (accept_peer_linked b (mkIPv4Datagram h [buf]) seg p2) as (b' & Hb & Hl);
      cbn [ip_header] in *; rewrite ?Hs, ?Hd, ?Hsp in *; try done. by exists b'. }
  destruct Ha as (b' & Ha & Hl & Hk). exists b'. split; [|done].
  assert (Hsyn : listening b && negb (syn (header seg) && negb (rst (header seg))) = false).
  { unfold expects in He. destruct (listening b); [|done]. destruct He as (_ & -> & ->). done. }
  destruct Hl as (_ & _ & _ & Hpd).
  unfold unwrap_tcp_in_ip. rewrite Hf. cbn [mbind res_bind ip_header ip_payload to_Buffer negb].
  rewrite Hp. cbn [mbind res_bind]. rewrite bool_decide_true by done. cbn [negb].
  rewrite Hps. cbn [mbind res_bind]. rewrite Hdp, Z.eqb_refl, Hsyn. cbn [negb].
  rewrite Ha. cbn [mbind res_bind]. rewrite Hpd. cbn [mbind res_bind].
  by rewrite Hsp, Z.eqb_refl.
Qed.

(** The segment with its ports fits its datagram. *)
Definition sendable (seg : TCPSegment) : Prop :=
  winv (seqno (header seg)) /\ winv (ackno (header seg)) /\ 5 <= doff (header seg) <= 15 /\
  is_u16 (win (header seg)) /\ is_u16 (cksum (header seg)) /\ is_u16 (uptr (header seg)) /\
  20 + 4 * doff (header seg) + zlen (str (payload seg)) < 2 ^ 16.

Lemma pseudo_cksum_range h :
  is_u32 (ip_src h) -> is_u32 (ip_dst h) -> is_u8 (ip_proto h) -> 0 <= pseudo_cksum h < 2 ^ 20.
Proof.
  intros Hs Hd Hp. unfold pseudo_cksum, payload_length. rewrite !Z.shiftr_div_pow2 by lia.
  change 0xffff with (Z.ones 16). rewrite !Z.land_ones by lia. word_lia.
Qed.

(** C29.  A segment written by a connected adapter and wrapped in IPv4 comes out
    of the peer's adapter with the same header, ports and checksum filled in, and
    the same payload.  The peer is connected back to the writer, or listens on the
    destination port and the segment is a SYN; then it becomes connected to the
    writer, from the address the datagram was sent to, so that its own segments
    are delivered in turn. *)
Theorem tcp_over_ip_delivers a b seg ip1 p1 ip2 p2 :
  linked a ip1 p1 ip2 p2 -> sendable seg -> expects b ip1 p1 ip2 p2 seg ->
  exists d bl d' seg' b' c,
    wrap_tcp_in_ip seg a = Ok (d, with_ports p1 p2 seg) /\
    IPv4Datagram_serialize d = Ok bl /\
    IPv4Datagram_parse IPv4Datagram_default (Buffer_of (concatenate bl)) = Ok (NoError, d') /\
    unwrap_tcp_in_ip d' b = Ok (Some seg', b') /\
    header seg' = with_cksum c (header (with_ports p1 p2 seg)) /\
    str (payload seg') = str (payload seg) /\
    linked b' ip2 p2 ip1 p1 /\ (listening b = false -> b' = b).
Proof.
  intros (_ & [Hs1 Hs2] & [Hd1 Hd2]) (Hsq & Hak & Hdo & Hw & Hck & Hup & Hlen) He.
  pose proof (ipv4_numeric_range _ _ Hs1) as Hu1. pose proof (ipv4_numeric_range _ _ Hd1) as Hu2.
  pose proof (port_range _ _ Hs2) as Hr1. pose proof (port_range _ _ Hd2) as Hr2.
  unfold wrap_tcp_in_ip. rewrite Hs2, Hd2, Hs1, Hd1. cbn [mbind res_bind].
  set (h := mkIPv4Header _ _ _ _ _ _ _ _ _ _ _ _ _). set (sg := with_ports p1 p2 seg).
  assert (Hwf : ip_wf h).
  { unfold ip_wf, h. cbn. repeat split; try done; try lia; try apply Z.mod_pos_bound; try lia; word_lia. }
  assert (Hih : ip_len h = 4 * ip_hlen h + (4 * doff (header seg) + zlen (str (payload seg)))).
  { unfold h. cbn [ip_len ip_hlen IPv4Header_default with_ports header doff payload].
    change (IP_LENGTH / 4) with 5. unfold buf_size. rewrite u16_small; [lia|word_unfold; lia]. }
  destruct (segment_reparse TCPSegment_default sg (pseudo_cksum h)) as (bl & Hser & Hl & Hpar).
  { unfold header_wf. cbn. tauto. }
  { destruct (pseudo_cksum_range h) as [Hp0 Hp1]; [done..|]. split; [done|].
    rewrite length_app, length_replicate. cbn [payload with_ports]. unfold sg, with_ports in *. cbn. lia. }
  rewrite Hser. cbn [mbind res_bind].
  destruct (datagram_reparse IPv4Datagram_default (mkIPv4Datagram h bl)) as (bl2 & bf & Hs & Hb & Hok & Hp);
    [done|cbn [ip_header ip_payload]; rewrite Hl, Hih; reflexivity|].
  destruct (Hpar bf Hok Hb) as (seg' & Hp' & Hh' & Hpl).
  destruct (unwrap_expected b (with_ip_cksum (header_checksum h) h) bf seg' ip1 p1 ip2 p2)
    as (b' & Hun & Hlk & Hk); try done; [by rewrite Hh'..| |].
  { unfold expects in *. rewrite Hh'. exact He. }
  eexists _, bl2, _, seg', b', _. split_and!; done.
Qed.
End Wire.

(** Soundness of the filter: a segment [unwrap_tcp_in_ip] returns was the
    payload of a TCP datagram, its checksum verified against the pseudo-header,
    and its ports are those of the adapter; a connected adapter only takes
    datagrams between its own address and its peer's and does not change; a
    listening one only takes a SYN without RST, and stops listening. *)
Theorem ip_filter_sound `{Resolver} d a o a' :
  unwrap_tcp_in_ip d a = Ok (o, a') ->
  (listening a = false -> a' = a) /\ (forall seg, o = Some seg -> unwrapped d a seg a').
Proof. apply ip_unwrap_cases. Qed.

(** ** How the TUN adapter fails

    A system call, the resolver, or a [runtime_error]: an address that is not
    numeric IPv4, or a segment that cannot be serialized. *)
Section TunFails.
Context {K : Type} `{Kernel K} (taken written : K -> list byte) `{!KernelSpec K taken written}.
Context `{Resolver} (Er : option exn -> Prop).
Context (Hport : forall a, wp Er (getnameinfo_port a) (fun _ => True)).
Context (Haddr : forall ip p, wp Er (getaddrinfo_numeric ip p) (fun _ => True)).

Definition tun_fails (f : option exn) : Prop := system_fails f \/ f = Some runtime_error \/ Er f.

Lemma port_fails a : wp tun_fails (port a) (fun _ => True).
Proof. unfold port. specialize (Hport a). destruct (getnameinfo_port a); cbn in *; [done|by right; right..]. Qed.
Lemma numeric_fails a : wp tun_fails (ipv4_numeric a) (fun _ => True).
Proof. unfold ipv4_numeric. destruct (_ || _); cbn; [by right; left|done]. Qed.
Lemma ip_port_fails ip p : wp tun_fails (Address_of_ip_port ip p) (fun _ => True).
Proof.
  unfold Address_of_ip_port. specialize (Haddr ip p). destruct (getaddrinfo_numeric ip p) as [r|e|]; cbn in *; [|by right; right..].
  unfold Address_of_sockaddr. destruct (_ <? _); cbn; [by right; left|done].
Qed.

(** Steps through calls whose failures are known. *)
Ltac fails_step :=
  match goal with
  | |- wp _ (mbind _ (port _)) _ => apply wp_bind; eapply wp_mono; [apply port_fails|]; intros ? _
  | |- wp _ (mbind _ (ipv4_numeric _)) _ => apply wp_bind; eapply wp_mono; [apply numeric_fails|]; intros ? _
  | |- wp _ (mbind _ (Address_of_ip_port _ _)) _ => apply wp_bind; eapply wp_mono; [apply ip_port_fails|]; intros ? _
  | |- wp _ (if ?b then _ else _) _ => destruct b
  | |- wp _ (Ok _) _ => exact I
  end.

Lemma unwrap_fails h b a : buf_ok b -> wp tun_fails (unwrap_tcp_in_ip (mkIPv4Datagram h [b]) a) (fun _ => True).
Proof.
  intros Hb. unfold unwrap_tcp_in_ip. apply wp_bind. apply (wp_mono _ _ (fun _ => True)).
  { unfold dgram_for_us. repeat fails_step. }
  intros ok _. destruct (negb ok); [done|]. cbn [ip_payload to_Buffer mbind res_bind].
  destruct (TCPSegment_parse_total TCPSegment_default b (pseudo_cksum h) Hb) as (r & seg & E).
  cbn [ip_header]. rewrite E. cbn [mbind res_bind]. repeat fails_step. apply wp_bind.
  apply (wp_mono _ _ (fun _ => True)); [unfold accept_peer; repeat fails_step|]. intros a' _. repeat fails_step.
Qed.

Lemma tun_read_fails (a : TCPOverIPv4OverTunFdAdapter K) : wp tun_fails (tun_read a) (fun _ => True).
Proof.
  unfold tun_read. apply wp_bind. eapply wp_system; [by left|by apply (fd_read_spec taken written)|].
  intros [l tun] _ (Hl & _).
  destruct (IPv4Datagram_parse_total IPv4Datagram_default (Buffer_of l)) as (r & h & b & E & Hb).
  { apply buf_ok_of. unfold BUFFER_SIZE in Hl. lia. }
  rewrite E. cbn [mbind res_bind]. fails_step; [done|]. apply wp_bind. eapply wp_mono; [by apply unwrap_fails|done].
Qed.

Lemma tun_write_fails seg (a : TCPOverIPv4OverTunFdAdapter K) : wp tun_fails (tun_write seg a) (fun _ => True).
Proof.
  unfold tun_write. apply wp_bind. apply (wp_mono _ _ (fun _ => True)).
  { unfold wrap_tcp_in_ip. repeat fails_step. unfold TCPSegment_serialize, TCPHeader_serialize.
    repeat (apply wp_bind || (case_if; [by right; left|]) || done). }
  intros [d seg'] _. apply wp_bind. apply (wp_mono _ _ (fun _ => True)).
  { unfold IPv4Datagram_serialize, IPv4Header_serialize. case_if; [by right; left|].
    repeat (apply wp_bind || (case_if; [by right; left|]) || done). }
  intros bl _. apply wp_bind. eapply wp_system; [by left|apply (fd_write_cases taken written)|done].
Qed.
End TunFails.

(** ** A client and a listening server *)

Definition example_address (ip p : Z) : Address := mkAddress 16 (sockaddr_in ip p ++ replicate 112 x00).
Definition example_client : FdAdapterBase :=
  mkAdapterBase (mkFdAdapterConfig (example_address 167772161 4321) (example_address 167772162 80) 0 0) false.
Definition example_server : FdAdapterBase :=
  mkAdapterBase (mkFdAdapterConfig (example_address 0 80) (example_address 0 0) 0 0) true.
Definition example_syn : TCPSegment :=
  mkTCPSegment (mkTCPHeader 0 0 (mkWrappingInt32 7) (mkWrappingInt32 0) 5
    false false false false true false 1000 0 0) (Buffer_of [x68; x69]).
(** The datagram of [example_syn]. *)
Definition example_wire : InternetDatagram :=
  match @wrap_tcp_in_ip numeric_Resolver example_syn example_client with
  | Ok (d, _) => match IPv4Datagram_serialize d with
                 | Ok bl => match IPv4Datagram_parse IPv4Datagram_default (Buffer_of (concatenate bl)) with
                            | Ok (_, d') => d' | _ => d end
                 | _ => d end
  | _ => IPv4Datagram_default end.

Lemma tcp_over_ip_delivers_witness :
  exists d bl d' seg' b' c,
    @wrap_tcp_in_ip numeric_Resolver example_syn example_client = Ok (d, with_ports 4321 80 example_syn) /\
    IPv4Datagram_serialize d = Ok bl /\
    IPv4Datagram_parse IPv4Datagram_default (Buffer_of (concatenate bl)) = Ok (NoError, d') /\
    @unwrap_tcp_in_ip numeric_Resolver d' example_server = Ok (Some seg', b') /\
    header seg' = with_cksum c (header (with_ports 4321 80 example_syn)) /\
    str (payload seg') = [x68; x69] /\
    @linked numeric_Resolver b' 167772162 80 167772161 4321 /\ (listening example_server = false -> b' = example_server).
Proof.
  apply (@tcp_over_ip_delivers numeric_Resolver numeric_ResolverSpec example_client example_server
           example_syn 167772161 4321 167772162 80).
  - repeat split.
  - vm_compute. repeat split; discriminate.
  - repeat split.
Defined.

Lemma ip_filter_sound_witness :
  exists seg a', @unwrap_tcp_in_ip numeric_Resolver example_wire example_server = Ok (Some seg, a') /\
    listening a' = false /\ @port numeric_Resolver (cf_source (config example_server)) = Ok (dport (header seg)).
Proof.
  eexists _, _. split; [vm_compute; reflexivity|].
  match goal with |- listening ?b = _ /\ @port _ _ = Ok (dport (header ?s)) =>
    pose proof (@ip_filter_sound numeric_Resolver example_wire example_server (Some s) b
      ltac:(vm_compute; reflexivity)) as [_ H] end.
  destruct (H _ eq_refl). split; [assumption|assumption].
Defined.
