(* ===== verification/SpongeSocket.v ===== *)
(** * The socket

    Models [src/libsponge/tcp_helpers/tcp_sponge_socket.hh] and [.cc]: the TCP
    thread of a [TCPSpongeSocket], an event loop with four rules that move
    segments between the connection and the adapter and bytes between the
    connection and the owner's local socket.  The owner thread acts through the
    kernel and the flag [_abort], that is, during [poll]. *)

From S2P Require Import Prelude Parser IPv4 WrappingIntegers StdMap ByteStream StreamReassembler Buffers.
From S2P Require Import TCPSegment TCPReceiver TCPSender TCPState EndToEnd TCPConnection Address FileDescriptor.
From S2P Require Import EventLoop Ethernet NetworkInterface Adapters.

Record TCPSpongeSocket (A K : Type) := mkSocket {
  so_owner : File K;               (* the LocalStreamSocket of the owner *)
  so_thread_data : File K;         (* _thread_data *)
  so_adapter : A;                  (* _datagram_adapter *)
  so_tcp : option TCPConnection;   (* _tcp *)
  so_abort : bool;                 (* _abort *)
  so_inbound_shutdown : bool;      (* _inbound_shutdown *)
  so_outbound_shutdown : bool;     (* _outbound_shutdown *)
  so_fully_acked : bool            (* _fully_acked *)
}.
Arguments mkSocket {A K}.
Arguments so_owner {A K} t.
Arguments so_thread_data {A K} t.
Arguments so_adapter {A K} t.
Arguments so_tcp {A K} t.
Arguments so_abort {A K} t.
Arguments so_inbound_shutdown {A K} t.
Arguments so_outbound_shutdown {A K} t.
Arguments so_fully_acked {A K} t.

Section Members.
Context {A K : Type}.
Implicit Type s : TCPSpongeSocket A K.

Definition set_thread_data (f : File K) s : TCPSpongeSocket A K :=
  mkSocket (so_owner s) f (so_adapter s) (so_tcp s) (so_abort s) (so_inbound_shutdown s)
    (so_outbound_shutdown s) (so_fully_acked s).
Definition set_adapter (a : A) s : TCPSpongeSocket A K :=
  mkSocket (so_owner s) (so_thread_data s) a (so_tcp s) (so_abort s) (so_inbound_shutdown s)
    (so_outbound_shutdown s) (so_fully_acked s).
Definition set_tcp (c : option TCPConnection) s : TCPSpongeSocket A K :=
  mkSocket (so_owner s) (so_thread_data s) (so_adapter s) c (so_abort s) (so_inbound_shutdown s)
    (so_outbound_shutdown s) (so_fully_acked s).
Definition set_owner (f : File K) s : TCPSpongeSocket A K :=
  mkSocket f (so_thread_data s) (so_adapter s) (so_tcp s) (so_abort s) (so_inbound_shutdown s)
    (so_outbound_shutdown s) (so_fully_acked s).
Definition set_flags (abort inbound outbound acked : bool) s : TCPSpongeSocket A K :=
  mkSocket (so_owner s) (so_thread_data s) (so_adapter s) (so_tcp s) abort inbound outbound acked.
Definition set_inbound_shutdown s := set_flags (so_abort s) true (so_outbound_shutdown s) (so_fully_acked s) s.
Definition set_outbound_shutdown s := set_flags (so_abort s) (so_inbound_shutdown s) true (so_fully_acked s) s.
Definition set_fully_acked s := set_flags (so_abort s) (so_inbound_shutdown s) (so_outbound_shutdown s) true s.

(** [_tcp->] and [_tcp.value()]. *)
Definition tcp_ref s : res TCPConnection := match so_tcp s with Some c => Ok c | None => Undefined end.
Definition tcp_value s : res TCPConnection :=
  match so_tcp s with Some c => Ok c | None => Throw bad_optional_access end.
End Members.

(** [timestamp_ms()]. *)
Class Clock (W : Type) := now : W -> Z * W.

(** The inbound stream of a connection, replaced. *)
Definition with_inbound (b : ByteStream) (c : TCPConnection) : TCPConnection :=
  set_receiver (with_stream_out b (cn_receiver c)) c.

Section Rules.
Context {A K : Type} `{AdaptT A} `{Kernel K}.
Abbreviation socket := (TCPSpongeSocket A K).
Implicit Type s : socket.

(** ** Rule 1: from the adapter to the connection *)

Definition rule1_callback s : res socket :=
  r ← adapter_read (so_adapter s);
  let '(seg, ad) := r in
  let s := set_adapter ad s in
  s ← match seg with
      | Some seg => c ← tcp_ref s; Ok (set_tcp (Some (conn_segment_received seg c)) s)
      | None => Ok s
      end;
  if fd_eof (f_fd (so_thread_data s)) then
    c ← tcp_value s;
    if (cn_bytes_in_flight c =? 0) && negb (so_fully_acked s) then Ok (set_fully_acked s) else Ok s
  else Ok s.

Definition rule1_interest s : res bool := c ← tcp_ref s; Ok (active c).

(** ** Rule 2: from the owner to the connection *)

Definition rule2_callback s : res socket :=
  c ← tcp_ref s;
  r ← fd_read (remaining_outbound_capacity c) (so_thread_data s);
  let '(data, td) := r in
  let s := set_thread_data td s in
  let '(amount_written, c) := conn_write data c in
  let s := set_tcp (Some c) s in
  if negb (amount_written =? zlen data) then Throw runtime_error
  else if fd_eof (f_fd (so_thread_data s)) then
    Ok (set_outbound_shutdown (set_tcp (Some (end_input_stream c)) s))
  else Ok s.

Definition rule2_interest s : res bool :=
  c ← tcp_ref s;
  Ok (active c && negb (so_outbound_shutdown s) && (0 <? remaining_outbound_capacity c)).

Definition rule2_cancel s : res socket :=
  c ← tcp_ref s;
  Ok (set_outbound_shutdown (set_tcp (Some (end_input_stream c)) s)).

(** ** Rule 3: from the connection to the owner *)

Definition rule3_callback s : res socket :=
  c ← tcp_ref s;
  let inbound := inbound_stream c in
  let amount_to_write := Z.min 65536 (buffer_size inbound) in
  let buffer := peek_output amount_to_write inbound in
  w ← fd_write [buffer] false (so_thread_data s);
  let '(bytes_written, td) := w in
  let s := set_thread_data td s in
  let inbound := pop_output bytes_written inbound in
  let s := set_tcp (Some (with_inbound inbound c)) s in
  if eof inbound || error inbound then
    td ← socket_shutdown SHUT_WR (so_thread_data s);
    Ok (set_inbound_shutdown (set_thread_data td s))
  else Ok s.

Definition rule3_interest s : res bool :=
  c ← tcp_ref s;
  let inbound := inbound_stream c in
  Ok (negb (buffer_empty inbound) || (eof inbound || error inbound) && negb (so_inbound_shutdown s)).

(** ** Rule 4: from the connection to the adapter *)

Fixpoint write_segments (queue : list TCPSegment) (c : TCPConnection) s : res socket :=
  match queue with
  | [] => Ok s
  | seg :: rest =>
      r ← adapter_write seg (so_adapter s);
      let c := set_segments_out rest c in
      write_segments rest c (set_tcp (Some c) (set_adapter (snd r) s))
  end.

Definition rule4_callback s : res socket :=
  c ← tcp_ref s;
  write_segments (cn_segments_out c) c s.

Definition rule4_interest s : res bool :=
  c ← tcp_ref s;
  Ok (negb (bool_decide (cn_segments_out c = []))).

Definition no_cancel s : res socket := Ok s.

Definition rule1 : Rule socket :=
  mkRule (fun s => adapter_fd (so_adapter s)) In_ rule1_callback rule1_interest no_cancel.
Definition rule2 : Rule socket :=
  mkRule (fun s => f_fd (so_thread_data s)) In_ rule2_callback rule2_interest rule2_cancel.
Definition rule3 : Rule socket :=
  mkRule (fun s => f_fd (so_thread_data s)) Out_ rule3_callback rule3_interest no_cancel.
Definition rule4 : Rule socket :=
  mkRule (fun s => adapter_fd (so_adapter s)) Out_ rule4_callback rule4_interest no_cancel.

(** [_initialize_TCP]; [random] is what [random_device] gives the connection. *)
Definition initialize_TCP (random : Z) (config : TCPConfig) (rules : list (Rule socket)) s
  : list (Rule socket) * socket :=
  (add_rule rule4 (add_rule rule3 (add_rule rule2 (add_rule rule1 rules))),
   set_tcp (Some (TCPConnection_new random config)) s).

(** ** The loop *)

Definition TCP_TICK_MS : Z := 10.

Context `{Poller socket} `{Clock socket}.

(** One round of [_tcp_loop]; [false] when the loop is left. *)
Definition tcp_round (condition : socket -> res bool) (base_time : Z) (rules : list (Rule socket)) s
  : res (bool * Z * list (Rule socket) * socket) :=
  go ← condition s;
  if negb go then Ok (false, base_time, rules, s)
  else
    k ← wait_next_event TCP_TICK_MS rules s;
    let '(ret, rules, s) := k in
    if match ret with Exit_ => true | _ => false end || so_abort s then Ok (false, base_time, rules, s)
    else
      c ← tcp_value s;
      if active c then
        let '(next_time, s) := now s in
        let ms := u64 (next_time - base_time) in
        c ← tcp_value s;
        c ← conn_tick ms c;
        let s := set_tcp (Some c) s in
        ad ← adapter_tick ms (so_adapter s);
        Ok (true, next_time, rules, set_adapter ad s)
      else Ok (true, base_time, rules, s).

(** [n] rounds, fewer when the loop is left. *)
Fixpoint tcp_rounds (n : nat) (condition : socket -> res bool) (base_time : Z)
    (rules : list (Rule socket)) s : res (bool * Z * list (Rule socket) * socket) :=
  match n with
  | O => Ok (true, base_time, rules, s)
  | S n' =>
      k ← tcp_round condition base_time rules s;
      let '(go, base_time, rules, s) := k in
      if (go : bool) then tcp_rounds n' condition base_time rules s
      else Ok (false, base_time, rules, s)
  end.

Definition in_state (st : State) s : res bool :=
  c ← tcp_ref s;
  Ok (TCPState_eqb (state c) (TCPState_of st)).

(** ** The owner's calls, up to the loop they run *)

Definition socket_connect (random : Z) (c_tcp : TCPConfig) (c_ad : FdAdapterConfig)
    (rules : list (Rule socket)) s : res (list (Rule socket) * socket) :=
  match so_tcp s with
  | Some _ => Throw runtime_error
  | None =>
      let '(rules, s) := initialize_TCP random c_tcp rules s in
      let ad := so_adapter s in
      let s := set_adapter (adapter_set_base (set_config c_ad (adapter_base ad)) ad) s in
      c ← tcp_ref s;
      let s := set_tcp (Some (connect c)) s in
      ok ← in_state SYN_SENT s;
      if negb ok then Throw runtime_error else Ok (rules, s)
  end.

(** The condition of the loop of [connect]. *)
Definition connecting s : res bool := in_state SYN_SENT s.

Definition listen_and_accept (random : Z) (c_tcp : TCPConfig) (c_ad : FdAdapterConfig)
    (rules : list (Rule socket)) s : res (list (Rule socket) * socket) :=
  match so_tcp s with
  | Some _ => Throw runtime_error
  | None =>
      let '(rules, s) := initialize_TCP random c_tcp rules s in
      let ad := so_adapter s in
      let ad := adapter_set_base (set_config c_ad (adapter_base ad)) ad in
      let ad := adapter_set_base (set_listening true (adapter_base ad)) ad in
      Ok (rules, set_adapter ad s)
  end.

(** The condition of the loop of [listen_and_accept]. *)
Definition accepting s : res bool :=
  a ← in_state LISTEN s;
  b ← in_state SYN_RCVD s;
  c ← in_state SYN_SENT s;
  Ok (a || b || c).

(** What [_tcp_main] does after its loop, which runs without a condition. *)
Definition always s : res bool := Ok true.
Definition tcp_main_end s : res socket :=
  o ← socket_shutdown SHUT_RDWR (so_owner s);
  let s := set_owner o s in
  c ← tcp_value s;
  _ ← TCPConnection_destroy c;
  Ok (set_tcp None s).

(** [_tcp_main], with at most [n] rounds of its loop; [true] when the loop has not
    ended by then. *)
Definition tcp_main (n : nat) (base_time : Z) (rules : list (Rule socket)) s : res (bool * socket) :=
  match so_tcp s with
  | None => Throw runtime_error
  | Some _ =>
      k ← tcp_rounds n always base_time rules s;
      let '(more, _, _, s) := k in
      if (more : bool) then Ok (true, s) else s ← tcp_main_end s; Ok (false, s)
  end.

(** The owner's half of the destructor and of [wait_until_closed]; both then
    wait for the thread. *)
Definition socket_destroy s : socket :=
  set_flags true (so_inbound_shutdown s) (so_outbound_shutdown s) (so_fully_acked s) s.
Definition wait_until_closed s : res socket :=
  o ← socket_shutdown SHUT_RDWR (so_owner s);
  Ok (set_owner o s).
End Rules.

(** ** The sockets with fixed addresses *)

Section FixedAddresses.
Context {K : Type} `{Kernel K} `{Resolver}.

(** The configuration both use; [random_port] is a draw of [random_device]. *)
Definition fixed_config : TCPConfig :=
  mkTCPConfig 100 (cfg_recv_capacity TCPConfig_default) (cfg_send_capacity TCPConfig_default)
    (cfg_fixed_isn TCPConfig_default).

Definition cs144_connect (random_port random : Z) (address : Address) (rules : list _)
    (s : TCPSpongeSocket (TCPOverIPv4OverTunFdAdapter K) K) :=
  c ← FdAdapterConfig_default;
  source ← Address_of_ip_port (quad 169 254 144 9) (u16 random_port);
  socket_connect random fixed_config (mkFdAdapterConfig source address (loss_rate_dn c) (loss_rate_up c)) rules s.

(** The adapter of [FullStackSocket]'s constructor, on the TAP device. *)
Definition full_stack_adapter (tap : File K) (random : list byte) : res (TCPOverIPv4OverEthernetAdapter K) :=
  c ← FdAdapterConfig_default;
  ip_address ← Address_of_ip_port (quad 169 254 10 9) 0;
  next_hop ← Address_of_ip_port (quad 169 254 10 1) 0;
  EthernetAdapter_new (mkAdapterBase c false) tap (random_private_ethernet_address random) ip_address next_hop.

Definition full_stack_connect (random_port random : Z) (address : Address) (rules : list _)
    (s : TCPSpongeSocket (TCPOverIPv4OverEthernetAdapter K) K) :=
  c ← FdAdapterConfig_default;
  source ← Address_of_ip_port (quad 169 254 10 9) (u16 random_port);
  socket_connect random fixed_config (mkFdAdapterConfig source address (loss_rate_dn c) (loss_rate_up c)) rules s.
End FixedAddresses.

(** ** Lemmas on the connection *)

Lemma conn_step_mono (P Q : TCPSegment -> Prop) e e' :
  (forall seg, P seg -> Q seg) -> conn_step P e e' -> conn_step Q e e'.
Proof.
  intros H []; [apply cs_segment; auto|apply cs_write|by eapply cs_tick|apply cs_end|apply cs_connect
    |by apply cs_read|apply cs_dequeue|by eapply cs_destroy].
Qed.

Lemma peek_small len s :
  0 <= len <= 65536 -> peek_output len s = take (Z.to_nat len) (bs_buffer s).
Proof.
  intros Hl. unfold peek_output, buffer_size. rewrite s32_small by lia.
  rewrite peek_loop_eq by lia. rewrite drop_0. cbn [app].
  destruct (Z.le_ge_cases len (zlen (bs_buffer s))); [by rewrite Z.min_l by lia|].
  rewrite Z.min_r, !take_ge by lia. done.
Qed.

(** ** The socket as a connection

    Every step of the TCP thread is a sequence of calls on the connection: the
    bytes it takes from the owner's socket are written, the bytes it puts there
    are read, and incoming segments are those the adapter returned. *)

(** What an adapter delivers: in a condition [aok], which its own operations
    keep, every segment it returns is in [Pseg], and its operations fail only as
    [afails] says. *)
Class AdapterFeeds (A : Type) `{AdaptT A} (aok : A -> Prop) (Pseg : TCPSegment -> Prop) (afails : option exn -> Prop) := {
  feeds_read a : aok a ->
    wp afails (adapter_read a) (fun '(o, a') => aok a' /\ forall seg, o = Some seg -> Pseg seg);
  feeds_write seg a : aok a -> wp afails (adapter_write seg a) (fun '(_, a') => aok a');
  feeds_tick ms a : aok a -> wp afails (adapter_tick ms a) aok
}.

Section Refinement.
Context {A K : Type} `{AdapterSpec A} `{Kernel K} (taken written : K -> list byte)
  `{!KernelSpec K taken written} (kok : K -> Prop) `{!KernelBounded K taken kok}.
Context (aok : A -> Prop) (Pseg : TCPSegment -> Prop) (afails : option exn -> Prop) `{!AdapterFeeds A aok Pseg afails}.
Context (random : Z) (cfg : TCPConfig) (Hcfg : cfg_ok cfg).
Abbreviation socket := (TCPSpongeSocket A K).
Implicit Type s : socket.

Definition from_adapter (seg : TCPSegment) : Prop := typed seg /\ Pseg seg.

Lemma returned_from_adapter a seg a' : adapter_read a = Ok (Some seg, a') -> aok a -> from_adapter seg.
Proof.
  intros E Ha. destruct (read_typed _ _ _ E) as (_ & _ & _ & Hk & _ & Hw & _). split; [by split|].
  pose proof (feeds_read a Ha) as Hf. rewrite E in Hf. by apply Hf.
Qed.

Record reaches (c : TCPConnection) (k : K) (outbound_shutdown : bool) : Prop := {
  re_run : rtc (conn_step from_adapter) (endpoint_new random cfg) (mkEndpoint c (taken k) (written k));
  re_bound : kok k;
  re_ended : outbound_ended c = true -> outbound_shutdown = true
}.

Lemma reaches_inv c k ob : reaches c k ob -> CInv (mkEndpoint c (taken k) (written k)).
Proof.
  intros [Hr Hb _]. eapply conn_reachable; [exact Hcfg| |exact (bounded_taken k Hb)].
  eapply rtc_subrel; [|exact Hr]. intros x y. apply conn_step_mono. by intros seg [? _].
Qed.

Lemma reaches_step c k ob c' k' ob' :
  reaches c k ob ->
  conn_step from_adapter (mkEndpoint c (taken k) (written k)) (mkEndpoint c' (taken k') (written k')) ->
  kok k' -> (outbound_ended c' = true -> ob' = true) -> reaches c' k' ob'.
Proof. intros [Hr _ _] Hs Hk He. split; [|done..]. by eapply rtc_r. Qed.

(** The invariant of the thread. *)
Definition SockInv s : Prop :=
  aok (so_adapter s) /\
  exists c, so_tcp s = Some c /\ reaches c (f_kernel (so_thread_data s)) (so_outbound_shutdown s).

(** Failures that are not the socket's: a system call's, an error that [poll]
    reports, or the adapter's. *)
Definition sock_fails (f : option exn) : Prop := loop_fails f \/ afails f.

Lemma wp_adapter {B} (m : res B) (R Q : B -> Prop) :
  wp afails m R -> (forall b, m = Ok b -> R b -> Q b) -> wp sock_fails m Q.
Proof. destruct m; cbn; [auto|by right..]. Qed.

Lemma wp_kernel {B} (m : res B) (R Q : B -> Prop) :
  match m with Ok b => R b | Throw e => call_failed e | Undefined => False end ->
  (forall b, m = Ok b -> R b -> Q b) -> wp sock_fails m Q.
Proof. apply wp_system. intros f Hf. left. by left. Qed.

(** ** The rules *)

Lemma rule1_ok : rule_ok SockInv sock_fails (rule1, fun _ => True).
Proof.
  split; cbn [fst snd rule1 ru_cancel ru_interest ru_callback].
  - done.
  - intros s (Ha & c & Ec & _). unfold rule1_interest, tcp_ref. rewrite Ec. by eexists.
  - intros s (Ha & c & Ec & Hre) _. unfold rule1_callback. apply wp_bind. eapply wp_adapter; [by apply feeds_read|].
    intros [seg ad] Hr [Ha' _].
    assert (Hcnt : forall s' : socket, so_adapter s' = ad -> service_count rule1 s' <> service_count rule1 s).
    { intros s' E. unfold service_count. cbn. rewrite E.
      destruct (read_registers _ _ _ Hr) as [-> _]. apply count_moves. }
    assert (Hmid : exists s1 c1, match seg with
        | Some seg0 => c ← tcp_ref (set_adapter ad s); Ok (set_tcp (Some (conn_segment_received seg0 c)) (set_adapter ad s))
        | None => Ok (set_adapter ad s) end = Ok s1 /\ so_tcp s1 = Some c1 /\ so_adapter s1 = ad /\
        reaches c1 (f_kernel (so_thread_data s1)) (so_outbound_shutdown s1)).
    { destruct seg as [seg|]; [|by exists (set_adapter ad s), c].
      unfold tcp_ref. cbn. rewrite Ec. cbn. eexists _, _. split_and!; [done..|]. cbn.
      eapply reaches_step; [exact Hre|apply cs_segment; by eapply returned_from_adapter|apply Hre|].
      rewrite segment_received_ended. apply Hre. }
    destruct Hmid as (s1 & c1 & E1 & Ec1 & Ead & Hre1). cbn beta iota. rewrite E1. cbn [mbind res_bind].
    destruct (fd_eof _).
    + unfold tcp_value. rewrite Ec1. cbn [mbind res_bind].
      destruct (_ && _); (split; [split; [cbn; by rewrite Ead|by exists c1]|left; by apply Hcnt]).
    + split; [split; [by rewrite Ead|by exists c1]|left; by apply Hcnt].
Qed.

Lemma end_reaches c k ob : reaches c k ob -> reaches (end_input_stream c) k true.
Proof. intros Hre. eapply reaches_step; [exact Hre|apply cs_end|apply Hre|done]. Qed.

Lemma remaining_nonneg c : 0 <= remaining_outbound_capacity c.
Proof. apply u64_range. Qed.

Lemma rule2_ok : rule_ok SockInv sock_fails (rule2, fun s => so_outbound_shutdown s = false).
Proof.
  split; cbn [fst snd rule2 ru_cancel ru_interest ru_callback].
  - intros s (Ha & c & Ec & Hre). unfold rule2_cancel, tcp_ref. rewrite Ec. cbn.
    split; [done|]. eexists. split; [done|]. by eapply end_reaches.
  - intros s (Ha & c & Ec & _). unfold rule2_interest, tcp_ref. rewrite Ec. cbn. eexists. split; [done|].
    intros Hb. bool_prop. done.
  - intros s (Ha & c & Ec & Hre) Hob. unfold rule2_callback, tcp_ref. rewrite Ec. cbn [mbind res_bind].
    apply wp_bind. eapply wp_kernel; [apply (fd_read_spec taken written), remaining_nonneg|].
    intros [data td] Hr (Hlen & Ht & Hw & _).
    assert (Hne : outbound_ended c = false).
    { destruct (outbound_ended c) eqn:E; [|done]. apply (re_ended _ _ _ Hre) in E. congruence. }
    pose proof (conn_write_all _ _ _ data (reaches_inv _ _ _ Hre) Hne ltac:(lia)) as Hall.
    pose proof (conn_write_ended data c) as Hend.
    assert (Hstep : reaches (snd (conn_write data c)) (f_kernel td) (so_outbound_shutdown s)).
    { eapply reaches_step; [exact Hre| |by eapply fd_read_bounded, Hre|congruence].
      pose proof (cs_write from_adapter c (taken (f_kernel (so_thread_data s)))
        (written (f_kernel (so_thread_data s))) data) as Hs.
      rewrite Hall, Nat2Z.id, firstn_all in Hs. by rewrite Hw, Ht. }
    destruct (conn_write data c) as [n c']. cbn [fst snd] in *. rewrite Hall, Z.eqb_refl. cbn [negb].
    assert (Hcnt : forall s' : socket, so_thread_data s' = td -> service_count rule2 s' <> service_count rule2 s).
    { intros s' E. unfold service_count. cbn. rewrite E. apply fd_read_fd in Hr as (-> & _). apply count_moves. }
    destruct (fd_eof _); (split; [|left; by apply Hcnt]).
    + split; [done|]. exists (end_input_stream c'). split; [done|]. by eapply end_reaches.
    + split; [done|]. by exists c'.
Qed.

Lemma rule3_ok : rule_ok SockInv sock_fails (rule3, fun _ => True).
Proof.
  split; cbn [fst snd rule3 ru_cancel ru_interest ru_callback].
  - done.
  - intros s (Ha & c & Ec & _). unfold rule3_interest, tcp_ref. rewrite Ec. by eexists.
  - intros s (Ha & c & Ec & Hre) _. unfold rule3_callback, tcp_ref. rewrite Ec. cbn [mbind res_bind]. cbv zeta.
    set (amount := Z.min 65536 (buffer_size (inbound_stream c))).
    assert (Ham : 0 <= amount <= 65536) by (unfold amount, buffer_size; lia).
    rewrite (peek_small amount) by done. set (data := take _ _).
    assert (Hld : zlen data <= 65536) by (unfold data; rewrite length_take; lia).
    apply wp_bind. eapply wp_kernel; [apply (fd_write_cases taken written)|].
    cbn [concat]. rewrite app_nil_r. intros [n td] Hwr (Hn & _ & Ht & Hw & _). cbn [fst snd].
    assert (Hstep : reaches (with_inbound (pop_output n (inbound_stream c)) c) (f_kernel td)
                      (so_outbound_shutdown s)).
    { eapply reaches_step; [exact Hre| |by eapply fd_write_bounded, Hre|apply Hre].
      rewrite Ht, Hw. replace (take (Z.to_nat n) data) with (fst (read n (inbound_stream c))).
      { apply (cs_read _ c _ _ n). lia. }
      cbn [read fst]. rewrite peek_small by lia. unfold data in *. rewrite length_take in Hn.
      rewrite take_take. f_equal. lia. }
    pose proof (fd_write_once _ _ _ _ Hwr) as Hc1.
    destruct (eof _ || error _).
    + apply wp_bind. eapply wp_kernel; [apply (shutdown_spec taken written); auto|].
      intros td' Hsd (Ht' & Hw' & _ & Hc2). cbn. split.
      * split; [done|]. exists (with_inbound (pop_output n (inbound_stream c)) c). split; [done|]. cbn. split.
        -- rewrite Ht', Hw'. apply Hstep.
        -- by eapply shutdown_bounded, Hstep.
        -- apply Hstep.
      * left. unfold service_count. cbn. rewrite Hc2 by done. cbn. rewrite Hc1. apply count_moves.
    + split; [split; [done|by eexists]|]. left. unfold service_count. cbn. rewrite Hc1. apply count_moves.
Qed.

Lemma write_segments_spec queue : forall c s,
  aok (so_adapter s) -> so_tcp s = Some c -> cn_segments_out c = queue ->
  reaches c (f_kernel (so_thread_data s)) (so_outbound_shutdown s) ->
  wp sock_fails (write_segments queue c s) (fun s' =>
    aok (so_adapter s') /\ exists c', so_tcp s' = Some c' /\ cn_segments_out c' = [] /\
      reaches c' (f_kernel (so_thread_data s')) (so_outbound_shutdown s')).
Proof.
  induction queue as [|seg rest IH]; intros c s Ha Ec Eq Hre; cbn [write_segments]; [by split; [|exists c]|].
  apply wp_bind. eapply wp_adapter; [by apply feeds_write|]. intros [seg' ad] Hw Ha'. apply IH; [done..|]. cbn.
  eapply reaches_step; [exact Hre| |apply Hre|apply Hre].
  replace rest with (tail (cn_segments_out c)) by by rewrite Eq. apply cs_dequeue.
Qed.

Lemma rule4_ok : rule_ok SockInv sock_fails (rule4, fun _ => True).
Proof.
  split; cbn [fst snd rule4 ru_cancel ru_interest ru_callback].
  - done.
  - intros s (Ha & c & Ec & _). unfold rule4_interest, tcp_ref. rewrite Ec. by eexists.
  - intros s (Ha & c & Ec & Hre) _. unfold rule4_callback, tcp_ref. rewrite Ec. cbn [mbind res_bind].
    eapply wp_mono; [by apply write_segments_spec|]. intros s' (Ha' & c' & Ec' & Eq & Hre').
    split; [by split; [|exists c']|right; left]. unfold rule4_interest, tcp_ref. rewrite Ec'. cbn.
    by rewrite bool_decide_true.
Qed.

(** The rules with what their interest guarantees. *)
Definition socket_spec : list (Rule socket * (socket -> Prop)) :=
  [(rule1, fun _ => True); (rule2, fun s => so_outbound_shutdown s = false);
   (rule3, fun _ => True); (rule4, fun _ => True)].

Lemma socket_spec_ok : Forall (rule_ok SockInv sock_fails) socket_spec.
Proof.
  apply Forall_cons; split; [apply rule1_ok|]. apply Forall_cons; split; [apply rule2_ok|].
  apply Forall_cons; split; [apply rule3_ok|]. apply Forall_cons; split; [apply rule4_ok|done].
Qed.

Lemma rule1_keeps s s' :
  so_outbound_shutdown s = false -> rule1_callback s = Ok s' -> so_outbound_shutdown s' = false.
Proof.
  intros Hs E. unfold rule1_callback in E. res_inv.
  all: repeat match goal with
    | H : match ?o with Some _ => _ | None => _ end = Ok _ |- _ => destruct o; res_inv
    end; done.
Qed.

Lemma socket_spec_compatible : ForallOrdPairs (compatible SockInv) socket_spec.
Proof.
  repeat constructor; cbn; unfold keeps, no_cancel;
    first [done | intros s s' _ Hs [= <-]; exact Hs | intros s s' _ Hs E; by eapply rule1_keeps].
Qed.

(** ** The loop *)

(** While the thread waits, the other parties leave its state alone. *)
Definition quiet s s' : Prop :=
  so_tcp s' = so_tcp s /\ so_outbound_shutdown s' = so_outbound_shutdown s /\
  taken (f_kernel (so_thread_data s')) = taken (f_kernel (so_thread_data s)) /\
  written (f_kernel (so_thread_data s')) = written (f_kernel (so_thread_data s)) /\
  (kok (f_kernel (so_thread_data s)) -> kok (f_kernel (so_thread_data s'))) /\
  (aok (so_adapter s) -> aok (so_adapter s')).

Class Environment `{Poller socket} `{Clock socket} := {
  env_poll pollfds t s r revents s' :
    sys_poll pollfds t s = (r, revents, s') ->
    quiet s s' /\ returned r;
  env_clock s t s' : now s = (t, s') -> quiet s s'
}.

Lemma quiet_inv s s' : quiet s s' -> SockInv s -> SockInv s'.
Proof.
  intros (Et & Eo & Ek & Ew & Hk & Ha) (Has & c & Ec & [Hr Hb He]). split; [auto|].
  exists c. split; [congruence|].
  split; [by rewrite Ek, Ew|auto|by rewrite Eo].
Qed.

Context `{Environment}.

Lemma socket_poll_ok spec : spec `sublist_of` socket_spec -> poll_ok SockInv sock_fails spec.
Proof.
  intros Hs pollfds t s r revents s' HI E. destruct (env_poll _ _ _ _ _ _ E) as (Hq & He).
  split; [by eapply quiet_inv|]. split; [|split; [intros _; left; exact polled_loop|done]]. eapply Forall_sublist; [exact Hs|].
  repeat constructor. cbn. destruct Hq as (_ & -> & _). done.
Qed.

(** The rules that are left. *)
Definition rules_left (rules : list (Rule socket)) : Prop :=
  exists spec, spec `sublist_of` socket_spec /\ rules = map fst spec.

Lemma tcp_value_some s c : so_tcp s = Some c -> tcp_value s = Ok c.
Proof. unfold tcp_value. by intros ->. Qed.

Lemma tcp_round_spec condition base rules s :
  (forall s', SockInv s' -> is_ok (condition s') = true) -> rules_left rules -> SockInv s ->
  wp sock_fails (tcp_round condition base rules s) (fun '(_, _, rules', s') =>
    SockInv s' /\ rules_left rules').
Proof.
  intros Hc Hl HI. unfold tcp_round. specialize (Hc s HI). destruct (condition s) as [go|e|]; [|done..].
  cbn [mbind res_bind]. destruct go; cbn [negb]; [|done]. apply wp_bind.
  destruct Hl as (spec & Hs & ->). eapply wp_mono.
  { apply (wait_spec SockInv sock_fails); [| |by apply socket_poll_ok|exact HI].
    - eapply Forall_sublist; [exact Hs|apply socket_spec_ok].
    - eapply sublist_pairs; [exact Hs|apply socket_spec_compatible]. }
  intros [[ret rules'] s1] (HI1 & spec' & Hs' & ->).
  assert (Hl' : rules_left (map fst spec')) by (exists spec'; split; [by etrans|done]).
  destruct (_ || so_abort s1); [done|]. destruct HI1 as (Ha & c & Ec & Hre).
  rewrite (tcp_value_some s1 c Ec). cbn [mbind res_bind].
  destruct (active c); [|by split; [split; [|exists c]|]].
  destruct (now s1) as [t s2] eqn:En. pose proof (env_clock _ _ _ En) as Hq.
  assert (HI2 : SockInv s2) by (eapply quiet_inv; [exact Hq|by split; [|exists c]]).
  destruct HI2 as (Ha2 & c2 & Ec2 & Hre2). rewrite (tcp_value_some s2 c2 Ec2). cbn [mbind res_bind].
  pose proof (tick_is_ok _ (u64 (t - base)) (reaches_inv _ _ _ Hre2)) as Hok. cbn [ep_conn] in Hok.
  destruct (conn_tick _ c2) as [c3|e|] eqn:Et; [|done..]. cbn [mbind res_bind].
  apply wp_bind. eapply wp_adapter; [by apply feeds_tick|]. intros ad Hat Ha'. cbn. split; [|done]. split; [done|].
  exists c3. split; [done|]. cbn.
  eapply reaches_step; [exact Hre2|eapply cs_tick; [apply u64_range|exact Et]|apply Hre2|].
  rewrite (tick_ended _ _ _ Et). apply Hre2.
Qed.

Lemma tcp_rounds_spec n : forall condition base rules s,
  (forall s', SockInv s' -> is_ok (condition s') = true) -> rules_left rules -> SockInv s ->
  wp sock_fails (tcp_rounds n condition base rules s) (fun '(_, _, rules', s') =>
    SockInv s' /\ rules_left rules').
Proof.
  induction n as [|n IH]; intros condition base rules s Hc Hl HI; cbn [tcp_rounds]; [done|].
  apply wp_bind. eapply wp_mono; [by apply tcp_round_spec|].
  intros [[[go base'] rules'] s'] [HI' Hl']. destruct go; [|done]. by apply IH.
Qed.

(** The conditions of the three loops are defined. *)
Lemma conditions_ok s :
  SockInv s -> is_ok (connecting s) = true /\ is_ok (accepting s) = true /\ is_ok (always s) = true.
Proof.
  intros (_ & c & Ec & _). unfold connecting, accepting, in_state, tcp_ref. rewrite Ec. done.
Qed.

(** A new socket: nothing has gone through its local socket yet. *)
Definition fresh_socket s : Prop :=
  taken (f_kernel (so_thread_data s)) = [] /\ written (f_kernel (so_thread_data s)) = [] /\
  kok (f_kernel (so_thread_data s)).

Lemma started c_ad s rules s1 :
  fresh_socket s ->
  socket_connect random cfg c_ad [] s = Ok (rules, s1) \/
  listen_and_accept random cfg c_ad [] s = Ok (rules, s1) -> aok (so_adapter s1) ->
  SockInv s1 /\ rules_left rules.
Proof.
  intros (Ht & Hw & Hk) Hst Ha.
  assert (Hnew : reaches (TCPConnection_new random cfg) (f_kernel (so_thread_data s)) (so_outbound_shutdown s)).
  { split; [by rewrite Ht, Hw|done|done]. }
  assert (Hrl : rules_left [rule1; rule2; rule3; rule4]) by (by exists socket_spec).
  destruct Hst as [E|E]; unfold socket_connect, listen_and_accept in E; destruct (so_tcp s); try done;
    cbn [initialize_TCP add_rule app] in E.
  - unfold tcp_ref, in_state, tcp_ref in E. cbn in E. destruct (negb _); [done|].
    injection E as <- <-. split; [|done]. split; [done|]. exists (connect (TCPConnection_new random cfg)). split; [done|].
    eapply reaches_step; [exact Hnew|apply cs_connect|done|]. rewrite connect_ended. done.
  - injection E as <- <-. split; [|done]. split; [done|]. eexists. by split.
Qed.

Lemma socket_run c_ad s rules s1 n condition base :
  fresh_socket s ->
  socket_connect random cfg c_ad [] s = Ok (rules, s1) \/
  listen_and_accept random cfg c_ad [] s = Ok (rules, s1) -> aok (so_adapter s1) ->
  condition = connecting \/ condition = accepting \/ condition = always ->
  wp sock_fails (tcp_rounds n condition base rules s1) (fun '(_, _, _, s') =>
    exists c, so_tcp s' = Some c /\
      reaches c (f_kernel (so_thread_data s')) (so_outbound_shutdown s')).
Proof.
  intros Hf Hst Ha Hcond. destruct (started c_ad s rules s1 Hf Hst Ha) as [HI Hl].
  eapply wp_mono; [apply tcp_rounds_spec; [|exact Hl|exact HI]|].
  - intros s' Hs'. apply conditions_ok in Hs' as (? & ? & ?). by destruct Hcond as [->|[->| ->]].
  - intros [[[go b] rs] s'] [(_ & c & Ec & Hr) _]. by exists c.
Qed.
End Refinement.

(** The TCP thread refines the connection: after [connect] or
    [listen_and_accept] and any number of rounds of its loop, what the thread has
    done to the connection is a run of it in which the application has written
    exactly the bytes the owner passed in and read exactly the bytes handed to
    the owner, both in order, and the segments received are those the adapter
    delivers.  The thread only fails when a system call fails, [poll] reports an
    error or the adapter fails: no busy wait is detected, the connection always takes the bytes it announced
    room for, and no optional is dereferenced empty. *)
Theorem socket_refines {A K} `{AdapterSpec A} `{Kernel K} (taken written : K -> list byte)
    `{!KernelSpec K taken written} (kok : K -> Prop) `{!KernelBounded K taken kok}
    (aok : A -> Prop) (Pseg : TCPSegment -> Prop) (afails : option exn -> Prop) `{!AdapterFeeds A aok Pseg afails}
    `{Poller (TCPSpongeSocket A K)} `{Clock (TCPSpongeSocket A K)}
    `{!Environment taken written kok aok} random cfg c_ad (s : TCPSpongeSocket A K) rules s1 n condition base :
  cfg_ok cfg -> fresh_socket taken written kok s ->
  socket_connect random cfg c_ad [] s = Ok (rules, s1) \/
  listen_and_accept random cfg c_ad [] s = Ok (rules, s1) -> aok (so_adapter s1) ->
  condition = connecting \/ condition = accepting \/ condition = always ->
  wp (sock_fails afails) (tcp_rounds n condition base rules s1) (fun '(_, _, _, s') =>
    exists c, so_tcp s' = Some c /\
      rtc (conn_step (from_adapter Pseg)) (endpoint_new random cfg)
        (mkEndpoint c (taken (f_kernel (so_thread_data s'))) (written (f_kernel (so_thread_data s'))))).
Proof.
  intros Hcfg Hf Hst Ha Hcond. eapply wp_mono; [by eapply (socket_run taken written kok aok Pseg afails)|].
  intros [[[go b] rs] s'] (c & Ec & [Hr _ _]). by exists c.
Qed.

(** ** Data across the socket *)

Lemma micro_rcv isn S P e e' :
  (forall seg, P seg -> honest isn S seg) -> micro P e e' ->
  rtc (rcv_step isn S) (cn_receiver (ep_conn e), ep_read e) (cn_receiver (ep_conn e'), ep_read e').
Proof. intros HP []; cbn; try apply rtc_refl; apply rtc_once; constructor; auto. Qed.

Lemma conn_run_rcv isn S (P : TCPSegment -> Prop) e e' :
  (forall seg, P seg -> typed seg /\ honest isn S seg) -> rtc (conn_step P) e e' ->
  rtc (rcv_step isn S) (cn_receiver (ep_conn e), ep_read e) (cn_receiver (ep_conn e'), ep_read e').
Proof.
  intros HP Hr. apply conn_steps_micro in Hr; [|intros seg Hs; by apply HP].
  induction Hr as [|e1 e2 e3 H1 _ IH]; [apply rtc_refl|]. etrans; [|exact IH].
  eapply micro_rcv; [|exact H1]. intros seg Hs. by apply HP.
Qed.

(** C4.  Data across the socket: when the adapter only delivers segments of a
    peer with stream [S], lost, duplicated and reordered as they may be, then
    after any number of rounds the bytes handed to the owner, followed by those
    that wait, are a prefix of [S]; and every segment queued for the adapter
    carries the bytes taken from the owner at their sequence numbers.  The loop
    fails only when a system call fails, when [poll] reports an error on a
    descriptor (then the event loop throws), or when the adapter fails in one of
    the ways [afails] that its operations have. *)
Theorem socket_delivers {A K} `{AdapterSpec A} `{Kernel K} (taken written : K -> list byte)
    `{!KernelSpec K taken written} (kok : K -> Prop) `{!KernelBounded K taken kok}
    (aok : A -> Prop) isn S (afails : option exn -> Prop) `{!AdapterFeeds A aok (honest isn S) afails}
    `{Poller (TCPSpongeSocket A K)} `{Clock (TCPSpongeSocket A K)}
    `{!Environment taken written kok aok} random cfg c_ad (s : TCPSpongeSocket A K) rules s1 n condition base :
  winv isn -> zlen S < 2 ^ 31 - 4 ->
  cfg_ok cfg -> fresh_socket taken written kok s ->
  socket_connect random cfg c_ad [] s = Ok (rules, s1) \/
  listen_and_accept random cfg c_ad [] s = Ok (rules, s1) -> aok (so_adapter s1) ->
  condition = connecting \/ condition = accepting \/ condition = always ->
  wp (sock_fails afails) (tcp_rounds n condition base rules s1) (fun '(_, _, _, s') =>
    exists c, so_tcp s' = Some c /\
      (written (f_kernel (so_thread_data s')) ++ bs_buffer (inbound_stream c)) `prefix_of` S /\
      Forall (honest (sd_isn (cn_sender c)) (taken (f_kernel (so_thread_data s')))) (cn_segments_out c)).
Proof.
  intros Hisn HS Hcfg Hf Hst Ha Hcond.
  eapply wp_mono; [by eapply (socket_run taken written kok aok (honest isn S) afails)|].
  intros [[[go b] rs] s'] (c & Ec & Hre). exists c. split_and!; [done| |].
  - destruct Hre as [Hr _ _]. apply (conn_run_rcv isn S) in Hr; [|by intros seg].
    exact (receiver_safe _ _ _ _ _ Hisn HS (ok_recv _ Hcfg) Hr).
  - assert (HI : CInv (mkEndpoint c (taken (f_kernel (so_thread_data s'))) (written (f_kernel (so_thread_data s')))))
      by by eapply reaches_inv.
    eapply Forall_impl; [apply (ci_out _ HI)|]. by intros x [? _].
Qed.

(** ** A server on a TUN device *)

#[local] Existing Instances numeric_Resolver numeric_ResolverSpec.

Abbreviation tun_adapter := (TCPOverIPv4OverTunFdAdapter Pipe).
Abbreviation tun_socket := (TCPSpongeSocket tun_adapter Pipe).

(** Every descriptor is always ready; ten milliseconds pass between two looks at
    the clock. *)
#[local] Instance ready_Poller : Poller tun_socket := fun pollfds _ s =>
  (ok_ret 1, map (fun p => Z.land (pf_events p) (Z.lor POLLIN POLLOUT)) pollfds, s).
#[local] Instance ten_Clock : Clock tun_socket := fun s => (10, s).

(** The bytes of the client's SYN with the data "hi". *)
Definition wire_bytes : list byte :=
  match wrap_tcp_in_ip example_syn example_client with
  | Ok (d, _) => match IPv4Datagram_serialize d with Ok bl => concatenate bl | _ => [] end
  | _ => []
  end.

Definition new_file (k : Pipe) : File Pipe := mkFile (mkFD 3 false false 0 0) k.

(** The owner has written one byte. *)
Definition server_socket : tun_socket :=
  mkSocket (new_file (mkPipe [] [] 1000 [])) (new_file (mkPipe [([], [x61])] [] 1000 []))
    (mkTunAdapter example_server (new_file (mkPipe [([], wire_bytes)] [] 1000 []))) None
    false false false false.

Definition server_started : list (Rule tun_socket) * tun_socket :=
  match listen_and_accept 0 example_cfg (fa_cfg example_server) [] server_socket with
  | Ok x => x | _ => ([], server_socket) end.

(** What the wire carries, as the server sees it. *)
Definition of_client (o : res (option TCPSegment * FdAdapterBase)) : bool :=
  match o with
  | Ok (Some seg, _) =>
      (raw_value (seqno (header seg)) =? 7) && syn (header seg) && negb (fin (header seg)) &&
      bool_decide (str (payload seg) = [x68; x69])
  | _ => false
  end.

Lemma wire_arrives :
  match IPv4Datagram_parse IPv4Datagram_default (Buffer_of wire_bytes) with
  | Ok (NoError, d) => of_client (unwrap_tcp_in_ip d example_server) = true
  | _ => False
  end.
Proof. vm_compute. reflexivity. Qed.

Lemma nothing_arrives :
  match IPv4Datagram_parse IPv4Datagram_default (Buffer_of []) with
  | Ok (NoError, _) => False
  | _ => True
  end.
Proof. vm_compute. exact I. Qed.

Lemma of_client_honest seg b :
  of_client (Ok (Some seg, b)) = true -> typed seg -> honest (mkWrappingInt32 7) [x68; x69] seg.
Proof.
  destruct seg as [h p]. destruct h as [? ? [sq] ? ? ? ? ? ? sy fi ? ? ?]. cbn. intros Hc Hty.
  repeat (apply andb_prop in Hc as [Hc ?]). bool_prop. subst.
  match goal with H : bool_decide _ = true |- _ => apply bool_decide_eq_true_1 in H; rename H into Hp end.
  exists 0. split; cbn; [done|lia|done| |congruence|done]. rewrite Hp.
  intros [|[|j]] c; vm_compute; congruence.
Qed.

(** The client's datagram waits, or nothing does. *)
Definition client_wire (a : tun_adapter) : Prop :=
  inbox (f_kernel (tun_tun a)) = [] \/
  inbox (f_kernel (tun_tun a)) = [([], wire_bytes)] /\ tun_base a = example_server.

Lemma tun_read_inv (a a' : tun_adapter) o :
  adapter_read a = Ok (o, a') ->
  exists l, inbox (f_kernel (tun_tun a')) = tail (inbox (f_kernel (tun_tun a))) /\
    l = (match inbox (f_kernel (tun_tun a)) with [] => [] | m :: _ => take (Z.to_nat BUFFER_SIZE) (snd m) end) /\
    match IPv4Datagram_parse IPv4Datagram_default (Buffer_of l) with
    | Ok (NoError, d) => exists b, unwrap_tcp_in_ip d (tun_base a) = Ok (o, b)
    | _ => o = None
    end.
Proof.
  cbn. unfold tun_read. intros ([l tun] & Hr & E)%res_bind_ok.
  destruct (pipe_read SIZE_MAX _ _ _ ltac:(done) Hr) as [Hl Hi]. exists l.
  destruct (IPv4Datagram_parse _ _) as [[res d]|e|]; cbn [mbind res_bind] in E; [|done..].
  destruct res; cbn [negb bool_decide] in E;
    try (injection E as <- <-; by split_and!).
  apply res_bind_ok in E as ([o' b] & Hu & [= <- <-]). split_and!; [done..|by exists b].
Qed.

(** The failures of the adapter on a pipe, with the numeric resolver. *)
Abbreviation server_fails := (tun_fails (fun f => f = Some runtime_error)).

Lemma server_port_fails a : wp (fun f => f = Some runtime_error) (@getnameinfo_port numeric_Resolver a) (fun _ => True).
Proof. cbn. by case_if. Qed.

(** An adapter operation that keeps [aok] when it returns. *)
Lemma tun_feeds (aok : tun_adapter -> Prop) (Pseg : TCPSegment -> Prop) :
  (forall a o a', adapter_read a = Ok (o, a') -> aok a -> aok a' /\ forall seg, o = Some seg -> Pseg seg) ->
  (forall seg a seg' a', adapter_write seg a = Ok (seg', a') -> aok a -> aok a') ->
  AdapterFeeds tun_adapter aok Pseg server_fails.
Proof.
  intros Hr Hw. split.
  - intros a Ha. pose proof (tun_read_fails pipe_taken pipe_written (fun f => f = Some runtime_error)
      server_port_fails ltac:(done) a) as Hf. specialize (Hr a).
    change (adapter_read a) with (tun_read a) in *. destruct (tun_read a) as [[o a']|e|]; [by apply Hr|done..].
  - intros seg a Ha. pose proof (tun_write_fails pipe_taken pipe_written (fun f => f = Some runtime_error)
      server_port_fails seg a) as Hf. specialize (Hw seg a).
    change (adapter_write seg a) with (tun_write seg a) in *. destruct (tun_write seg a) as [[o a']|e|]; [by eapply Hw|done..].
  - by intros ms a Ha.
Qed.

#[local] Instance client_feeds : AdapterFeeds tun_adapter client_wire (honest (mkWrappingInt32 7) [x68; x69]) server_fails.
Proof.
  apply tun_feeds.
  - intros a o a' E Ha. pose proof (fun seg Hs => read_typed a seg a' (eq_trans E (f_equal (fun o => Ok (o, a')) Hs))) as Hty.
    destruct (tun_read_inv _ _ _ E) as (l & Hi & -> & Hp).
    destruct Ha as [Ha|[Ha Hb]]; rewrite Ha in Hi, Hp; (split; [by left|]); intros seg ->.
    + pose proof nothing_arrives as Hn. destruct (IPv4Datagram_parse _ _) as [[[] d]|e|]; done.
    + rewrite take_ge in Hp by (apply Nat2Z.inj_le; vm_compute; discriminate). cbn [snd] in Hp.
      pose proof wire_arrives as Hn. rewrite Hb in Hp. destruct (IPv4Datagram_parse _ _) as [[[] d]|e|]; try done.
      destruct Hp as [b Hu]. rewrite Hu in Hn. eapply of_client_honest; [exact Hn|].
      destruct (Hty seg eq_refl) as (_ & _ & _ & Hk & _ & Hw & _). by split.
  - intros seg a seg' a' E Ha. apply res_bind_ok in E as ([d sg] & _ & E).
    apply res_bind_ok in E as (bl & _ & E). apply res_bind_ok in E as ([n f] & Hw & [= _ <-]).
    pose proof (fd_write_keeps (fun k => inbox k = inbox (f_kernel (tun_tun a))) _ _ _ _ _
                  (fun bufs k Hk => eq_trans (pipe_writev_inbox bufs k) Hk) Hw eq_refl) as Hi.
    unfold client_wire in *. cbn. by rewrite Hi.
Qed.

#[local] Instance server_environment (aok : tun_adapter -> Prop) :
  Environment pipe_taken pipe_written pipe_ok aok.
Proof.
  split.
  - intros pollfds t s r revents s' [= <- <- <-]. by split; [split_and!|].
  - intros s t s' [= <- <-]. by split_and!.
Qed.

Lemma server_fresh : fresh_socket pipe_taken pipe_written pipe_ok server_socket.
Proof. by split_and!. Qed.

Lemma server_listens :
  listen_and_accept 0 example_cfg (fa_cfg example_server) [] server_socket = Ok server_started.
Proof. reflexivity. Qed.

#[local] Instance any_feeds : AdapterFeeds tun_adapter (fun _ => True) (fun _ => True) server_fails.
Proof. by apply tun_feeds. Qed.

(** Two rounds of the loop: the server takes the client's data to its owner and
    the owner's byte to the connection. *)
Lemma socket_delivers_witness :
  wp (sock_fails server_fails) (tcp_rounds 2 always 0 (fst server_started) (snd server_started))
    (fun '(_, _, _, s') =>
      exists c, so_tcp s' = Some c /\
        (pipe_written (f_kernel (so_thread_data s')) ++ bs_buffer (inbound_stream c)) `prefix_of` [x68; x69] /\
        Forall (honest (sd_isn (cn_sender c)) (pipe_taken (f_kernel (so_thread_data s')))) (cn_segments_out c)).
Proof.
  apply (socket_delivers pipe_taken pipe_written pipe_ok client_wire (mkWrappingInt32 7) [x68; x69] server_fails
           0 example_cfg (fa_cfg example_server) server_socket (fst server_started) (snd server_started) 2 always 0).
  - unfold winv. cbn. word_lia.
  - cbn. lia.
  - exact example_cfg_ok.
  - exact server_fresh.
  - right. exact server_listens.
  - right. split; reflexivity.
  - right. right. reflexivity.
Defined.

Lemma socket_refines_witness :
  wp (sock_fails server_fails) (tcp_rounds 2 accepting 0 (fst server_started) (snd server_started))
    (fun '(_, _, _, s') =>
      exists c, so_tcp s' = Some c /\
        rtc (conn_step (from_adapter (fun _ => True))) (endpoint_new 0 example_cfg)
          (mkEndpoint c (pipe_taken (f_kernel (so_thread_data s'))) (pipe_written (f_kernel (so_thread_data s'))))).
Proof.
  apply (socket_refines pipe_taken pipe_written pipe_ok (fun _ => True) (fun _ => True) server_fails
           0 example_cfg (fa_cfg example_server) server_socket (fst server_started) (snd server_started) 2 accepting 0).
  - exact example_cfg_ok.
  - exact server_fresh.
  - right. exact server_listens.
  - exact I.
  - right. left. reflexivity.
Defined.

(** The same two rounds, run. *)
Example server_runs :
  match tcp_rounds 2 always 0 (fst server_started) (snd server_started) with
  | Ok (_, _, _, s') => bool_decide (pipe_written (f_kernel (so_thread_data s')) = [x68; x69]) &&
                        bool_decide (pipe_taken (f_kernel (so_thread_data s')) = [x61])
  | _ => false
  end = true.
Proof. vm_compute. reflexivity. Qed.
