(* ===== verification/Bouncer.v ===== *)
(** * The UDP bouncer

    Models [src/apps/bouncer.cc]: pairs of UDP sockets on neighbouring ports, each
    of which learns the address its datagrams come from and passes them on to the
    peer of its partner.  The sockets and the learnt addresses are in two vectors;
    the rules of the event loop hold references into them, here indices.
    [bouncer_relays] says what a pair sends, as a function of what it received. *)

From Stdlib Require Import Strings.String.
From S2P Require Import Prelude Buffers Parser Text Address FileDescriptor EventLoop Sockets.
From S2P Require Import Ethernet Summaries SpongeSocket.

Open Scope Z_scope.

Definition RESERVED : Z := 66000.
Definition FIRST_PORT : Z := 1024.
Definition LAST_PORT : Z := 64000.
(** The default of [UDPSocket::recv]. *)
Definition RECV_MTU : Z := 65536.

(** [emplace_back]: a vector that outgrows its reserved capacity moves, and the
    references into it dangle. *)
Definition emplace_back {A} (x : A) (l : list A) : res (list A) :=
  if RESERVED <=? zlen l then Undefined else Ok (l ++ [x]).

(** A reference into a vector. *)
Definition deref {A} (l : list A) (i : nat) : res A :=
  match l !! i with Some x => Ok x | None => Undefined end.

Section Bouncer.
Context {K : Type} `{SocketKernel K} `{Resolver} `{NameInfo}.

Record Bouncer := mkBouncer {
  bo_sockets : list (File K);
  bo_peers : list (option Address);
  bo_cerr : ostream
}.

Definition set_socket (i : nat) (f : File K) (b : Bouncer) : Bouncer :=
  mkBouncer (<[i:=f]> (bo_sockets b)) (bo_peers b) (bo_cerr b).
Definition set_peer (i : nat) (a : Address) (b : Bouncer) : Bouncer :=
  mkBouncer (bo_sockets b) (<[i:=Some a]> (bo_peers b)) (bo_cerr b).

(** The first statement of a callback after [recv], for the socket [i] called [name]. *)
Definition learn (i : nat) (name : string) (source : Address) (b : Bouncer) : res Bouncer :=
  peer ← deref (bo_peers b) i;
  if (match peer with None => true | Some p => negb (Address_eqb p source) end) then
    let b := set_peer i source b in
    x ← deref (bo_sockets b) i;
    l ← local_address x;
    l ← Address_to_string l;
    p ← Address_to_string source;
    Ok (mkBouncer (bo_sockets b) (bo_peers b)
          (bo_cerr b << [Str "Learned new address for "; Str name; Str " ( "; Bytes l; Str " at "; Bytes p; Bytes [nl]]))
  else Ok b.

(** The callback of socket [i], whose partner is [j]. *)
Definition bounce (i j : nat) (name : string) (b : Bouncer) : res Bouncer :=
  x ← deref (bo_sockets b) i;
  r ← udp_recv RECV_MTU x;
  let '(rec, x) := r in
  b ← learn i name (source_address rec) (set_socket i x b);
  y_peer ← deref (bo_peers b) j;
  match y_peer with
  | Some d =>
      if negb (bool_decide (rd_payload rec = [])) then
        y ← deref (bo_sockets b) j;
        y ← udp_sendto d [rd_payload rec] y;
        Ok (set_socket j y b)
      else Ok b
  | None => Ok b
  end.

(** The rule's descriptor; its index is always within the vector. *)
Definition socket_fd (i : nat) (b : Bouncer) : FDWrapper :=
  match bo_sockets b !! i with Some f => f_fd f | None => mkFD 0 true true 0 0 end.

Definition bounce_rule (i j : nat) (name : string) : Rule Bouncer :=
  mkRule (socket_fd i) In_ (bounce i j name) (fun _ => Ok true) (fun b => Ok b).

(** One round of the [for] loop: [opened] are the results of [socket]. *)
Definition add_pair (opened : nat -> sysret * K) (lower_port : Z) (rules : list (Rule Bouncer)) (b : Bouncer)
  : res (list (Rule Bouncer) * Bouncer) :=
  let n := length (bo_sockets b) in
  x ← Socket_new (opened n);
  sockets ← emplace_back x (bo_sockets b);
  y ← Socket_new (opened (S n));
  sockets ← emplace_back y sockets;
  peers ← emplace_back None (bo_peers b);
  peers ← emplace_back None peers;
  let b := mkBouncer sockets peers (bo_cerr b) in
  a ← Address_of_ip_port 0 lower_port;
  x ← deref (bo_sockets b) n;
  x ← socket_bind a x;
  let b := set_socket n x b in
  a ← Address_of_ip_port 0 (u16 (lower_port + 1));
  y ← deref (bo_sockets b) (S n);
  y ← socket_bind a y;
  let b := set_socket (S n) y b in
  Ok (add_rule (bounce_rule (S n) n "Y") (add_rule (bounce_rule n (S n) "X") rules), b).

(** The [for] loop, from [lower_port] on; [Undefined] when the fuel runs out. *)
Fixpoint bind_loop (fuel : nat) (opened : nat -> sysret * K) (lower_port : Z)
    (rules : list (Rule Bouncer)) (b : Bouncer) : res (list (Rule Bouncer) * Bouncer) :=
  match fuel with
  | O => Undefined
  | S fuel' =>
      if lower_port <=? LAST_PORT then
        r ← add_pair opened lower_port rules b;
        bind_loop fuel' opened (u16 (lower_port + 2)) (fst r) (snd r)
      else Ok (rules, b)
  end.

(** [n] rounds of the [while] loop, or fewer if it ends. *)
Fixpoint bounce_loop `{Poller Bouncer} (n : nat) (rules : list (Rule Bouncer)) (b : Bouncer) : res Bouncer :=
  match n with
  | O => Ok b
  | S n' =>
      r ← wait_next_event (-1) rules b;
      let '(result, rules, b) := r in
      match result with Exit_ => Ok b | _ => bounce_loop n' rules b end
  end.

(** The rounds the [for] loop has left from [lower_port] on. *)
Definition pairs_left (lower_port : Z) : Z := (LAST_PORT - lower_port) / 2 + 1.

(** [program_body], with [n] rounds of the event loop; the ports from
    [lower_port] on. *)
Definition bouncer_from `{Poller Bouncer} (lower_port : Z) (opened : nat -> sysret * K) (cerr : ostream) (n : nat)
  : res Bouncer :=
  r ← bind_loop (S (Z.to_nat (pairs_left lower_port))) opened lower_port [] (mkBouncer [] [] cerr);
  let '(rules, b) := r in
  bounce_loop n rules (mkBouncer (bo_sockets b) (bo_peers b) (bo_cerr b << [Str "Starting event loop..."; Bytes [nl]])).

Definition program_body `{Poller Bouncer} := bouncer_from FIRST_PORT.
End Bouncer.
Arguments Bouncer K : clear implicits.

(** ** What the kernel promises

    Over the histories of the datagrams a socket received (with their source) and
    sent (with their destination): a datagram has at most 65535 bytes and is
    received and sent whole, and an address fits [sockaddr_storage]. *)
Class UdpSpec (K : Type) `{SocketKernel K} (received sent : K -> list (Address * list byte)) := {
  recvfrom_whole n k r l from len k' :
    65535 <= n -> sys_recvfrom n k = (r, l, (from, len), k') -> 0 <= rv r ->
    zlen l = rv r /\ rv r <= 65535 /\ 0 <= len /\
    exists a, Address_of_sockaddr from len = Ok a /\ received k' = received k ++ [(a, l)] /\ sent k' = sent k;
  recvfrom_returns n k r l a k' : sys_recvfrom n k = (r, l, a, k') -> returned r;
  sendmsg_whole d bufs k r k' :
    sys_sendmsg d bufs k = (r, k') -> 0 <= rv r ->
    rv r = zlen (concat bufs) /\ rv r <= 65535 /\ sent k' = sent k ++ [(d, concat bufs)] /\ received k' = received k;
  sendmsg_returns d bufs k r k' : sys_sendmsg d bufs k = (r, k') -> returned r;
  bind_quiet a k r k' :
    sys_bind a k = (r, k') -> received k' = received k /\ sent k' = sent k /\ returned r;
  getsockname_fits k r a len :
    sys_getsockname k = (r, a, len) -> len <= sizeof_sockaddr_storage /\ returned r
}.

(** ** The relay as a function of what arrived *)

(** A datagram received on a socket: its source and payload. *)
Abbreviation arrival := (nat * (Address * list byte))%type.

(** The sockets of a pair are neighbours. *)
Definition partner (i : nat) : nat := if Nat.even i then S i else pred i.

(** What socket [j] knows and has sent: the last source seen on [j] is its peer;
    a non-empty payload that arrives on the partner goes to the peer. *)
Definition relay_step (j : nat) (st : option Address * list (Address * list byte)) (e : arrival)
  : option Address * list (Address * list byte) :=
  let '(peer, out) := st in
  let '(i, (a, p)) := e in
  if decide (i = j) then (Some a, out)
  else if decide (i = partner j) then
    match peer with
    | Some d => if bool_decide (p = []) then st else (peer, out ++ [(d, p)])
    | None => st
    end
  else st.
Definition relay (j : nat) (trace : list arrival) : option Address * list (Address * list byte) :=
  fold_left (relay_step j) trace (None, []).
Definition arrivals (j : nat) (trace : list arrival) : list (Address * list byte) :=
  map snd (filter (fun e => fst e = j) trace).

Lemma relay_snoc j tr e : relay j (tr ++ [e]) = relay_step j (relay j tr) e.
Proof. apply fold_left_app. Qed.

Lemma arrivals_snoc j tr i x :
  arrivals j (tr ++ [(i, x)]) = arrivals j tr ++ (if decide (i = j) then [x] else []).
Proof.
  unfold arrivals. rewrite filter_app, map_app. f_equal. rewrite filter_cons, filter_nil. cbn.
  by destruct (decide (i = j)).
Qed.

Lemma partner_spec i n :
  Nat.even n = true -> (i < n)%nat -> partner (partner i) = i /\ partner i <> i /\ (partner i < n)%nat.
Proof.
  intros Hn Hi. apply Nat.even_spec in Hn as [k ->].
  destruct (Nat.Even_or_Odd i) as [[m ->]|[m ->]]; unfold partner.
  - rewrite Nat.even_even, <- Nat.add_1_r, Nat.even_odd. lia.
  - rewrite Nat.even_odd, Nat.add_1_r, Nat.pred_succ, Nat.even_even. lia.
Qed.

(** ** Addresses *)

(** The storage of a constructed address is zero past its size. *)
Definition address_ok (a : Address) : Prop :=
  ad_storage a = take (Z.to_nat (ad_size a)) (ad_storage a) ++
                 replicate (Z.to_nat (sizeof_sockaddr_storage - ad_size a)) x00 /\ 0 <= ad_size a <= 128.

Lemma Address_of_sockaddr_ok l n a : 0 <= n -> Address_of_sockaddr l n = Ok a -> address_ok a.
Proof.
  unfold Address_of_sockaddr, sizeof_sockaddr_storage. intros Hn. destruct (128 <? n) eqn:E; bool_prop; [done|].
  intros [= <-]. unfold address_ok, sizeof_sockaddr_storage. cbn [ad_size ad_storage]. split; [|lia].
  rewrite take_app, take_take, take_replicate, <- app_assoc, <- replicate_add, length_take.
  f_equal; [f_equal|f_equal]; lia.
Qed.

Lemma Address_eqb_eq a b : address_ok a -> address_ok b -> Address_eqb a b = true -> a = b.
Proof.
  destruct a as [n s], b as [m t]. unfold address_ok, Address_eqb. cbn [ad_size ad_storage].
  intros [Hs _] [Ht _] [E1 E2]%andb_true_iff. bool_prop. subst m. f_equal. apply bool_decide_eq_true in E2.
  by rewrite Hs, Ht, E2.
Qed.

(** ** The callbacks follow the relay *)

Section Relays.
Context {K : Type} `{Kk : Kernel K} `{!SocketKernel K} `{Resolver} `{NameInfo}.
Context (received sent : K -> list (Address * list byte)) `{!UdpSpec K received sent}.
Implicit Types (f x y : File K) (b : Bouncer K) (tr : list arrival).

(** [Er] has the failures of the resolver, which [to_string] and the constructor of
    addresses ask. *)
Context (Er : option exn -> Prop).
Context (Hstring : forall a, wp Er (Address_to_string a) (fun _ => True)).
Context (Haddress : forall ip p, wp Er (Address_of_ip_port ip p) (fun _ => True)).

(** A system call fails, [poll] reports an error, or the resolver fails. *)
Definition bounce_fails (e : option exn) : Prop := loop_fails e \/ Er e.

Lemma call_bounce c : bounce_fails (Some (unix_error c)).
Proof. left. left. exists (unix_error c). split; [done|]. right. by exists c. Qed.

Lemma recv_exact x :
  wp bounce_fails (udp_recv RECV_MTU x) (fun '(d, x') =>
    address_ok (source_address d) /\
    received (f_kernel x') = received (f_kernel x) ++ [(source_address d, rd_payload d)] /\
    sent (f_kernel x') = sent (f_kernel x) /\
    fd_read_count (f_fd x') = u32 (fd_read_count (f_fd x) + 1)).
Proof.
  unfold udp_recv. destruct (sys_recvfrom _ _) as [[[r st] [fr fl]] k'] eqn:E.
  destruct (syscall_cases r (recvfrom_returns _ _ _ _ _ _ E)) as [[-> Hr]|[c ->]]; cbn [mbind res_bind];
    [|apply call_bounce].
  destruct (recvfrom_whole RECV_MTU _ _ _ _ _ _ ltac:(done) E Hr) as (Hl & Hm & Hf & a & Ha & Hre & Hse).
  rewrite (proj2 (Z.ltb_ge _ _)) by (unfold RECV_MTU; lia). rewrite Ha. cbn -[resize RECV_MTU].
  rewrite resize_resize by (unfold RECV_MTU; lia). rewrite <- Hl, resize_exact.
  split_and!; [by eapply Address_of_sockaddr_ok|done..].
Qed.

Lemma sendto_exact d l y :
  wp bounce_fails (udp_sendto d l y) (fun y' =>
    sent (f_kernel y') = sent (f_kernel y) ++ [(d, concat l)] /\ received (f_kernel y') = received (f_kernel y) /\
    fd_read_count (f_fd y') = fd_read_count (f_fd y)).
Proof.
  unfold udp_sendto, sendmsg_helper. rewrite iovecs_bufs. destruct (sys_sendmsg _ _ _) as [r k'] eqn:E.
  destruct (syscall_cases r (sendmsg_returns _ _ _ _ _ E)) as [[-> Hr]|[c ->]]; cbn [mbind res_bind];
    [|apply call_bounce].
  destruct (sendmsg_whole _ _ _ _ _ E Hr) as (Hl & Hm & Hse & Hre).
  rewrite bv_size_eq, u64_small, <- Hl, Z.eqb_refl by word_lia. done.
Qed.

Lemma bind_exact a x :
  wp bounce_fails (socket_bind a x) (fun x' =>
    received (f_kernel x') = received (f_kernel x) /\ sent (f_kernel x') = sent (f_kernel x)).
Proof.
  unfold socket_bind, on_object. destruct (sys_bind _ _) as [r k'] eqn:E.
  destruct (bind_quiet _ _ _ _ E) as (Hre & Hse & He).
  destruct (syscall_cases r He) as [[-> Hr]|[c ->]]; cbn [mbind res_bind]; [done|apply call_bounce].
Qed.

Lemma local_address_cases x : wp bounce_fails (local_address x) (fun _ => True).
Proof.
  unfold local_address, get_address. destruct (sys_getsockname _) as [[r a] len] eqn:E.
  destruct (getsockname_fits _ _ _ _ E) as [Hl He].
  destruct (syscall_cases r He) as [[-> Hr]|[c ->]]; cbn [mbind res_bind]; [|apply call_bounce].
  unfold Address_of_sockaddr. by rewrite (proj2 (Z.ltb_ge _ _)) by done.
Qed.

Lemma to_string_cases a : wp bounce_fails (Address_to_string a) (fun _ => True).
Proof. specialize (Hstring a). destruct (Address_to_string a); [done|by right..]. Qed.

Lemma ip_port_cases ip p : wp bounce_fails (Address_of_ip_port ip p) (fun _ => True).
Proof. specialize (Haddress ip p). destruct (Address_of_ip_port ip p); [done|by right..]. Qed.

Definition peer_ok (p : option Address) : Prop := match p with Some a => address_ok a | None => True end.

Lemma learn_spec i name a b p x :
  bo_peers b !! i = Some p -> bo_sockets b !! i = Some x -> peer_ok p -> address_ok a ->
  wp bounce_fails (learn i name a b) (fun b' =>
    bo_sockets b' = bo_sockets b /\ bo_peers b' = <[i:=Some a]> (bo_peers b)).
Proof.
  intros Hp Hx Hpo Ha. unfold learn, deref. rewrite Hp. cbn [mbind res_bind].
  destruct (match p with None => true | Some p => negb (Address_eqb p a) end) eqn:E.
  - cbn [set_peer bo_sockets]. rewrite Hx. cbn [mbind res_bind]. apply wp_bind.
    eapply wp_mono; [apply local_address_cases|]. intros l _. apply wp_bind.
    eapply wp_mono; [apply to_string_cases|]. intros t _. apply wp_bind.
    eapply wp_mono; [apply to_string_cases|]. done.
  - destruct p as [p|]; [|done]. apply negb_false_iff, Address_eqb_eq in E; [|done..]. subst p.
    cbn. by rewrite list_insert_id.
Qed.

(** The sockets and the learnt addresses are those the relay gives. *)
Definition agrees tr (sockets : list (File K)) (peers : list (option Address)) : Prop :=
  forall j f p, sockets !! j = Some f -> peers !! j = Some p ->
    received (f_kernel f) = arrivals j tr /\ (p, sent (f_kernel f)) = relay j tr.

(** What socket [j] sends when [l] arrives on its partner. *)
Definition passed (peers : list (option Address)) (j : nat) (l : list byte) : list (Address * list byte) :=
  match peers !! j with
  | Some (Some d) => if bool_decide (l = []) then [] else [(d, l)]
  | _ => []
  end.

Lemma agrees_step tr sockets peers n i x x' y y' a l :
  agrees tr sockets peers -> Nat.even n = true -> length sockets = n -> length peers = n ->
  sockets !! i = Some x -> sockets !! partner i = Some y ->
  received (f_kernel x') = received (f_kernel x) ++ [(a, l)] -> sent (f_kernel x') = sent (f_kernel x) ->
  received (f_kernel y') = received (f_kernel y) ->
  sent (f_kernel y') = sent (f_kernel y) ++ passed peers (partner i) l ->
  agrees (tr ++ [(i, (a, l))]) (<[partner i:=y']> (<[i:=x']> sockets)) (<[i:=Some a]> peers).
Proof.
  intros HA Hn Hls Hlp Hx Hy Hxr Hxs Hyr Hys j f p Hf Hp.
  pose proof (lookup_lt_Some _ _ _ Hx) as Hi. rewrite Hls in Hi.
  destruct (partner_spec i n Hn Hi) as (Hpp & Hne & Hlt).
  rewrite relay_snoc, arrivals_snoc. unfold relay_step.
  destruct (decide (i = j)) as [<-|Hij].
  - rewrite list_lookup_insert_ne in Hf by done. rewrite list_lookup_insert_eq in Hf by lia. injection Hf as <-.
    rewrite list_lookup_insert_eq in Hp by lia. injection Hp as <-.
    destruct (lookup_lt_is_Some_2 peers i) as [p Hp]; [lia|]. destruct (HA _ _ _ Hx Hp) as [-> <-] in Hxr, Hxs |- *.
    by rewrite Hxr, Hxs.
  - rewrite list_lookup_insert_ne in Hp by done. rewrite app_nil_r.
    destruct (decide (j = partner i)) as [->|Hj].
    + rewrite list_lookup_insert_eq in Hf by (rewrite length_insert; lia). injection Hf as <-.
      destruct (HA _ _ _ Hy Hp) as [Hr Hs]. rewrite Hyr, Hr. split; [done|].
      rewrite Hys, <- Hs, Hpp, decide_True by done. unfold passed. rewrite Hp.
      destruct p as [d|]; [case_bool_decide|]; by rewrite ?app_nil_r.
    + rewrite !list_lookup_insert_ne in Hf by done. destruct (HA _ _ _ Hf Hp) as [-> ->]. split; [done|].
      pose proof (lookup_lt_Some _ _ _ Hf) as Hjn. rewrite Hls in Hjn.
      destruct (partner_spec j n Hn Hjn) as (Hjj & _).
      destruct (relay j tr) as [q o]. rewrite decide_False; [done|congruence].
Qed.

Record BouncerInv (n : nat) b : Prop := {
  bi_even : Nat.even n = true;
  bi_sockets : length (bo_sockets b) = n;
  bi_peers : length (bo_peers b) = n;
  bi_known : Forall peer_ok (bo_peers b);
  bi_trace : exists tr, agrees tr (bo_sockets b) (bo_peers b)
}.

Lemma bounce_spec n i name b :
  BouncerInv n b -> (i < n)%nat ->
  wp bounce_fails (bounce i (partner i) name b) (fun b' =>
    BouncerInv n b' /\ fd_read_count (socket_fd i b') <> fd_read_count (socket_fd i b)).
Proof.
  intros [Hn Hls Hlp Hk [tr HA]] Hi. destruct (partner_spec i n Hn Hi) as (Hpp & Hne & Hlt).
  destruct (lookup_lt_is_Some_2 (bo_sockets b) i) as [x Hx]; [lia|].
  destruct (lookup_lt_is_Some_2 (bo_sockets b) (partner i)) as [y Hy]; [lia|].
  destruct (lookup_lt_is_Some_2 (bo_peers b) i) as [p Hp]; [lia|].
  unfold bounce, deref. rewrite Hx. cbn [mbind res_bind]. apply wp_bind.
  eapply wp_mono; [apply recv_exact|]. intros [[a l] x'] (Ha & Hxr & Hxs & Hcnt). cbn [source_address rd_payload] in *.
  apply wp_bind. eapply wp_mono.
  { apply (learn_spec i name a _ p x'); [done| |by eapply Forall_lookup_1|done].
    apply list_lookup_insert_eq. lia. }
  intros b1 [Es Ep]. cbn [set_socket bo_sockets bo_peers] in Es, Ep.
  assert (Hgo : forall y' b', received (f_kernel y') = received (f_kernel y) ->
    sent (f_kernel y') = sent (f_kernel y) ++ passed (bo_peers b) (partner i) l ->
    bo_sockets b' = <[partner i:=y']> (bo_sockets b1) -> bo_peers b' = bo_peers b1 ->
    BouncerInv n b' /\ fd_read_count (socket_fd i b') <> fd_read_count (socket_fd i b)).
  { intros y' b' Hyr Hys Es' Ep'. rewrite Es in Es'. rewrite Ep in Ep'. split.
    - split; [done|by rewrite Es', !length_insert|by rewrite Ep', length_insert| |].
      + rewrite Ep'. by apply Forall_insert.
      + exists (tr ++ [(i, (a, l))]). rewrite Es', Ep'. by eapply agrees_step.
    - unfold socket_fd. rewrite Es', list_lookup_insert_ne, list_lookup_insert_eq, Hx, Hcnt by (done || lia).
      apply count_moves. }
  rewrite Ep, list_lookup_insert_ne by done.
  destruct (lookup_lt_is_Some_2 (bo_peers b) (partner i)) as [q Hq]; [lia|]. unfold passed in Hgo. rewrite Hq in *.
  assert (Hy1 : bo_sockets b1 !! partner i = Some y) by (rewrite Es, list_lookup_insert_ne; done).
  assert (Hstay : bo_sockets b1 = <[partner i:=y]> (bo_sockets b1)) by by rewrite list_insert_id.
  cbn [mbind res_bind]. destruct q as [d|]; [case_bool_decide; cbn [negb]|];
    [by apply (Hgo y); rewrite ?app_nil_r| |by apply (Hgo y); rewrite ?app_nil_r].
  rewrite Hy1. cbn [mbind res_bind]. apply wp_bind.
  eapply wp_mono; [apply sendto_exact|]. intros y' (Hys & Hyr & _). cbn in Hys. rewrite app_nil_r in Hys.
  by apply (Hgo y').
Qed.

(** ** Setting up *)

(** [socket] gives sockets that have not been used. *)
Definition fresh_sockets (opened : nat -> sysret * K) : Prop :=
  forall i, returned (fst (opened i)) /\
            received (snd (opened i)) = [] /\ sent (snd (opened i)) = [].

Definition unused f : Prop := received (f_kernel f) = [] /\ sent (f_kernel f) = [].

Record Fresh (n : nat) b : Prop := {
  fr_even : Nat.even n = true;
  fr_sockets : length (bo_sockets b) = n;
  fr_unused : Forall unused (bo_sockets b);
  fr_peers : bo_peers b = replicate n None
}.

Lemma Fresh_inv n b : Fresh n b -> BouncerInv n b.
Proof.
  intros [Hn Hl Hu Hp]. split; [done..|by rewrite Hp, length_replicate| |].
  - rewrite Hp. by apply Forall_replicate.
  - exists []. intros j f p Hf Hj. rewrite Hp in Hj. apply lookup_replicate in Hj as [-> _].
    destruct (Forall_lookup_1 _ _ _ _ Hu Hf) as [-> ->]. done.
Qed.

(** The rules of the sockets below [n]. *)
Definition bounce_rules (n : nat) (rules : list (Rule (Bouncer K))) : Prop :=
  Forall (fun r => exists i name, (i < n)%nat /\ r = bounce_rule i (partner i) name) rules.

Lemma socket_new_fresh opened i :
  fresh_sockets opened -> wp bounce_fails (Socket_new (opened i)) (fun x => unused x).
Proof.
  intros Ho. destruct (Ho i) as (He & Hr & Hs). unfold Socket_new, FileDescriptor_new.
  destruct (syscall_cases _ He) as [[-> Hn]|[c ->]]; cbn [mbind res_bind]; [|apply call_bounce].
  unfold FDWrapper_new. by rewrite (proj2 (Z.ltb_ge _ _)) by done.
Qed.

Lemma emplace_ok {A} (x : A) l : zlen l < RESERVED -> emplace_back x l = Ok (l ++ [x]).
Proof. intros Hl. unfold emplace_back. by rewrite (proj2 (Z.leb_gt _ _)) by done. Qed.

Lemma add_pair_spec opened p rules n b :
  fresh_sockets opened -> Fresh n b -> bounce_rules n rules -> Z.of_nat n + 2 <= RESERVED ->
  wp bounce_fails (add_pair opened p rules b) (fun '(rules', b') =>
    Fresh (S (S n)) b' /\ bounce_rules (S (S n)) rules').
Proof.
  intros Ho [Hn Hl Hu Hp] Hr Hc. unfold add_pair. rewrite Hl, Hp.
  assert (Hpn : partner n = S n) by (unfold partner; by rewrite Hn).
  assert (HpS : partner (S n) = n).
  { unfold partner. by rewrite Nat.even_succ, <- Nat.negb_even, Hn. }
  apply wp_bind. eapply wp_mono; [by apply socket_new_fresh|]. intros x Hx.
  rewrite (emplace_ok x) by lia. cbn [mbind res_bind].
  apply wp_bind. eapply wp_mono; [by apply socket_new_fresh|]. intros y Hy.
  do 3 (rewrite emplace_ok by (rewrite ?length_app, ?length_replicate; cbn; lia); cbn [mbind res_bind]).
  rewrite <- !app_assoc. cbn [app].
  apply wp_bind. eapply wp_mono; [apply ip_port_cases|]. intros a _.
  unfold deref. cbn [bo_sockets]. rewrite list_lookup_middle by lia. cbn [mbind res_bind].
  apply wp_bind. eapply wp_mono; [apply bind_exact|]. intros x' [Hxr Hxs].
  apply wp_bind. eapply wp_mono; [apply ip_port_cases|]. intros a' _.
  cbn [set_socket bo_sockets]. rewrite list_lookup_insert_ne by lia.
  rewrite (app_assoc _ [x] [y] : bo_sockets b ++ [x; y] = _), list_lookup_middle by (rewrite length_app; cbn; lia).
  cbn [mbind res_bind].
  apply wp_bind. eapply wp_mono; [apply bind_exact|]. intros y' [Hyr Hys]. cbn. split.
  - split; cbn.
    + by rewrite <- Hn.
    + rewrite !length_insert, !length_app. cbn. lia.
    + unfold unused in Hx, Hy. apply Forall_insert; [apply Forall_insert|].
      * rewrite !Forall_app. repeat constructor; try done; apply Hx || apply Hy.
      * unfold unused. by rewrite Hxr, Hxs.
      * unfold unused. by rewrite Hyr, Hys.
    + change [None; None] with (replicate 2 (@None Address)). by rewrite <- replicate_add, Nat.add_comm.
  - unfold bounce_rules, add_rule. rewrite !Forall_app. split_and!.
    + eapply Forall_impl; [exact Hr|]. intros r (i & nm & Hi & ->). exists i, nm. split; [lia|done].
    + constructor; [|done]. exists n, "X"%string. rewrite Hpn. split; [lia|done].
    + constructor; [|done]. exists (S n), "Y"%string. rewrite HpS. split; [lia|done].
Qed.

Lemma bind_loop_spec opened : forall fuel p n rules b,
  fresh_sockets opened -> Fresh n b -> bounce_rules n rules -> is_u16 p -> p < LAST_PORT + 3 ->
  pairs_left p < Z.of_nat fuel -> Z.of_nat n + 2 * pairs_left p <= RESERVED ->
  wp bounce_fails (bind_loop fuel opened p rules b) (fun '(rules', b') =>
    exists n', Fresh n' b' /\ bounce_rules n' rules').
Proof.
  unfold pairs_left, LAST_PORT, RESERVED. induction fuel as [|fuel IH]; intros p n rules b Ho Hf Hr Hp Hlast Hfuel Hc.
  { Z.div_mod_to_equations. lia. }
  cbn [bind_loop]. unfold LAST_PORT. destruct (p <=? 64000) eqn:E; bool_prop; [|by exists n].
  apply wp_bind. eapply wp_mono; [apply add_pair_spec; [done..|unfold RESERVED; word_lia]|].
  intros [rules' b'] [Hf' Hr']. cbn [fst snd].
  rewrite u16_small by word_lia. apply (IH _ (S (S n))); try done; word_lia.
Qed.

(** ** The event loop *)

(** While [poll] waits, the kernel may queue datagrams; it does not touch the
    program's memory. *)
Class BounceEnvironment `{Poller (Bouncer K)} := bounce_poll pollfds ms b r revents b' :
  sys_poll pollfds ms b = (r, revents, b') ->
  (bo_peers b' = bo_peers b /\
   Forall2 (fun f f' => f_fd f' = f_fd f /\ received (f_kernel f') = received (f_kernel f) /\
                        sent (f_kernel f') = sent (f_kernel f)) (bo_sockets b) (bo_sockets b')) /\
  returned r.

Definition always_armed (r : Rule (Bouncer K)) : Rule (Bouncer K) * (Bouncer K -> Prop) := (r, fun _ => True).

Context `{Poller (Bouncer K)} `{!BounceEnvironment}.

Lemma bounce_poll_ok n rules : poll_ok (BouncerInv n) bounce_fails (map always_armed rules).
Proof.
  intros pollfds ms b r revents b' [Hn Hls Hlp Hk [tr HA]] E.
  destruct (bounce_poll _ _ _ _ _ _ E) as ((Ep & Es) & He).
  split_and!; [|by apply Forall_map, Forall_true|intros _; left; exact polled_loop|done].
  split; [done|by rewrite <- (Forall2_length _ _ _ Es)|by rewrite Ep..|].
  exists tr. intros j f p Hf Hp. rewrite Ep in Hp.
  destruct (Forall2_lookup_r _ _ _ _ _ Es Hf) as (f0 & Hf0 & _ & -> & ->). by apply (HA j).
Qed.

Lemma bounce_rules_ok n rules :
  bounce_rules n rules -> Forall (rule_ok (BouncerInv n) bounce_fails) (map always_armed rules).
Proof.
  intros Hr. apply Forall_map. eapply Forall_impl; [exact Hr|]. intros r (i & name & Hi & ->).
  split; cbn; [done|by exists true|]. intros b HI _. eapply wp_mono; [by apply bounce_spec|].
  intros b' [HI' Hc]. split; [done|]. by left.
Qed.

Lemma bounce_rules_compatible n rules : ForallOrdPairs (compatible (BouncerInv n)) (map always_armed rules).
Proof. induction rules; cbn; constructor; [by apply Forall_map, Forall_true|done]. Qed.

Lemma armed_rules rules : map fst (map always_armed rules) = rules.
Proof. rewrite map_map. apply map_id. Qed.

Lemma bounce_loop_spec n : forall m rules b,
  bounce_rules n rules -> BouncerInv n b -> wp bounce_fails (bounce_loop m rules b) (BouncerInv n).
Proof.
  induction m as [|m IH]; intros rules b Hr HI; cbn [bounce_loop]; [done|]. apply wp_bind.
  rewrite <- (armed_rules rules). eapply wp_mono.
  { apply (wait_spec (BouncerInv n) bounce_fails); [by apply bounce_rules_ok|apply bounce_rules_compatible|
      apply bounce_poll_ok|done]. }
  intros [[result rules'] b'] (HI' & spec' & Hs & ->).
  assert (Hr' : bounce_rules n (map fst spec')).
  { apply Forall_map. eapply Forall_sublist; [exact Hs|]. by apply Forall_map. }
  destruct result; [by apply IH..|done].
Qed.

Lemma bouncer_inv p opened cerr m :
  is_u16 p -> p <= LAST_PORT -> fresh_sockets opened ->
  wp bounce_fails (bouncer_from p opened cerr m) (fun b => exists n, BouncerInv n b).
Proof.
  unfold LAST_PORT. intros Hp Hl Ho. unfold bouncer_from. apply wp_bind. eapply wp_mono.
  { apply (bind_loop_spec opened _ p 0); [done|by split|by constructor|done|..];
      unfold LAST_PORT, pairs_left, RESERVED, LAST_PORT; word_lia. }
  intros [rules b] (n & Hf & Hr). eapply wp_mono; [apply (bounce_loop_spec n); [done|]|by eauto].
  apply Fresh_inv. destruct Hf. by split.
Qed.
End Relays.

(** C17.  The bouncer as a function of what arrives: whatever datagrams the kernel
    delivers, and after any number of rounds of the event loop, there is an order
    in which the datagrams arrived such that each socket has received exactly its
    own, knows the last address it heard from, and has sent exactly the non-empty
    payloads its partner received once it had a peer, each whole, in order and to
    the peer known at that moment.  Setting up binds every pair and the references
    the callbacks hold stay valid; the program fails only when a system call fails,
    [poll] reports an error on a socket, or the resolver fails. *)
Theorem bouncer_relays {K} `{SocketKernel K} `{Resolver} `{NameInfo}
    (received sent : K -> list (Address * list byte)) `{!UdpSpec K received sent}
    `{Poller (Bouncer K)} `{!BounceEnvironment received sent} (Er : option exn -> Prop) p opened cerr m :
  (forall a, wp Er (Address_to_string a) (fun _ => True)) ->
  (forall ip p, wp Er (Address_of_ip_port ip p) (fun _ => True)) ->
  is_u16 p -> p <= LAST_PORT -> fresh_sockets received sent opened ->
  wp (bounce_fails Er) (bouncer_from p opened cerr m) (fun b =>
    exists trace, forall j f, bo_sockets b !! j = Some f ->
      received (f_kernel f) = arrivals j trace /\
      bo_peers b !! j = Some (fst (relay j trace)) /\
      sent (f_kernel f) = snd (relay j trace)).
Proof.
  intros Hstr Haddr Hp Hl Ho. eapply wp_mono; [by apply (bouncer_inv received sent Er)|].
  intros b (n & [_ Hls Hlp _ [tr HA]]). exists tr. intros j f Hf.
  destruct (lookup_lt_is_Some_2 (bo_peers b) j) as [q Hq].
  { rewrite Hlp, <- Hls. by eapply lookup_lt_Some. }
  destruct (HA _ _ _ Hf Hq) as [Hr Hs]. rewrite <- Hs. by split_and!.
Qed.

(** ** A socket with a queue of datagrams, and a run *)

Record Mailbox := mkMailbox {
  mb_queue : list (Z * Z * list byte);          (* address and port of the source, payload *)
  mb_received : list (Address * list byte);
  mb_sent : list (Address * list byte)
}.

Definition mail_from (ip port : Z) : Address :=
  mkAddress 16 (sockaddr_in ip port ++ replicate 112 x00).
(** [EAGAIN] and [EMSGSIZE]. *)
Definition EAGAIN : Z := 11.
Definition EMSGSIZE : Z := 90.

#[export] Instance Mailbox_Kernel : Kernel Mailbox := {
  sys_read n k := (mkSys (-1) EINVAL, [], k);
  sys_writev bufs k := (mkSys (-1) EINVAL, k);
  sys_recvfrom n k :=
    match mb_queue k with
    | [] => (mkSys (-1) EAGAIN, [], ([], 0), k)
    | (ip, p, l) :: rest =>
        if 65535 <? zlen l then (mkSys (-1) EMSGSIZE, [], ([], 0), k)
        else (ok_ret (zlen l), l, (sockaddr_in ip p, 16),
              mkMailbox rest (mb_received k ++ [(mail_from ip p, l)]) (mb_sent k))
    end;
  sys_sendmsg d bufs k :=
    if 65535 <? zlen (concat bufs) then (mkSys (-1) EMSGSIZE, k)
    else (ok_ret (zlen (concat bufs)), mkMailbox (mb_queue k) (mb_received k) (mb_sent k ++ [(d, concat bufs)]));
  sys_shutdown how k := (ok_ret 0, k);
  sys_close k := (ok_ret 0, k);
  sys_getfl k := (ok_ret 0, k);
  sys_setfl fl k := (ok_ret 0, k)
}.

#[export] Instance Mailbox_SocketKernel : SocketKernel Mailbox := {
  sys_getsockopt level name k := (ok_ret 0, if name =? SO_DOMAIN then AF_INET else SOCK_DGRAM, sizeof_int);
  sys_setsockopt level name value k := (ok_ret 0, k);
  sys_bind a k := (ok_ret 0, k);
  sys_connect a k := (ok_ret 0, k);
  sys_getsockname k := (ok_ret 0, sockaddr_in 0 64000, 16);
  sys_getpeername k := (ok_ret 0, sockaddr_in 0 64000, 16);
  sys_send bufs k := (mkSys (-1) EINVAL, k);
  sys_listen backlog k := (mkSys (-1) EINVAL, k);
  sys_accept k := (mkSys (-1) EINVAL, k, k)
}.

#[export] Instance Mailbox_Spec : UdpSpec Mailbox mb_received mb_sent.
Proof.
  split; cbn -[Z.ltb].
  - intros n k r l from len k' _. destruct (mb_queue k) as [|[[ip p] m] rest]; [intros [= <-]; cbn; lia|].
    destruct (_ <? _) eqn:E; bool_prop; intros [= <- <- <- <- <-] Hr; [cbn in Hr; lia|].
    split_and!; [done..|]. by exists (mail_from ip p).
  - intros n k r l a k'. destruct (mb_queue k) as [|[[ip p] m] rest]; [by intros [= <-]|].
    destruct (_ <? _) eqn:E; bool_prop; intros [= <- <- <- <-]; [done|apply returned_ok; unfold MAX_RW_COUNT; lia].
  - intros d bufs k r k'. destruct (_ <? _) eqn:E; intros [= <- <-]; cbn; [lia|]. bool_prop. done.
  - intros d bufs k r k'. destruct (_ <? _) eqn:E; bool_prop; intros [= <- <-]; [done|apply returned_ok; unfold MAX_RW_COUNT; lia].
  - by intros a k r k' [= <- <-].
  - by intros k r a len [= <- <- <-].
Qed.

(** Sockets with a datagram waiting are readable. *)
#[local] Instance mailbox_Poller : Poller (Bouncer Mailbox) := fun _ _ b =>
  let revents := map (fun f => match mb_queue (f_kernel f) with [] => 0 | _ => POLLIN end) (bo_sockets b) in
  (ok_ret (Z.min MAX_RW_COUNT (zlen (filter (fun v => v <> 0) revents))), revents, b).

#[local] Instance mailbox_Environment : BounceEnvironment mb_received mb_sent.
Proof.
  intros pollfds ms b r revents b' [= <- <- <-]. split_and!; [done| |apply returned_ok; unfold MAX_RW_COUNT; lia].
  apply Forall_Forall2_diag, Forall_true. done.
Qed.

#[local] Existing Instance numeric_Resolver.
#[local] Instance mailbox_names : NameInfo := fun a => Ok (inet_ntoa (be_val (take 4 (drop 4 (ad_storage a))))).

(** Two hosts exchange greetings through the ports 64000 and 64001. *)
Definition greetings (i : nat) : sysret * Mailbox :=
  (ok_ret (Z.min RESERVED (3 + Z.of_nat i)),
   mkMailbox (match i with
              | O => [(quad 10 0 0 1, 5000, txt "hi"); (quad 10 0 0 1, 5000, txt "hey")]
              | S _ => [(quad 10 0 0 2, 6000, txt "yo")]
              end) [] []).

Lemma bouncer_relays_witness :
  let run := bouncer_from 64000 greetings os_new 3 in
  wp (bounce_fails (fun e => e = Some runtime_error)) run (fun b =>
    exists trace, forall j f, bo_sockets b !! j = Some f ->
      mb_received (f_kernel f) = arrivals j trace /\
      bo_peers b !! j = Some (fst (relay j trace)) /\
      mb_sent (f_kernel f) = snd (relay j trace)) /\
  match run with
  | Ok b => map (fun f => mb_sent (f_kernel f)) (bo_sockets b) =
      [[(mail_from (quad 10 0 0 1) 5000, txt "yo")]; [(mail_from (quad 10 0 0 2) 6000, txt "hey")]]
  | _ => False
  end.
Proof.
  cbv zeta. split.
  - apply (@bouncer_relays Mailbox _ _ numeric_Resolver mailbox_names mb_received mb_sent _ _ _
             (fun e => e = Some runtime_error) 64000 greetings os_new 3).
    + intros a. unfold Address_to_string, ip_port, port. cbn. by case_if.
    + intros ip q. unfold Address_of_ip_port, Address_of_sockaddr. cbn. exact I.
    + word_lia.
    + unfold LAST_PORT. lia.
    + intros i. split_and!; [apply returned_ok; unfold MAX_RW_COUNT, RESERVED; lia|done..].
  - vm_compute. reflexivity.
Defined.
