(* ===== verification/Lab7.v ===== *)
(** * The last application: a host and a router in one program

    Models [src/apps/lab7.cc]: a [TCPSpongeSocket] whose adapter is a network
    interface on a socket pair, a router between that interface and a UDP socket
    that stands for the Internet, and the event loop of the thread that moves the
    frames.  The debug output is left out. *)

From S2P Require Import Prelude Parser IPv4 WrappingIntegers StdMap ByteStream StreamReassembler Buffers.
From S2P Require Import TCPSegment TCPReceiver TCPSender TCPState EndToEnd TCPConnection Address FileDescriptor.
From S2P Require Import EventLoop Ethernet NetworkInterface Router Adapters SpongeSocket.

(** ** The adapter

    [NetworkInterfaceAdapter] has the members and the code of
    [TCPOverIPv4OverEthernetAdapter], with one end of the socket pair in place of
    the TAP device; only its constructor sends nothing. *)
Definition NetworkInterfaceAdapter (K : Type) : Type := TCPOverIPv4OverEthernetAdapter K.

Definition NetworkInterfaceAdapter_new {K} (b : FdAdapterBase) (first : File K) (eth : EthernetAddress)
    (ip_address next_hop : Address) : NetworkInterfaceAdapter K :=
  mkEthAdapter b first (NetworkInterface_new eth ip_address) next_hop.

(** Its methods, statement by statement those of the other class. *)
Definition lab7_read {K} `{Kernel K} `{Resolver} (a : NetworkInterfaceAdapter K)
  : res (option TCPSegment * NetworkInterfaceAdapter K) := eth_read a.
Definition lab7_write {K} `{Kernel K} `{Resolver} (seg : TCPSegment) (a : NetworkInterfaceAdapter K)
  : res (TCPSegment * NetworkInterfaceAdapter K) := eth_write seg a.
Definition lab7_tick {K} `{Kernel K} `{Resolver} (ms_since_last_tick : Z) (a : NetworkInterfaceAdapter K)
  : res (NetworkInterfaceAdapter K) := eth_tick ms_since_last_tick a.
Definition lab7_send_pending {K} `{Kernel K} `{Resolver} (a : NetworkInterfaceAdapter K)
  : res (NetworkInterfaceAdapter K) := send_pending a.

(** What [TCPSpongeSocket<NetworkInterfaceAdapter>] calls. *)
#[export] Instance Lab7_AdaptT {K} `{Kernel K} `{Resolver} : AdaptT (NetworkInterfaceAdapter K) := {
  adapter_read := lab7_read;
  adapter_write := lab7_write;
  adapter_base := eth_base;
  adapter_set_base b a := mkEthAdapter b (eth_tap a) (eth_interface a) (eth_next_hop a);
  adapter_tick := lab7_tick;
  adapter_fd a := f_fd (eth_tap a)
}.

(** ** The socket *)

Section TCPSocketLab7.
Context {K : Type} `{Kernel K} `{Resolver}.
Abbreviation socket := (TCPSpongeSocket (NetworkInterfaceAdapter K) K).

Record TCPSocketLab7 := mkSocketLab7 { sl_socket : socket; sl_local_address : Address }.

(** [Address{_local_address.ip(), port}]; the address is a dotted quad, read back
    as the number it stands for. *)
Definition with_port (a : Address) (port : Z) : res Address :=
  ip ← ipv4_numeric a;
  Address_of_ip_port ip port.

(** The numbers are those [random_device] gives the port and the connection. *)
Definition lab7_connect (random_port random : Z) (address : Address) (rules : list (Rule socket))
    (s : TCPSocketLab7) : res (list (Rule socket) * TCPSocketLab7) :=
  c ← FdAdapterConfig_default;
  local ← with_port (sl_local_address s) (u16 random_port);
  let c := mkFdAdapterConfig local address (loss_rate_dn c) (loss_rate_up c) in
  k ← socket_connect random TCPConfig_default c rules (sl_socket s);
  Ok (fst k, mkSocketLab7 (snd k) local).

Definition lab7_bind (address : Address) (s : TCPSocketLab7) : res TCPSocketLab7 :=
  ip ← ipv4_numeric address;
  local_ip ← ipv4_numeric (sl_local_address s);
  if negb (ip =? local_ip) then Throw runtime_error
  else
    p ← port address;
    local ← with_port (sl_local_address s) p;
    Ok (mkSocketLab7 (sl_socket s) local).

Definition lab7_listen_and_accept (random : Z) (rules : list (Rule socket)) (s : TCPSocketLab7)
  : res (list (Rule socket) * TCPSocketLab7) :=
  c ← FdAdapterConfig_default;
  let c := mkFdAdapterConfig (sl_local_address s) (cf_destination c) (loss_rate_dn c) (loss_rate_up c) in
  k ← listen_and_accept random TCPConfig_default c rules (sl_socket s);
  Ok (fst k, mkSocketLab7 (snd k) (sl_local_address s)).
End TCPSocketLab7.

(** ** The network thread *)

Record NetworkThread (K : Type) := mkThread {
  th_frame_fd : File K;          (* sock.adapter().frame_fd() *)
  th_internet : File K;          (* internet_socket *)
  th_router : Router;            (* router *)
  th_host_side : Z;              (* host_side *)
  th_internet_side : Z;          (* internet_side *)
  th_bounce : Address;           (* bounce_address *)
  th_exit_flag : bool            (* exit_flag *)
}.
Arguments mkThread {K}.
Arguments th_frame_fd {K} n.
Arguments th_internet {K} n.
Arguments th_router {K} n.
Arguments th_host_side {K} n.
Arguments th_internet_side {K} n.
Arguments th_bounce {K} n.
Arguments th_exit_flag {K} n.

Section Thread.
Context {K : Type} `{Kernel K}.
Implicit Type t : NetworkThread K.

Definition set_frame_fd (f : File K) t : NetworkThread K :=
  mkThread f (th_internet t) (th_router t) (th_host_side t) (th_internet_side t) (th_bounce t) (th_exit_flag t).
Definition set_internet (f : File K) t : NetworkThread K :=
  mkThread (th_frame_fd t) f (th_router t) (th_host_side t) (th_internet_side t) (th_bounce t) (th_exit_flag t).
Definition set_thread_router (r : Router) t : NetworkThread K :=
  mkThread (th_frame_fd t) (th_internet t) r (th_host_side t) (th_internet_side t) (th_bounce t) (th_exit_flag t).

(** A frame read from one side goes to the router's interface [id]. *)
Definition frame_in (id : Z) (data : list byte) (r : Router) : res Router :=
  p ← EthernetFrame_parse EthernetFrame_default (Buffer_of data);
  let '(result, frame) := p in
  if negb (bool_decide (result = NoError)) then Ok r
  else
    an ← interface id r;
    an ← async_recv_frame frame an;
    route (set_interface id an r).

(** [frames_out().front()] and [pop()] of the interface [id]. *)
Definition frame_out (id : Z) (r : Router) : res (EthernetFrame * Router) :=
  an ← interface id r;
  match ni_frames_out (an_interface an) with
  | [] => Undefined
  | f :: rest => Ok (f, set_interface id (mkAsync (pop_frames rest (an_interface an)) (an_datagrams_out an)) r)
  end.

Definition frames_waiting (id : Z) (r : Router) : res bool :=
  an ← interface id r;
  Ok (negb (bool_decide (length (ni_frames_out (an_interface an)) = 0%nat))).

Definition lab7_rule1 : Rule (NetworkThread K) :=
  mkRule (fun t => f_fd (th_frame_fd t)) In_
    (fun t =>
       r ← fd_read SIZE_MAX (th_frame_fd t);
       router ← frame_in (th_host_side t) (fst r) (th_router t);
       Ok (set_thread_router router (set_frame_fd (snd r) t)))
    (fun _ => Ok true) (fun t => Ok t).

Definition lab7_rule2 : Rule (NetworkThread K) :=
  mkRule (fun t => f_fd (th_frame_fd t)) Out_
    (fun t =>
       fr ← frame_out (th_host_side t) (th_router t);
       w ← fd_write (views_of (EthernetFrame_serialize (fst fr))) true (th_frame_fd t);
       Ok (set_thread_router (snd fr) (set_frame_fd (snd w) t)))
    (fun t => frames_waiting (th_host_side t) (th_router t)) (fun t => Ok t).

Definition lab7_rule3 : Rule (NetworkThread K) :=
  mkRule (fun t => f_fd (th_internet t)) Out_
    (fun t =>
       fr ← frame_out (th_internet_side t) (th_router t);
       f ← udp_sendto (th_bounce t) (views_of (EthernetFrame_serialize (fst fr))) (th_internet t);
       Ok (set_thread_router (snd fr) (set_internet f t)))
    (fun t => frames_waiting (th_internet_side t) (th_router t)) (fun t => Ok t).

Definition lab7_rule4 : Rule (NetworkThread K) :=
  mkRule (fun t => f_fd (th_internet t)) In_
    (fun t =>
       r ← fd_read SIZE_MAX (th_internet t);
       router ← frame_in (th_internet_side t) (fst r) (th_router t);
       Ok (set_thread_router router (set_internet (snd r) t)))
    (fun _ => Ok true) (fun t => Ok t).

Definition lab7_rules : list (Rule (NetworkThread K)) :=
  add_rule lab7_rule4 (add_rule lab7_rule3 (add_rule lab7_rule2 (add_rule lab7_rule1 []))).

Definition tick_interface (id ms : Z) (r : Router) : res Router :=
  an ← interface id r;
  Ok (set_interface id (mkAsync (ni_tick ms (an_interface an)) (an_datagrams_out an)) r).

Context `{Poller (NetworkThread K)}.

(** [n] rounds of the thread's loop, fewer when it is left. *)
Fixpoint network_loop (n : nat) (rules : list (Rule (NetworkThread K))) t : res (NetworkThread K) :=
  match n with
  | O => Ok t
  | S n' =>
      k ← wait_next_event 50 rules t;
      let '(result, rules, t) := k in
      match result with
      | Exit_ => Ok t
      | _ =>
          r ← tick_interface (th_host_side t) 50 (th_router t);
          r ← tick_interface (th_internet_side t) 50 r;
          let t := set_thread_router r t in
          if th_exit_flag t then Ok t else network_loop n' rules t
      end
  end.
End Thread.

(** ** [program_body]: the bouncer and the router *)

(** Three empty datagrams let the bouncer know where the program is. *)
Definition lab7_announce {K} `{Kernel K} (bounce_address : Address) (internet_socket : File K) : res (File K) :=
  s ← udp_sendto bounce_address [[]] internet_socket;
  s ← udp_sendto bounce_address [[]] s;
  udp_sendto bounce_address [[]] s.

Section Body.
Context `{Resolver}.

Definition lab7_interface (eth : EthernetAddress) (ip : Z) (r : Router) : res (Z * Router) :=
  a ← Address_of_ip_port ip 0;
  Ok (add_interface (AsyncNetworkInterface_of (NetworkInterface_new eth a)) r).

Definition lab7_route (ip len : Z) (next_hop : option Z) (id : Z) (r : Router) : res Router :=
  a ← Address_of_ip_port ip 0;
  prefix ← ipv4_numeric a;
  hop ← match next_hop with
        | Some h => a ← Address_of_ip_port h 0; Ok (Some a)
        | None => Ok None
        end;
  Ok (add_route prefix len hop id r).

(** The Ethernet addresses are random. *)
Definition lab7_router (is_client : bool) (eth1 eth2 : EthernetAddress) : res (Z * Z * Router) :=
  if is_client then
    i ← lab7_interface eth1 (quad 192 168 0 1) Router_new; let '(host_side, r) := i in
    i ← lab7_interface eth2 (quad 10 0 0 192) r; let '(internet_side, r) := i in
    r ← lab7_route (quad 192 168 0 0) 16 None host_side r;
    r ← lab7_route (quad 10 0 0 0) 8 None internet_side r;
    r ← lab7_route (quad 172 16 0 0) 12 (Some (quad 10 0 0 172)) internet_side r;
    Ok (host_side, internet_side, r)
  else
    i ← lab7_interface eth1 (quad 172 16 0 1) Router_new; let '(host_side, r) := i in
    i ← lab7_interface eth2 (quad 10 0 0 172) r; let '(internet_side, r) := i in
    r ← lab7_route (quad 172 16 0 0) 12 None host_side r;
    r ← lab7_route (quad 10 0 0 0) 8 None internet_side r;
    r ← lab7_route (quad 192 168 0 0) 16 (Some (quad 10 0 0 192)) internet_side r;
    Ok (host_side, internet_side, r).
End Body.

(** ** Frames are only appended *)

(** The frames of interface [i]. *)
Definition frames_at (i : nat) (r : Router) : option (list EthernetFrame) :=
  (fun an => ni_frames_out (an_interface an)) <$> (ro_interfaces r !! i).

Definition grows (r r' : Router) : Prop :=
  forall i q, frames_at i r = Some q -> exists q', frames_at i r' = Some q' /\ q `prefix_of` q'.

Lemma grows_refl r : grows r r.
Proof. intros i q E. by exists q. Qed.
Lemma grows_trans r1 r2 r3 : grows r1 r2 -> grows r2 r3 -> grows r1 r3.
Proof.
  intros H1 H2 i q E. destruct (H1 i q E) as (q2 & E2 & P2). destruct (H2 i q2 E2) as (q3 & E3 & P3).
  exists q3. split; [done|by etrans].
Qed.

Lemma frames_at_set i id an r :
  (Z.to_nat id < length (ro_interfaces r))%nat ->
  frames_at i (set_interface id an r) =
    if bool_decide (i = Z.to_nat id) then Some (ni_frames_out (an_interface an)) else frames_at i r.
Proof.
  intros Hl. unfold frames_at. cbn. case_bool_decide as E.
  - subst i. by rewrite list_lookup_insert_eq.
  - by rewrite list_lookup_insert_ne.
Qed.

Lemma grows_set id an an' r :
  ro_interfaces r !! Z.to_nat id = Some an ->
  ni_frames_out (an_interface an) `prefix_of` ni_frames_out (an_interface an') -> grows r (set_interface id an' r).
Proof.
  intros Hl Hp i q E. rewrite frames_at_set by (by eapply lookup_lt_Some). case_bool_decide as Ei; [|by exists q].
  eexists. split; [done|]. subst i. unfold frames_at in E. rewrite Hl in E. by injection E as <-.
Qed.

Lemma send_datagram_grows d hop ni ni' :
  send_datagram d hop ni = Ok ni' -> ni_frames_out ni `prefix_of` ni_frames_out ni'.
Proof.
  unfold send_datagram. intros (ip & _ & E)%res_bind_ok. destruct (zmap_find _ _) as [[eth t]|].
  - destruct (bool_decide _); [by injection E as <-|]. apply res_bind_ok in E as (pl & _ & [= <-]). by eexists.
  - apply res_bind_ok in E as (src & _ & E). apply res_bind_ok in E as (pl & _ & [= <-]). by eexists.
Qed.

Lemma flush_loop_grows ip rest : forall seen ni ni',
  flush_loop ip seen rest ni = Ok ni' -> ni_frames_out ni `prefix_of` ni_frames_out ni'.
Proof.
  induction rest as [|[d hop] rest IH]; intros seen ni ni' E; cbn [flush_loop] in E; [by injection E as <-|].
  apply res_bind_ok in E as (hop_ip & _ & E). destruct (_ =? ip); [|by eapply IH].
  by apply res_bind_ok in E as (ni1 & E1%send_datagram_grows & [= <-]).
Qed.

Lemma recv_frame_grows f ni o ni' :
  recv_frame f ni = Ok (o, ni') -> ni_frames_out ni `prefix_of` ni_frames_out ni'.
Proof.
  unfold recv_frame. destruct (_ && _); [by intros [= _ <-]|]. destruct (_ =? TYPE_IPv4).
  { intros (b & _ & E)%res_bind_ok. by apply res_bind_ok in E as ([rs d] & _ & [= _ <-]). }
  destruct (_ =? TYPE_ARP); [|by intros [= _ <-]]. intros (b & _ & E)%res_bind_ok.
  apply res_bind_ok in E as ([rs m] & _ & E). destruct (bool_decide _); [|by injection E as _ <-].
  apply res_bind_ok in E as (ni1 & E & [= _ <-]). unfold recv_arp in E. destruct (_ =? OPCODE_REQUEST).
  - apply res_bind_ok in E as (own & _ & E). destruct (own =? _); [|by injection E as <-].
    apply res_bind_ok in E as (pl & _ & [= <-]). by eexists.
  - destruct (_ =? OPCODE_REPLY); [by apply flush_loop_grows in E|by injection E as <-].
Qed.

Lemma route_one_grows d r r' : route_one_datagram d r = Ok r' -> grows r r'.
Proof.
  unfold route_one_datagram. destruct (_ <=? 1); [intros [= <-]; apply grows_refl|].
  intros ([[b|] l] & _ & H)%res_bind_ok; [|injection H as <-; apply grows_refl].
  apply res_bind_ok in H as (hop & _ & H). apply res_bind_ok in H as (an & Ea & H).
  apply res_bind_ok in H as (ni & Hs%send_datagram_grows & [= <-]). unfold interface in Ea.
  destruct (_ !! _) as [an'|] eqn:El; [|done]. injection Ea as ->. by eapply grows_set.
Qed.

Lemma drain_loop_grows i q : forall r r', drain_loop i q r = Ok r' -> grows r r'.
Proof.
  induction q as [|d q IH]; intros r r' E; cbn [drain_loop] in E; [injection E as <-; apply grows_refl|].
  apply res_bind_ok in E as (r1 & E1%route_one_grows & E). destruct (_ !! i) as [an|] eqn:Ei; [|done].
  eapply grows_trans; [exact E1|]. eapply grows_trans; [|by eapply IH].
  apply (grows_set _ an); [by rewrite Nat2Z.id|done].
Qed.

Lemma route_grows r r' : route r = Ok r' -> grows r r'.
Proof.
  unfold route. generalize (seq 0 (length (ro_interfaces r))). intros l. revert r r'.
  induction l as [|i l IH]; intros r r' E; cbn [route_loop] in E; [injection E as <-; apply grows_refl|].
  destruct (_ !! i) as [an|]; [|done]. apply res_bind_ok in E as (r1 & E1%drain_loop_grows & E).
  eapply grows_trans; [exact E1|by apply IH].
Qed.

(** ** The thread is safe *)

Section Safe.
Context {K : Type} `{Kernel K} (taken written : K -> list byte) `{!KernelSpec K taken written}
  `{!DatagramSpec K}.
Implicit Type t : NetworkThread K.

Record RouterInv (r : Router) : Prop := {
  ri_two : length (ro_interfaces r) = 2%nat;
  ri_routes : Forall (leads_ok r) (ro_routing_table r);
  ri_idle : Forall (fun an => an_datagrams_out an = []) (ro_interfaces r)
}.

Record ThreadInv t : Prop := {
  ti_host : th_host_side t = 0;
  ti_internet : th_internet_side t = 1;
  ti_router : RouterInv (th_router t)
}.

(** The failures of the thread: a system call's, an error that [poll] reports, and
    the [runtime_error] of a datagram that cannot be serialized, of an address that
    is not IPv4 or of a message sent in part.  The busy wait that the loop looks for,
    an index out of range and undefined behaviour are not among them. *)
Definition thread_fails (f : option exn) : Prop := loop_fails f \/ f = Some runtime_error.

Lemma system_thread f : system_fails f -> thread_fails f.
Proof. intros Hf. left. by apply system_loop. Qed.

Lemma runtime_thread {A} (m : res A) (Q : A -> Prop) :
  runtime_only m -> (forall a, m = Ok a -> Q a) -> wp thread_fails m Q.
Proof. destruct m as [a|e|]; cbn; [auto| |done]. intros [= ->] _. by right. Qed.

Lemma interface_at id r : RouterInv r -> id = 0 \/ id = 1 ->
  exists an, interface id r = Ok an /\ ro_interfaces r !! Z.to_nat id = Some an /\ an_datagrams_out an = [].
Proof.
  intros [Hl _ Hq] Hid. unfold interface. destruct (_ !! _) as [an|] eqn:E.
  - exists an. split_and!; [done..|]. rewrite Forall_lookup in Hq. by eapply Hq.
  - apply lookup_ge_None in E. lia.
Qed.

Lemma RouterInv_set id an r : RouterInv r -> an_datagrams_out an = [] -> RouterInv (set_interface id an r).
Proof.
  intros [Hl Ht Hq] Ha. split; cbn; [by rewrite length_insert| |by apply Forall_insert].
  eapply leads_ok_same; [|exact Ht]. cbn. by rewrite length_insert.
Qed.

Lemma route_inv id an r r' : RouterInv r -> route (set_interface id an r) = Ok r' -> RouterInv r'.
Proof.
  intros [Hl Ht _] E. destruct (route_empties _ _ E) as [El Eq]. cbn in El. rewrite length_insert in El.
  split; [by rewrite El| |done]. unfold route in E. rewrite (route_loop_table _ _ _ E). by eapply leads_ok_same.
Qed.

Lemma frame_in_spec id data r :
  RouterInv r -> id = 0 \/ id = 1 -> zlen data < 2 ^ 63 ->
  wp thread_fails (frame_in id data r) (fun r' => RouterInv r' /\ grows r r').
Proof.
  intros HI Hid Hl. unfold frame_in.
  destruct (EthernetFrame_parse_total EthernetFrame_default (Buffer_of data) (buf_ok_of _ Hl)) as (rs & h & b & -> & Hb).
  cbn [mbind res_bind]. destruct (negb _); [split; [done|apply grows_refl]|].
  destruct (interface_at id r HI Hid) as (an & -> & Han & _). cbn [mbind res_bind].
  apply wp_bind, runtime_thread; [by apply async_recv_frame_runtime|]. intros an' Ea.
  apply runtime_thread.
  { apply route_runtime. eapply leads_ok_same; [|apply HI]. cbn. by rewrite length_insert. }
  intros r' Er. split; [by eapply route_inv|]. eapply grows_trans; [|by apply route_grows].
  apply (grows_set id an); [done|]. unfold async_recv_frame in Ea.
  apply res_bind_ok in Ea as ([o ni] & Hf%recv_frame_grows & [= <-]). done.
Qed.

(** A frame waits at interface [id]. *)
Definition waiting (id : Z) (r : Router) : Prop := exists f q, frames_at (Z.to_nat id) r = Some (f :: q).

Lemma waiting_grows id r r' : waiting id r -> grows r r' -> waiting id r'.
Proof.
  intros (f & q & E) Hg. destruct (Hg _ _ E) as (q' & E' & [k ->]). by exists f, (q ++ k).
Qed.

Lemma frames_waiting_spec id r :
  RouterInv r -> id = 0 \/ id = 1 ->
  exists b, frames_waiting id r = Ok b /\ (b = true -> waiting id r).
Proof.
  intros HI Hid. unfold frames_waiting. destruct (interface_at id r HI Hid) as (an & -> & Han & _).
  cbn [mbind res_bind]. eexists. split; [done|]. unfold waiting, frames_at. rewrite Han. cbn.
  destruct (ni_frames_out (an_interface an)) as [|f q]; [done|]. by exists f, q.
Qed.

Lemma frame_out_spec id r :
  RouterInv r -> waiting id r ->
  exists f r', frame_out id r = Ok (f, r') /\ RouterInv r' /\
    forall id', Z.to_nat id' <> Z.to_nat id -> waiting id' r -> waiting id' r'.
Proof.
  intros HI (f & q & E). unfold frames_at in E. destruct (ro_interfaces r !! _) as [an|] eqn:Ean; [|done].
  injection E as E. unfold frame_out. rewrite (interface_lookup _ _ _ Ean). cbn [mbind res_bind]. rewrite E.
  eexists _, _. split_and!; [done| |].
  { apply RouterInv_set; [done|]. cbn. pose proof (ri_idle _ HI) as Hq. rewrite Forall_lookup in Hq. by eapply Hq. }
  intros id' Hne (f' & q' & E'). exists f', q'.
  rewrite frames_at_set by by eapply lookup_lt_Some. by rewrite bool_decide_false.
Qed.

Lemma thread_set_router r t : ThreadInv t -> RouterInv r -> forall t',
  th_host_side t' = th_host_side t -> th_internet_side t' = th_internet_side t -> th_router t' = r -> ThreadInv t'.
Proof. intros [Hh Hi _] Hr t' E1 E2 E3. split; congruence. Qed.

(** Reading from a side, for rules 1 and 4. *)
Lemma side_in_spec id (f : File K) t (k : Router -> File K -> NetworkThread K) :
  ThreadInv t -> id = 0 \/ id = 1 ->
  (forall r f', RouterInv r -> ThreadInv (k r f')) ->
  wp thread_fails
    (r ← fd_read SIZE_MAX f; router ← frame_in id (fst r) (th_router t); Ok (k router (snd r)))
    (fun t' => exists r f', t' = k r f' /\ ThreadInv t' /\ grows (th_router t) r /\
       fd_read_count (f_fd f') <> fd_read_count (f_fd f)).
Proof.
  intros HI Hid Hk. apply wp_bind.
  eapply wp_system; [apply system_thread|apply (fd_read_spec taken written); done|].
  intros [data f'] Hr (Hl & _). cbn [fst snd]. apply wp_bind.
  eapply wp_mono; [apply frame_in_spec; [apply HI|done|]|].
  { unfold BUFFER_SIZE in Hl. lia. }
  intros r (HR & Hg). cbn. exists r, f'. split_and!; [done|auto|done|].
  destruct (fd_read_fd _ _ _ _ Hr) as [-> _]. apply count_moves.
Qed.

Lemma lab7_rule1_ok : rule_ok ThreadInv thread_fails (lab7_rule1, fun _ => True).
Proof.
  split; cbn [fst snd lab7_rule1 ru_cancel ru_interest ru_callback]; [done|intros t _; by exists true|].
  intros t HI _. eapply wp_mono.
  { apply (side_in_spec (th_host_side t) (th_frame_fd t) t
             (fun r f => set_thread_router r (set_frame_fd f t))); [done|rewrite (ti_host _ HI); by left|].
    intros r f Hr. by eapply thread_set_router. }
  intros t' (r & f & -> & HI' & _ & Hc). split; [done|by left].
Qed.

Lemma lab7_rule4_ok : rule_ok ThreadInv thread_fails (lab7_rule4, fun _ => True).
Proof.
  split; cbn [fst snd lab7_rule4 ru_cancel ru_interest ru_callback]; [done|intros t _; by exists true|].
  intros t HI _. eapply wp_mono.
  { apply (side_in_spec (th_internet_side t) (th_internet t) t
             (fun r f => set_thread_router r (set_internet f t))); [done|rewrite (ti_internet _ HI); by right|].
    intros r f Hr. by eapply thread_set_router. }
  intros t' (r & f & -> & HI' & _ & Hc). split; [done|by left].
Qed.

Definition host_waits t : Prop := waiting (th_host_side t) (th_router t).
Definition internet_waits t : Prop := waiting (th_internet_side t) (th_router t).

Lemma write_frame_spec buffer (f : File K) :
  wp thread_fails (fd_write buffer true f) (fun w => fd_write_count (f_fd (snd w)) <> fd_write_count (f_fd f)).
Proof.
  eapply wp_system; [apply system_thread|apply (fd_write_cases taken written)|].
  intros [n f'] Hw _. cbn. destruct (fd_write_datagram taken written _ _ _ _ _ Hw) as [_ ->]. apply count_moves.
Qed.

Lemma lab7_rule2_ok : rule_ok ThreadInv thread_fails (lab7_rule2, host_waits).
Proof.
  split; cbn [fst snd lab7_rule2 ru_cancel ru_interest ru_callback]; [done| |].
  - intros t HI. apply frames_waiting_spec; [apply HI|rewrite (ti_host _ HI); by left].
  - intros t HI Hw. destruct (frame_out_spec _ _ (ti_router _ HI) Hw) as (f & r' & -> & HR & _).
    cbn [mbind res_bind fst snd]. apply wp_bind. eapply wp_mono; [apply write_frame_spec|]. intros [n f'] Hc.
    split; [by eapply thread_set_router|by left].
Qed.

Lemma lab7_rule3_ok : rule_ok ThreadInv thread_fails (lab7_rule3, internet_waits).
Proof.
  split; cbn [fst snd lab7_rule3 ru_cancel ru_interest ru_callback]; [done| |].
  - intros t HI. apply frames_waiting_spec; [apply HI|rewrite (ti_internet _ HI); by right].
  - intros t HI Hw. destruct (frame_out_spec _ _ (ti_router _ HI) Hw) as (f & r' & -> & HR & _).
    cbn [mbind res_bind fst snd]. apply wp_bind.
    match goal with |- wp _ (udp_sendto ?d ?p ?s) _ => pose proof (udp_sendto_spec d p s) as Hs end.
    destruct (udp_sendto _ _ _) as [f'|e|] eqn:E; [| |done].
    + cbn. split; [by eapply thread_set_router|left]. cbn. rewrite Hs. apply count_moves.
    + destruct Hs as [->|He]; [by right|]. apply system_thread. by exists e.
Qed.

Definition thread_spec : list (Rule (NetworkThread K) * (NetworkThread K -> Prop)) :=
  [(lab7_rule1, fun _ => True); (lab7_rule2, host_waits); (lab7_rule3, internet_waits);
   (lab7_rule4, fun _ => True)].

Lemma thread_spec_ok : Forall (rule_ok ThreadInv thread_fails) thread_spec.
Proof.
  repeat (apply Forall_cons; split); [apply lab7_rule1_ok|apply lab7_rule2_ok|apply lab7_rule3_ok
    |apply lab7_rule4_ok|done].
Qed.

(** Rule 1 only adds frames; rule 2 takes them from the other interface. *)
Lemma rule1_keeps_waiting t t' id :
  ThreadInv t -> waiting id (th_router t) -> ru_callback lab7_rule1 t = Ok t' -> waiting id (th_router t').
Proof.
  intros HI Hw E. pose proof (side_in_spec (th_host_side t) (th_frame_fd t) t
    (fun r f => set_thread_router r (set_frame_fd f t)) HI) as Hs. cbn in E, Hs. rewrite E in Hs. cbn in Hs.
  destruct Hs as (r & f & -> & _ & Hg & _); [rewrite (ti_host _ HI); by left| |].
  - intros r f Hr. by eapply thread_set_router.
  - by eapply waiting_grows.
Qed.

Lemma rule2_keeps_internet t t' :
  ThreadInv t -> internet_waits t -> ru_callback lab7_rule2 t = Ok t' -> internet_waits t'.
Proof.
  intros HI Hw E. cbn in E. apply res_bind_ok in E as ([f r] & Ef & E).
  apply res_bind_ok in E as ([n f'] & _ & [= <-]). unfold internet_waits in *. cbn in *.
  assert (Hh : waiting (th_host_side t) (th_router t)).
  { unfold frame_out in Ef. apply res_bind_ok in Ef as (an & Ea & Ef). unfold interface in Ea.
    unfold waiting, frames_at. destruct (ro_interfaces (th_router t) !! Z.to_nat (th_host_side t)); [|done].
    injection Ea as ->. cbn. destruct (ni_frames_out _) as [|x q]; [done|]. by exists x, q. }
  destruct (frame_out_spec _ _ (ti_router _ HI) Hh) as (f0 & r0 & E0 & _ & Hk). rewrite E0 in Ef.
  injection Ef as <- <-. apply Hk; [|done]. by rewrite (ti_host _ HI), (ti_internet _ HI).
Qed.

Lemma thread_spec_compatible : ForallOrdPairs (compatible ThreadInv) thread_spec.
Proof.
  repeat constructor; cbn [fst snd]; unfold keeps; try done;
    try (intros t t' HI Hw [= <-]; exact Hw); intros t t' HI Hw E.
  - apply (rule1_keeps_waiting t t' (th_host_side t)) in Hw; [|done|exact E].
    unfold host_waits. cbn in E. apply res_bind_ok in E as (r & _ & E). by apply res_bind_ok in E as (r' & _ & [= <-]).
  - apply (rule1_keeps_waiting t t' (th_internet_side t)) in Hw; [|done|exact E].
    unfold internet_waits. cbn in E. apply res_bind_ok in E as (r & _ & E). by apply res_bind_ok in E as (r' & _ & [= <-]).
  - by eapply rule2_keeps_internet.
Qed.

(** While the thread waits, its router is its own. *)
Class ThreadEnvironment `{Poller (NetworkThread K)} := thread_poll pollfds ms t r revents t' :
  sys_poll pollfds ms t = (r, revents, t') ->
  th_router t' = th_router t /\ th_host_side t' = th_host_side t /\ th_internet_side t' = th_internet_side t /\
  returned r.

Context `{ThreadEnvironment}.

Lemma thread_poll_ok spec : spec `sublist_of` thread_spec -> poll_ok ThreadInv thread_fails spec.
Proof.
  intros Hs pollfds ms t r revents t' HI E. destruct (thread_poll _ _ _ _ _ _ E) as (Er & Eh & Ei & He).
  split_and!; [by eapply thread_set_router; [| |exact Eh|exact Ei|exact Er]; [|apply HI]
    | |intros _; left; exact polled_loop|done].
  eapply Forall_sublist; [exact Hs|]. repeat constructor; unfold host_waits, internet_waits; cbn; by rewrite Er, ?Eh, ?Ei.
Qed.

Lemma tick_interface_spec id ms r :
  RouterInv r -> id = 0 \/ id = 1 -> exists r', tick_interface id ms r = Ok r' /\ RouterInv r'.
Proof.
  intros HI Hid. unfold tick_interface. destruct (interface_at id r HI Hid) as (an & -> & Han & Hq).
  cbn [mbind res_bind]. eexists. split; [done|]. by apply RouterInv_set.
Qed.

Lemma network_loop_spec n : forall spec t,
  spec `sublist_of` thread_spec -> ThreadInv t ->
  wp thread_fails (network_loop n (map fst spec) t) ThreadInv.
Proof.
  induction n as [|n IH]; intros spec t Hs HI; cbn [network_loop]; [done|]. apply wp_bind. eapply wp_mono.
  { apply (wait_spec ThreadInv thread_fails); [| |by apply thread_poll_ok|exact HI].
    - eapply Forall_sublist; [exact Hs|apply thread_spec_ok].
    - eapply sublist_pairs; [exact Hs|apply thread_spec_compatible]. }
  intros [[result rules'] t1] (HI1 & spec' & Hs' & ->).
  destruct (tick_interface_spec (th_host_side t1) 50 _ (ti_router _ HI1)) as (r1 & E1 & HR1);
    [rewrite (ti_host _ HI1); by left|].
  destruct (tick_interface_spec (th_internet_side t1) 50 _ HR1) as (r2 & E2 & HR2);
    [rewrite (ti_internet _ HI1); by right|].
  assert (HI2 : ThreadInv (set_thread_router r2 t1)) by by eapply thread_set_router.
  assert (Hgo : wp thread_fails
    (r ← tick_interface (th_host_side t1) 50 (th_router t1);
     r ← tick_interface (th_internet_side t1) 50 r;
     let t := set_thread_router r t1 in
     if th_exit_flag t then Ok t else network_loop n (map fst spec') t) ThreadInv).
  { rewrite E1. cbn [mbind res_bind]. rewrite E2. cbn [mbind res_bind]. cbv zeta.
    destruct (th_exit_flag _); [done|]. apply IH; [by etrans|done]. }
  by destruct result.
Qed.
End Safe.

(** The interfaces and routes the program sets up. *)
Lemma lab7_interface_ok `{Resolver} eth ip r id r' :
  lab7_interface eth ip r = Ok (id, r') -> zlen (ro_interfaces r) < 2 ->
  exists a, id = zlen (ro_interfaces r) /\ ro_routing_table r' = ro_routing_table r /\
    ro_interfaces r' = ro_interfaces r ++ [AsyncNetworkInterface_of (NetworkInterface_new eth a)].
Proof.
  intros (a & _ & [= <- <-])%res_bind_ok Hl. exists a. split_and!; [|done..].
  rewrite length_app. cbn. rewrite u64_small; [lia|word_lia].
Qed.

Lemma lab7_route_ok `{Resolver} ip len hop id r r' :
  lab7_route ip len hop id r = Ok r' -> 2 <= len <= 32 -> (Z.to_nat id < length (ro_interfaces r))%nat ->
  ro_interfaces r' = ro_interfaces r /\
  (Forall (leads_ok r) (ro_routing_table r) -> Forall (leads_ok r') (ro_routing_table r')).
Proof.
  intros (a & _ & E)%res_bind_ok Hl Hid. apply res_bind_ok in E as (p & _ & E).
  apply res_bind_ok in E as (h & _ & [= <-]). split; [done|]. intros Hf. cbn.
  apply Forall_app. split; [by eapply leads_ok_same|]. constructor; [|done]. split; [by right|done].
Qed.

Lemma lab7_setup `{Resolver} eth1 eth2 ip1 ip2 n1 n2 n3 l1 l2 l3 h1 h2 h3 h i r :
  2 <= l1 <= 32 -> 2 <= l2 <= 32 -> 2 <= l3 <= 32 ->
  (i ← lab7_interface eth1 ip1 Router_new; let '(host_side, r) := i in
   i ← lab7_interface eth2 ip2 r; let '(internet_side, r) := i in
   r ← lab7_route n1 l1 h1 host_side r;
   r ← lab7_route n2 l2 h2 internet_side r;
   r ← lab7_route n3 l3 h3 internet_side r;
   Ok (host_side, internet_side, r)) = Ok (h, i, r) -> h = 0 /\ i = 1 /\ RouterInv r.
Proof.
  intros H1 H2 H3 ([i0 r0] & E0 & E)%res_bind_ok.
  destruct (lab7_interface_ok _ _ _ _ _ E0 ltac:(cbn; lia)) as (a0 & -> & T0 & L0).
  apply res_bind_ok in E as ([i1 r1] & E1 & E).
  destruct (lab7_interface_ok _ _ _ _ _ E1 ltac:(rewrite L0; cbn; lia)) as (a1 & -> & T1 & L1).
  rewrite L0 in L1, E. cbn [length app] in E.
  apply res_bind_ok in E as (r2 & [L2 T2]%lab7_route_ok & E); [|done|rewrite L1; cbn; lia].
  apply res_bind_ok in E as (r3 & [L3 T3]%lab7_route_ok & E); [|done|rewrite L2, L1; cbn; lia].
  apply res_bind_ok in E as (r4 & [L4 T4]%lab7_route_ok & [= <- <- <-]); [|done|rewrite L3, L2, L1; cbn; lia].
  split_and!; [done..|]. rewrite L1 in L2. rewrite L2 in L3. rewrite L3 in L4.
  split; [by rewrite L4| |rewrite L4; by repeat constructor].
  apply T4, T3, T2. rewrite T1, T0. constructor.
Qed.

Lemma lab7_router_inv `{Resolver} is_client eth1 eth2 h i r :
  lab7_router is_client eth1 eth2 = Ok (h, i, r) -> h = 0 /\ i = 1 /\ RouterInv r.
Proof. destruct is_client; cbn [lab7_router]; apply lab7_setup; lia. Qed.

(** C15.  The network thread of the last application: for the client's router as
    for the server's, whatever frames arrive from the host and from the network,
    after any number of rounds of its loop every received datagram has been
    routed.  The thread never takes the front of an empty queue of frames, though
    other callbacks run between the question whether one waits and the sending,
    never indexes an interface that is not there, and its loop never reports a busy
    wait.  It ends only when a system call fails, when [poll] reports an error, or
    by the [runtime_error] of a datagram that cannot be sent on or of a message the
    kernel took in part. *)
Theorem lab7_thread_safe {K} `{Kernel K} (taken written : K -> list byte) `{!KernelSpec K taken written}
    `{!DatagramSpec K} `{Poller (NetworkThread K)} `{!ThreadEnvironment} `{Resolver}
    n is_client eth1 eth2 h i r (frame_fd internet : File K) bounce :
  lab7_router is_client eth1 eth2 = Ok (h, i, r) ->
  wp thread_fails (network_loop n lab7_rules (mkThread frame_fd internet r h i bounce false))
    (fun t => Forall (fun an => an_datagrams_out an = []) (ro_interfaces (th_router t))).
Proof.
  intros (-> & -> & HR)%lab7_router_inv.
  eapply wp_mono; [by apply (network_loop_spec taken written n thread_spec)|]. intros t HI. apply HI.
Qed.

(** ** A datagram socket and a run *)

Record Dgram := mkDgram { dg_pipe : Pipe }.
Definition on_dgram {A} (r : A * Pipe) : A * Dgram := (r.1, mkDgram r.2).

#[export] Instance Dgram_Kernel : Kernel Dgram := {
  sys_read n s := on_dgram (sys_read n (dg_pipe s));
  sys_writev bufs s :=
    if MAX_RW_COUNT <? zlen (concat bufs) then (mkSys (-1) EINVAL, s)
    else (ok_ret (zlen (concat bufs)), mkDgram (pipe_put None (concat bufs) (dg_pipe s)));
  sys_recvfrom n s := on_dgram (sys_recvfrom n (dg_pipe s));
  sys_sendmsg d bufs s := on_dgram (sys_sendmsg d bufs (dg_pipe s));
  sys_shutdown how s := (ok_ret 0, s);
  sys_close s := (ok_ret 0, s);
  sys_getfl s := (ok_ret 0, s);
  sys_setfl fl s := (ok_ret 0, s)
}.

Definition dgram_taken (s : Dgram) : list byte := pipe_taken (dg_pipe s).
Definition dgram_written (s : Dgram) : list byte := pipe_written (dg_pipe s).

#[export] Instance Dgram_Spec : KernelSpec Dgram dgram_taken dgram_written.
Proof.
  unfold dgram_taken, dgram_written. split.
  - intros n s r l s' Hn E Hr. cbn in E. unfold on_dgram in E.
    destruct (pipe_next _ (dg_pipe s)) as [[a l0] k0] eqn:E0. injection E as <- <- <-.
    apply (read_fills (K := Pipe) n (dg_pipe s) _ _ k0 Hn); [|done]. cbn. by rewrite E0.
  - intros n s r l s' E. cbn in E. unfold on_dgram in E.
    destruct (pipe_next _ (dg_pipe s)) as [[a l0] k0] eqn:E0. injection E as <- <- <-.
    apply (read_returns (K := Pipe) n (dg_pipe s) _ (take (Z.to_nat (Z.min MAX_RW_COUNT n)) l0) k0). cbn. by rewrite E0.
  - intros bufs s r s'. cbn -[Z.ltb]. destruct (_ <? _) eqn:El; bool_prop; intros [= <- <-];
      [cbn; lia|]. intros _. cbn. rewrite Nat2Z.id, firstn_all. unfold MAX_RW_COUNT in El. split_and!; [lia..|done|].
    unfold pipe_written, pipe_put. cbn. rewrite map_app, concat_app. cbn. by rewrite app_nil_r.
  - intros bufs s r s'. cbn -[Z.ltb]. destruct (_ <? _) eqn:El; bool_prop; intros [= <- <-]; [done|].
    apply returned_ok. unfold MAX_RW_COUNT in *. lia.
  - intros how s r s' [= <- <-]. by split_and!.
  - intros s r s' [= <- <-]. by split_and!.
  - intros s r s' [= <- <-]. by split_and!.
  - intros fl s r s' [= <- <-]. by split_and!.
Qed.

#[export] Instance Dgram_whole : DatagramSpec Dgram.
Proof.
  intros bufs s r s'. cbn -[Z.ltb]. destruct (_ <? _); intros [= <- <-]; cbn; [lia|done].
Qed.

#[local] Instance thread_Poller : Poller (NetworkThread Dgram) := fun pollfds _ t =>
  (ok_ret 1, map (fun p => Z.land (pf_events p) (Z.lor POLLIN POLLOUT)) pollfds, t).
#[local] Instance thread_Environment : ThreadEnvironment (K := Dgram).
Proof. by intros pollfds ms t r revents t' [= <- <- <-]. Qed.

(** The host, 192.168.0.50, asks for the router's Ethernet address. *)
Definition host_mac : EthernetAddress := [x02; x11; x22; x33; x44; x55].
Definition router_mac : EthernetAddress := [x02; x00; x00; x01; x02; x03].
Definition arp_request_bytes : list byte :=
  match ARPMessage_serialize (arp_message OPCODE_REQUEST host_mac (quad 192 168 0 50) zero_ethernet (quad 192 168 0 1)) with
  | Ok l => concatenate (EthernetFrame_serialize (make_frame host_mac ETHERNET_BROADCAST TYPE_ARP [Buffer_of l]))
  | _ => []
  end.
Definition dgram_file (fd : Z) (packets : list (list byte)) : File Dgram :=
  mkFile (mkFD fd false false 0 0) (mkDgram (mkPipe (map (fun l => ([], l)) packets) [] 0 [])).
Definition client_router : Z * Z * Router :=
  match @lab7_router numeric_Resolver true router_mac router_mac with Ok x => x | _ => (0, 0, Router_new) end.

Lemma lab7_thread_safe_witness :
  wp thread_fails
    (network_loop 2 lab7_rules (mkThread (dgram_file 3 [arp_request_bytes]) (dgram_file 4 [[x00]])
       client_router.2 client_router.1.1 client_router.1.2 (ipv4_address 0) false))
    (fun t => Forall (fun an => an_datagrams_out an = []) (ro_interfaces (th_router t))).
Proof.
  apply (@lab7_thread_safe Dgram _ dgram_taken dgram_written _ _ _ _ numeric_Resolver 2 true router_mac router_mac
           client_router.1.1 client_router.1.2 client_router.2).
  reflexivity.
Defined.

(** The same rounds, run: the router answers the host. *)
Example router_answers :
  match network_loop 2 lab7_rules (mkThread (dgram_file 3 [arp_request_bytes]) (dgram_file 4 [[x00]])
       client_router.2 client_router.1.1 client_router.1.2 (ipv4_address 0) false) with
  | Ok t => length (dgram_written (f_kernel (th_frame_fd t))) = 42%nat /\
            take 6 (dgram_written (f_kernel (th_frame_fd t))) = host_mac
  | _ => False
  end.
Proof. vm_compute. split; reflexivity. Qed.
