(* ===== verification/Options.v ===== *)
(** * Command lines

    Models [get_config] and [check_argc] of [src/apps/tcp_ipv4.cc], [tcp_udp.cc]
    and [tcp_ip_ethernet.cc], and the argument handling of [tcp_native.cc].  The
    usage text is left out.  [argv] is the list of the arguments, the program's
    name first; reading past its end has no defined behaviour.  The numeric
    conversions of the C library and the resolver are parameters. *)

From stdpp Require Import strings.
From S2P Require Import Prelude Parser IPv4 WrappingIntegers StdMap ByteStream StreamReassembler Buffers.
From S2P Require Import TCPSegment TCPReceiver TCPSender Address FileDescriptor Ethernet NetworkInterface Adapters.

(** [strtol] with base 0, the loss rate that [strtof] and the conversions to
    [uint16_t] make of a string, and the constructor [Address(host, service)]. *)
Class CommandLine := {
  strtol : string -> Z;
  loss_rate : string -> Z;
  resolve : string -> string -> res Address
}.

(** What [get_config] does: it returns a configuration or ends the program. *)
Definition outcome (A : Type) : Type := A + Z.

(** [strncmp(option, arg, 3) == 0]: an option of two characters is compared whole,
    one of three with the first three characters of the argument. *)
Definition is_option (option arg : string) : bool := bool_decide (String.substring 0 3 arg = option).

Section Loop.
Context (argv : list string).

Definition argc : Z := zlen argv.
Definition arg (n : Z) : res string :=
  if n <? 0 then Undefined else match argv !! Z.to_nat n with Some s => Ok s | None => Undefined end.

(** [check_argc] and the reading of the option's argument. *)
Definition option_arg (curr : Z) : res (outcome string) :=
  if argc <=? curr + 3 then Ok (inr 1) else a ← arg (curr + 1); Ok (inl a).

(** An option with an argument: [f] stores it. *)
Definition with_arg {S} (curr : Z) (f : string -> S) : res (outcome (S * Z)) :=
  a ← option_arg curr;
  match a with
  | inl a => Ok (inl (f a, curr + 2))
  | inr code => Ok (inr code)
  end.

(** [while (argc - curr > 2)]; the fuel is the number of arguments. *)
Fixpoint options_loop {S} (body : Z -> string -> S -> res (outcome (S * Z))) (fuel : nat) (curr : Z) (st : S)
  : res (outcome (S * Z)) :=
  if 2 <? argc - curr then
    match fuel with
    | O => Undefined
    | Datatypes.S fuel' =>
        a ← arg curr;
        r ← body curr a st;
        match r with
        | inl (st, curr) => options_loop body fuel' curr st
        | inr code => Ok (inr code)
        end
    end
  else Ok (inl (st, curr)).
End Loop.

Section Programs.
Context `{CommandLine} `{Resolver} (argv : list string).

Definition set_recv_capacity (s : string) (c : TCPConfig) : TCPConfig :=
  mkTCPConfig (cfg_rt_timeout c) (u64 (strtol s)) (cfg_send_capacity c) (cfg_fixed_isn c).
Definition set_rt_timeout (s : string) (c : TCPConfig) : TCPConfig :=
  mkTCPConfig (u16 (strtol s)) (cfg_recv_capacity c) (cfg_send_capacity c) (cfg_fixed_isn c).

(** ** [tcp_ipv4.cc] *)

Record ipv4_options := mkIpv4 {
  i4_fsm : TCPConfig; i4_loss_dn : Z; i4_loss_up : Z; i4_listen : bool;
  i4_source_address : string; i4_source_port : string; i4_tundev : option string
}.

Definition ipv4_body (curr : Z) (a : string) (o : ipv4_options) : res (outcome (ipv4_options * Z)) :=
  let '(mkIpv4 c dn up l sa sp d) := o in
  if is_option "-l" a then Ok (inl (mkIpv4 c dn up true sa sp d, curr + 1))
  else if is_option "-a" a then with_arg argv curr (fun x => mkIpv4 c dn up l x sp d)
  else if is_option "-s" a then with_arg argv curr (fun x => mkIpv4 c dn up l sa x d)
  else if is_option "-w" a then with_arg argv curr (fun x => mkIpv4 (set_recv_capacity x c) dn up l sa sp d)
  else if is_option "-t" a then with_arg argv curr (fun x => mkIpv4 (set_rt_timeout x c) dn up l sa sp d)
  else if is_option "-d" a then with_arg argv curr (fun x => mkIpv4 c dn up l sa sp (Some x))
  else if is_option "-Lu" a then with_arg argv curr (fun x => mkIpv4 c dn (loss_rate x) l sa sp d)
  else if is_option "-Ld" a then with_arg argv curr (fun x => mkIpv4 c (loss_rate x) up l sa sp d)
  else if is_option "-h" a then Ok (inr 0)
  else Ok (inr 1).

(** [random_port] is the decimal string of the random source port. *)
Definition ipv4_get_config (random_port : string)
  : res (outcome (TCPConfig * FdAdapterConfig * bool * option string)) :=
  c0 ← FdAdapterConfig_default;
  let o := mkIpv4 TCPConfig_default (loss_rate_dn c0) (loss_rate_up c0) false "169.254.144.9" random_port None in
  r ← options_loop argv ipv4_body (length argv) 1 o;
  match r with
  | inr code => Ok (inr code)
  | inl (mkIpv4 c dn up l sa sp d, curr) =>
      if l then
        service ← arg argv (curr + 1);
        source ← resolve "0" service;
        p ← port source;
        if p =? 0 then Ok (inr 1)
        else Ok (inl (c, mkFdAdapterConfig source (cf_destination c0) dn up, l, d))
      else
        host ← arg argv curr;
        service ← arg argv (curr + 1);
        destination ← resolve host service;
        source ← resolve sa sp;
        Ok (inl (c, mkFdAdapterConfig source destination dn up, l, d))
  end.

(** ** [tcp_udp.cc] *)

Record udp_options := mkUdp { ud_fsm : TCPConfig; ud_loss_dn : Z; ud_loss_up : Z; ud_listen : bool }.

Definition udp_body (curr : Z) (a : string) (o : udp_options) : res (outcome (udp_options * Z)) :=
  let '(mkUdp c dn up l) := o in
  if is_option "-l" a then Ok (inl (mkUdp c dn up true, curr + 1))
  else if is_option "-w" a then with_arg argv curr (fun x => mkUdp (set_recv_capacity x c) dn up l)
  else if is_option "-t" a then with_arg argv curr (fun x => mkUdp (set_rt_timeout x c) dn up l)
  else if is_option "-Lu" a then with_arg argv curr (fun x => mkUdp c dn (loss_rate x) l)
  else if is_option "-Ld" a then with_arg argv curr (fun x => mkUdp c (loss_rate x) up l)
  else if is_option "-h" a then Ok (inr 0)
  else Ok (inr 1).

(** The positional arguments are taken from the end of [argv]. *)
Definition udp_get_config : res (outcome (TCPConfig * FdAdapterConfig * bool)) :=
  c0 ← FdAdapterConfig_default;
  r ← options_loop argv udp_body (length argv) 1
        (mkUdp TCPConfig_default (loss_rate_dn c0) (loss_rate_up c0) false);
  match r with
  | inr code => Ok (inr code)
  | inl (mkUdp c dn up l, _) =>
      if l then
        service ← arg argv (argc argv - 1);
        source ← resolve "0" service;
        Ok (inl (c, mkFdAdapterConfig source (cf_destination c0) dn up, l))
      else
        host ← arg argv (argc argv - 2);
        service ← arg argv (argc argv - 1);
        destination ← resolve host service;
        Ok (inl (c, mkFdAdapterConfig (cf_source c0) destination dn up, l))
  end.

(** ** [tcp_ip_ethernet.cc] *)

Record ethernet_options := mkEthOpt {
  eo_fsm : TCPConfig; eo_source_address : string; eo_source_port : string; eo_next_hop : string; eo_tapdev : string
}.

Definition ethernet_body (curr : Z) (a : string) (o : ethernet_options) : res (outcome (ethernet_options * Z)) :=
  let '(mkEthOpt c sa sp nh d) := o in
  if is_option "-a" a then with_arg argv curr (fun x => mkEthOpt c x sp nh d)
  else if is_option "-s" a then with_arg argv curr (fun x => mkEthOpt c sa x nh d)
  else if is_option "-n" a then with_arg argv curr (fun x => mkEthOpt c sa sp x d)
  else if is_option "-w" a then with_arg argv curr (fun x => mkEthOpt (set_recv_capacity x c) sa sp nh d)
  else if is_option "-t" a then with_arg argv curr (fun x => mkEthOpt (set_rt_timeout x c) sa sp nh d)
  else if is_option "-d" a then with_arg argv curr (fun x => mkEthOpt c sa sp nh x)
  else if is_option "-h" a then Ok (inr 0)
  else Ok (inr 1).

Definition ethernet_get_config (random_port : string)
  : res (outcome (TCPConfig * FdAdapterConfig * Address * string)) :=
  c0 ← FdAdapterConfig_default;
  r ← options_loop argv ethernet_body (length argv) 1
        (mkEthOpt TCPConfig_default "169.254.10.9" random_port "169.254.10.1" "tap10");
  match r with
  | inr code => Ok (inr code)
  | inl (mkEthOpt c sa sp nh d, curr) =>
      host ← arg argv curr;
      service ← arg argv (curr + 1);
      destination ← resolve host service;
      source ← resolve sa sp;
      next_hop ← resolve nh "0";
      Ok (inl (c, mkFdAdapterConfig source destination (loss_rate_dn c0) (loss_rate_up c0), next_hop, d))
  end.

(** ** [tcp_native.cc]: the address to listen on or to connect to, and which *)

Definition native_config : res (outcome (bool * Address)) :=
  if argc argv <? 3 then Ok (inr 1)
  else
    a1 ← arg argv 1;
    let server_mode := is_option "-l" a1 in
    if server_mode && (argc argv <? 4) then Ok (inr 1)
    else if server_mode then
      host ← arg argv 2;
      service ← arg argv 3;
      a ← resolve host service;
      Ok (inl (true, a))
    else
      service ← arg argv 2;
      a ← resolve a1 service;
      Ok (inl (false, a)).

(** ** [lab7.cc]: client or server, the bouncer's host and port, and debugging *)

Definition lab7_arguments : res (outcome (bool * string * string * bool)) :=
  if negb (argc argv =? 4) && negb (argc argv =? 5) then Ok (inr 1)
  else
    a1 ← arg argv 1;
    if negb (bool_decide (a1 = "client"%string)) && negb (bool_decide (a1 = "server"%string)) then Ok (inr 1)
    else
      bounce_host ← arg argv 2;
      bounce_port ← arg argv 3;
      Ok (inl (bool_decide (a1 = "client"%string), bounce_host, bounce_port, argc argv =? 5)).
End Programs.

(** ** The loop stays within [argv] *)

Section Bounds.
Context (argv : list string).
Abbreviation argc := (argc argv).

Lemma arg_ok n : 0 <= n < argc -> exists s, arg argv n = Ok s /\ argv !! Z.to_nat n = Some s.
Proof.
  unfold argc. intros Hn. unfold arg. rewrite (proj2 (Z.ltb_ge _ _)) by lia.
  destruct (argv !! Z.to_nat n) as [s|] eqn:E; [by exists s|]. apply lookup_ge_None in E. lia.
Qed.

(** What a round of the loop may do: end the program, or advance and leave two
    arguments. *)
Definition advances {S} (body : Z -> string -> S -> res (outcome (S * Z))) : Prop :=
  forall curr a st, 1 <= curr -> 2 < argc - curr ->
    match body curr a st with
    | Ok (inl (_, curr')) => curr < curr' /\ 2 <= argc - curr'
    | Ok (inr _) => True
    | Throw _ => False
    | Undefined => False
    end.

Lemma with_arg_advances {S} curr (f : string -> S) :
  1 <= curr -> 2 < argc - curr ->
  match with_arg argv curr f with
  | Ok (inl (_, curr')) => curr < curr' /\ 2 <= argc - curr'
  | Ok (inr _) => True
  | Throw _ => False
  | Undefined => False
  end.
Proof.
  intros H1 H2. unfold with_arg, option_arg. destruct (argc <=? curr + 3) eqn:E; bool_prop; [done|].
  destruct (arg_ok (curr + 1)) as (s & -> & _); [lia|]. cbn. lia.
Qed.

Lemma options_loop_ends {S} (body : Z -> string -> S -> res (outcome (S * Z))) :
  advances body -> forall fuel curr st,
  1 <= curr -> 2 <= argc - curr <= Z.of_nat fuel + 2 ->
  (exists st', options_loop argv body fuel curr st = Ok (inl (st', argc - 2))) \/
  (exists code, options_loop argv body fuel curr st = Ok (inr code)).
Proof.
  intros Hb. induction fuel as [|fuel IH]; intros curr st H1 H2; cbn [options_loop];
    destruct (2 <? argc - curr) eqn:E; bool_prop;
    try (left; exists st; replace (argc - 2) with curr by lia; done); [lia|].
  destruct (arg_ok curr) as (a & -> & _); [lia|]. cbn [mbind res_bind].
  pose proof (Hb curr a st H1 E) as Hr. destruct (body curr a st) as [[[st' curr']|code]|e|]; [| |done..];
    cbn [mbind res_bind]; [|right; by exists code]. apply IH; lia.
Qed.

(** The last two arguments. *)
Definition positional (host service : string) : Prop :=
  argv !! (length argv - 2)%nat = Some host /\ argv !! (length argv - 1)%nat = Some service.

Lemma positional_args :
  3 <= argc -> exists host service, positional host service /\
    arg argv (argc - 2) = Ok host /\ arg argv (argc - 2 + 1) = Ok service /\ arg argv (argc - 1) = Ok service.
Proof.
  intros Ha. destruct (arg_ok (argc - 2)) as (h & Eh & Lh); [lia|].
  destruct (arg_ok (argc - 1)) as (s & Es & Ls); [lia|]. exists h, s.
  replace (argc - 2 + 1) with (argc - 1) by lia. unfold Options.argc in *. split_and!; [|done..].
  split; [rewrite <- Lh|rewrite <- Ls]; f_equal; lia.
Qed.
End Bounds.

Section Safe.
Context `{CommandLine} `{Resolver} (argv : list string) (Hargc : 3 <= argc argv).
Context (Hres : forall h s, defined (resolve h s)) (Hport : forall a, defined (getnameinfo_port a)).
Context (Haddr : forall ip p, defined (getaddrinfo_numeric ip p)).

Lemma default_config_defined : defined FdAdapterConfig_default.
Proof.
  unfold FdAdapterConfig_default, Address_of_ip_port, Address_of_sockaddr.
  repeat first [progress intros|apply Haddr|apply defined_bind|apply defined_if|done].
Qed.

Ltac option_body := intros curr a st H1 H2; destruct st;
  repeat (destruct (is_option _ _); [first [by apply with_arg_advances|cbn; lia|done]|]); done.

Lemma ipv4_body_advances : advances argv (ipv4_body argv).
Proof. unfold ipv4_body. option_body. Qed.
Lemma udp_body_advances : advances argv (udp_body argv).
Proof. unfold udp_body. option_body. Qed.
Lemma ethernet_body_advances : advances argv (ethernet_body argv).
Proof. unfold ethernet_body. option_body. Qed.

Lemma loop_fuel : 2 <= argc argv - 1 <= Z.of_nat (length argv) + 2.
Proof. unfold argc in *. lia. Qed.

(** The configuration a program takes from its positional arguments. *)
Definition takes_positional (host service : string) (f : FdAdapterConfig) (listen : bool) : Prop :=
  if listen then resolve "0" service = Ok (cf_source f) else resolve host service = Ok (cf_destination f).

Lemma port_defined a : defined (port a).
Proof. unfold port. apply defined_bind; [apply Hport|done]. Qed.

(** Exits, exceptions and configurations that satisfy [Q]; nothing undefined. *)
Definition config_is {A} (Q : A -> Prop) (r : res (outcome A)) : Prop :=
  match r with Ok (inl a) => Q a | Ok (inr _) => True | Throw _ => True | Undefined => False end.

Lemma config_is_bind {A B} (Q : A -> Prop) (m : res B) (k : B -> res (outcome A)) :
  defined m -> (forall b, m = Ok b -> config_is Q (k b)) -> config_is Q (m ≫= k).
Proof. destruct m; cbn; auto. Qed.

Lemma ipv4_config random_port host service :
  arg argv (argc argv - 2) = Ok host -> arg argv (argc argv - 2 + 1) = Ok service ->
  config_is (fun '(_, f, listen, _) => takes_positional host service f listen) (ipv4_get_config argv random_port).
Proof.
  intros Eh Es. unfold ipv4_get_config. apply config_is_bind; [apply default_config_defined|]. intros c0 _.
  match goal with |- context [options_loop _ _ _ _ ?o] =>
    destruct (options_loop_ends argv _ ipv4_body_advances (length argv) 1 o ltac:(lia) loop_fuel)
      as [[st ->]|[code ->]] end; [|done].
  cbn [mbind res_bind]. destruct st as [c dn up l sa sp d]. destruct l.
  - rewrite Es. cbn [mbind res_bind]. apply config_is_bind; [apply Hres|]. intros src Hs.
    apply config_is_bind; [apply port_defined|]. intros p _. by destruct (p =? 0).
  - rewrite Eh, Es. cbn [mbind res_bind]. apply config_is_bind; [apply Hres|]. intros dst Hd.
    apply config_is_bind; [apply Hres|]. intros src _. done.
Qed.

Lemma udp_config host service :
  arg argv (argc argv - 2) = Ok host -> arg argv (argc argv - 1) = Ok service ->
  config_is (fun '(_, f, listen) => takes_positional host service f listen) (udp_get_config argv).
Proof.
  intros Eh Es. unfold udp_get_config. apply config_is_bind; [apply default_config_defined|]. intros c0 _.
  match goal with |- context [options_loop _ _ _ _ ?o] =>
    destruct (options_loop_ends argv _ udp_body_advances (length argv) 1 o ltac:(lia) loop_fuel)
      as [[st ->]|[code ->]] end; [|done].
  cbn [mbind res_bind]. destruct st as [c dn up l]. destruct l.
  - rewrite Es. cbn [mbind res_bind]. apply config_is_bind; [apply Hres|]. done.
  - rewrite Eh, Es. cbn [mbind res_bind]. apply config_is_bind; [apply Hres|]. done.
Qed.

Lemma ethernet_config random_port host service :
  arg argv (argc argv - 2) = Ok host -> arg argv (argc argv - 2 + 1) = Ok service ->
  config_is (fun '(_, f, _, _) => takes_positional host service f false) (ethernet_get_config argv random_port).
Proof.
  intros Eh Es. unfold ethernet_get_config. apply config_is_bind; [apply default_config_defined|]. intros c0 _.
  match goal with |- context [options_loop _ _ _ _ ?o] =>
    destruct (options_loop_ends argv _ ethernet_body_advances (length argv) 1 o ltac:(lia) loop_fuel)
      as [[st ->]|[code ->]] end; [|done].
  cbn [mbind res_bind]. destruct st as [c sa sp nh d]. rewrite Eh, Es. cbn [mbind res_bind].
  apply config_is_bind; [apply Hres|]. intros dst Hd. apply config_is_bind; [apply Hres|]. intros src _.
  apply config_is_bind; [apply Hres|]. done.
Qed.
End Safe.

(** C38.  The command lines of the client programs: given at least two arguments,
    the option loops end, no read of [argv] is past its end whatever the options
    are, and when a configuration is returned it comes from the last two
    arguments: they are the destination, or, in listening mode, the last one is
    the port to listen on. *)
Theorem command_lines_in_bounds `{CommandLine} `{Resolver} (argv : list string) random_port :
  3 <= argc argv -> (forall h s, defined (resolve h s)) ->
  (forall a, defined (getnameinfo_port a)) -> (forall ip p, defined (getaddrinfo_numeric ip p)) ->
  exists host service, positional argv host service /\
    config_is (fun '(_, f, listen, _) => takes_positional host service f listen) (ipv4_get_config argv random_port) /\
    config_is (fun '(_, f, listen) => takes_positional host service f listen) (udp_get_config argv) /\
    config_is (fun '(_, f, _, _) => takes_positional host service f false) (ethernet_get_config argv random_port).
Proof.
  intros Ha Hr Hp Hg. destruct (positional_args argv Ha) as (host & service & Hpos & E1 & E2 & E3).
  exists host, service. split_and!; [done|by apply ipv4_config|by apply udp_config|by apply ethernet_config].
Qed.

(** A client with a window of 5000 bytes; addresses are resolved to the port. *)
Definition example_command : CommandLine := {|
  strtol s := if bool_decide (s = "5000") then 5000 else 80;
  loss_rate _ := 0;
  resolve host service := Ok (ipv4_address (if bool_decide (service = "80") then 80 else 1))
|}.
Definition example_argv : list string := ["tcp_ipv4"; "-w"; "5000"; "cs144.keithw.org"; "80"].

Lemma command_lines_in_bounds_witness :
  exists host service, positional example_argv host service /\
    match @ipv4_get_config example_command numeric_Resolver example_argv "1234" with
    | Ok (inl (c, f, listen, _)) => cfg_recv_capacity c = 5000 /\
        @takes_positional example_command host service f listen
    | _ => False
    end.
Proof.
  destruct (@command_lines_in_bounds example_command numeric_Resolver example_argv "1234") as (h & s & Hp & Hc & _).
  - vm_compute. discriminate.
  - done.
  - intros a. cbn. by destruct (_ =? _).
  - done.
  - exists h, s. split; [exact Hp|]. set (r := ipv4_get_config _ _) in *. vm_compute in r. subst r.
    split; [reflexivity|exact Hc].
Defined.
