(* ===== verification/Programs.v ===== *)
(** * The client programs

    Models the [main] functions of [src/apps/tcp_udp.cc], [tcp_ipv4.cc],
    [tcp_ip_ethernet.cc], [tcp_native.cc], [webget.cc] and [tcp_benchmark.cc] and what
    [Lab7.v] leaves of [src/apps/lab7.cc], with the constructors of [TCPSpongeSocket]
    (src/libsponge/tcp_helpers/tcp_sponge_socket.cc) they call.  A program is what
    its first thread does: the other threads act on it through the kernel, that
    is, while it polls.  System calls that make an object are arguments, what
    [random_device] draws too; messages are left out.  Loops run for at most a given
    number of turns. *)

From stdpp Require Import strings.
From S2P Require Import Prelude Buffers Parser IPv4 TCPSegment TCPSender TCPConnection Address FileDescriptor EventLoop.
From S2P Require Import Benchmark Webget Sockets StreamCopy Ethernet NetworkInterface Router Adapters SpongeSocket Lab7 Options.

(** ** Ending a program *)

Definition EXIT_SUCCESS : Z := 0.
Definition EXIT_FAILURE : Z := 1.

(** [abort()], as a shell reports it: 128 and the number of the signal. *)
Definition ABORTED : Z := 134.

(** The [try] block of a [main]: it has come to its end or not, or has called
    [exit]; an exception is reported and the program fails. *)
Definition exit_status (body : res (outcome bool)) : res (option Z) :=
  match body with
  | Ok (inl true) => Ok None
  | Ok (inl false) => Ok (Some EXIT_SUCCESS)
  | Ok (inr code) => Ok (Some code)
  | Throw _ => Ok (Some EXIT_FAILURE)
  | Undefined => Undefined
  end.

(** ** [timestamp_ms]: whole milliseconds of a steady clock in nanoseconds *)

Definition timestamp_ms (program_start now : Z) : Z := u64 (Z.quot (now - program_start) 1000000).

(** The differences [_tcp_loop] takes of it do not wrap. *)
Lemma timestamp_differences start t1 t2 :
  start <= t1 <= t2 -> t2 - start < 2 ^ 80 ->
  u64 (timestamp_ms start t2 - timestamp_ms start t1) = timestamp_ms start t2 - timestamp_ms start t1 /\
  0 <= timestamp_ms start t2 - timestamp_ms start t1.
Proof.
  intros Ht Hb. unfold timestamp_ms.
  assert (Hq : forall t, start <= t <= t2 -> 0 <= Z.quot (t - start) 1000000 < 2 ^ 64).
  { intros t Hr. rewrite Z.quot_div_nonneg by lia. split; [apply Z.div_pos; lia|].
    apply Z.div_lt_upper_bound; lia. }
  pose proof (Hq t1 ltac:(lia)). pose proof (Hq t2 ltac:(lia)).
  rewrite !(u64_small (Z.quot _ _)) by word_lia.
  assert (Z.quot (t1 - start) 1000000 <= Z.quot (t2 - start) 1000000) by (apply Z.quot_le_mono; lia).
  rewrite u64_small by word_lia. lia.
Qed.

(** ** The constructors of [TCPSpongeSocket] *)

(** What a call that makes two connected objects returned: the result, the two
    descriptors and the objects. *)
Record made_pair (K : Type) := mkPair { mp_ret : sysret; mp_fds : Z * Z; mp_ends : K * K }.
Arguments mkPair {K}.
Arguments mp_ret {K} m.
Arguments mp_fds {K} m.
Arguments mp_ends {K} m.

Section Construct.
Context {A K : Type} `{AdaptT A} `{SocketKernel K}.
Abbreviation socket := (TCPSpongeSocket A K).

Definition socket_pair_helper (made : made_pair K) : res (File K * File K) :=
  _ ← SystemCall (mp_ret made) 0;
  first ← FDWrapper_new (fst (mp_fds made));
  second ← FDWrapper_new (snd (mp_fds made));
  Ok (mkFile first (fst (mp_ends made)), mkFile second (snd (mp_ends made))).

(** The private constructor: both ends must be local stream sockets, and the TCP
    thread's end does not block. *)
Definition TCPSpongeSocket_of_pair (data_socket_pair : File K * File K) (datagram_interface : A) : res socket :=
  owner ← LocalStreamSocket_of_fd (fst data_socket_pair);
  thread_data ← LocalStreamSocket_of_fd (snd data_socket_pair);
  thread_data ← set_blocking false thread_data;
  Ok (mkSocket owner thread_data datagram_interface None false false false false).

Definition TCPSpongeSocket_new (made : made_pair K) (datagram_interface : A) : res socket :=
  pair ← socket_pair_helper made;
  TCPSpongeSocket_of_pair pair datagram_interface.

(** ** The owner's calls, with the loop they run *)

Context `{Poller socket} `{Clock socket} `{Poller (CopyState K)}.

(** [_tcp_loop]. *)
Definition tcp_loop (n : nat) (condition : socket -> res bool) (k : list (Rule socket) * socket)
  : res (bool * list (Rule socket) * socket) :=
  let '(rules, s) := k in
  let '(base_time, s) := now s in
  k ← tcp_rounds n condition base_time rules s;
  let '(more, _, rules, s) := k in
  Ok (more, rules, s).

(** [connect] or [listen_and_accept], up to the start of the TCP thread. *)
Definition open_connection (n : nat) (listen : bool) (random : Z) (c_tcp : TCPConfig) (c_ad : FdAdapterConfig)
    (s : socket) : res (bool * list (Rule socket) * socket) :=
  if listen then k ← listen_and_accept random c_tcp c_ad [] s; tcp_loop n accepting k
  else k ← socket_connect random c_tcp c_ad [] s; tcp_loop n connecting k.

(** The whole work on the connection: after it is open, the TCP thread runs
    [_tcp_main]; [true] when a loop has not ended. *)
Definition socket_lifetime (n m : nat) (listen : bool) (random : Z) (c_tcp : TCPConfig) (c_ad : FdAdapterConfig)
    (s : socket) : res (bool * socket) :=
  k ← open_connection n listen random c_tcp c_ad s;
  let '(more, rules, s) := k in
  if (more : bool) then Ok (true, s)
  else
    let '(base_time, s) := now s in
    tcp_main m base_time rules s.

(** [bidirectional_stream_copy] and [wait_until_closed] on the owner's end; [true]
    when they have not come to an end. *)
Definition converse (n : nat) (input output : File K) (s : socket) : res bool :=
  k ← bidirectional_stream_copy n (so_owner s) input output;
  let '(more, _, c) := k in
  if (more : bool) then Ok true
  else
    _ ← wait_until_closed (set_owner (cp_socket c) s);
    Ok false.

(** The end of three of the mains. *)
Definition connect_and_converse (n m : nat) (listen : bool) (random : Z) (c_tcp : TCPConfig) (c_ad : FdAdapterConfig)
    (input output : File K) (s : socket) : res (outcome bool) :=
  k ← open_connection n listen random c_tcp c_ad s;
  let '(more, _, s) := k in
  if (more : bool) then Ok (inl true)
  else
    more ← converse m input output s;
    Ok (inl more).
End Construct.

(** ** The mains *)

(** What a program is given: the objects that [socket] or [open] and [socketpair]
    make, its standard input and output, and the random draws. *)
Record surroundings (K : Type) := mkSurroundings {
  su_created : sysret * K;
  su_pair : made_pair K;
  su_input : File K;
  su_output : File K;
  su_random : Z;
  su_random_port : string;
  su_random_bytes : list byte
}.
Arguments su_created {K} s.
Arguments su_pair {K} s.
Arguments su_input {K} s.
Arguments su_output {K} s.
Arguments su_random {K} s.
Arguments su_random_port {K} s.
Arguments su_random_bytes {K} s.

(** The members of a new adapter. *)
Definition new_base `{Resolver} : res FdAdapterBase := c ← FdAdapterConfig_default; Ok (mkAdapterBase c false).

Section Mains.
Context {G K : Type} `{Generator G} `{SocketKernel K} `{TunKernel K} `{CommandLine} `{Resolver}.
Context `{Poller (CopyState K)} (n m : nat) (argv : list string) (w : surroundings K) (rand : G).

Definition udp_main
    `{Poller (TCPSpongeSocket (LossyFdAdapter G (TCPOverUDPSocketAdapter K)) K)}
    `{Clock (TCPSpongeSocket (LossyFdAdapter G (TCPOverUDPSocketAdapter K)) K)} : res (option Z) :=
  exit_status
    (if argc argv <? 3 then Ok (inr EXIT_FAILURE)
     else
       r ← udp_get_config argv;
       match r with
       | inr code => Ok (inr code)
       | inl (c_fsm, c_filt, listen) =>
           udp_sock ← Socket_new (su_created w);
           udp_sock ← (if (listen : bool) then socket_bind (cf_source c_filt) udp_sock else Ok udp_sock);
           b ← new_base;
           tcp_socket ← TCPSpongeSocket_new (su_pair w) (mkLossy rand (mkUDPAdapter b udp_sock));
           connect_and_converse n m listen (su_random w) c_fsm c_filt (su_input w) (su_output w) tcp_socket
       end).

Definition ipv4_main
    `{Poller (TCPSpongeSocket (LossyFdAdapter G (TCPOverIPv4OverTunFdAdapter K)) K)}
    `{Clock (TCPSpongeSocket (LossyFdAdapter G (TCPOverIPv4OverTunFdAdapter K)) K)} : res (option Z) :=
  exit_status
    (if argc argv <? 3 then Ok (inr EXIT_FAILURE)
     else
       r ← ipv4_get_config argv (su_random_port w);
       match r with
       | inr code => Ok (inr code)
       | inl (c_fsm, c_filt, listen, tun_dev_name) =>
           tun ← TunTapFD_new (String.list_byte_of_string (default "tun144"%string tun_dev_name)) true (su_created w);
           b ← new_base;
           tcp_socket ← TCPSpongeSocket_new (su_pair w) (mkLossy rand (mkTunAdapter b tun));
           connect_and_converse n m listen (su_random w) c_fsm c_filt (su_input w) (su_output w) tcp_socket
       end).

Definition ethernet_main
    `{Poller (TCPSpongeSocket (TCPOverIPv4OverEthernetAdapter K) K)}
    `{Clock (TCPSpongeSocket (TCPOverIPv4OverEthernetAdapter K) K)} : res (option Z) :=
  exit_status
    (if argc argv <? 3 then Ok (inr EXIT_FAILURE)
     else
       let local_ethernet_address := random_private_ethernet_address (su_random_bytes w) in
       r ← ethernet_get_config argv (su_random_port w);
       match r with
       | inr code => Ok (inr code)
       | inl (c_fsm, c_filt, next_hop, tap_dev_name) =>
           tap ← TunTapFD_new (String.list_byte_of_string tap_dev_name) false (su_created w);
           b ← new_base;
           adapter ← EthernetAdapter_new b tap local_ethernet_address (cf_source c_filt) next_hop;
           tcp_socket ← TCPSpongeSocket_new (su_pair w) adapter;
           connect_and_converse n m false (su_random w) c_fsm c_filt (su_input w) (su_output w) tcp_socket
       end).

(** [tcp_native] copies to a socket of the kernel. *)
Definition native_main : res (option Z) :=
  exit_status
    (r ← native_config argv;
     match r with
     | inr code => Ok (inr code)
     | inl (server_mode, address) =>
         socket ← native_socket server_mode address (su_created w);
         k ← bidirectional_stream_copy m socket (su_input w) (su_output w);
         let '(more, _, _) := k in
         Ok (inl more)
     end).
End Mains.

(** ** [webget] and [tcp_benchmark] *)

(** [main] of [webget.cc], after the socket of [get_URL]: [None] when the peer has not
    ended its stream. *)
Definition webget_main {K} `{Kernel K} (fuel : nat) (argv : list string) (socket : res (File K)) : res (option Z) :=
  if argc argv <=? 0 then Ok (Some ABORTED)
  else if negb (argc argv =? 3) then Ok (Some EXIT_FAILURE)
  else
    host ← arg argv 1;
    path ← arg argv 2;
    match get_URL fuel host path socket with
    | Some _ => Ok (Some EXIT_SUCCESS)
    | None => Ok None
    end.

(** [main] of [tcp_benchmark.cc]: each call of [main_loop] with its random string. *)
Definition benchmark_main (n m : nat) (randoms1 randoms2 : Z * Z) (string1 string2 : list byte) : res (option Z) :=
  exit_status
    (first ← bench_main_loop n m false (fst randoms1) (snd randoms1) TCPConfig_default string1;
     if negb (bool_decide (is_Some first)) then Ok (inl true)
     else
       second ← bench_main_loop n m true (fst randoms2) (snd randoms2) TCPConfig_default string2;
       Ok (inl (negb (bool_decide (is_Some second))))).

(** ** [lab7.cc] *)

(** The Ethernet addresses, from six random bytes. *)
Definition random_host_ethernet_address (random : list byte) : EthernetAddress :=
  match random with
  | b0 :: rest => byte_of (Z.land (Z.lor (byte_val b0) 0x02) 0xfe) :: rest
  | [] => []
  end.
Definition random_router_ethernet_address (random : list byte) : EthernetAddress :=
  match random with
  | _ :: _ :: _ :: rest => x02 :: x00 :: x00 :: rest
  | _ => random
  end.

Section Lab7.
Context {K : Type} `{SocketKernel K} `{CommandLine} `{Resolver}.
Abbreviation lab7_socket := (TCPSpongeSocket (NetworkInterfaceAdapter K) K).
Context `{Poller lab7_socket} `{Clock lab7_socket} `{Poller (CopyState K)}.

(** The host's address and that of its router. *)
Definition lab7_addresses (is_client : bool) : res (Address * Address) :=
  if is_client then
    ip_address ← Address_of_ip_port (quad 192 168 0 50) 0;
    next_hop ← Address_of_ip_port (quad 192 168 0 1) 0;
    Ok (ip_address, next_hop)
  else
    ip_address ← Address_of_ip_port (quad 172 16 0 100) 0;
    next_hop ← Address_of_ip_port (quad 172 16 0 1) 0;
    Ok (ip_address, next_hop).

(** [TCPSocketLab7(ip_address, next_hop)]: the adapter's own pair of sockets, whose
    second end is the network thread's, and the socket's pair. *)
Definition TCPSocketLab7_new (frames made : made_pair K) (eth : EthernetAddress) (ip_address next_hop : Address)
  : res (TCPSocketLab7 (K := K) * File K) :=
  pair ← socket_pair_helper frames;
  b ← new_base;
  s ← TCPSpongeSocket_new made (NetworkInterfaceAdapter_new b (fst pair) eth ip_address next_hop);
  Ok (mkSocketLab7 s ip_address, snd pair).

(** [program_body] up to the start of the network thread: its state, and the
    socket.  [random1] to [random3] are the bytes of the three Ethernet addresses. *)
Definition lab7_prepare (is_client : bool) (bounce_host bounce_port : string) (created : sysret * K)
    (frames made : made_pair K) (random1 random2 random3 : list byte)
  : res (NetworkThread K * TCPSocketLab7 (K := K)) :=
  internet_socket ← Socket_new created;
  bounce_address ← resolve bounce_host bounce_port;
  internet_socket ← lab7_announce bounce_address internet_socket;
  k ← lab7_router is_client (random_router_ethernet_address random1) (random_router_ethernet_address random2);
  let '(host_side, internet_side, router) := k in
  a ← lab7_addresses is_client;
  k ← TCPSocketLab7_new frames made (random_host_ethernet_address random3) (fst a) (snd a);
  Ok (mkThread (snd k) internet_socket router host_side internet_side bounce_address false, fst k).

(** Its [try] block: the client connects to the server's address, the server waits
    there; then both copy. *)
Definition lab7_converse (n m : nat) (is_client : bool) (random_port random : Z) (input output : File K)
    (sock : TCPSocketLab7 (K := K)) : res bool :=
  address ← Address_of_ip_port (quad 172 16 0 100) 1234;
  k ← (if is_client then
         k ← lab7_connect random_port random address [] sock;
         tcp_loop n connecting (fst k, sl_socket (snd k))
       else
         sock ← lab7_bind address sock;
         k ← lab7_listen_and_accept random [] sock;
         tcp_loop n accepting (fst k, sl_socket (snd k)));
  let '(more, _, s) := k in
  if (more : bool) then Ok true else converse m input output s.

(** After it, whatever happened in it, the network thread is told to end: [None]
    while the block runs. *)
Definition lab7_finish (block : res bool) (t : NetworkThread K) : res (option (NetworkThread K)) :=
  let stop := mkThread (th_frame_fd t) (th_internet t) (th_router t) (th_host_side t) (th_internet_side t)
                (th_bounce t) true in
  match block with
  | Ok true => Ok None
  | Ok false | Throw _ => Ok (Some stop)
  | Undefined => Undefined
  end.

(** [main] of lab7, which at the end waits for the network thread. *)
Definition lab7_main (n m : nat) (argv : list string) (w : surroundings K) (frames : made_pair K)
    (random1 random2 : list byte) (random_port : Z) : res (option Z) :=
  exit_status
    (if argc argv <=? 0 then Ok (inr ABORTED)
     else
       r ← lab7_arguments argv;
       match r with
       | inr code => Ok (inr code)
       | inl (is_client, bounce_host, bounce_port, _) =>
           k ← lab7_prepare is_client bounce_host bounce_port (su_created w) frames (su_pair w) random1 random2
                 (su_random_bytes w);
           let '(thread, sock) := k in
           stopped ← lab7_finish (lab7_converse n m is_client random_port (su_random w) (su_input w) (su_output w) sock) thread;
           Ok (inl (match stopped with Some _ => false | None => true end))
       end).
End Lab7.

(** ** A new socket is fresh

    The socket that the constructor makes satisfies what [socket_refines] asks of
    one, when nothing has gone through the new pair. *)
Lemma constructed_fresh {A K} `{AdaptT A} `{SocketKernel K} (taken written : K -> list byte)
    `{!KernelSpec K taken written} (kok : K -> Prop) made (a : A) s :
  (forall k, kok k -> kok (snd (sys_getfl k))) -> (forall fl k, kok k -> kok (snd (sys_setfl fl k))) ->
  TCPSpongeSocket_new made a = Ok s ->
  taken (snd (mp_ends made)) = [] -> written (snd (mp_ends made)) = [] -> kok (snd (mp_ends made)) ->
  fresh_socket taken written kok s /\ so_tcp s = None /\ so_adapter s = a.
Proof.
  intros Hg Hs E Ht Hw Hk. unfold TCPSpongeSocket_new, socket_pair_helper in E.
  apply res_bind_ok in E as (p & E & E'). apply res_bind_ok in E as (? & _ & E).
  apply res_bind_ok in E as (f1 & _ & E). apply res_bind_ok in E as (f2 & _ & E). injection E as <-.
  unfold TCPSpongeSocket_of_pair in E'. apply res_bind_ok in E' as (o & _ & E'). apply res_bind_ok in E' as (td & Etd & E').
  apply res_bind_ok in E' as (td' & Eb & E'). injection E' as <-. cbn [fst snd] in Etd.
  assert (Etd' : td = mkFile f2 (snd (mp_ends made))).
  { unfold LocalStreamSocket_of_fd, Socket_of_fd in Etd. destruct (sys_getsockopt _ _ _) as [[r v] l].
    apply res_bind_ok in Etd as (? & _ & Etd). destruct (_ || _); [done|]. destruct (sys_getsockopt _ _ _) as [[r' v'] l'].
    apply res_bind_ok in Etd as (? & _ & Etd). destruct (_ || _); [done|]. by injection Etd as <-. }
  subst td. unfold set_blocking in Eb. cbn [f_kernel f_fd] in Eb.
  destruct (sys_getfl _) as [r k1] eqn:E1. apply res_bind_ok in Eb as (fl & _ & Eb).
  destruct (sys_setfl _ k1) as [r2 k2] eqn:E2. apply res_bind_ok in Eb as (? & _ & Eb). injection Eb as <-.
  destruct (getfl_quiet _ _ _ E1) as (T1 & W1 & _), (setfl_quiet _ _ _ _ E2) as (T2 & W2 & _).
  split; [|done]. unfold fresh_socket. cbn. rewrite T2, T1, W2, W1. split_and!; [done..|].
  specialize (Hg _ Hk). rewrite E1 in Hg. match goal with H : sys_setfl ?fl k1 = _ |- _ => specialize (Hs fl k1 Hg); by rewrite H in Hs end.
Qed.
