(* ===== verification/Lifetime.v ===== *)
(** * The life of a socket

    From the constructor of [TCPSpongeSocket] through [connect] or
    [listen_and_accept] to the end of the TCP thread
    (src/libsponge/tcp_helpers/tcp_sponge_socket.cc): the loops one after the other
    are one run of the connection.  Joins the lemmas of [SpongeSocket.v] on one loop
    with the constructors of [Programs.v]. *)

From stdpp Require Import relations.
From S2P Require Import Prelude WrappingIntegers ByteStream Buffers TCPReceiver TCPSender TCPSegment TCPState TCPConnection.
From S2P Require Import Completion Address FileDescriptor EventLoop Sockets StreamCopy Adapters SpongeSocket Programs.

(** ** Opening *)

(** [connect] on a new connection sends the SYN: the check that follows it passes. *)
Lemma connect_syn_sent random cfg :
  cfg_ok cfg -> state (connect (TCPConnection_new random cfg)) = TCPState_of SYN_SENT.
Proof.
  intros Hcfg. unfold connect. change (active (TCPConnection_new random cfg)) with true. cbn [negb].
  rewrite send_segments_eq.
  set (st := ByteStream_new (cfg_send_capacity cfg)).
  pose proof (fill_first random (cfg_send_capacity cfg) (cfg_rt_timeout cfg) (cfg_fixed_isn cfg) st eq_refl (ok_isn _ Hcfg)) as E.
  cbv zeta in E. change (cn_sender (TCPConnection_new random cfg)) with
    (with_stream_in st (TCPSender_new random (cfg_send_capacity cfg) (cfg_rt_timeout cfg) (cfg_fixed_isn cfg))).
  rewrite E. reflexivity.
Qed.

Lemma socket_connect_ok {A K} `{AdaptT A} `{Kernel K} random cfg c_ad (s : TCPSpongeSocket A K) :
  cfg_ok cfg -> so_tcp s = None -> is_ok (socket_connect random cfg c_ad [] s) = true.
Proof.
  intros Hcfg Hn. unfold socket_connect. rewrite Hn. cbn [initialize_TCP].
  unfold tcp_ref, in_state, tcp_ref. cbn -[connect TCPState_of]. rewrite connect_syn_sent by done. done.
Qed.

Section Life.
Context {A K : Type} `{AdapterSpec A} `{Kk : Kernel K} `{!SocketKernel K} (taken written : K -> list byte)
  `{!KernelSpec K taken written} (kok : K -> Prop) `{!KernelBounded K taken kok}.
Context (aok : A -> Prop) (Pseg : TCPSegment -> Prop) (afails : option exn -> Prop) `{!AdapterFeeds A aok Pseg afails}.
Context `{Poller (TCPSpongeSocket A K)} `{Clock (TCPSpongeSocket A K)} `{!Environment taken written kok aok}.
Context (random : Z) (cfg : TCPConfig) (Hcfg : cfg_ok cfg).
Abbreviation socket := (TCPSpongeSocket A K).
Abbreviation Inv := (SockInv taken written kok aok Pseg random cfg).
Abbreviation fails := (sock_fails afails).
Implicit Type s : socket.

(** A loop on an open connection, from a look at the clock. *)
Lemma tcp_loop_spec n condition rules s :
  condition = connecting \/ condition = accepting -> rules_left rules -> Inv s ->
  wp fails (tcp_loop n condition (rules, s)) (fun '(_, rules', s') => Inv s' /\ rules_left rules').
Proof.
  intros Hc Hl HI. unfold tcp_loop. destruct (now s) as [t s1] eqn:En.
  assert (HI1 : Inv s1) by (eapply quiet_inv; [by eapply env_clock|done]).
  apply wp_bind. eapply wp_mono; [apply (tcp_rounds_spec taken written kok aok Pseg afails random cfg Hcfg); [|exact Hl|exact HI1]|].
  - intros s' Hs'. apply conditions_ok in Hs' as (? & ? & ?). by destruct Hc as [->| ->].
  - by intros [[[more b] rules'] s'].
Qed.

(** The constructor's socket with a configuration that suits its adapter, opened. *)
Definition configured (listen : bool) (c_ad : FdAdapterConfig) (a : A) : A :=
  let a := adapter_set_base (set_config c_ad (adapter_base a)) a in
  if listen then adapter_set_base (set_listening true (adapter_base a)) a else a.

Lemma open_connection_spec n listen c_ad s :
  fresh_socket taken written kok s -> so_tcp s = None -> aok (configured listen c_ad (so_adapter s)) ->
  wp fails (open_connection n listen random cfg c_ad s) (fun '(_, rules, s') => Inv s' /\ rules_left rules).
Proof.
  intros Hf Hn Ha. unfold open_connection. destruct listen.
  - pose proof (started taken written kok aok Pseg random cfg c_ad s) as Hst.
    destruct (listen_and_accept random cfg c_ad [] s) as [[rules s1]|e|] eqn:E;
      unfold listen_and_accept in E; rewrite Hn in E; [|done..].
    destruct (Hst rules s1 Hf (or_intror eq_refl)) as [HI Hl]; [by injection E as _ <-|].
    by apply tcp_loop_spec; [right|..].
  - pose proof (started taken written kok aok Pseg random cfg c_ad s) as Hst.
    pose proof (socket_connect_ok random cfg c_ad s Hcfg Hn) as Hok.
    destruct (socket_connect random cfg c_ad [] s) as [[rules s1]|e|] eqn:E; [|done..].
    destruct (Hst rules s1 Hf (or_introl eq_refl)) as [HI Hl].
    { unfold socket_connect in E. rewrite Hn in E. cbn -[connect TCPState_of] in E. unfold tcp_ref in E. cbn -[connect TCPState_of] in E.
      destruct (negb _); [done|]. by injection E as _ <-. }
    by apply tcp_loop_spec; [left|..].
Qed.

(** The thread: its loop, and then the end of both directions. *)
Definition settled (more : bool) s : Prop :=
  exists c, so_tcp s = (if more then Some c else None) /\
    reaches taken written kok Pseg random cfg c (f_kernel (so_thread_data s)) (so_outbound_shutdown s).

Lemma tcp_main_spec m base rules s :
  rules_left rules -> Inv s -> wp fails (tcp_main m base rules s) (fun '(more, s') => settled more s').
Proof.
  intros Hl HI. unfold tcp_main. destruct HI as (Ha & c0 & Ec0 & Hr0). rewrite Ec0. apply wp_bind.
  eapply wp_mono; [apply (tcp_rounds_spec taken written kok aok Pseg afails random cfg Hcfg); [by intros|exact Hl|]|].
  { split; [done|by exists c0]. }
  intros [[[more b] rules'] s'] [(_ & c & Ec & Hr) _]. destruct more; [by exists c|].
  apply wp_bind. unfold tcp_main_end. apply wp_bind. eapply wp_kernel; [apply (shutdown_spec taken written); auto|].
  intros o _ _. unfold tcp_value. cbn [so_tcp set_owner]. rewrite Ec. cbn [mbind res_bind].
  assert (Hd : is_ok (TCPConnection_destroy c) = true).
  { unfold TCPConnection_destroy. destruct (active c); [apply send_rst_is_ok|done]. }
  destruct (TCPConnection_destroy c) as [c'|e|]; [|done..]. by exists c.
Qed.

Lemma lifetime_spec n m listen c_ad s :
  fresh_socket taken written kok s -> so_tcp s = None -> aok (configured listen c_ad (so_adapter s)) ->
  wp fails (socket_lifetime n m listen random cfg c_ad s) (fun '(more, s') => settled more s').
Proof.
  intros Hf Hn Ha. unfold socket_lifetime. apply wp_bind. eapply wp_mono; [by apply open_connection_spec|].
  intros [[more rules] s1] [HI Hl]. destruct more; [destruct HI as (_ & c & Ec & Hr); by exists c|].
  destruct (now s1) as [t s2] eqn:En. apply tcp_main_spec; [done|].
  eapply quiet_inv; [by eapply env_clock|done].
Qed.
End Life.

(** C12.  The life of a socket refines one run of its connection: for a socket as its
    constructor makes it, [connect] or [listen_and_accept] with any number of
    rounds, followed by the TCP thread with any number of rounds of its loop, is a
    run of the connection in which the application has written exactly the bytes
    the owner passed in and read exactly the bytes handed to the owner, in order,
    and the segments received are those the adapter delivers; once the thread has
    ended the connection is destroyed.  A failure is that of a system call, an error
    that [poll] reports, or one of the failures [afails] of the adapter: [connect] always finds the state SYN_SENT, no busy wait is
    detected, the connection takes the bytes it announced room for, no optional
    is dereferenced empty, and the destructor succeeds. *)
Theorem socket_lifetime_refines {A K} `{AdapterSpec A} `{Kk : Kernel K} `{!SocketKernel K} (taken written : K -> list byte)
    `{!KernelSpec K taken written} (kok : K -> Prop) `{!KernelBounded K taken kok}
    (aok : A -> Prop) (Pseg : TCPSegment -> Prop) (afails : option exn -> Prop) `{!AdapterFeeds A aok Pseg afails}
    `{Poller (TCPSpongeSocket A K)} `{Clock (TCPSpongeSocket A K)}
    `{!Environment taken written kok aok} made (a : A) s n m listen random cfg c_ad :
  cfg_ok cfg ->
  (forall k, kok k -> kok (snd (sys_getfl k))) -> (forall fl k, kok k -> kok (snd (sys_setfl fl k))) ->
  taken (snd (mp_ends made)) = [] -> written (snd (mp_ends made)) = [] -> kok (snd (mp_ends made)) ->
  TCPSpongeSocket_new made a = Ok s -> aok (configured listen c_ad a) ->
  wp (sock_fails afails) (socket_lifetime n m listen random cfg c_ad s) (fun '(more, s') =>
    exists c, so_tcp s' = (if more : bool then Some c else None) /\
      rtc (conn_step (from_adapter Pseg)) (endpoint_new random cfg)
        (mkEndpoint c (taken (f_kernel (so_thread_data s'))) (written (f_kernel (so_thread_data s'))))).
Proof.
  intros Hcfg Hg Hs Ht Hw Hk Enew Ha.
  destruct (constructed_fresh taken written kok made a s Hg Hs Enew Ht Hw Hk) as (Hf & Hn & Ead).
  eapply wp_mono; [apply (lifetime_spec taken written kok aok Pseg afails random cfg Hcfg); [done|done|by rewrite Ead]|].
  intros [more s'] (c & Ec & [Hr _ _]). by exists c.
Qed.

(** The server on a TUN device, made by the constructor. *)
#[local] Existing Instances numeric_Resolver numeric_ResolverSpec ready_Poller ten_Clock server_environment any_feeds.
#[local] Instance Pipe_SocketKernel : SocketKernel Pipe := {
  sys_getsockopt level name k := (ok_ret 0, if name =? SO_DOMAIN then AF_UNIX else SOCK_STREAM, sizeof_int);
  sys_setsockopt level name value k := (ok_ret 0, k);
  sys_bind a k := (ok_ret 0, k);
  sys_connect a k := (ok_ret 0, k);
  sys_getsockname k := (ok_ret 0, sockaddr_in 0 0, 16);
  sys_getpeername k := (ok_ret 0, sockaddr_in 0 0, 16);
  sys_send bufs k := (mkSys (-1) EINVAL, k);
  sys_listen backlog k := (mkSys (-1) EINVAL, k);
  sys_accept k := (mkSys (-1) EINVAL, k, k)
}.

(** One byte has been written to the owner's end. *)
Definition server_pair : made_pair Pipe :=
  mkPair (ok_ret 0) (3, 4) (mkPipe [] [] 1000 [], mkPipe [([], [x61])] [] 1000 []).
Definition server_adapter : tun_adapter :=
  mkTunAdapter example_server (new_file (mkPipe [([], wire_bytes)] [] 1000 [])).
Definition server_new : tun_socket :=
  match TCPSpongeSocket_new server_pair server_adapter with Ok s => s | _ => server_socket end.

Lemma server_made : TCPSpongeSocket_new server_pair server_adapter = Ok server_new.
Proof. reflexivity. Qed.

Lemma socket_lifetime_refines_witness :
  wp (sock_fails server_fails) (socket_lifetime 3 3 true 0 example_cfg (fa_cfg example_server) server_new)
    (fun '(more, s') =>
      exists c, so_tcp s' = (if more : bool then Some c else None) /\
        rtc (conn_step (from_adapter (fun _ => True))) (endpoint_new 0 example_cfg)
          (mkEndpoint c (pipe_taken (f_kernel (so_thread_data s'))) (pipe_written (f_kernel (so_thread_data s'))))).
Proof.
  apply (socket_lifetime_refines pipe_taken pipe_written pipe_ok (fun _ => True) (fun _ => True) server_fails
           server_pair server_adapter server_new 3 3 true 0 example_cfg (fa_cfg example_server)).
  - exact example_cfg_ok.
  - intros k Hk. exact Hk.
  - intros fl k Hk. exact Hk.
  - reflexivity.
  - reflexivity.
  - apply Z.ltb_lt. vm_compute. reflexivity.
  - exact server_made.
  - exact I.
Defined.

(** The same life, run to its end: the client's data reaches the owner, the owner's
    byte the connection, and then all input has ended. *)
Example server_lives :
  match socket_lifetime 3 3 true 0 example_cfg (fa_cfg example_server) server_new with
  | Ok (more, s') => negb more && bool_decide (pipe_written (f_kernel (so_thread_data s')) = [x68; x69]) &&
                     bool_decide (pipe_taken (f_kernel (so_thread_data s')) = [x61])
  | _ => false
  end = true.
Proof. vm_compute. reflexivity. Qed.
