(* ===== verification/TcpDump.v ===== *)
(** * The packet dump

    Models [src/apps/udp_tcpdump.cc]: it finds the UDP payload of a captured
    packet behind a link header and an IPv4 header or a chain of IPv6 headers, and
    prints it as a TCP segment.  The capture library is outside the program: a
    capture is the list of what [pcap_next_ex] returns, [inet_ntop] a parameter.
    Reading past the captured bytes has no defined behaviour.  The messages for
    standard error and the usage text are left out. *)

From Stdlib Require Import Strings.String.
From stdpp Require Import strings.
From S2P Require Import Prelude WrappingIntegers Buffers Parser Checksum TCPSegment Text Options.

Open Scope Z_scope.

(** [inet_ntop] for the two families, on 4 and 16 bytes. *)
Class InetNtop := {
  inet_ntop4 : list byte -> option (list byte);
  inet_ntop6 : list byte -> option (list byte)
}.

(** ** Arguments *)

Definition is_help (a : string) : bool := bool_decide (String.substring 0 7 a = "--help"%string).

(** [parse_arguments]: the device and the index of the filter expression, or the
    end of the program.  Every round reads an argument. *)
Fixpoint parse_arguments (fuel : nat) (argv : list string) (curr : Z) (dev : option string)
  : res (outcome (option string * Z)) :=
  if curr <? argc argv then
    match fuel with
    | O => Undefined
    | S fuel' =>
        a ← arg argv curr;
        if is_option "-i" a then
          if argc argv <=? curr + 1 then Ok (inr 1)
          else d ← arg argv (curr + 1); parse_arguments fuel' argv (curr + 2) (Some d)
        else if is_option "-h" a || is_help a then Ok (inr 0)
        else Ok (inl (dev, curr))
    end
  else Ok (inl (dev, curr)).

(** The filter expression: the arguments from [exp_start] on. *)
Definition filter_expression (argv : list string) (exp_start : Z) : string :=
  fold_right (fun a s => a +:+ " " +:+ s) ""%string (drop (Z.to_nat exp_start) argv).

(** ** Reading memory *)

(** [data[i]] and the [n] bytes from [data + i] on. *)
Definition byte_at (data : list byte) (i : Z) : res Z :=
  match data !! Z.to_nat i with Some b => Ok (byte_val b) | None => Undefined end.
Definition bytes_at (data : list byte) (i n : Z) : res (list byte) :=
  if i + n <=? zlen data then Ok (take (Z.to_nat n) (drop (Z.to_nat i) data)) else Undefined.

Section Dump.
Context `{InetNtop}.

Definition inet4_addr (data : list byte) (i : Z) : res (list byte) :=
  a ← bytes_at data i 4; Ok (default (txt "unknown") (inet_ntop4 a)).
Definition inet6_addr (data : list byte) (i : Z) : res (list byte) :=
  a ← bytes_at data i 16; Ok (default (txt "unknown") (inet_ntop6 a)).

(** The loop over the extension headers: the offset of the UDP header, or -1. *)
Fixpoint ipv6_loop (fuel : nat) (len : Z) (data : list byte) (nxt data_offset : Z) : res Z :=
  if negb (nxt =? 0x11) then
    if negb (nxt =? 0) && negb (nxt =? 43) && negb (nxt =? 60) then Ok (-1)
    else
      match fuel with
      | O => Undefined
      | S fuel' =>
          nxt ← byte_at data data_offset;
          l ← byte_at data (data_offset + 1);
          let data_offset := data_offset + 8 * (1 + l) in
          if len <? data_offset + 2 then Ok (-1) else ipv6_loop fuel' len data nxt data_offset
      end
  else Ok data_offset.

(** The offset of the UDP payload, or -1, and the two addresses. *)
Definition process_ipv4_ipv6 (len : Z) (data src_addr dst_addr : list byte)
  : res (Z * list byte * list byte) :=
  if len <? 1 then Ok (-1, src_addr, dst_addr)
  else
    first ← byte_at data 0;
    let pt := Z.land first 0xf0 in
    if pt =? 0x40 then
      let data_offset := Z.land first 0x0f * 4 in
      if len <? data_offset then Ok (-1, src_addr, dst_addr)
      else
        proto ← byte_at data 9;
        if negb (proto =? 0x11) then Ok (-1, src_addr, dst_addr)
        else
          src_addr ← inet4_addr data 12;
          dst_addr ← inet4_addr data 16;
          Ok (data_offset + 8, src_addr, dst_addr)
    else if pt =? 0x60 then
      if len <? 42 then Ok (-1, src_addr, dst_addr)
      else
        nxt ← byte_at data 6;
        data_offset ← ipv6_loop (length data) len data nxt 40;
        if data_offset =? -1 then Ok (-1, src_addr, dst_addr)
        else
          src_addr ← inet6_addr data 8;
          dst_addr ← inet6_addr data 24;
          Ok (data_offset + 8, src_addr, dst_addr)
    else Ok (-1, src_addr, dst_addr).

(** ** Link types *)

Definition DLT_NULL : Z := 0.
Definition DLT_EN10MB : Z := 1.
Definition DLT_RAW : Z := 12.
Definition DLT_LINUX_SLL : Z := 113.
Definition DLT_LINUX_SLL2 : Z := 276.

(** Where the IP header starts; or the packet is skipped; or the program ends. *)
Inductive link := IPAt (hdr_off : Z) | SkipPacket | GiveUp.

(** A header of [hdr_off] bytes with the protocol in bytes [i] and [i + 1]. *)
Definition ether_link (hdr_off i : Z) (pkt_data : list byte) : res link :=
  if zlen pkt_data <? hdr_off then Ok SkipPacket
  else
    hi ← byte_at pkt_data i;
    lo ← byte_at pkt_data (i + 1);
    let pt := u16 (Z.lor (Z.shiftl hi 8) lo) in
    Ok (if negb (pt =? 0x0800) && negb (pt =? 0x86dd) then SkipPacket else IPAt hdr_off).

Definition link_offset (dl_type : Z) (pkt_data : list byte) : res link :=
  if dl_type =? DLT_NULL then
    if zlen pkt_data <? 4 then Ok SkipPacket
    else
      pt ← byte_at pkt_data 3;
      Ok (if negb (pt =? 2) && negb (pt =? 24) && negb (pt =? 28) && negb (pt =? 30) then SkipPacket else IPAt 4)
  else if dl_type =? DLT_EN10MB then ether_link 14 12 pkt_data
  else if dl_type =? DLT_LINUX_SLL then ether_link 16 14 pkt_data
  else if dl_type =? DLT_LINUX_SLL2 then ether_link 20 0 pkt_data
  else if negb (dl_type =? DLT_RAW) then Ok GiveUp
  else Ok (IPAt 0).

(** ** The text for a packet *)

Definition show_payload (src dst payload : list byte) (cout : ostream) : res ostream :=
  r ← TCPSegment_parse TCPSegment_default (Buffer_of payload) 0;
  let '(result, seg) := r in
  let cout :=
    if (ParseResult_index BadChecksum <? ParseResult_index result)%nat then
      cout << [Str "(did not recognize TCP header) src: "; Bytes src; Str " dst: "; Bytes dst; Endl]
    else
      let tcp_hdr := header seg in
      let seqlen := u32 (length_in_sequence_space seg) in
      let cout := cout <<
        [Bytes src; Str ":"; Num (sport tcp_hdr); Str " > "; Bytes dst; Str ":"; Num (dport tcp_hdr); Endl;
         Str "    Flags [";
         Str (if urg tcp_hdr then "U" else ""); Str (if psh tcp_hdr then "P" else "");
         Str (if rst tcp_hdr then "R" else ""); Str (if syn tcp_hdr then "S" else "");
         Str (if fin tcp_hdr then "F" else ""); Str (if ack tcp_hdr then "." else "");
         Str "] cksum 0x"; Hex; Setw 4; Num (cksum tcp_hdr); Dec;
         Str (if bool_decide (result = NoError) then " (correct)" else " (incorrect!)");
         Str " seq "; Num (raw_value (seqno tcp_hdr))] in
      let cout := if 0 <? seqlen then cout << [Str ":"; Num (raw_value (wadd (seqno tcp_hdr) seqlen))] else cout in
      cout << [Str " ack "; Num (raw_value (ackno tcp_hdr)); Str " win "; Num (win tcp_hdr);
               Str " length "; Num (zlen payload); Endl] in
  hexdump payload 8 cout.

(** What the loop does with a packet; [None] ends the program. *)
Definition dump_packet (dl_type : Z) (pkt_data : list byte) (cout : ostream) : res (option ostream) :=
  l ← link_offset dl_type pkt_data;
  match l with
  | GiveUp => Ok None
  | SkipPacket => Ok (Some cout)
  | IPAt hdr_off =>
      let caplen := zlen pkt_data in
      r ← process_ipv4_ipv6 (caplen - hdr_off) (drop (Z.to_nat hdr_off) pkt_data) [] [];
      let '(start_off, src, dst) := r in
      if start_off <? 0 then Ok (Some cout)
      else
        let payload_off := u64 (hdr_off + start_off) in
        let payload_len := u64 (caplen - payload_off) in
        payload ← bytes_at pkt_data payload_off payload_len;
        cout ← show_payload src dst payload cout;
        Ok (Some cout)
  end.

(** What [pcap_next_ex] returns: 1 with a packet, 0, -1, -2. *)
Inductive pcap_result := Captured (pkt_data : list byte) | TimedOut | ReadError | EndOfFile.

(** The loop of [main] with the program's exit status; [None] while it runs.
    After the loop [pcap_close] frees the handle, and [pcap_geterr] reads it. *)
Fixpoint dump_loop (dl_type : Z) (capture : list pcap_result) (cout : ostream) : res (option Z * ostream) :=
  match capture with
  | [] => Ok (None, cout)
  | TimedOut :: rest => dump_loop dl_type rest cout
  | Captured pkt :: rest =>
      r ← dump_packet dl_type pkt cout;
      match r with
      | None => Ok (Some 1, cout)
      | Some cout => dump_loop dl_type rest cout
      end
  | ReadError :: _ => Undefined
  | EndOfFile :: _ => Ok (Some 0, cout)
  end.

(** ** [main] *)

Definition supported_link (dlt : Z) : bool :=
  negb (negb (dlt =? DLT_RAW) && negb (dlt =? DLT_NULL) && negb (dlt =? DLT_EN10MB) &&
        negb (dlt =? DLT_LINUX_SLL) && negb (dlt =? DLT_LINUX_SLL2)).

(** The other calls of the capture library: opening a device gives the link type
    or an error text, a filter is compiled and set, with an error text. *)
Class Pcap := {
  pcap_open_live : option string -> list byte + Z;
  pcap_description : Z -> list byte;
  pcap_compile : string -> option (list byte);
  pcap_setfilter : string -> option (list byte)
}.

Definition tcpdump_main `{Pcap} (argv : list string) (capture : list pcap_result) (cout : ostream)
  : res (option Z * ostream) :=
  r ← parse_arguments (length argv) argv 1 None;
  match r with
  | inr code => Ok (Some code, cout)
  | inl (dev, exp_start) =>
      let cout := cout << match dev with
                          | Some d => [Str "Capturing on interface "; Str d]
                          | None => [Str "Capturing on all interfaces"]
                          end in
      match pcap_open_live dev with
      | inl errbuf => Ok (Some 1, cout << [Bytes [nl]; Str "Error initiating capture: "; Bytes errbuf; Endl])
      | inr dlt =>
          if negb (supported_link dlt) then
            Ok (Some 1, cout << [Bytes [nl]; Str "Error: unsupported datalink type "; Bytes (pcap_description dlt); Endl])
          else
            let cout := cout << [Str " (type: "; Bytes (pcap_description dlt); Str ")"; Bytes [nl]] in
            let filter := filter_expression argv exp_start in
            let cout := cout << [Str "Using filter expression: "; Str filter; Bytes [nl]] in
            match pcap_compile filter with
            | Some err => Ok (Some 1, cout << [Str "Error compiling filter expression: "; Bytes err; Endl])
            | None =>
                match pcap_setfilter filter with
                | Some err => Ok (Some 1, cout << [Str "Error configuring packet filter: "; Bytes err; Endl])
                | None => dump_loop dlt capture (cout << [Setfill x30])
                end
            end
      end
  end.
End Dump.

(** The loop runs with a link type it knows. *)
Lemma supported_link_known dlt pkt : supported_link dlt = true -> link_offset dlt pkt <> Ok GiveUp.
Proof.
  assert (He : forall n i, ether_link n i pkt <> Ok GiveUp).
  { intros n i. unfold ether_link. destruct (_ <? n); [done|]. destruct (byte_at pkt i); [|done..].
    destruct (byte_at pkt (i + 1)); [|done..]. cbn. by destruct (_ && _). }
  unfold supported_link, link_offset. rewrite negb_true_iff. intros Hs.
  destruct (dlt =? DLT_NULL); [destruct (_ <? 4); [done|]; destruct (byte_at pkt 3); [|done..]; cbn [mbind res_bind]; clear Hs; by destruct (_ && _)|].
  destruct (dlt =? DLT_EN10MB); [apply He|]. destruct (dlt =? DLT_LINUX_SLL); [apply He|].
  destruct (dlt =? DLT_LINUX_SLL2); [apply He|]. by destruct (dlt =? DLT_RAW).
Qed.

(** ** Reads at a known place *)

Lemma byte_at_ok data i : 0 <= i < zlen data -> exists b, data !! Z.to_nat i = Some b /\ byte_at data i = Ok (byte_val b).
Proof.
  intros Hi. destruct (lookup_lt_is_Some_2 data (Z.to_nat i)) as [b Hb]; [lia|].
  exists b. unfold byte_at. by rewrite Hb.
Qed.

Lemma bytes_at_pos pre l tl data i n :
  data = pre ++ l ++ tl -> zlen pre = i -> zlen l = n -> bytes_at data i n = Ok l.
Proof.
  intros -> <- <-. unfold bytes_at. rewrite (proj2 (Z.leb_le _ _)) by (rewrite !length_app; lia).
  by rewrite !Nat2Z.id, drop_app_length, take_app_length.
Qed.
Lemma byte_at_pos pre b tl data i : data = pre ++ b :: tl -> zlen pre = i -> byte_at data i = Ok (byte_val b).
Proof. intros -> <-. unfold byte_at. by rewrite Nat2Z.id, list_lookup_middle. Qed.

(** Concatenations equal up to their parentheses, and their lengths. *)
Ltac app_norm := cbn [app]; rewrite <- ?(assoc_L (++)); cbn [app]; rewrite <- ?(assoc_L (++)); reflexivity.
Ltac app_len := repeat (rewrite ?length_app; cbn [length app]); lia.

(** ** Link headers *)

(** The header of a frame that carries an IP packet: none; the family; an Ethernet
    header or a cooked-capture header with one of the two protocol numbers. *)
Definition ip_type (t : list byte) : Prop := t = [x08; x00] \/ t = [x86; xdd].

Inductive ip_link : Z -> list byte -> Prop :=
| link_raw : ip_link DLT_RAW []
| link_null a b c p : p ∈ [x02; x18; x1c; x1e] -> ip_link DLT_NULL [a; b; c; p]
| link_ethernet h t : length h = 12%nat -> ip_type t -> ip_link DLT_EN10MB (h ++ t)
| link_sll h t : length h = 14%nat -> ip_type t -> ip_link DLT_LINUX_SLL (h ++ t)
| link_sll2 t h : length h = 18%nat -> ip_type t -> ip_link DLT_LINUX_SLL2 (t ++ h).

Lemma ip_type_iff a b :
  negb (u16 (Z.lor (Z.shiftl (byte_val a) 8) (byte_val b)) =? 0x0800) &&
  negb (u16 (Z.lor (Z.shiftl (byte_val a) 8) (byte_val b)) =? 0x86dd) = false <-> ip_type [a; b].
Proof.
  pose proof (byte_val_range a) as Ha. pose proof (byte_val_range b) as Hb. word_unfold.
  rewrite lor_shiftl_add by lia. rewrite Z.mod_small by lia.
  rewrite andb_false_iff, !negb_false_iff, !Z.eqb_eq. unfold ip_type. split.
  - intros [E|E]; [left; rewrite (byte_val_inj a x08), (byte_val_inj b x00)|
      right; rewrite (byte_val_inj a x86), (byte_val_inj b xdd)]; (done || cbn; lia).
  - by intros [[= -> ->]|[= -> ->]]; [left|right].
Qed.

Lemma ether_link_spec n i pre a b tl :
  zlen pre = i -> i + 2 <= n -> n <= zlen (pre ++ a :: b :: tl) ->
  exists k, ether_link n i (pre ++ a :: b :: tl) = Ok k /\ (k = IPAt n /\ ip_type [a; b] \/ k = SkipPacket /\ ~ ip_type [a; b]).
Proof.
  intros Hi Hn Hl. unfold ether_link. rewrite (proj2 (Z.ltb_ge _ _)) by lia.
  rewrite (byte_at_pos pre a (b :: tl) _ i), (byte_at_pos (pre ++ [a]) b tl _ (i + 1)) by (done || app_norm || app_len).
  cbn [mbind res_bind]. pose proof (ip_type_iff a b) as Ht. destruct (_ && _); eexists; (split; [done|]).
  - right. split; [done|]. intros E. by apply Ht in E.
  - left. split; [done|]. by apply Ht.
Qed.

(** A list with two bytes at [i]. *)
Lemma two_bytes (l : list byte) i : 0 <= i -> i + 2 <= zlen l ->
  exists pre a b tl, l = pre ++ a :: b :: tl /\ zlen pre = i.
Proof.
  intros H0 Hl. pose proof (length_drop l (Z.to_nat i)) as Hd.
  destruct (drop (Z.to_nat i) l) as [|a [|b tl]] eqn:E; cbn in Hd; [lia|lia|].
  exists (take (Z.to_nat i) l), a, b, tl. rewrite <- E, take_drop, length_take. split; [done|lia].
Qed.

Lemma ether_link_cases n i pkt :
  0 <= i -> i + 2 <= n ->
  ether_link n i pkt = Ok SkipPacket \/
  ether_link n i pkt = Ok (IPAt n) /\ exists pre a b tl, pkt = pre ++ a :: b :: tl /\ zlen pre = i /\ n <= zlen pkt /\ ip_type [a; b].
Proof.
  intros Hi Hn. destruct (Z.lt_ge_cases (zlen pkt) n) as [Hl|Hl].
  { left. unfold ether_link. by rewrite (proj2 (Z.ltb_lt _ _)) by lia. }
  destruct (two_bytes pkt i) as (pre & a & b & tl & -> & Hp); [lia..|].
  destruct (ether_link_spec n i pre a b tl Hp Hn Hl) as (k & -> & [[-> Ht]|[-> _]]); [right|by left].
  split; [done|]. by exists pre, a, b, tl.
Qed.

Lemma null_family p : negb (byte_val p =? 2) && negb (byte_val p =? 24) && negb (byte_val p =? 28) && negb (byte_val p =? 30) =
  bool_decide (p ∉ [x02; x18; x1c; x1e]).
Proof. by destruct p. Qed.

(** The program finds the IP packet exactly behind such a header. *)
Lemma link_offset_at dl l ip : ip_link dl l -> link_offset dl (l ++ ip) = Ok (IPAt (zlen l)).
Proof.
  intros [|a b c p Hp|h [|x [|y [|]]] Hh Ht|h [|x [|y [|]]] Hh Ht|[|x [|y [|]]] h Hh Ht]; try by destruct Ht.
  - done.
  - unfold link_offset. cbn [Z.eqb DLT_NULL]. rewrite (proj2 (Z.ltb_ge _ _)) by app_len.
    change (byte_at _ 3) with (Ok (byte_val p)). cbn [mbind res_bind]. rewrite null_family, bool_decide_false; [done|].
    intros Hn. by apply Hn.
  - unfold link_offset. cbn [Z.eqb Pos.eqb DLT_NULL DLT_EN10MB]. rewrite <- app_assoc. cbn [app].
    destruct (ether_link_spec 14 12 h x y ip) as (k & -> & [[-> _]|[_ Hn]]); [lia|lia|app_len| |done].
    do 2 f_equal. app_len.
  - unfold link_offset. cbn [Z.eqb Pos.eqb DLT_NULL DLT_EN10MB DLT_LINUX_SLL]. rewrite <- app_assoc. cbn [app].
    destruct (ether_link_spec 16 14 h x y ip) as (k & -> & [[-> _]|[_ Hn]]); [lia|lia|app_len| |done].
    do 2 f_equal. app_len.
  - unfold link_offset. cbn [Z.eqb Pos.eqb DLT_NULL DLT_EN10MB DLT_LINUX_SLL DLT_LINUX_SLL2]. cbn [app].
    destruct (ether_link_spec 20 0 [] x y (h ++ ip)) as (k & E & [[-> _]|[_ Hn]]); [done|lia|app_len| |done].
    cbn [app] in E. rewrite E. do 2 f_equal. app_len.
Qed.

Lemma link_offset_cases dl pkt :
  match link_offset dl pkt with
  | Ok (IPAt off) => exists l ip, pkt = l ++ ip /\ zlen l = off /\ off <= 20 /\ ip_link dl l
  | Ok SkipPacket => True
  | Ok GiveUp => supported_link dl = false
  | _ => False
  end.
Proof.
  unfold link_offset, supported_link. destruct (dl =? DLT_NULL) eqn:E0; bool_prop; [subst dl|].
  { destruct (_ <? 4) eqn:El; bool_prop; [done|]. destruct pkt as [|a [|b [|c [|p ip]]]]; try (cbn in El; lia).
    change (byte_at _ 3) with (Ok (byte_val p)). cbn [mbind res_bind]. rewrite null_family.
    case_bool_decide as Hp; [done|]. exists [a; b; c; p], ip. split_and!; [done..|]. by constructor. }
  destruct (dl =? DLT_EN10MB) eqn:E1; bool_prop; [subst dl|].
  { destruct (ether_link_cases 14 12 pkt) as [-> |(-> & pre & a & b & ip & -> & Hp & _ & Ht)]; [lia..|done|].
    exists (pre ++ [a; b]), ip. split_and!; [app_norm|app_len|done|]. constructor; [lia|done]. }
  destruct (dl =? DLT_LINUX_SLL) eqn:E2; bool_prop; [subst dl|].
  { destruct (ether_link_cases 16 14 pkt) as [-> |(-> & pre & a & b & ip & -> & Hp & _ & Ht)]; [lia..|done|].
    exists (pre ++ [a; b]), ip. split_and!; [app_norm|app_len|done|]. constructor; [lia|done]. }
  destruct (dl =? DLT_LINUX_SLL2) eqn:E3; bool_prop; [subst dl|].
  { destruct (ether_link_cases 20 0 pkt) as [-> |(-> & pre & a & b & ip & -> & Hp & Hl & Ht)]; [lia..|done|].
    destruct pre; [|cbn in Hp; lia]. cbn [app length] in Hl |- *.
    assert (H18 : length (take 18 ip) = 18%nat) by (rewrite length_take; lia).
    exists ([a; b] ++ take 18 ip), (drop 18 ip).
    split_and!; [by rewrite <- app_assoc, take_drop|rewrite length_app, H18; done|done|by constructor]. }
  destruct (dl =? DLT_RAW) eqn:E4; bool_prop; cbn [negb]; [|done]. subst dl. exists [], pkt. split_and!; [done..|]. constructor.
Qed.

(** ** Well-formed packets *)

(** IPv6 extension headers, each a multiple of eight bytes, after a header that
    announces [nxt], up to UDP. *)
Fixpoint extensions (nxt : byte) (exts : list (list byte)) : Prop :=
  match exts with
  | [] => nxt = x11
  | e :: rest =>
      nxt ∈ [x00; x2b; x3c] /\
      exists n l body, e = n :: l :: body /\ zlen e = 8 * (1 + byte_val l) /\ extensions n rest
  end.

(** The IP header, or chain of headers, in front of a UDP header, with the text
    of its two addresses. *)
Inductive udp_carrier `{InetNtop} : list byte -> list byte -> list byte -> Prop :=
| carrier_v4 b hd ttl rest1 src dst opts :
    Z.land (byte_val b) 0xf0 = 0x40 -> zlen (b :: hd ++ [ttl; x11] ++ rest1 ++ src ++ dst ++ opts) =
      4 * Z.land (byte_val b) 0x0f ->
    length hd = 7%nat -> length rest1 = 2%nat -> length src = 4%nat -> length dst = 4%nat ->
    udp_carrier (b :: hd ++ [ttl; x11] ++ rest1 ++ src ++ dst ++ opts)
      (default (txt "unknown") (inet_ntop4 src)) (default (txt "unknown") (inet_ntop4 dst))
| carrier_v6 b hd nxt hop src dst exts :
    Z.land (byte_val b) 0xf0 = 0x60 -> length hd = 5%nat -> length src = 16%nat -> length dst = 16%nat ->
    extensions nxt exts ->
    udp_carrier (b :: hd ++ [nxt; hop] ++ src ++ dst ++ concat exts)
      (default (txt "unknown") (inet_ntop6 src)) (default (txt "unknown") (inet_ntop6 dst)).

Lemma ipv6_loop_extensions exts : forall fuel pre nxt tl,
  extensions nxt exts -> 2 <= zlen tl -> (length exts <= fuel)%nat ->
  ipv6_loop fuel (zlen (pre ++ concat exts ++ tl)) (pre ++ concat exts ++ tl) (byte_val nxt) (zlen pre) =
  Ok (zlen (pre ++ concat exts)).
Proof.
  induction exts as [|e exts IH]; intros fuel pre nxt tl He Ht Hf.
  { cbn in He. subst nxt. rewrite app_nil_r. by destruct fuel. }
  destruct He as (Hn & n & l & body & -> & Hz & He). cbn [length] in Hf. destruct fuel as [|fuel]; [lia|].
  cbn [ipv6_loop concat]. set (e := n :: l :: body) in *.
  assert (Hnx : negb (byte_val nxt =? 0x11) = true /\
                negb (byte_val nxt =? 0) && negb (byte_val nxt =? 43) && negb (byte_val nxt =? 60) = false).
  { rewrite !elem_of_cons in Hn. destruct Hn as [->|[->|[->|Hn]]]; [done..|]. by apply not_elem_of_nil in Hn. }
  destruct Hnx as [-> ->].
  assert (E0 : byte_at (pre ++ (e ++ concat exts) ++ tl) (zlen pre) = Ok (byte_val n)).
  { unfold byte_at. by rewrite lookup_app_r, Nat2Z.id, Nat.sub_diag by lia. }
  assert (E1 : byte_at (pre ++ (e ++ concat exts) ++ tl) (zlen pre + 1) = Ok (byte_val l)).
  { unfold byte_at. rewrite lookup_app_r by lia. by replace (Z.to_nat (zlen pre + 1) - length pre)%nat with 1%nat by lia. }
  rewrite E0, E1. cbn [mbind res_bind]. rewrite <- Hz.
  specialize (IH fuel (pre ++ e) n tl He Ht ltac:(lia)).
  rewrite <- !(assoc_L (++)) in *. rewrite (proj2 (Z.ltb_ge _ _)).
  2: { rewrite !length_app. lia. }
  rewrite <- IH. f_equal. rewrite length_app. lia.
Qed.

Lemma process_v4 `{InetNtop} b hd ttl rest1 s d opts tl :
  let ip := b :: hd ++ [ttl; x11] ++ rest1 ++ s ++ d ++ opts in
  Z.land (byte_val b) 0xf0 = 0x40 -> zlen ip = 4 * Z.land (byte_val b) 0x0f ->
  length hd = 7%nat -> length rest1 = 2%nat -> length s = 4%nat -> length d = 4%nat ->
  process_ipv4_ipv6 (zlen (ip ++ tl)) (ip ++ tl) [] [] =
  Ok (zlen ip + 8, default (txt "unknown") (inet_ntop4 s), default (txt "unknown") (inet_ntop4 d)).
Proof.
  intros ip Hb Hz H7 H2 Hs Hd. unfold process_ipv4_ipv6, inet4_addr.
  rewrite (proj2 (Z.ltb_ge _ 1)) by (subst ip; app_len).
  change (byte_at (ip ++ tl) 0) with (Ok (byte_val b)). cbn [mbind res_bind]. rewrite Hb. cbn [Z.eqb Pos.eqb].
  rewrite (Z.mul_comm (Z.land _ _)), <- Hz, (proj2 (Z.ltb_ge _ _)) by (rewrite length_app; lia).
  rewrite (byte_at_pos (b :: hd ++ [ttl]) x11 (rest1 ++ s ++ d ++ opts ++ tl)) by (subst ip; app_norm || app_len).
  cbn [mbind res_bind]. change (negb _) with false. cbv iota.
  rewrite (bytes_at_pos (b :: hd ++ [ttl; x11] ++ rest1) s (d ++ opts ++ tl) _ 12 4) by (subst ip; app_norm || app_len).
  cbn [mbind res_bind].
  rewrite (bytes_at_pos (b :: hd ++ [ttl; x11] ++ rest1 ++ s) d (opts ++ tl) _ 16 4) by (subst ip; app_norm || app_len).
  done.
Qed.

Lemma extensions_length nxt exts : extensions nxt exts -> (length exts <= length (concat exts))%nat.
Proof.
  revert nxt. induction exts as [|e exts IH]; intros nxt He; [done|].
  destruct He as (_ & n & l & body & -> & _ & He). apply IH in He. cbn [concat]. app_len.
Qed.

Lemma process_v6 `{InetNtop} b hd nxt hop s d exts tl :
  let ip := b :: hd ++ [nxt; hop] ++ s ++ d ++ concat exts in
  Z.land (byte_val b) 0xf0 = 0x60 -> length hd = 5%nat -> length s = 16%nat -> length d = 16%nat ->
  extensions nxt exts -> 2 <= zlen tl ->
  process_ipv4_ipv6 (zlen (ip ++ tl)) (ip ++ tl) [] [] =
  Ok (zlen ip + 8, default (txt "unknown") (inet_ntop6 s), default (txt "unknown") (inet_ntop6 d)).
Proof.
  intros ip Hb H5 Hs Hd He Htl. unfold process_ipv4_ipv6, inet6_addr.
  assert (Hl : zlen ip = 40 + zlen (concat exts)) by (unfold ip; app_len).
  pose proof (extensions_length _ _ He) as Hx.
  rewrite (proj2 (Z.ltb_ge _ 1)) by (subst ip; app_len).
  change (byte_at (ip ++ tl) 0) with (Ok (byte_val b)). cbn [mbind res_bind]. rewrite Hb. cbn [Z.eqb Pos.eqb].
  rewrite (proj2 (Z.ltb_ge _ 42)) by (rewrite length_app; lia).
  rewrite (byte_at_pos (b :: hd) nxt (hop :: s ++ d ++ concat exts ++ tl)) by (subst ip; app_norm || app_len).
  cbn [mbind res_bind]. set (pre := b :: hd ++ [nxt; hop] ++ s ++ d).
  assert (Eip : ip ++ tl = pre ++ concat exts ++ tl) by (unfold ip, pre; app_norm).
  assert (Hpre : 40 = zlen pre) by (unfold pre; app_len).
  rewrite Eip, Hpre, (ipv6_loop_extensions exts _ pre nxt tl He) by app_len.
  cbn [mbind res_bind]. rewrite (proj2 (Z.eqb_neq _ _)) by lia.
  rewrite (bytes_at_pos (b :: hd ++ [nxt; hop]) s (d ++ concat exts ++ tl) _ 8 16) by (subst pre; app_norm || app_len).
  cbn [mbind res_bind].
  rewrite (bytes_at_pos (b :: hd ++ [nxt; hop] ++ s) d (concat exts ++ tl) _ 24 16) by (subst pre; app_norm || app_len).
  cbn [mbind res_bind]. rewrite length_app. do 3 f_equal. lia.
Qed.

Lemma process_carrier `{InetNtop} ip src dst tl :
  udp_carrier ip src dst -> 2 <= zlen tl ->
  process_ipv4_ipv6 (zlen (ip ++ tl)) (ip ++ tl) [] [] = Ok (zlen ip + 8, src, dst).
Proof. intros [] Htl; [by apply process_v4|by apply process_v6]. Qed.

Lemma show_payload_ok src dst payload cout :
  zlen payload < 2 ^ 31 -> exists cout', show_payload src dst payload cout = Ok cout'.
Proof.
  intros Hl. unfold show_payload.
  destruct (segment_parse_result TCPSegment_default payload 0 ltac:(lia)) as [seg ->].
  cbn [mbind res_bind]. by apply hexdump_total.
Qed.

(** C18.  The dump finds the payload: in a captured packet that consists of a link
    header, an IPv4 header with any options or an IPv6 header with any chain of
    extension headers, a UDP header and a payload, exactly the payload is shown,
    with the two addresses of the IP header. *)
Theorem tcpdump_payload `{InetNtop} dl link ip udp payload src dst cout :
  ip_link dl link -> udp_carrier ip src dst -> zlen udp = 8 -> zlen (link ++ ip ++ udp ++ payload) <= 65535 ->
  exists cout', show_payload src dst payload cout = Ok cout' /\
    dump_packet dl (link ++ ip ++ udp ++ payload) cout = Ok (Some cout').
Proof.
  intros Hk Hc Hu Hl. destruct (show_payload_ok src dst payload cout) as [c Ec].
  { rewrite !length_app in Hl. lia. }
  exists c. split; [done|]. unfold dump_packet. rewrite (link_offset_at _ _ _ Hk). cbn [mbind res_bind]. cbv zeta.
  rewrite Nat2Z.id, drop_app_length.
  replace (zlen (link ++ ip ++ udp ++ payload) - zlen link) with (zlen (ip ++ udp ++ payload)) by app_len.
  rewrite (process_carrier ip src dst) by (done || app_len). cbn [mbind res_bind].
  rewrite (proj2 (Z.ltb_ge _ 0)) by lia. rewrite !length_app in Hl.
  rewrite (u64_small (_ + _)) by word_lia. rewrite u64_small by (rewrite !length_app; word_lia).
  rewrite (bytes_at_pos (link ++ ip ++ udp) payload []) by first
    [by rewrite app_nil_r, <- !(assoc_L (++)) | app_len].
  cbn [mbind res_bind]. by rewrite Ec.
Qed.

(** ** Packets that are cut off *)

(** The length in bytes that an IPv4 header announces in its first byte. *)
Definition header_length (b : byte) : Z := 4 * Z.land (byte_val b) 0x0f.

(** What the capture holds of an IP packet that the program reads beyond: an IPv4
    packet, not shorter than its header says, that ends before the protocol field,
    or, if that says UDP, before the end of the addresses; an IPv4 packet that ends
    inside its UDP header; and an IPv6 packet with its chain of extension headers
    that ends inside its UDP header, but not in its first two bytes. *)
Inductive reads_past : list byte -> Prop :=
| past_v4_fixed b rest :
    Z.land (byte_val b) 0xf0 = 0x40 -> header_length b <= zlen (b :: rest) ->
    zlen (b :: rest) < 10 \/ (b :: rest) !! 9%nat = Some x11 /\ zlen (b :: rest) < 20 ->
    reads_past (b :: rest)
| past_v4_udp b rest :
    Z.land (byte_val b) 0xf0 = 0x40 -> (b :: rest) !! 9%nat = Some x11 -> 20 <= zlen (b :: rest) ->
    header_length b <= zlen (b :: rest) < header_length b + 8 -> reads_past (b :: rest)
| past_v6_udp b hd nxt hop src dst exts udp :
    Z.land (byte_val b) 0xf0 = 0x60 -> length hd = 5%nat -> length src = 16%nat -> length dst = 16%nat ->
    extensions nxt exts -> 2 <= zlen udp < 8 ->
    reads_past ((b :: hd ++ [nxt; hop] ++ src ++ dst ++ concat exts) ++ udp).

(** Such a packet behind its link header. *)
Definition truncated_capture (dl : Z) (pkt : list byte) : Prop :=
  exists l ip, pkt = l ++ ip /\ ip_link dl l /\ reads_past ip.

Lemma split_at (l : list byte) n : (n <= length l)%nat -> exists l1 l2, l = l1 ++ l2 /\ length l1 = n.
Proof. intros Hn. exists (take n l), (drop n l). rewrite take_drop, length_take. split; [done|lia]. Qed.

Lemma header_length_range b : 0 <= header_length b <= 60.
Proof.
  unfold header_length. change 0x0f with (Z.ones 4). rewrite Z.land_ones by lia.
  pose proof (Z.mod_pos_bound (byte_val b) (2 ^ 4) ltac:(lia)). lia.
Qed.

Lemma is_udp b : (byte_val b =? 0x11) = bool_decide (b = x11).
Proof. by destruct b. Qed.

(** An offset the loop returns is behind a chain of extension headers, with two
    bytes at least of what follows; the loop always ends. *)
Lemma ipv6_loop_cases fuel : forall pre tl nxt,
  2 <= zlen tl -> zlen tl <= Z.of_nat fuel ->
  exists o, ipv6_loop fuel (zlen (pre ++ tl)) (pre ++ tl) (byte_val nxt) (zlen pre) = Ok o /\
    (o = -1 \/ exists exts udp, tl = concat exts ++ udp /\ extensions nxt exts /\ 2 <= zlen udp /\
                 o = zlen (pre ++ concat exts)).
Proof.
  induction fuel as [|fuel IH]; intros pre tl nxt Ht Hf; [lia|]. cbn [ipv6_loop].
  destruct (byte_val nxt =? 0x11) eqn:E; cbn [negb].
  { rewrite is_udp in E. apply bool_decide_eq_true_1 in E. subst nxt. eexists. split; [done|]. right.
    exists [], tl. cbn. by rewrite app_nil_r. }
  destruct (_ && _ && _) eqn:E3; [eexists; split; [done|by left]|].
  destruct tl as [|n [|l body]]; [cbn in Ht; lia..|].
  rewrite (byte_at_pos pre n (l :: body) _ (zlen pre)), (byte_at_pos (pre ++ [n]) l body _ (zlen pre + 1))
    by (done || app_norm || app_len).
  cbn [mbind res_bind]. pose proof (byte_val_range l) as Hl. word_unfold.
  destruct (_ <? _) eqn:E2; bool_prop; [eexists; split; [done|by left]|]. rewrite length_app in E2.
  destruct (split_at (n :: l :: body) (Z.to_nat (8 * (1 + byte_val l)))) as (e & tl' & Etl & He); [lia|].
  rewrite Etl in *. rewrite length_app in Hf, E2.
  destruct (IH (pre ++ e) tl' n) as (o & Eo & Ho); [lia..|].
  rewrite <- app_assoc in Eo. replace (zlen pre + 8 * (1 + byte_val l)) with (zlen (pre ++ e)) by app_len.
  exists o. split; [exact Eo|]. destruct Ho as [->|(exts & udp & -> & Hx & Hu & ->)]; [by left|right].
  exists (e :: exts), udp. cbn [concat]. split_and!; [app_norm| |done|by rewrite app_assoc].
  split.
  { rewrite !elem_of_cons. clear -E3. destruct nxt; cbn in E3; (done || tauto). }
  destruct e as [|n' [|l' body']]; [cbn in He; lia..|]. injection Etl as <- <- _.
  exists n, l, body'. split_and!; [done|lia|done].
Qed.

Lemma process_v4_short `{InetNtop} data b rest src dst :
  data = b :: rest -> Z.land (byte_val b) 0xf0 = 0x40 -> header_length b <= zlen data ->
  zlen data < 10 \/ data !! 9%nat = Some x11 /\ zlen data < 20 ->
  process_ipv4_ipv6 (zlen data) data src dst = Undefined.
Proof.
  intros Ed Hb Hl Hs. unfold process_ipv4_ipv6. rewrite (proj2 (Z.ltb_ge _ 1)) by (subst data; app_len).
  rewrite (byte_at_pos [] b rest data 0) by done. cbn [mbind res_bind]. rewrite Hb. cbn [Z.eqb Pos.eqb].
  unfold header_length in Hl. rewrite (proj2 (Z.ltb_ge _ _)) by lia. unfold byte_at at 1.
  change (Z.to_nat 9) with 9%nat. destruct (data !! 9%nat) as [p|] eqn:Ep; [|done]. apply lookup_lt_Some in Ep as Hp.
  destruct Hs as [Hs|[[= ->] Hs]]; [lia|]. cbn [mbind res_bind].
  change (negb _) with false. cbv iota. unfold inet4_addr, bytes_at.
  destruct (12 + 4 <=? _); cbn [mbind res_bind]; [|done]. by rewrite (proj2 (Z.leb_gt (16 + 4) _)) by lia.
Qed.

Lemma process_v4_udp `{InetNtop} data b rest src dst :
  data = b :: rest -> Z.land (byte_val b) 0xf0 = 0x40 -> header_length b <= zlen data -> data !! 9%nat = Some x11 -> 20 <= zlen data ->
  exists s d, process_ipv4_ipv6 (zlen data) data src dst = Ok (header_length b + 8, s, d).
Proof.
  intros Ed Hb Hl E9 H20. unfold process_ipv4_ipv6. rewrite (proj2 (Z.ltb_ge _ 1)) by (subst data; app_len).
  rewrite (byte_at_pos [] b rest data 0) by done. cbn [mbind res_bind]. rewrite Hb. cbn [Z.eqb Pos.eqb].
  unfold header_length in Hl. rewrite (proj2 (Z.ltb_ge _ _)) by lia. unfold byte_at at 1.
  change (Z.to_nat 9) with 9%nat. rewrite E9. cbn [mbind res_bind]. change (negb _) with false. cbv iota.
  unfold inet4_addr, bytes_at. rewrite !(proj2 (Z.leb_le _ (zlen data))) by lia. cbn [mbind res_bind].
  eexists _, _. rewrite Z.mul_comm. done.
Qed.

Lemma process_cases `{InetNtop} data :
  match process_ipv4_ipv6 (zlen data) data [] [] with
  | Ok (o, _, _) => o = -1 \/ 8 <= o <= zlen data + 8 /\ (zlen data < o -> reads_past data)
  | Undefined => reads_past data
  | Throw _ => False
  end.
Proof.
  destruct data as [|b rest]; [by left|]. set (data := b :: rest).
  destruct (Z.eq_dec (Z.land (byte_val b) 0xf0) 0x40) as [E4|E4].
  - destruct (Z.lt_ge_cases (zlen data) (header_length b)) as [Hl|Hl].
    { unfold process_ipv4_ipv6. rewrite (proj2 (Z.ltb_ge _ 1)) by (subst data; app_len).
      change (byte_at data 0) with (Ok (byte_val b)). cbn [mbind res_bind]. rewrite E4. cbn [Z.eqb Pos.eqb].
      unfold header_length in Hl. rewrite (proj2 (Z.ltb_lt _ _)) by lia. by left. }
    destruct (data !! 9%nat) as [p|] eqn:E9.
    2:{ apply lookup_ge_None in E9 as Hs. assert (Hs' : zlen data < 10) by lia.
        rewrite (process_v4_short data b rest [] [] eq_refl E4 Hl (or_introl Hs')). apply past_v4_fixed; [done..|by left]. }
    apply lookup_lt_Some in E9 as Hs. destruct (decide (p = x11)) as [->|Hp].
    + destruct (Z.lt_ge_cases (zlen data) 20) as [H20|H20].
      { rewrite (process_v4_short data b rest [] [] eq_refl E4 Hl (or_intror (conj E9 H20))). apply past_v4_fixed; [done..|by right]. }
      destruct (process_v4_udp data b rest [] [] eq_refl E4 Hl E9 H20) as (s & d & ->). pose proof (header_length_range b).
      right. split; [lia|]. intros Ho. by apply past_v4_udp.
    + unfold process_ipv4_ipv6. rewrite (proj2 (Z.ltb_ge _ 1)) by (subst data; app_len).
      change (byte_at data 0) with (Ok (byte_val b)). cbn [mbind res_bind]. rewrite E4. cbn [Z.eqb Pos.eqb].
      unfold header_length in Hl. rewrite (proj2 (Z.ltb_ge _ _)) by lia. unfold byte_at at 1.
      change (Z.to_nat 9) with 9%nat. rewrite E9. cbn [mbind res_bind]. rewrite is_udp, bool_decide_false by done. by left.
  - unfold process_ipv4_ipv6. rewrite (proj2 (Z.ltb_ge _ 1)) by (subst data; app_len).
    change (byte_at data 0) with (Ok (byte_val b)). cbn [mbind res_bind]. rewrite (proj2 (Z.eqb_neq _ _) E4).
    destruct (_ =? 0x60) eqn:E6; bool_prop; [|by left]. destruct (_ <? 42) eqn:El; bool_prop; [by left|].
    destruct (split_at rest 5) as (hd & r1 & -> & H5); [cbn in El; lia|].
    destruct r1 as [|nxt [|hop r2]]; [subst data; revert El; app_len..|].
    destruct (split_at r2 16) as (s & r3 & -> & Hs); [subst data; revert El; app_len|].
    destruct (split_at r3 16) as (d & tl & -> & Hd); [subst data; revert El; app_len|].
    assert (Htl : 2 <= zlen tl) by (subst data; revert El; app_len).
    set (pre := b :: hd ++ [nxt; hop] ++ s ++ d).
    assert (Ed : data = pre ++ tl) by (unfold data, pre; app_norm).
    assert (Hpre : 40 = zlen pre) by (unfold pre; app_len).
    rewrite (byte_at_pos (b :: hd) nxt (hop :: s ++ d ++ tl) _ 6) by (unfold data; app_norm || app_len).
    cbn [mbind res_bind]. rewrite Ed, Hpre.
    destruct (ipv6_loop_cases (length (pre ++ tl)) pre tl nxt Htl) as (o & -> & Ho); [app_len|].
    cbn [mbind res_bind]. destruct Ho as [->|(exts & udp & -> & Hx & Hu & ->)]; [by left|].
    rewrite (proj2 (Z.eqb_neq _ _)) by lia. unfold inet6_addr, bytes_at.
    rewrite !(proj2 (Z.leb_le _ (zlen (pre ++ _)))) by (rewrite !length_app; lia). cbn [mbind res_bind]. right.
    rewrite !length_app. split; [lia|]. intros Ho.
    pose proof (past_v6_udp b hd nxt hop s d exts udp E6 H5 Hs Hd Hx ltac:(lia)) as Hr. unfold pre.
    cbn [app] in Hr |- *. rewrite <- ?(assoc_L (++)) in *. cbn [app] in *. rewrite <- ?(assoc_L (++)) in *. exact Hr.
Qed.

(** What the loop makes of the part behind the link header. *)
Lemma dump_behind `{InetNtop} dl l ip cout :
  ip_link dl l -> zlen (l ++ ip) <= 65535 ->
  dump_packet dl (l ++ ip) cout =
    match process_ipv4_ipv6 (zlen ip) ip [] [] with
    | Ok (o, src, dst) =>
        if o <? 0 then Ok (Some cout)
        else if zlen ip <? o then Undefined
        else c ← show_payload src dst (drop (Z.to_nat o) ip) cout; Ok (Some c)
    | Throw e => Throw e
    | Undefined => Undefined
    end.
Proof.
  intros Hk Hl. rewrite length_app in Hl. unfold dump_packet. rewrite (link_offset_at _ _ _ Hk). cbn [mbind res_bind]. cbv zeta.
  rewrite Nat2Z.id, drop_app_length. replace (zlen (l ++ ip) - zlen l) with (zlen ip) by app_len.
  pose proof (process_cases ip) as Hp. destruct (process_ipv4_ipv6 _ _ _ _) as [[[o src] dst]|e|]; cbn [mbind res_bind]; [|done..].
  destruct (o <? 0) eqn:E0; bool_prop; [done|]. destruct Hp as [->|[Ho _]]; [lia|].
  rewrite (u64_small (_ + _)) by word_lia. unfold bytes_at. rewrite length_app.
  destruct (zlen ip <? o) eqn:E; bool_prop.
  - rewrite (proj2 (Z.leb_gt _ _)); [done|]. pose proof (u64_range (Z.of_nat (length l + length ip) - (zlen l + o))). word_lia.
  - rewrite u64_small by word_lia. rewrite (proj2 (Z.leb_le _ _)) by lia. cbn [mbind res_bind].
    replace (Z.to_nat (zlen l + o)) with (length l + Z.to_nat o)%nat by lia.
    rewrite drop_app_add', take_ge by (rewrite ?length_drop; lia). done.
Qed.

Lemma past_undefined `{InetNtop} dl pkt cout :
  zlen pkt <= 65535 -> truncated_capture dl pkt -> dump_packet dl pkt cout = Undefined.
Proof.
  intros Hl (l & ip & -> & Hk & Hp). rewrite dump_behind by done. destruct Hp as [b rest Hb Hh Hs|b rest Hb E9 H20 Hh|].
  - by rewrite (process_v4_short _ b rest [] [] eq_refl Hb Hh Hs).
  - destruct (process_v4_udp _ b rest [] [] eq_refl Hb ltac:(lia) E9 H20) as (s & d & ->). pose proof (header_length_range b).
    rewrite (proj2 (Z.ltb_ge _ 0)), (proj2 (Z.ltb_lt _ _)) by lia. done.
  - rewrite (process_v6 b hd nxt hop src dst exts udp) by (done || lia).
    rewrite (proj2 (Z.ltb_ge _ 0)), (proj2 (Z.ltb_lt _ _)) by app_len. done.
Qed.

Lemma show_payload_prefix src dst payload cout cout' :
  show_payload src dst payload cout = Ok cout' -> os_text cout `prefix_of` os_text cout'.
Proof.
  unfold show_payload. intros ([r seg] & _ & E)%res_bind_ok. etrans; [|by eapply hexdump_prefix].
  destruct (_ <? _)%nat; [apply put_prefix|]. etrans; [|apply put_prefix]. cbv zeta.
  destruct (0 <? _); [etrans; [|apply put_prefix]|]; apply put_prefix.
Qed.

(** C19.  What the dump reads: for a captured packet of at most 65535 bytes, of any
    link type, the program reads past the captured bytes exactly when the packet is
    one of those that [truncated_capture] describes, an IP packet behind its link
    header that ends too early.  In every other case nothing is thrown and nothing
    outside the packet is read, the chain of IPv6 extension headers included: an
    unknown link type ends the program; a packet is skipped, with no change to the
    output; or the text for the bytes from some place to the end of the packet is
    appended to what was printed before. *)
Theorem tcpdump_bounds `{InetNtop} dl pkt cout :
  zlen pkt <= 65535 ->
  (dump_packet dl pkt cout = Undefined <-> truncated_capture dl pkt) /\
  match dump_packet dl pkt cout with
  | Ok None => supported_link dl = false
  | Ok (Some cout') =>
      cout' = cout \/
      exists src dst before payload, pkt = before ++ payload /\
        show_payload src dst payload cout = Ok cout' /\ os_text cout `prefix_of` os_text cout'
  | Throw _ => False
  | Undefined => truncated_capture dl pkt
  end.
Proof.
  intros Hl. apply and_wlog_l.
  { intros Hm. split; [intros E; by rewrite E in Hm|by apply past_undefined]. }
  unfold dump_packet at 1. pose proof (link_offset_cases dl pkt) as Hk.
  destruct (link_offset dl pkt) as [[off| |]|e|] eqn:Ek; cbn [mbind res_bind]; [|by left|done..].
  destruct Hk as (l & ip & -> & <- & _ & Hk).
  pose proof (dump_behind dl l ip cout Hk Hl) as Hd. unfold dump_packet in Hd. rewrite Ek in Hd. cbn [mbind res_bind] in Hd.
  cbv zeta in Hd |- *. rewrite Hd. clear Hd Ek. pose proof (process_cases ip) as Hp.
  assert (Hpast : reads_past ip -> truncated_capture dl (l ++ ip)) by (intros ?; by exists l, ip).
  destruct (process_ipv4_ipv6 _ _ _ _) as [[[o src] dst]|e|]; [|done|auto].
  destruct (o <? 0) eqn:E0; bool_prop; [by left|]. destruct (zlen ip <? o) eqn:E; bool_prop.
  { destruct Hp as [->|[_ Hp]]; [lia|]. auto. }
  rewrite length_app in Hl.
  destruct (show_payload_ok src dst (drop (Z.to_nat o) ip) cout) as [c Ec]; [rewrite length_drop; lia|].
  rewrite Ec. cbn [mbind res_bind]. right. exists src, dst, (l ++ take (Z.to_nat o) ip), (drop (Z.to_nat o) ip).
  split_and!; [by rewrite <- app_assoc, take_drop|done|by eapply show_payload_prefix].
Qed.

(** The options are read within [argv], and the filter expression starts at or
    before its end. *)
Lemma parse_arguments_ends argv fuel : forall curr dev,
  1 <= curr <= argc argv -> argc argv - curr <= Z.of_nat fuel ->
  (exists dev' exp_start, parse_arguments fuel argv curr dev = Ok (inl (dev', exp_start)) /\
     curr <= exp_start <= argc argv) \/
  (exists code, parse_arguments fuel argv curr dev = Ok (inr code)).
Proof.
  induction fuel as [|fuel IH]; intros curr dev Hc Hf; cbn [parse_arguments];
    (destruct (_ <? argc argv) eqn:E; bool_prop; [|left; exists dev, curr; split; [done|lia]]); [lia|].
  destruct (arg_ok argv curr) as (a & -> & _); [lia|]. cbn [mbind res_bind].
  destruct (is_option "-i" a).
  - destruct (_ <=? curr + 1) eqn:E1; bool_prop; [right; by eexists|].
    destruct (arg_ok argv (curr + 1)) as (d & -> & _); [lia|]. cbn [mbind res_bind].
    destruct (IH (curr + 2) (Some d)) as [(dev' & n & -> & Hn)|[code ->]]; [lia|lia| |right; by eexists].
    left. exists dev', n. split; [done|lia].
  - destruct (_ || _); [right; by eexists|]. left. exists dev, curr. split; [done|lia].
Qed.

(** ** Two captures *)

(** An [inet_ntop] that prints dotted quads and knows one IPv6 address. *)
#[local] Instance example_ntop : InetNtop := {|
  inet_ntop4 a := Some (concat (map (fun b => dec (byte_val b) ++ txt ".") a));
  inet_ntop6 a := if bool_decide (a = replicate 15 x00 ++ [x01]) then Some (txt "::1") else None
|}.

Definition v6_header (nxt : byte) : list byte :=
  [x60] ++ replicate 5 x00 ++ [nxt; x40] ++ (replicate 15 x00 ++ [x01]) ++ (replicate 15 x00 ++ [x01]).

(** A packet whose IPv6 headers end with the capture, but for two bytes: the length
    of the payload wraps around. *)
Lemma tcpdump_bounds_witness :
  dump_packet DLT_RAW (v6_header x11 ++ [x00; x00]) os_new = Undefined /\
  ~ truncated_capture DLT_RAW (v6_header x11 ++ replicate 8 x00).
Proof.
  split.
  - apply (tcpdump_bounds DLT_RAW (v6_header x11 ++ [x00; x00]) os_new); [vm_compute; discriminate|].
    exists [], (v6_header x11 ++ [x00; x00]). split_and!; [done|constructor|].
    pose proof (past_v6_udp x60 (replicate 5 x00) x11 x40 (replicate 15 x00 ++ [x01]) (replicate 15 x00 ++ [x01])
      [] [x00; x00] eq_refl eq_refl eq_refl eq_refl eq_refl ltac:(cbn; lia)) as Hp. vm_compute in Hp |- *. exact Hp.
  - intros Ht. pose proof (tcpdump_bounds DLT_RAW (v6_header x11 ++ replicate 8 x00) os_new ltac:(vm_compute; discriminate))
      as [[_ Hu] _]. apply Hu in Ht. vm_compute in Ht. discriminate.
Defined.

(** The payload "hi" behind a hop-by-hop extension header. *)
Lemma tcpdump_payload_witness :
  exists cout', show_payload (txt "::1") (txt "::1") [x68; x69] os_new = Ok cout' /\
    dump_packet DLT_RAW ([] ++ (v6_header x00 ++ [x11; x00] ++ replicate 6 x00) ++ replicate 8 x00 ++ [x68; x69])
      os_new = Ok (Some cout').
Proof.
  apply (tcpdump_payload DLT_RAW [] (v6_header x00 ++ [x11; x00] ++ replicate 6 x00) (replicate 8 x00)).
  - constructor.
  - assert (He : extensions x00 [[x11; x00] ++ replicate 6 x00]).
    { split; [by constructor|]. by exists x11, x00, (replicate 6 x00). }
    pose proof (carrier_v6 x60 (replicate 5 x00) x00 x40 (replicate 15 x00 ++ [x01]) (replicate 15 x00 ++ [x01])
      _ eq_refl eq_refl eq_refl eq_refl He) as Hc. vm_compute in Hc |- *. exact Hc.
  - reflexivity.
  - vm_compute. discriminate.
Defined.
